(** * The build coordinator of the store engine

    A shallow embedding of the goal scheduler, the derivation builder and
    the substitution driver (the worker, [Goal], [DerivationGoal] and
    [SubstitutionGoal] classes of the build coordinator), together with
    the properties of the specification that concern them.

    Conventions of the embedding:

    - a C++ object that is shared through pointers (a goal) lives in a
      store indexed by object identities; a [shared_ptr] or [weak_ptr] is
      an identity, and [weak_ptr::lock] succeeds exactly on the identities
      that are still in the store;
    - [unsigned int] counters are integers with the wrap-around modulo
      [2^32] written out;
    - a function that can throw, or fail an [assert], runs in a state and
      exception monad whose results are [Ok], [Throw] and [Aborted];
    - the outside world (file system, metadata database, child processes)
      is part of the state, and every effect on it is also appended to a
      trace, so that orderings can be stated. *)

From stdpp Require Import gmap strings list fin_maps fin_sets.
From Stdlib Require Import ZArith Lia.

Abbreviation Path := string.
Abbreviation GoalId := positive.
Abbreviation PathSet := (gset string).

(** ** Exceptions and the state monad *)

(** The exception classes of the coordinator.  [BuildError] and
    [SubstError] derive from [Error]; a handler for one of them does not
    catch a plain [Error] or a [SysError]. *)
Inductive Exn : Type :=
  | Error (msg : string)
  | BuildError (msg : string)
  | SubstError (msg : string)
  | SysError (msg : string).

Inductive Result (A : Type) : Type :=
  | Ok (a : A)
  | Throw (e : Exn)
  | Aborted (assertion : string).
Arguments Ok {A} a.
Arguments Throw {A} e.
Arguments Aborted {A} assertion.

Definition M (S A : Type) : Type := S → Result A * S.

Global Instance M_ret {S} : MRet (M S) := λ A a s, (Ok a, s).

Global Instance M_bind {S} : MBind (M S) := λ A B k m s,
  match m s with
  | (Ok a, s') => k a s'
  | (Throw e, s') => (Throw e, s')
  | (Aborted what, s') => (Aborted what, s')
  end.

Definition throw {S A} (e : Exn) : M S A := λ s, (Throw e, s).

(** The process aborts. *)
Definition abort {S A} (what : string) : M S A := λ s, (Aborted what, s).

(** [assert(b)]: the process aborts when [b] is false. *)
Definition cassert {S} (b : bool) (what : string) : M S unit :=
  λ s, (if b then Ok tt else Aborted what, s).

Definition get {S} : M S S := λ s, (Ok s, s).

Definition modify {S} (f : S → S) : M S unit := λ s, (Ok tt, f s).

(** A [for] loop over the elements of a container, in iteration order. *)
Fixpoint forEach {S A} (l : list A) (f : A → M S unit) : M S unit :=
  match l with
  | [] => mret tt
  | x :: l' => f x;; forEach l' f
  end.

(** [try { m } catch (BuildError & e) { h e }]. *)
Definition catchBuildError {S A} (m : M S A) (h : string → M S A) : M S A :=
  λ s, match m s with
       | (Throw (BuildError msg), s') => h msg s'
       | r => r
       end.

(** [try { m } catch (SubstError & e) { h e }]. *)
Definition catchSubstError {S A} (m : M S A) (h : string → M S A) : M S A :=
  λ s, match m s with
       | (Throw (SubstError msg), s') => h msg s'
       | r => r
       end.

(** [unsigned int] arithmetic. *)
Definition wrap (z : Z) : Z := (z mod 2 ^ 32)%Z.

(** ** Data model *)

(** Modelled from the spec: the derivation record, whose declaring header
    is not part of the sources at hand.  [outputs] is a map keyed by
    output name; it is kept as the list of its entries in iteration
    (key) order, since loops over it can stop half-way. *)
Record DerivationOutput : Type := mkDerivationOutput {
  path : Path;
  hashAlgo : string;
  hash : string
}.

Record Derivation : Type := mkDerivation {
  outputs : list (string * DerivationOutput);
  inputDrvs : list (Path * list string);
  inputSrcs : list Path;
  platform : string;
  builder : Path;
  args : list string;
  env : gmap string string
}.

(** Modelled from the spec: a substitute, [{ deriver, program, args }]. *)
Record Substitute : Type := mkSubstitute {
  sub_deriver : Path;
  sub_program : Path;
  sub_args : list string
}.

(** Modelled from the spec: a set of path locks held by this process and
    the flag that marks their lock files for deletion on release. *)
Record PathLocks : Type := mkPathLocks {
  lockedPaths : PathSet;
  deletePaths : bool
}.

(** The states of a derivation goal (the member-function pointer
    [DerivationGoal::state]). *)
Inductive DerivationState : Type :=
  | dInit | dHaveStoreExpr | dOutputsSubstituted | dInputsRealised
  | dTryToBuild | dBuildDone.

(** The states of a substitution goal. *)
Inductive SubstitutionState : Type :=
  | sInit | sReferencesValid | sTryNext | sTryToRun | sFinished.

(** The members of [DerivationGoal]; [pid] is [-1] when there is no
    child.  File descriptors are integers. *)
Record DerivationGoal : Type := mkDerivationGoal {
  drvPath : Path;
  drv : Derivation;
  outputLocks : PathLocks;
  inputPaths : PathSet;
  allPaths : PathSet;
  d_pid : Z;
  tmpDir : Path;
  fdLogFile : Z;
  d_logPipe : Z;
  d_state : DerivationState
}.

(** The members of [SubstitutionGoal]. *)
Record SubstitutionGoal : Type := mkSubstitutionGoal {
  storePath : Path;
  subs : list Substitute;
  sub : Substitute;
  references : PathSet;
  s_logPipe : Z;
  s_pid : Z;
  outputLock : option PathLocks;
  s_state : SubstitutionState
}.

(** The dynamic class of a goal with the members the class adds. *)
Inductive GoalBody : Type :=
  | IsDerivationGoal (d : DerivationGoal)
  | IsSubstitutionGoal (s : SubstitutionGoal)
  | IsPseudoGoal (success : bool).

(** The members of the base class [Goal]. *)
Record Goal : Type := mkGoal {
  waitees : gset GoalId;
  waiters : gset GoalId;
  nrFailed : Z;
  done : bool;
  body : GoalBody
}.

Record Child : Type := mkChild {
  goal : GoalId;
  fdOutput : Z;
  inBuildSlot : bool
}.

(** A call of the virtual method [waiteeDone], as seen by its receiver. *)
Record Notification : Type := mkNotification {
  receiver : GoalId;
  finished_goal : GoalId;
  reported : bool
}.

(** The worker, with the store of the goal objects that are alive.
    [notified] is a history of the [waiteeDone] calls made so far; it has
    no counterpart in the source and only serves to count calls. *)
Record Worker : Type := mkWorker {
  goals : gmap GoalId Goal;
  nextGoal : GoalId;
  topGoals : gset GoalId;
  awake : gset GoalId;
  wantingToBuild : gset GoalId;
  children : gmap Z Child;
  nrChildren : Z;
  derivationGoals : gmap string GoalId;
  substitutionGoals : gmap string GoalId;
  notified : list Notification
}.

(** The process-wide settings (globals), constant during a run. *)
Record Globals : Type := mkGlobals {
  keepGoing : bool;
  tryFallback : bool;
  keepFailed : bool;
  maxBuildJobs : Z;
  thisSystem : string;
  nixStore : Path;
  nixLogDir : Path
}.

(** ** Field updates *)

Definition set_waitees (f : gset GoalId → gset GoalId) (t : Goal) : Goal :=
  mkGoal (f (waitees t)) (waiters t) (nrFailed t) (done t) (body t).
Definition set_waiters (f : gset GoalId → gset GoalId) (t : Goal) : Goal :=
  mkGoal (waitees t) (f (waiters t)) (nrFailed t) (done t) (body t).
Definition set_nrFailed (f : Z → Z) (t : Goal) : Goal :=
  mkGoal (waitees t) (waiters t) (f (nrFailed t)) (done t) (body t).
Definition set_done (b : bool) (t : Goal) : Goal :=
  mkGoal (waitees t) (waiters t) (nrFailed t) b (body t).
Definition set_body (f : GoalBody → GoalBody) (t : Goal) : Goal :=
  mkGoal (waitees t) (waiters t) (nrFailed t) (done t) (f (body t)).

Definition set_goals (f : gmap GoalId Goal → gmap GoalId Goal) (w : Worker) : Worker :=
  mkWorker (f (goals w)) (nextGoal w) (topGoals w) (awake w) (wantingToBuild w)
    (children w) (nrChildren w) (derivationGoals w) (substitutionGoals w) (notified w).
Definition set_nextGoal (n : GoalId) (w : Worker) : Worker :=
  mkWorker (goals w) n (topGoals w) (awake w) (wantingToBuild w)
    (children w) (nrChildren w) (derivationGoals w) (substitutionGoals w) (notified w).
Definition set_topGoals (f : gset GoalId → gset GoalId) (w : Worker) : Worker :=
  mkWorker (goals w) (nextGoal w) (f (topGoals w)) (awake w) (wantingToBuild w)
    (children w) (nrChildren w) (derivationGoals w) (substitutionGoals w) (notified w).
Definition set_awake (f : gset GoalId → gset GoalId) (w : Worker) : Worker :=
  mkWorker (goals w) (nextGoal w) (topGoals w) (f (awake w)) (wantingToBuild w)
    (children w) (nrChildren w) (derivationGoals w) (substitutionGoals w) (notified w).
Definition set_wantingToBuild (f : gset GoalId → gset GoalId) (w : Worker) : Worker :=
  mkWorker (goals w) (nextGoal w) (topGoals w) (awake w) (f (wantingToBuild w))
    (children w) (nrChildren w) (derivationGoals w) (substitutionGoals w) (notified w).
Definition set_children (f : gmap Z Child → gmap Z Child) (w : Worker) : Worker :=
  mkWorker (goals w) (nextGoal w) (topGoals w) (awake w) (wantingToBuild w)
    (f (children w)) (nrChildren w) (derivationGoals w) (substitutionGoals w) (notified w).
Definition set_nrChildren (f : Z → Z) (w : Worker) : Worker :=
  mkWorker (goals w) (nextGoal w) (topGoals w) (awake w) (wantingToBuild w)
    (children w) (f (nrChildren w)) (derivationGoals w) (substitutionGoals w) (notified w).
Definition set_derivationGoals (f : gmap string GoalId → gmap string GoalId) (w : Worker) : Worker :=
  mkWorker (goals w) (nextGoal w) (topGoals w) (awake w) (wantingToBuild w)
    (children w) (nrChildren w) (f (derivationGoals w)) (substitutionGoals w) (notified w).
Definition set_substitutionGoals (f : gmap string GoalId → gmap string GoalId) (w : Worker) : Worker :=
  mkWorker (goals w) (nextGoal w) (topGoals w) (awake w) (wantingToBuild w)
    (children w) (nrChildren w) (derivationGoals w) (f (substitutionGoals w)) (notified w).
Definition set_notified (f : list Notification → list Notification) (w : Worker) : Worker :=
  mkWorker (goals w) (nextGoal w) (topGoals w) (awake w) (wantingToBuild w)
    (children w) (nrChildren w) (derivationGoals w) (substitutionGoals w) (f (notified w)).

(** ** The scheduler: [Goal] and [Worker] *)

(** [Worker::Worker()]. *)
Definition newWorker : Worker :=
  mkWorker ∅ 1%positive ∅ ∅ ∅ ∅ 0 ∅ ∅ [].

(** [weak_ptr::lock]: the goal, when it is still alive. *)
Definition lock (w : Worker) (i : GoalId) : option GoalId :=
  if decide (is_Some (goals w !! i)) then Some i else None.

(** Access to the object behind [this] or behind a strong pointer.  A
    strong pointer keeps its target alive, so the failing case does not
    occur in the source; the model aborts there. *)
Definition deref (g : GoalId) : M Worker Goal :=
  λ w, match goals w !! g with
       | Some t => (Ok t, w)
       | None => (Aborted "dangling pointer", w)
       end.

(** Assignment to members of the goal [g]. *)
Definition updGoal (g : GoalId) (f : Goal → Goal) : M Worker unit :=
  modify (set_goals (alter f g)).

Section Scheduler.

Variable G : Globals.

(** [Goal::addWaitee]. *)
Definition addWaitee (this waitee : GoalId) : M Worker unit :=
  updGoal this (set_waitees (λ s, {[waitee]} ∪ s));;
  updGoal waitee (set_waiters (λ s, {[this]} ∪ s)).

(** [Worker::wakeUp]. *)
Definition wakeUp (g : GoalId) : M Worker unit :=
  modify (set_awake (λ s, {[g]} ∪ s)).

(** [Goal::waiteeDone], the implementation that derivation and
    substitution goals inherit. *)
Definition Goal_waiteeDone (this waitee : GoalId) (success : bool) : M Worker unit :=
  t ← deref this;
  cassert (bool_decide (waitee ∈ waitees t)) "waitees.find(waitee) != waitees.end()";;
  updGoal this (set_waitees (λ s, s ∖ {[waitee]}));;
  (if success then mret tt
   else updGoal this (set_nrFailed (λ n, wrap (n + 1))));;
  t1 ← deref this;
  if bool_decide (waitees t1 = ∅) || (negb success && negb (keepGoing G)) then
    forEach (elements (waitees t1)) (λ r,
      w ← get;
      updGoal r (set_waiters (filter (λ j, lock w j ≠ Some this))));;
    updGoal this (set_waitees (λ _, ∅));;
    wakeUp this
  else mret tt.

(** [PseudoGoal::waiteeDone], which overrides the above. *)
Definition PseudoGoal_waiteeDone (this waitee : GoalId) (success : bool) : M Worker unit :=
  if success then mret tt
  else updGoal this (set_body (λ b,
         match b with IsPseudoGoal _ => IsPseudoGoal false | _ => b end)).

(** A call [goal->waiteeDone(waitee, success)] through the virtual
    table. *)
Definition waiteeDone (this waitee : GoalId) (success : bool) : M Worker unit :=
  t ← deref this;
  modify (set_notified (λ h, h ++ [mkNotification this waitee success]));;
  match body t with
  | IsPseudoGoal _ => PseudoGoal_waiteeDone this waitee success
  | _ => Goal_waiteeDone this waitee success
  end.

(** [Worker::removeGoal]; the helper it calls on the two goal maps has an
    empty body. *)
Definition removeGoal (g : GoalId) : M Worker unit :=
  modify (set_topGoals (λ s, s ∖ {[g]})).

(** [Goal::amDone]. *)
Definition amDone (this : GoalId) (success : bool) : M Worker unit :=
  t ← deref this;
  cassert (negb (done t)) "!done";;
  updGoal this (set_done true);;
  forEach (elements (waiters t)) (λ i,
    w ← get;
    match lock w i with
    | Some x => waiteeDone x this success
    | None => mret tt
    end);;
  updGoal this (set_waiters (λ _, ∅));;
  removeGoal this.

(** [Worker::canBuildMore]. *)
Definition canBuildMore (w : Worker) : bool :=
  (nrChildren w <? maxBuildJobs G)%Z.

(** [Worker::childStarted]. *)
Definition childStarted (g : GoalId) (pid fd : Z) (slot : bool) : M Worker unit :=
  modify (set_children <[pid := mkChild g fd slot]>);;
  if slot then modify (set_nrChildren (λ n, wrap (n + 1))) else mret tt.

(** [Worker::childTerminated]. *)
Definition childTerminated (pid : Z) (wakeSleepers : bool) : M Worker unit :=
  w ← get;
  match children w !! pid with
  | None => abort "i != children.end()"
  | Some c =>
    (if inBuildSlot c then
       cassert (0 <? nrChildren w)%Z "nrChildren > 0";;
       modify (set_nrChildren (λ n, wrap (n - 1)))
     else mret tt);;
    modify (set_children (delete pid));;
    if wakeSleepers then
      forEach (elements (wantingToBuild w)) (λ i,
        w' ← get;
        match lock w' i with
        | Some g => wakeUp g
        | None => mret tt
        end);;
      modify (set_wantingToBuild (λ _, ∅))
    else mret tt
  end.

Definition msgNoChildren : string :=
  "waiting for a build slot, yet there are no children - maybe the build hook gave an inappropriate `postpone' reply?".

(** [Worker::waitForBuildSlot]. *)
Definition waitForBuildSlot (g : GoalId) (reallyWait : bool) : M Worker unit :=
  w ← get;
  if reallyWait && bool_decide (size (children w) = 0) then
    throw (Error msgNoChildren)
  else if negb reallyWait && canBuildMore w then wakeUp g
  else modify (set_wantingToBuild (λ s, {[g]} ∪ s)).

End Scheduler.

(** ** The outside world: file system, metadata database, processes *)

Inductive FileType : Type := Regular | Directory | Symlink.

(** What [lstat] and the content readers see of a file-system entry. *)
Record Inode : Type := mkInode {
  ftype : FileType;
  mode : Z;
  owner : Z;
  mtime : Z;
  contents : string
}.

(** The file system: the entries by absolute canonical path. *)
Abbreviation FS := (gmap string Inode).

Definition S_IXUSR : Z := 64.

Inductive HashType : Type := htUnknown | htMD5 | htSHA1 | htSHA256.

Record Hash : Type := mkHash { hashType : HashType; digest : string }.

Global Instance FileType_eq_dec : EqDecision FileType.
Proof. solve_decision. Defined.
Global Instance HashType_eq_dec : EqDecision HashType.
Proof. solve_decision. Defined.
Global Instance Hash_eq_dec : EqDecision Hash.
Proof. solve_decision. Defined.
Global Instance Hash_inhabited : Inhabited Hash := populate (mkHash htUnknown "").

(** Modelled from the spec: the tables of the metadata store, keyed by
    store path.  The code of the store itself is not part of the sources
    at hand. *)
Record DB : Type := mkDB {
  dbValidPaths : gmap string Hash;
  dbReferences : gmap string (list Path);
  dbReferrers : gmap string PathSet;
  dbSubstitutes : gmap string (list Substitute);
  dbDerivers : gmap string Path
}.

(** Modelled from the spec: a path is valid when it is a key of the
    table of valid paths. *)
Definition isValidPath (d : DB) (p : Path) : bool :=
  bool_decide (is_Some (dbValidPaths d !! p)).

(** Modelled from the spec: the outgoing references of a path. *)
Definition queryReferences (d : DB) (p : Path) : PathSet :=
  list_to_set (default [] (dbReferences d !! p)).

(** Modelled from the spec: the substitutes of a path, front first. *)
Definition querySubstitutes (d : DB) (p : Path) : list Substitute :=
  default [] (dbSubstitutes d !! p).

(** Modelled from the spec: registration writes the content hash of the
    path into the table of valid paths. *)
Definition registerValidPath (p : Path) (h : Hash) (d : DB) : DB :=
  mkDB (<[p := h]> (dbValidPaths d)) (dbReferences d) (dbReferrers d)
       (dbSubstitutes d) (dbDerivers d).

(** Modelled from the spec: [setReferences] replaces the outgoing
    references of a path and updates the reverse edges: the path leaves
    the referrers of its old references and joins those of the new. *)
Definition setReferences (p : Path) (refs : PathSet) (d : DB) : DB :=
  let old := default [] (dbReferences d !! p) in
  let dropped := foldr (λ q m, alter (λ s, s ∖ {[p]}) q m) (dbReferrers d) old in
  let added := foldr (λ q m, <[q := {[p]} ∪ default ∅ (m !! q)]> m) dropped
                     (elements refs) in
  mkDB (dbValidPaths d) (<[p := elements refs]> (dbReferences d)) added
       (dbSubstitutes d) (dbDerivers d).

(** The program a forked child executes.  [exec_env] is [None] when the
    child inherits the environment of the coordinator. *)
Record ChildProgram : Type := mkChildProgram {
  exec_program : Path;
  exec_argv : list string;
  exec_env : option (gmap string string)
}.

(** The effects on the outside world whose order matters. *)
Inductive Event : Type :=
  | EvDeletePath (p : Path)
  | EvCanonicalise (p : Path)
  | EvFork (pid : Z) (c : ChildProgram)
  | EvTxnBegin
  | EvRegisterValidPath (p : Path) (h : Hash)
  | EvSetReferences (p : Path) (refs : PathSet)
  | EvTxnCommit
  | EvSetDeletion (locks : PathSet) (b : bool).

(** The state of the coordinator process and of its surroundings.  [db]
    is the committed content of the metadata store, [txn] the view of the
    open transaction, if any. *)
Record World : Type := mkWorld {
  worker : Worker;
  db : DB;
  txn : option DB;
  fs : FS;
  trace : list Event
}.

Definition set_worker (f : Worker → Worker) (s : World) : World :=
  mkWorld (f (worker s)) (db s) (txn s) (fs s) (trace s).
Definition set_db (f : DB → DB) (s : World) : World :=
  mkWorld (worker s) (f (db s)) (txn s) (fs s) (trace s).
Definition set_txn (f : option DB → option DB) (s : World) : World :=
  mkWorld (worker s) (db s) (f (txn s)) (fs s) (trace s).
Definition set_fs (f : FS → FS) (s : World) : World :=
  mkWorld (worker s) (db s) (txn s) (f (fs s)) (trace s).
Definition set_trace (f : list Event → list Event) (s : World) : World :=
  mkWorld (worker s) (db s) (txn s) (fs s) (f (trace s)).

(** A method of the worker or of the base class, run in the world. *)
Definition liftW {A} (m : M Worker A) : M World A :=
  λ s, let (r, w') := m (worker s) in (r, set_worker (λ _, w') s).

Definition emit (e : Event) : M World unit :=
  modify (set_trace (λ tr, tr ++ [e])).

(** *** File-system helpers

    Modelled from the spec: the helpers below belong to the utility
    library, which is not part of the sources at hand. *)

Definition pathExists (f : FS) (p : Path) : bool :=
  bool_decide (is_Some (f !! p)).

(** [q] is [p] or lies below it. *)
Definition under (p q : Path) : bool :=
  bool_decide (q = p) || String.prefix (p +:+ "/") q.

(** [deletePath]: the entry and everything below it disappear. *)
Definition deleteFS (p : Path) (f : FS) : FS :=
  filter (λ kv, under p kv.1 = false) f.

Definition deletePath (p : Path) : M World unit :=
  modify (set_fs (deleteFS p));;
  emit (EvDeletePath p).

(** The canonical metadata of an entry: permissions [0444], or [0555]
    when the owner could execute it, the current user as owner, and the
    epoch as modification time. *)
Definition canonInode (uid : Z) (i : Inode) : Inode :=
  match ftype i with
  | Symlink => i
  | _ => mkInode (ftype i)
           (if bool_decide (Z.land (mode i) S_IXUSR = 0%Z) then 292%Z else 365%Z)
           uid 0 (contents i)
  end.

(** [canonicalisePathMetaData]: the entry and everything below it get
    canonical metadata. *)
Definition canonFS (uid : Z) (p : Path) (f : FS) : FS :=
  map_imap (λ q i, Some (if under p q then canonInode uid i else i)) f.

Definition canonicalisePathMetaData (uid : Z) (p : Path) : M World unit :=
  modify (set_fs (canonFS uid p));;
  emit (EvCanonicalise p).

Definition lstat (f : FS) (p : Path) : option Inode := f !! p.

Definition S_ISREG (i : Inode) : bool := bool_decide (ftype i = Regular).

Definition writeStringToFile (uid : Z) (p : Path) (s : string) : M World unit :=
  modify (set_fs <[p := mkInode Regular 420 uid 0 s]>).

(** Modelled from the spec: a child has succeeded when its exit status is
    zero. *)
Definition statusOk (status : Z) : bool := bool_decide (status = 0%Z).

(** *** Functions of other modules, taken as parameters

    Hashing, reference scanning, closure computation and the reading of
    derivations are implemented outside the sources at hand. *)
Record External : Type := mkExternal {
  parseHashType : string → HashType;
  parseHash : HashType → string → Exn + Hash;
  printHash : Hash → string;
  hashFile : HashType → FS → Path → Exn + Hash;
  hashPath : HashType → FS → Path → Hash;
  filterReferences : FS → Path → list Path → list Path;
  computeFSClosure : DB → Path → PathSet → PathSet;
  derivationFromPath : FS → Path → Derivation;
  baseNameOf : Path → string;
  absPath : Path → Path;
  statusToString : Z → string;
  getEnv : string → string;
  geteuid : Z
}.

(** ** Goal members and object creation *)

Definition set_outputLocks (v : PathLocks) (d : DerivationGoal) : DerivationGoal :=
  mkDerivationGoal (drvPath d) (drv d) v (inputPaths d) (allPaths d)
    (d_pid d) (tmpDir d) (fdLogFile d) (d_logPipe d) (d_state d).
Definition set_inputPaths (v : PathSet) (d : DerivationGoal) : DerivationGoal :=
  mkDerivationGoal (drvPath d) (drv d) (outputLocks d) v (allPaths d)
    (d_pid d) (tmpDir d) (fdLogFile d) (d_logPipe d) (d_state d).
Definition set_allPaths (v : PathSet) (d : DerivationGoal) : DerivationGoal :=
  mkDerivationGoal (drvPath d) (drv d) (outputLocks d) (inputPaths d) v
    (d_pid d) (tmpDir d) (fdLogFile d) (d_logPipe d) (d_state d).
Definition set_d_pid (v : Z) (d : DerivationGoal) : DerivationGoal :=
  mkDerivationGoal (drvPath d) (drv d) (outputLocks d) (inputPaths d) (allPaths d)
    v (tmpDir d) (fdLogFile d) (d_logPipe d) (d_state d).
Definition set_tmpDir (v : Path) (d : DerivationGoal) : DerivationGoal :=
  mkDerivationGoal (drvPath d) (drv d) (outputLocks d) (inputPaths d) (allPaths d)
    (d_pid d) v (fdLogFile d) (d_logPipe d) (d_state d).
Definition set_fdLogFile (v : Z) (d : DerivationGoal) : DerivationGoal :=
  mkDerivationGoal (drvPath d) (drv d) (outputLocks d) (inputPaths d) (allPaths d)
    (d_pid d) (tmpDir d) v (d_logPipe d) (d_state d).
Definition set_d_logPipe (v : Z) (d : DerivationGoal) : DerivationGoal :=
  mkDerivationGoal (drvPath d) (drv d) (outputLocks d) (inputPaths d) (allPaths d)
    (d_pid d) (tmpDir d) (fdLogFile d) v (d_state d).
Definition set_d_state (v : DerivationState) (d : DerivationGoal) : DerivationGoal :=
  mkDerivationGoal (drvPath d) (drv d) (outputLocks d) (inputPaths d) (allPaths d)
    (d_pid d) (tmpDir d) (fdLogFile d) (d_logPipe d) v.

Definition set_subs (v : list Substitute) (s : SubstitutionGoal) : SubstitutionGoal :=
  mkSubstitutionGoal (storePath s) v (sub s) (references s) (s_logPipe s)
    (s_pid s) (outputLock s) (s_state s).
Definition set_sub (v : Substitute) (s : SubstitutionGoal) : SubstitutionGoal :=
  mkSubstitutionGoal (storePath s) (subs s) v (references s) (s_logPipe s)
    (s_pid s) (outputLock s) (s_state s).
Definition set_references (v : PathSet) (s : SubstitutionGoal) : SubstitutionGoal :=
  mkSubstitutionGoal (storePath s) (subs s) (sub s) v (s_logPipe s)
    (s_pid s) (outputLock s) (s_state s).
Definition set_s_logPipe (v : Z) (s : SubstitutionGoal) : SubstitutionGoal :=
  mkSubstitutionGoal (storePath s) (subs s) (sub s) (references s) v
    (s_pid s) (outputLock s) (s_state s).
Definition set_s_pid (v : Z) (s : SubstitutionGoal) : SubstitutionGoal :=
  mkSubstitutionGoal (storePath s) (subs s) (sub s) (references s) (s_logPipe s)
    v (outputLock s) (s_state s).
Definition set_outputLock (v : option PathLocks) (s : SubstitutionGoal) : SubstitutionGoal :=
  mkSubstitutionGoal (storePath s) (subs s) (sub s) (references s) (s_logPipe s)
    (s_pid s) v (s_state s).
Definition set_s_state (v : SubstitutionState) (s : SubstitutionGoal) : SubstitutionGoal :=
  mkSubstitutionGoal (storePath s) (subs s) (sub s) (references s) (s_logPipe s)
    (s_pid s) (outputLock s) v.

(** The base-class constructor [Goal::Goal]. *)
Definition newGoal (b : GoalBody) : Goal := mkGoal ∅ ∅ 0 false b.

(** [DerivationGoal::DerivationGoal]. *)
Definition newDerivationGoal (p : Path) : GoalBody :=
  IsDerivationGoal
    (mkDerivationGoal p (mkDerivation [] [] [] "" "" [] ∅) (mkPathLocks ∅ false)
       ∅ ∅ (-1) "" (-1) (-1) dInit).

(** [SubstitutionGoal::SubstitutionGoal]. *)
Definition newSubstitutionGoal (p : Path) : GoalBody :=
  IsSubstitutionGoal
    (mkSubstitutionGoal p [] (mkSubstitute "" "" []) ∅ (-1) (-1) None sInit).

(** [addGoal<T>]: the goal registered for the path if it is still alive,
    a new one otherwise. *)
Definition addGoal (mk : Path → GoalBody)
    (goalMap : Worker → gmap string GoalId)
    (set_goalMap : (gmap string GoalId → gmap string GoalId) → Worker → Worker)
    (p : Path) : M Worker GoalId :=
  w ← get;
  match goalMap w !! p ≫= lock w with
  | Some g => mret g
  | None =>
    let g := nextGoal w in
    modify (set_nextGoal (Pos.succ g));;
    modify (set_goals <[g := newGoal (mk p)]>);;
    modify (set_goalMap <[p := g]>);;
    wakeUp g;;
    mret g
  end.

(** [Worker::makeDerivationGoal]. *)
Definition makeDerivationGoal (p : Path) : M Worker GoalId :=
  addGoal newDerivationGoal derivationGoals set_derivationGoals p.

(** [Worker::makeSubstitutionGoal]. *)
Definition makeSubstitutionGoal (p : Path) : M Worker GoalId :=
  addGoal newSubstitutionGoal substitutionGoals set_substitutionGoals p.

(** The members of [this], seen as a [DerivationGoal]. *)
Definition derivationGoal (this : GoalId) : M World DerivationGoal :=
  t ← liftW (deref this);
  match body t with
  | IsDerivationGoal d => mret d
  | _ => abort "not a DerivationGoal"
  end.

Definition updDrv (this : GoalId) (f : DerivationGoal → DerivationGoal) : M World unit :=
  liftW (updGoal this (set_body (λ b,
    match b with IsDerivationGoal d => IsDerivationGoal (f d) | _ => b end))).

(** The members of [this], seen as a [SubstitutionGoal]. *)
Definition substitutionGoal (this : GoalId) : M World SubstitutionGoal :=
  t ← liftW (deref this);
  match body t with
  | IsSubstitutionGoal s => mret s
  | _ => abort "not a SubstitutionGoal"
  end.

Definition updSubst (this : GoalId) (f : SubstitutionGoal → SubstitutionGoal) : M World unit :=
  liftW (updGoal this (set_body (λ b,
    match b with IsSubstitutionGoal s => IsSubstitutionGoal (f s) | _ => b end))).

(** ** Transactions on the metadata store

    Modelled from the spec: updates made within a transaction reach the
    store together, at commit. *)

Definition createStoreTransaction : M World unit :=
  s ← get;
  modify (set_txn (λ _, Some (db s)));;
  emit EvTxnBegin.

Definition txnRegisterValidPath (p : Path) (h : Hash) : M World unit :=
  modify (set_txn (fmap (registerValidPath p h)));;
  emit (EvRegisterValidPath p h).

Definition txnSetReferences (p : Path) (refs : PathSet) : M World unit :=
  modify (set_txn (fmap (setReferences p refs)));;
  emit (EvSetReferences p refs).

Definition txnCommit : M World unit :=
  s ← get;
  modify (set_db (λ d, default d (txn s)));;
  modify (set_txn (λ _, None));;
  emit EvTxnCommit.

(** The content of the store that survives a crash after the events
    [tr]: the updates of the transactions that were committed. *)
Fixpoint replay (committed : DB) (pending : option DB) (tr : list Event) : DB :=
  match tr with
  | [] => committed
  | EvTxnBegin :: tr' => replay committed (Some committed) tr'
  | EvRegisterValidPath p h :: tr' =>
      replay committed (registerValidPath p h <$> pending) tr'
  | EvSetReferences p refs :: tr' =>
      replay committed (setReferences p refs <$> pending) tr'
  | EvTxnCommit :: tr' => replay (default committed pending) None tr'
  | _ :: tr' => replay committed pending tr'
  end.

Definition durable (d : DB) (tr : list Event) : DB := replay d None tr.

(** ** The derivation goal *)

(** The answers of the operating system while a builder is started: the
    temporary directory made by [createTempDir], the descriptors of the
    log file and of the log pipe, and the result of [fork] as seen by
    the coordinator ([-1] on failure). *)
Record BuilderStart : Type := mkBuilderStart {
  bs_tmpDir : Path;
  bs_logFile : Z;
  bs_logPipe : Z;
  bs_fork : Z
}.

(** The same for the build hook, with the first line read from it (or
    the exception raised while reading). *)
Record HookStart : Type := mkHookStart {
  hs_tmpDir : Path;
  hs_logFile : Z;
  hs_logPipe : Z;
  hs_fork : Z;
  hs_reply : Exn + string
}.

Inductive HookReply : Type := rpAccept | rpDecline | rpPostpone | rpDone.

(** [outputPaths]. *)
Definition outputPaths (outs : list (string * DerivationOutput)) : PathSet :=
  list_to_set ((λ i, path i.2) <$> outs).

(** [outputs.find(name)]. *)
Definition findOutput (name : string) (outs : list (string * DerivationOutput))
    : option DerivationOutput :=
  snd <$> list_find (λ i, i.1 = name) outs ≫= λ r, Some r.2.

(** [PathLocks::setDeletion] on the output locks of a derivation goal. *)
Definition setDeletion (this : GoalId) (b : bool) : M World unit :=
  updDrv this (λ d, set_outputLocks (mkPathLocks (lockedPaths (outputLocks d)) b) d);;
  t ← liftW (deref this);
  match body t with
  | IsDerivationGoal d => emit (EvSetDeletion (lockedPaths (outputLocks d)) b)
  | _ => mret tt
  end.

Section Goals.

Variable G : Globals.
Variable X : External.

(** [createTempDir], with the directory it made. *)
Definition createTempDir (tmp : Path) : M World Path :=
  modify (set_fs <[tmp := mkInode Directory 511 (geteuid X) 0 ""]>);;
  mret tmp.

(** [DerivationGoal::checkPathValidity]. *)
Definition checkPathValidity (d : Derivation) (returnValid : bool) (b : DB) : PathSet :=
  list_to_set
    (filter (λ p, isValidPath b p = returnValid) ((λ i, path i.2) <$> outputs d)).

(** [DerivationGoal::openLogFile]. *)
Definition openLogFile (this : GoalId) (fd pipe : Z) : M World unit :=
  d ← derivationGoal this;
  let logFileName := nixLogDir G +:+ "/" +:+ baseNameOf X (drvPath d) in
  if bool_decide (fd = (-1)%Z) then
    throw (SysError ("creating log file `" +:+ logFileName +:+ "'"))
  else
    modify (set_fs <[logFileName := mkInode Regular 438 (geteuid X) 0 ""]>);;
    updDrv this (set_fdLogFile fd);;
    updDrv this (set_d_logPipe pipe).

(** [DerivationGoal::deleteTmpDir]. *)
Definition deleteTmpDir (this : GoalId) (force : bool) : M World unit :=
  d ← derivationGoal this;
  if bool_decide (tmpDir d = "") then mret tt
  else
    (if keepFailed G && negb force then mret tt else deletePath (tmpDir d));;
    updDrv this (set_tmpDir "").

(** [DerivationGoal::prepareBuild]. *)
Definition prepareBuild (this : GoalId) : M World bool :=
  d ← derivationGoal this;
  updDrv this (set_outputLocks
    (mkPathLocks (outputPaths (outputs (drv d))) (deletePaths (outputLocks d))));;
  s ← get;
  let validPaths := checkPathValidity (drv d) true (db s) in
  if bool_decide (size validPaths = length (outputs (drv d))) then
    setDeletion this true;; mret false
  else if bool_decide (0 < size validPaths) then
    throw (Error ("derivation `" +:+ drvPath d +:+ "' is blocked by its output paths"))
  else
    forEach (outputs (drv d)) (λ i,
      updDrv this (λ d, set_allPaths ({[path i.2]} ∪ allPaths d) d));;
    forEach (inputDrvs (drv d)) (λ i,
      s ← get;
      cassert (isValidPath (db s) i.1) "isValidPath(i->first)";;
      let inDrv := derivationFromPath X (fs s) i.1 in
      forEach i.2 (λ j,
        match findOutput j (outputs inDrv) with
        | Some o =>
          updDrv this (λ d,
            set_inputPaths (computeFSClosure X (db s) (path o) (inputPaths d)) d)
        | None =>
          throw (Error ("derivation `" +:+ drvPath d +:+
                        "' requires non-existent output `" +:+ j +:+
                        "' from input derivation `" +:+ i.1 +:+ "'"))
        end));;
    updDrv this (λ d, set_allPaths (inputPaths d ∪ allPaths d) d);;
    forEach (inputSrcs (drv d)) (λ i,
      s ← get;
      updDrv this (λ d,
        set_inputPaths (computeFSClosure X (db s) i (inputPaths d)) d));;
    mret true.

(** The environment that [startBuilder] constructs for the builder. *)
Definition builderEnv (d : Derivation) (tmp : Path) : gmap string string :=
  let env0 : gmap string string :=
    <["NIX_STORE" := nixStore G]>
      (<["HOME" := "/homeless-shelter"]> (<["PATH" := "/path-not-set"]> ∅)) in
  let env1 := map_fold (λ k v e, <[k := v]> e) env0 (env d) in
  let env2 := <["NIX_BUILD_TOP" := tmp]> env1 in
  <["TMPDIR" := tmp]>
    (<["TEMPDIR" := tmp]> (<["TMP" := tmp]> (<["TEMP" := tmp]> env2))).

(** The strings handed to [execve]. *)
Definition envStrs (e : gmap string string) : list string :=
  (λ kv, kv.1 +:+ "=" +:+ kv.2) <$> map_to_list e.

(** The loop of [startBuilder] over the outputs. *)
Definition removeUnregistered (outs : list (string * DerivationOutput)) : M World unit :=
  forEach outs (λ i,
    let p := path i.2 in
    s ← get;
    if isValidPath (db s) p then
      throw (Error ("obstructed build: path `" +:+ p +:+ "' exists"))
    else if pathExists (fs s) p then deletePath p
    else mret tt).

(** [DerivationGoal::startBuilder], on the side of the coordinator; what
    the child executes is recorded in the [EvFork] event. *)
Definition startBuilder (this : GoalId) (o : BuilderStart) : M World unit :=
  d ← derivationGoal this;
  if bool_decide (platform (drv d) ≠ thisSystem G) then
    throw (BuildError ("a `" +:+ platform (drv d) +:+ "' is required to build `"
                       +:+ drvPath d +:+ "', but I am a `" +:+ thisSystem G +:+ "'"))
  else
    removeUnregistered (outputs (drv d));;
    tmp ← createTempDir (bs_tmpDir o);
    updDrv this (set_tmpDir tmp);;
    let e := builderEnv (drv d) tmp in
    openLogFile this (bs_logFile o) (bs_logPipe o);;
    if bool_decide (bs_fork o = (-1)%Z) then throw (SysError "unable to fork")
    else
      emit (EvFork (bs_fork o)
              (mkChildProgram (builder (drv d))
                 (baseNameOf X (builder (drv d)) :: args (drv d)) (Some e)));;
      updDrv this (set_d_pid (bs_fork o));;
      liftW (childStarted this (bs_fork o) (bs_logPipe o) true).

(** [DerivationGoal::terminateBuildHook]. *)
Definition terminateBuildHook (this : GoalId) : M World unit :=
  d ← derivationGoal this;
  let savedPid := d_pid d in
  updDrv this (set_d_pid (-1));;
  liftW (childTerminated savedPid false);;
  updDrv this (set_fdLogFile (-1));;
  updDrv this (set_d_logPipe (-1));;
  deleteTmpDir this true.

(** [DerivationGoal::tryBuildHook], on the side of the coordinator. *)
Definition tryBuildHook (this : GoalId) (o : HookStart) : M World HookReply :=
  let buildHook := getEnv X "NIX_BUILD_HOOK" in
  if bool_decide (buildHook = "") then mret rpDecline
  else
    let buildHook := absPath X buildHook in
    tmp ← createTempDir (hs_tmpDir o);
    updDrv this (set_tmpDir tmp);;
    openLogFile this (hs_logFile o) (hs_logPipe o);;
    if bool_decide (hs_fork o = (-1)%Z) then throw (SysError "unable to fork")
    else
      s ← get;
      d ← derivationGoal this;
      emit (EvFork (hs_fork o)
              (mkChildProgram buildHook
                 [buildHook; if canBuildMore G (worker s) then "1" else "0";
                  thisSystem G; platform (drv d); drvPath d] None));;
      updDrv this (set_d_pid (hs_fork o));;
      liftW (childStarted this (hs_fork o) (hs_logPipe o) false);;
      match hs_reply o with
      | inl e => throw e
      | inr reply =>
        if bool_decide (reply = "decline") || bool_decide (reply = "postpone") then
          terminateBuildHook this;;
          mret (if bool_decide (reply = "decline") then rpDecline else rpPostpone)
        else if bool_decide (reply = "accept") then
          ready ← prepareBuild this;
          if negb ready then terminateBuildHook this;; mret rpDone
          else
            d ← derivationGoal this;
            s ← get;
            writeStringToFile (geteuid X) (tmpDir d +:+ "/inputs")
              (foldr (λ p acc, p +:+ "
" +:+ acc)
                 (foldr (λ i acc, i.1 +:+ "
" +:+ acc) "" (inputDrvs (drv d)))
                 (elements (inputPaths d)));;
            writeStringToFile (geteuid X) (tmpDir d +:+ "/outputs")
              (foldr (λ i acc, path i.2 +:+ "
" +:+ acc) "" (outputs (drv d)));;
            writeStringToFile (geteuid X) (tmpDir d +:+ "/references")
              (foldr (λ p acc,
                 p +:+ foldr (λ r acc', " " +:+ r +:+ acc') ""
                         (elements (queryReferences (db s) p)) +:+ "
" +:+ acc) "" (elements (inputPaths d)));;
            mret rpAccept
        else throw (Error ("bad hook reply `" +:+ reply +:+ "'"))
      end.

(** [DerivationGoal::tryToBuild].  The body of the [try] block yields
    whether control reaches the end of the function. *)
Definition tryToBuild (this : GoalId) (oh : HookStart) (ob : BuilderStart) : M World unit :=
  continue ← catchBuildError
    (r ← tryBuildHook this oh;
     match r with
     | rpAccept => updDrv this (set_d_state dBuildDone);; mret false
     | rpPostpone => liftW (waitForBuildSlot G this true);; mret false
     | rpDone => liftW (amDone G this true);; mret false
     | rpDecline =>
       s ← get;
       if negb (canBuildMore G (worker s)) then
         liftW (waitForBuildSlot G this false);; mret false
       else
         ready ← prepareBuild this;
         if negb ready then liftW (amDone G this true);; mret false
         else startBuilder this ob;; mret true
     end)
    (λ _, liftW (amDone G this false);; mret false);
  if continue : bool then updDrv this (set_d_state dBuildDone) else mret tt.

(** The body of the first loop of [computeClosure], for one output: the
    checks, the canonicalisation, the scan and the content hash. *)
Definition scanOutput (d : DerivationGoal) (i : string * DerivationOutput)
    (acc : gmap string PathSet * gmap string Hash)
    : M World (gmap string PathSet * gmap string Hash) :=
  let p := path i.2 in
  s ← get;
  if negb (pathExists (fs s) p) then
    throw (BuildError ("builder for `" +:+ drvPath d +:+
                       "' failed to produce output path `" +:+ p +:+ "'"))
  else
    (if bool_decide (hash i.2 ≠ "") then
       let ht := parseHashType X (hashAlgo i.2) in
       if bool_decide (ht = htUnknown) then
         throw (Error ("unknown hash algorithm `" +:+ hashAlgo i.2 +:+ "'"))
       else
         match parseHash X ht (hash i.2) with
         | inl e => throw e
         | inr h =>
           match hashFile X ht (fs s) p with
           | inl e => throw e
           | inr h2 =>
             if bool_decide (h ≠ h2) then
               throw (Error ("output path `" +:+ p +:+ " should have " +:+
                             hashAlgo i.2 +:+ " hash `" +:+ printHash X h +:+
                             "', instead has `" +:+ printHash X h2 +:+ "'"))
             else
               match lstat (fs s) p with
               | None =>
                 throw (SysError ("getting attributes of path `" +:+ p +:+ "'"))
               | Some st =>
                 if negb (S_ISREG st) || negb (bool_decide (Z.land (mode st) S_IXUSR = 0%Z))
                 then throw (Error ("output path `" +:+ p +:+
                                    " should be a non-executable regular file"))
                 else mret tt
               end
           end
         end
     else mret tt);;
    canonicalisePathMetaData (geteuid X) p;;
    s' ← get;
    let refs : PathSet :=
      if negb (pathExists (fs s') (p +:+ "/nix-support/no-scan")) then
        list_to_set (filterReferences X (fs s') p (elements (allPaths d)))
      else ∅ in
    mret (<[p := refs]> acc.1, <[p := hashPath X htSHA256 (fs s') p]> acc.2).

(** The first loop of [computeClosure]. *)
Fixpoint scanOutputs (d : DerivationGoal) (outs : list (string * DerivationOutput))
    (acc : gmap string PathSet * gmap string Hash)
    : M World (gmap string PathSet * gmap string Hash) :=
  match outs with
  | [] => mret acc
  | i :: outs' => acc' ← scanOutput d i acc; scanOutputs d outs' acc'
  end.

(** [DerivationGoal::computeClosure]. *)
Definition computeClosure (this : GoalId) : M World unit :=
  d ← derivationGoal this;
  maps ← scanOutputs d (outputs (drv d)) (∅, ∅);
  let allReferences := maps.1 in
  let contentHashes := maps.2 in
  createStoreTransaction;;
  forEach (outputs (drv d)) (λ i,
    txnRegisterValidPath (path i.2) (contentHashes !!! path i.2);;
    txnSetReferences (path i.2) (default ∅ (allReferences !! path i.2)));;
  txnCommit;;
  setDeletion this true.

(** [DerivationGoal::buildDone]; [status] is what [wait] returns for
    the child. *)
Definition buildDone (this : GoalId) (status : Z) : M World unit :=
  d ← derivationGoal this;
  let savedPid := d_pid d in
  updDrv this (set_d_pid (-1));;
  liftW (childTerminated savedPid true);;
  updDrv this (set_d_logPipe (-1));;
  updDrv this (set_fdLogFile (-1));;
  if negb (statusOk status) then
    deleteTmpDir this false;;
    liftW (amDone G this false)
  else
    deleteTmpDir this true;;
    registered ← catchBuildError (computeClosure this;; mret true)
                   (λ _, liftW (amDone G this false);; mret false);
    if registered : bool then liftW (amDone G this true) else mret tt.

(** ** The substitution goal *)

(** The answers of the operating system while a substituter is started. *)
Record SubstStart : Type := mkSubstStart {
  ss_logPipe : Z;
  ss_fork : Z
}.

(** [SubstitutionGoal::tryNext]. *)
Definition tryNext (this : GoalId) : M World unit :=
  sg ← substitutionGoal this;
  match subs sg with
  | [] => liftW (amDone G this false)
  | front :: rest =>
    updSubst this (set_sub front);;
    updSubst this (set_subs rest);;
    updSubst this (set_s_state sTryToRun);;
    liftW (waitForBuildSlot G this false)
  end.

(** [SubstitutionGoal::referencesValid]. *)
Definition referencesValid (this : GoalId) : M World unit :=
  sg ← substitutionGoal this;
  t ← liftW (deref this);
  if (0 <? nrFailed t)%Z then
    throw (Error ("some references of path `" +:+ storePath sg +:+
                  "' could not be realised"))
  else
    forEach (elements (references sg)) (λ i,
      s ← get; cassert (isValidPath (db s) i) "isValidPath(*i)");;
    tryNext this.

(** [SubstitutionGoal::init]. *)
Definition init (this : GoalId) : M World unit :=
  sg ← substitutionGoal this;
  s ← get;
  if isValidPath (db s) (storePath sg) then liftW (amDone G this true)
  else
    updSubst this (set_subs (querySubstitutes (db s) (storePath sg)));;
    updSubst this (λ sg, set_references
      (queryReferences (db s) (storePath sg) ∪ references sg) sg);;
    sg1 ← substitutionGoal this;
    forEach (elements (references sg1)) (λ i,
      g ← liftW (makeSubstitutionGoal i);
      liftW (addWaitee this g));;
    t ← liftW (deref this);
    if bool_decide (waitees t = ∅) then referencesValid this
    else updSubst this (set_s_state sReferencesValid).

(** [SubstitutionGoal::tryToRun], on the side of the coordinator. *)
Definition tryToRun (this : GoalId) (o : SubstStart) : M World unit :=
  s ← get;
  if negb (canBuildMore G (worker s)) then liftW (waitForBuildSlot G this false)
  else
    sg ← substitutionGoal this;
    updSubst this (set_outputLock (Some (mkPathLocks {[storePath sg]} false)));;
    if isValidPath (db s) (storePath sg) then
      updSubst this (set_outputLock (Some (mkPathLocks {[storePath sg]} true)));;
      emit (EvSetDeletion {[storePath sg]} true);;
      liftW (amDone G this true)
    else
      updSubst this (set_s_logPipe (ss_logPipe o));;
      (if pathExists (fs s) (storePath sg) then deletePath (storePath sg)
       else mret tt);;
      if bool_decide (ss_fork o = (-1)%Z) then throw (SysError "unable to fork")
      else
        emit (EvFork (ss_fork o)
                (mkChildProgram (sub_program (sub sg))
                   (baseNameOf X (sub_program (sub sg)) :: storePath sg
                      :: sub_args (sub sg)) None));;
        updSubst this (set_s_pid (ss_fork o));;
        liftW (childStarted this (ss_fork o) (ss_logPipe o) true);;
        updSubst this (set_s_state sFinished).

(** [SubstitutionGoal::finished]; [status] is what [wait] returns for
    the substituter.  The [try] block yields whether the substitute has
    failed. *)
Definition finished (this : GoalId) (status : Z) : M World unit :=
  sg ← substitutionGoal this;
  let savedPid := s_pid sg in
  updSubst this (set_s_pid (-1));;
  liftW (childTerminated savedPid true);;
  updSubst this (set_s_logPipe (-1));;
  failed ← catchSubstError
    (if negb (statusOk status) then
       throw (SubstError ("builder for `" +:+ storePath sg +:+ "' " +:+
                          statusToString X status))
     else
       s ← get;
       if negb (pathExists (fs s) (storePath sg)) then
         throw (SubstError ("substitute did not produce path `" +:+
                            storePath sg +:+ "'"))
       else mret false)
    (λ _,
       updSubst this (set_s_state sTryNext);;
       liftW (wakeUp this);;
       mret true);
  if failed : bool then mret tt
  else
    canonicalisePathMetaData (geteuid X) (storePath sg);;
    s ← get;
    let contentHash := hashPath X htSHA256 (fs s) (storePath sg) in
    createStoreTransaction;;
    txnRegisterValidPath (storePath sg) contentHash;;
    txnCommit;;
    sg1 ← substitutionGoal this;
    updSubst this (set_outputLock
      ((λ l, mkPathLocks (lockedPaths l) true) <$> outputLock sg1));;
    emit (EvSetDeletion (default ∅ (lockedPaths <$> outputLock sg1)) true);;
    liftW (amDone G this true).

End Goals.

(** ** The first states of a derivation goal *)

Definition set_drv (v : Derivation) (d : DerivationGoal) : DerivationGoal :=
  mkDerivationGoal (drvPath d) v (outputLocks d) (inputPaths d) (allPaths d)
    (d_pid d) (tmpDir d) (fdLogFile d) (d_logPipe d) (d_state d).

Section States.

Variable G : Globals.
Variable X : External.

(** [DerivationGoal::init]. *)
Definition DerivationGoal_init (this : GoalId) : M World unit :=
  d ← derivationGoal this;
  g ← liftW (makeSubstitutionGoal (drvPath d));
  liftW (addWaitee this g);;
  updDrv this (set_d_state dHaveStoreExpr).

(** [DerivationGoal::outputsSubstituted]. *)
Definition outputsSubstituted (this : GoalId) : M World unit :=
  t ← liftW (deref this);
  d ← derivationGoal this;
  if (0 <? nrFailed t)%Z && negb (tryFallback G) then
    throw (Error ("some substitutes for the outputs of derivation `" +:+
                  drvPath d +:+ "' failed; try `--fallback'"))
  else
    liftW (updGoal this (set_nrFailed (λ _, 0%Z)));;
    s ← get;
    if bool_decide (size (checkPathValidity (drv d) false (db s)) = 0) then
      liftW (amDone G this true)
    else
      forEach (inputDrvs (drv d)) (λ i,
        g ← liftW (makeDerivationGoal i.1);
        liftW (addWaitee this g));;
      forEach (inputSrcs (drv d)) (λ i,
        g ← liftW (makeSubstitutionGoal i);
        liftW (addWaitee this g));;
      updDrv this (set_d_state dInputsRealised).

(** [DerivationGoal::haveStoreExpr]. *)
Definition haveStoreExpr (this : GoalId) : M World unit :=
  t ← liftW (deref this);
  if negb (bool_decide (nrFailed t = 0%Z)) then liftW (amDone G this false)
  else
    d ← derivationGoal this;
    s ← get;
    cassert (isValidPath (db s) (drvPath d)) "isValidPath(drvPath)";;
    updDrv this (set_drv (derivationFromPath X (fs s) (drvPath d)));;
    d1 ← derivationGoal this;
    let invalidOutputs := checkPathValidity (drv d1) false (db s) in
    if bool_decide (size invalidOutputs = 0) then liftW (amDone G this true)
    else
      forEach (elements invalidOutputs) (λ i,
        s' ← get;
        if bool_decide (0 < length (querySubstitutes (db s') i)) then
          g ← liftW (makeSubstitutionGoal i);
          liftW (addWaitee this g)
        else mret tt);;
      t1 ← liftW (deref this);
      if bool_decide (waitees t1 = ∅) then outputsSubstituted this
      else updDrv this (set_d_state dOutputsSubstituted).

(** [DerivationGoal::inputsRealised]. *)
Definition inputsRealised (this : GoalId) : M World unit :=
  t ← liftW (deref this);
  if negb (bool_decide (nrFailed t = 0%Z)) then liftW (amDone G this false)
  else
    updDrv this (set_d_state dTryToBuild);;
    liftW (wakeUp this).

End States.

(** ** The pseudo goal *)

(** [PseudoGoal::PseudoGoal]. *)
Definition newPseudoGoal : GoalBody := IsPseudoGoal true.

(** [PseudoGoal::isOkay]. *)
Definition isOkay (this : GoalId) : M Worker bool :=
  t ← deref this;
  match body t with
  | IsPseudoGoal success => mret success
  | _ => abort "not a PseudoGoal"
  end.

(** ** Lines on a pipe *)

(** What one call [read(fd, &ch, 1)] returns: a byte, the end of the
    file, an interruption by a signal ([EINTR]) or another error. *)
Inductive ReadResult : Type :=
  | RdByte (ch : Ascii.ascii)
  | RdEOF
  | RdEINTR
  | RdError.

Definition newline : Ascii.ascii := Ascii.ascii_of_nat 10.

(** The loop of [readLine], on the results of the calls of [read] to
    come; [s] is the line read so far.  The result is the line or the
    exception, with the results that were not consumed; it is [None] when
    the results run out, that is, when [read] blocks. *)
Fixpoint readLine_loop (input : list ReadResult) (s : string)
    : option (Result string * list ReadResult) :=
  match input with
  | [] => None
  | RdError :: rest => Some (Throw (SysError "reading a line"), rest)
  | RdEINTR :: rest => readLine_loop rest s
  | RdEOF :: rest => Some (Throw (Error "unexpected EOF reading a line"), rest)
  | RdByte ch :: rest =>
    if bool_decide (ch = newline) then Some (Ok s, rest)
    else readLine_loop rest (s +:+ String ch "")
  end.

(** [readLine]. *)
Definition readLine (input : list ReadResult) : option (Result string * list ReadResult) :=
  readLine_loop input "".

(** [writeLine], on the bytes that the descriptor has received. *)
Definition writeLine (s : string) : M string unit :=
  modify (λ out, out +:+ (s +:+ String newline "")).

(** [showPaths], on the paths in iteration order. *)
Definition showPaths (paths : list Path) : string :=
  foldl (λ s i, (if bool_decide (String.length s ≠ 0) then s +:+ ", " else s)
                +:+ ("`" +:+ i +:+ "'")) "" paths.

(** ** Vocabulary of the statements *)

(** The goal is a [PseudoGoal]. *)
Definition isPseudo (t : Goal) : bool :=
  match body t with IsPseudoGoal _ => true | _ => false end.

(** What a run of [waiteeDone] calls on the receivers [l] for the
    finished goal [g] leaves unchanged in the store of goals: liveness,
    the [done] flags, the dynamic class, the waitees of the goals other
    than the receivers, and the waiters of [g]. *)
Definition goals_kept (l : list GoalId) (g : GoalId) (w w' : Worker) : Prop :=
  ∀ r,
    match goals w !! r with
    | None => goals w' !! r = None
    | Some t0 =>
      ∃ t0', goals w' !! r = Some t0' ∧
        done t0' = done t0 ∧
        isPseudo t0' = isPseudo t0 ∧
        (r ∉ l → waitees t0' = waitees t0) ∧
        (r = g → waiters t0' = waiters t0)
    end.

(** The children that occupy a build slot. *)
Definition slotsInUse (w : Worker) : Z :=
  Z.of_nat (size (filter (λ kv : Z * Child, inBuildSlot kv.2 = true) (children w))).

(** Whatever its outcome, the computation [m] leads from a state that
    satisfies [P] to a state that satisfies [Q]. *)
Definition leads {S A} (P : S → Prop) (m : M S A) (Q : S → Prop) : Prop :=
  ∀ s, P s → Q (m s).2.

(** The build-slot counter of the worker has the value [n], and the
    registered children satisfy [C]. *)
Definition slotCount (C : gmap Z Child → Prop) (n : Z) (s : World) : Prop :=
  nrChildren (worker s) = n ∧ C (children (worker s)).

(** Moreover the child [pid] is registered outside the build slots. *)
Definition outsideSlots (C : gmap Z Child → Prop) (n : Z) (pid : Z) (s : World) : Prop :=
  slotCount C n s ∧
  ∃ c, children (worker s) !! pid = Some c ∧ inBuildSlot c = false.

(** Moreover it is the child of the derivation goal [this]. *)
Definition hookRunning (C : gmap Z Child → Prop) (n : Z) (this : GoalId) (pid : Z)
    (s : World) : Prop :=
  outsideSlots C n pid s ∧
  ∀ t d, goals (worker s) !! this = Some t → body t = IsDerivationGoal d →
         d_pid d = pid.

(** ** Tactics *)

(** Runs the monadic primitives of a goal one step further. *)
Ltac mrun :=
  cbv beta iota delta [mbind M_bind mret M_ret modify get cassert abort updGoal
                       throw deref wakeUp removeGoal].

Tactic Notation "mrun" "in" hyp(H) :=
  cbv beta iota delta [mbind M_bind mret M_ret modify get cassert abort updGoal
                       throw deref wakeUp removeGoal] in H.

(** Settles a decidable closed proposition by evaluation. *)
Ltac by_compute :=
  match goal with |- ?P => apply (@bool_decide_unpack P _); vm_compute; exact I end.

(** [needle] occurs in [hay]. *)
Fixpoint contains (needle hay : string) : bool :=
  String.prefix needle hay ||
  match hay with
  | EmptyString => false
  | String _ hay' => contains needle hay'
  end.

(** From a state that satisfies [P], the computation [m] ends with an
    outcome and a state that satisfy [Q]. *)
Definition hoare {S A} (P : S → Prop) (m : M S A) (Q : Result A → S → Prop) : Prop :=
  ∀ s, P s → Q (m s).1 (m s).2.

(** The goal [this] is a live derivation goal whose child is [p]. *)
Definition drvPid (this : GoalId) (p : Z) (w : Worker) : Prop :=
  ∃ t d, goals w !! this = Some t ∧ body t = IsDerivationGoal d ∧ d_pid d = p.

(** The goal [this] is a live derivation goal with child [p], the goals
    parked for a build slot are [W] and the registered children are
    [c]. *)
Definition hookState (this : GoalId) (W : gset GoalId) (p : Z) (c : gmap Z Child)
    (s : World) : Prop :=
  drvPid this p (worker s) ∧
  wantingToBuild (worker s) = W ∧
  children (worker s) = c.

(** The variables that [startBuilder] points at the build directory. *)
Definition tmpVars : list string :=
  ["NIX_BUILD_TOP"; "TMPDIR"; "TEMPDIR"; "TMP"; "TEMP"].

(** The defaults of the builder's environment. *)
Definition defaultEnv (G : Globals) : gmap string string :=
  <["NIX_STORE" := nixStore G]>
    (<["HOME" := "/homeless-shelter"]> (<["PATH" := "/path-not-set"]> ∅)).

(** The goal [this] is a live derivation goal whose members satisfy
    [φ]. *)
Definition drvSat (this : GoalId) (φ : DerivationGoal → Prop) (w : Worker) : Prop :=
  ∃ t d, goals w !! this = Some t ∧ body t = IsDerivationGoal d ∧ φ d.

(** What the loop of [startBuilder] over the outputs amounts to: the
    file system it leaves, the paths it deletes, in order, and the valid
    output path at which it stops, if any. *)
Fixpoint strayRemoval (d : DB) (outs : list (string * DerivationOutput)) (f : FS)
    : FS * list Path * option Path :=
  match outs with
  | [] => (f, [], None)
  | i :: outs' =>
    if isValidPath d (path i.2) then (f, [], Some (path i.2))
    else if pathExists f (path i.2) then
      let '(f', dels, r) := strayRemoval d outs' (deleteFS (path i.2) f) in
      (f', path i.2 :: dels, r)
    else strayRemoval d outs' f
  end.

Definition msgObstructed (p : Path) : string :=
  "obstructed build: path `" +:+ p +:+ "' exists".

(** The message of [startBuilder] for a derivation of another platform. *)
Definition msgPlatform (G : Globals) (d : DerivationGoal) : string :=
  "a `" +:+ platform (drv d) +:+ "' is required to build `" +:+ drvPath d +:+
  "', but I am a `" +:+ thisSystem G +:+ "'".

(** The part of the world that [startBuilder] keeps fixed, or extends in
    a known way, once the loop over the outputs is over. *)
Definition builderState (this : GoalId) (φ : DerivationGoal → Prop)
    (T : list Event) (C : gmap Z Child) (D : DB) (s : World) : Prop :=
  drvSat this φ (worker s) ∧ trace s = T ∧ children (worker s) = C ∧ db s = D.

(** The file system when the first loop of [computeClosure] reaches the
    output of index [k]: the outputs before it have been canonicalised. *)
Definition fsAt (X : External) (k : nat) (outs : list (string * DerivationOutput))
    (f : FS) : FS :=
  foldl (λ f i, canonFS (geteuid X) (path i.2) f) f (take k outs).

Definition msgMismatch (X : External) (o : DerivationOutput) (h h2 : Hash) : string :=
  "output path `" +:+ path o +:+ " should have " +:+ hashAlgo o +:+ " hash `" +:+
  printHash X h +:+ "', instead has `" +:+ printHash X h2 +:+ "'".

(** A fixed-output derivation output passes the checks of
    [computeClosure] on the file system [f]. *)
Definition fixedOutputOk (X : External) (o : DerivationOutput) (f : FS) : Prop :=
  hash o ≠ "" →
  parseHashType X (hashAlgo o) ≠ htUnknown ∧
  ∃ h st,
    parseHash X (parseHashType X (hashAlgo o)) (hash o) = inr h ∧
    hashFile X (parseHashType X (hashAlgo o)) f (path o) = inr h ∧
    lstat f (path o) = Some st ∧
    ftype st = Regular ∧
    Z.land (mode st) S_IXUSR = 0%Z.

(** The references that [computeClosure] finds for the output [p] on
    the file system [f]. *)
Definition scannedRefs (X : External) (d : DerivationGoal) (f : FS) (p : Path) : PathSet :=
  if negb (pathExists f (p +:+ "/nix-support/no-scan")) then
    list_to_set (filterReferences X f p (elements (allPaths d)))
  else ∅.

(** The maps that the first loop of [computeClosure] builds when every
    output passes. *)
Fixpoint scanMaps (X : External) (d : DerivationGoal)
    (outs : list (string * DerivationOutput)) (f : FS)
    (acc : gmap string PathSet * gmap string Hash)
    : gmap string PathSet * gmap string Hash :=
  match outs with
  | [] => acc
  | i :: outs' =>
    let f' := canonFS (geteuid X) (path i.2) f in
    scanMaps X d outs' f'
      (<[path i.2 := scannedRefs X d f' (path i.2)]> acc.1,
       <[path i.2 := hashPath X htSHA256 f' (path i.2)]> acc.2)
  end.

(** The updates that the second loop of [computeClosure] makes within
    its transaction, as events and as their effect on the store. *)
Definition regEvents (maps : gmap string PathSet * gmap string Hash)
    (outs : list (string * DerivationOutput)) : list Event :=
  outs ≫= λ i, [EvRegisterValidPath (path i.2) (maps.2 !!! path i.2);
                EvSetReferences (path i.2) (default ∅ (maps.1 !! path i.2))].

Definition regDB (maps : gmap string PathSet * gmap string Hash)
    (outs : list (string * DerivationOutput)) (D : DB) : DB :=
  foldl (λ D i, setReferences (path i.2) (default ∅ (maps.1 !! path i.2))
                  (registerValidPath (path i.2) (maps.2 !!! path i.2) D)) D outs.

Definition canonEvents (outs : list (string * DerivationOutput)) : list Event :=
  (λ i, EvCanonicalise (path i.2)) <$> outs.

(** The state after a successful [computeClosure]. *)
Definition closureDone (X : External) (this : GoalId) (d : DerivationGoal)
    (s : World) : World :=
  let outs := outputs (drv d) in
  let maps := scanMaps X d outs (fs s) (∅, ∅) in
  mkWorld
    (set_goals (alter (set_body (λ b,
       match b with
       | IsDerivationGoal d0 =>
         IsDerivationGoal
           (set_outputLocks (mkPathLocks (lockedPaths (outputLocks d0)) true) d0)
       | _ => b
       end)) this) (worker s))
    (regDB maps outs (db s))
    None
    (fsAt X (length outs) outs (fs s))
    (trace s ++ canonEvents outs ++ [EvTxnBegin] ++ regEvents maps outs ++
       [EvTxnCommit; EvSetDeletion (lockedPaths (outputLocks d)) true]).

(** The goal [this] is a live substitution goal whose members satisfy
    [φ]. *)
Definition substSat (this : GoalId) (φ : SubstitutionGoal → Prop) (w : Worker) : Prop :=
  ∃ t sg, goals w !! this = Some t ∧ body t = IsSubstitutionGoal sg ∧ φ sg.

(** The world while a method of the substitution goal [this] runs: the
    goals are those of the worker [w0], except that the members of
    [this], which was [t], are now some that satisfy [φ]; the rest of
    the worker satisfies [A]; and the store, the open transaction, the
    file system and the trace are the given ones. *)
Definition substState (this : GoalId) (t : Goal) (w0 : Worker)
    (φ : SubstitutionGoal → Prop) (A : Worker → Prop)
    (D : DB) (tx : option DB) (f : FS) (T : list Event) (s : World) : Prop :=
  (∃ sg, φ sg ∧
     goals (worker s) = <[this := set_body (λ _, IsSubstitutionGoal sg) t]> (goals w0)) ∧
  A (worker s) ∧ db s = D ∧ txn s = tx ∧ fs s = f ∧ trace s = T.

(** The events of a successful [finished] of the substitution of [p]
    with content hash [h] and lock [l]. *)
Definition substEvents (p : Path) (h : Hash) (l : option PathLocks) : list Event :=
  [EvCanonicalise p; EvTxnBegin; EvRegisterValidPath p h; EvTxnCommit;
   EvSetDeletion (default ∅ (lockedPaths <$> l)) true].

(** Object identities are handed out in increasing order: the goals that
    are alive have identities below the next one. *)
Definition wfAlloc (w : Worker) : Prop :=
  ∀ x, is_Some (goals w !! x) → (x < nextGoal w)%positive.

(** What the methods of the worker and of the base class [Goal] keep of
    the substitution goal [this]: its members, and the allocation
    discipline. *)
Definition substKept (this : GoalId) (φ : SubstitutionGoal → Prop) (w : Worker) : Prop :=
  wfAlloc w ∧ substSat this φ w.

(** ** A small store on which the definitions above can be run *)

Definition exG : Globals :=
  mkGlobals false false false 1 "x86_64-linux" "/nix/store" "/nix/var/log/nix".

(** Stand-ins for the library functions: a content hash is the content
    itself, and a path is referenced when it occurs in the content. *)
Definition exX : External := {|
  parseHashType := λ s,
    if String.eqb s "sha256" then htSHA256
    else if String.eqb s "sha1" then htSHA1
    else if String.eqb s "md5" then htMD5 else htUnknown;
  parseHash := λ ht s, inr (mkHash ht s);
  printHash := digest;
  hashFile := λ ht f p,
    match f !! p with
    | Some i => inr (mkHash ht (contents i))
    | None => inl (SysError "cannot open file")
    end;
  hashPath := λ ht f p, mkHash ht (default "" (contents <$> f !! p));
  filterReferences := λ f p cands,
    filter (λ c, contains c (default "" (contents <$> f !! p)) = true) cands;
  computeFSClosure := λ d p acc, {[p]} ∪ acc;
  derivationFromPath := λ f p, mkDerivation [] [] [] "" "" [] ∅;
  baseNameOf := λ p, p;
  absPath := λ p, p;
  statusToString := λ _, "failed";
  getEnv := λ k, if String.eqb k "NIX_BUILD_HOOK" then "/hook" else "";
  geteuid := 1000
|}.

(** A derivation with one output, for the platform [plat], whose
    environment binds [TMPDIR]. *)
Definition exDrv (plat : string) : Derivation :=
  mkDerivation [("out", mkDerivationOutput "/nix/store/hello" "" "")] [] []
    plat "/bin/sh" ["-e"; "builder.sh"]
    (<["TMPDIR" := "/var/tmp"]> (<["name" := "hello"]> ∅)).

Definition exDrvGoal (d : Derivation) : Goal :=
  mkGoal ∅ ∅ 0 false
    (IsDerivationGoal
       (mkDerivationGoal "/nix/store/hello.drv" d
          (mkPathLocks {["/nix/store/hello"]} false) ∅
          {["/nix/store/hello"; "/nix/store/glibc"]} (-1) "" (-1) (-1) dTryToBuild)).

Definition exDB (valid : list (Path * Hash)) : DB :=
  mkDB (list_to_map valid) ∅ ∅ ∅ ∅.

(** A world whose only goal, of identity [1], is [t]. *)
Definition exWorld (t : Goal) (D : DB) (f : FS) : World :=
  mkWorld (set_nextGoal 2%positive (set_goals (λ _, {[1%positive := t]}) newWorker))
    D None f [].

Definition exStart : BuilderStart := mkBuilderStart "/tmp/nix-1" 5 6 100.

Definition exFile (c : string) : Inode := mkInode Regular 420 0 1234 c.

(** The output of the example lies on disk, unregistered. *)
Definition exStray : World :=
  exWorld (exDrvGoal (exDrv "x86_64-linux")) (exDB [])
    (<["/nix/store/hello" := mkInode Directory 493 0 1234 ""]>
       (<["/nix/store/hello/bin" := exFile "stray"]> ∅)).

(** The output of the example is valid, and the derivation is for
    another platform. *)
Definition exObstructed : World :=
  exWorld (exDrvGoal (exDrv "i686-linux"))
    (exDB [("/nix/store/hello", mkHash htSHA256 "old")]) ∅.

(** Three substitution goals: [1] waits for [2] and for [3]. *)
Definition exWaiting : Worker :=
  set_nextGoal 4%positive (set_goals (λ _,
    <[1%positive := mkGoal {[2%positive; 3%positive]} ∅ 0 false
                      (newSubstitutionGoal "/nix/store/a")]>
      (<[2%positive := mkGoal ∅ {[1%positive]} 0 false
                         (newSubstitutionGoal "/nix/store/b")]>
         (<[3%positive := mkGoal ∅ {[1%positive]} 0 false
                            (newSubstitutionGoal "/nix/store/c")]> ∅))) newWorker).

(** A build hook that asks to postpone the build. *)
Definition exHook : HookStart := mkHookStart "/tmp/nix-2" 7 8 101 (inr "postpone").

(** The builder of the example has left its output, which mentions one
    of the two candidate paths. *)
Definition exBuilt : World :=
  exWorld (exDrvGoal (exDrv "x86_64-linux")) (exDB [])
    {["/nix/store/hello" := exFile "#! /nix/store/glibc/bin/sh"]}.

(** A fixed-output derivation and an output with another content. *)
Definition exFixed : Derivation :=
  mkDerivation [("out", mkDerivationOutput "/nix/store/hello" "sha256" "abc")]
    [] [] "x86_64-linux" "/bin/fetch" [] ∅.

Definition exFetched : World :=
  exWorld (exDrvGoal exFixed) (exDB []) {["/nix/store/hello" := exFile "xyz"]}.

(** A substitution goal whose substituter, the child [100], has exited. *)
Definition exSubst : SubstitutionGoal :=
  mkSubstitutionGoal "/nix/store/glibc" [] (mkSubstitute "" "/bin/fetch" []) ∅
    6 100 (Some (mkPathLocks {["/nix/store/glibc"]} false)) sFinished.

Definition exSubstituted : World :=
  set_worker
    (λ w, set_nrChildren (λ _, 1%Z)
            (set_children (λ _, {[100%Z := mkChild 1%positive 6 true]}) w))
    (exWorld (mkGoal ∅ ∅ 0 false (IsSubstitutionGoal exSubst))
       (mkDB ∅ {["/nix/store/glibc" := ["/nix/store/linux-headers"]]} ∅ ∅ ∅)
       {["/nix/store/glibc" := exFile "libc"]}).

(** A derivation with an input source, a fresh goal for it, and the
    effect of its builder, whose output mentions the source. *)
Definition exSourcedDrv : Derivation :=
  mkDerivation [("out", mkDerivationOutput "/nix/store/hello" "" "")] []
    ["/nix/store/builder.sh"] "x86_64-linux" "/bin/sh" ["/nix/store/builder.sh"] ∅.

Definition exSourcedGoal : DerivationGoal :=
  mkDerivationGoal "/nix/store/hello.drv" exSourcedDrv (mkPathLocks ∅ false)
    ∅ ∅ (-1) "" (-1) (-1) dTryToBuild.

Definition exSourced : World :=
  exWorld (newGoal (IsDerivationGoal exSourcedGoal)) (exDB [])
    {["/nix/store/builder.sh" := exFile "echo hello"]}.

Definition exRun (s : World) : World :=
  set_fs <["/nix/store/hello" := exFile "made by /nix/store/builder.sh"]> s.

(** The builder of the example, the child [100], has exited. *)
Definition exBuilding : World :=
  set_worker
    (λ w, set_nrChildren (λ _, 1%Z)
            (set_children (λ _, {[100%Z := mkChild 1%positive 6 true]}) w))
    (exWorld
       (mkGoal ∅ ∅ 0 false
          (IsDerivationGoal
             (mkDerivationGoal "/nix/store/hello.drv" (exDrv "x86_64-linux")
                (mkPathLocks {["/nix/store/hello"]} false) ∅
                {["/nix/store/hello"; "/nix/store/glibc"]} 100 "/tmp/nix-1" 5 6
                dBuildDone)))
       (exDB [])
       {["/tmp/nix-1" := mkInode Directory 493 1000 1234 ""]}).

(** A worker whose only goal, of identity [1], is a new pseudo goal. *)
Definition exPseudo : Worker :=
  set_nextGoal 2%positive (set_goals (λ _, {[1%positive := newGoal newPseudoGoal]}) newWorker).

(** The stand-ins above, except that every derivation file holds the
    derivation of the example. *)
Definition exLoader : External := {|
  parseHashType := parseHashType exX;
  parseHash := parseHash exX;
  printHash := printHash exX;
  hashFile := hashFile exX;
  hashPath := hashPath exX;
  filterReferences := filterReferences exX;
  computeFSClosure := computeFSClosure exX;
  derivationFromPath := λ _ _, exDrv "x86_64-linux";
  baseNameOf := baseNameOf exX;
  absPath := absPath exX;
  statusToString := statusToString exX;
  getEnv := getEnv exX;
  geteuid := geteuid exX
|}.

(** A new derivation goal whose derivation is valid and whose output
    is not, but has a substitute. *)
Definition exLoading : World :=
  exWorld (newGoal (newDerivationGoal "/nix/store/hello.drv"))
    (mkDB {["/nix/store/hello.drv" := mkHash htSHA256 "drv"]} ∅ ∅
       {["/nix/store/hello" := [mkSubstitute "" "/bin/fetch" []]]} ∅) ∅.

(** A substitution goal about to run its substituter, with a stale copy
    of its path on disk; and the answers of the operating system. *)
Definition exToRun : World :=
  exWorld
    (mkGoal ∅ ∅ 0 false
       (IsSubstitutionGoal
          (mkSubstitutionGoal "/nix/store/glibc" []
             (mkSubstitute "" "/bin/fetch" ["--from"; "cache"]) ∅
             (-1) (-1) None sTryToRun)))
    (exDB []) {["/nix/store/glibc" := exFile "stale"]}.

Definition exSubstStart : SubstStart := mkSubstStart 6 100.

(** The stand-ins above, without a build hook. *)
Definition exNoHook : External := {|
  parseHashType := parseHashType exX;
  parseHash := parseHash exX;
  printHash := printHash exX;
  hashFile := hashFile exX;
  hashPath := hashPath exX;
  filterReferences := filterReferences exX;
  computeFSClosure := computeFSClosure exX;
  derivationFromPath := derivationFromPath exX;
  baseNameOf := baseNameOf exX;
  absPath := absPath exX;
  statusToString := statusToString exX;
  getEnv := λ _, "";
  geteuid := geteuid exX
|}.

(** The derivation of the example is for another platform, and its
    output is not valid. *)
Definition exForeign : World :=
  exWorld (exDrvGoal (exDrv "i686-linux")) (exDB []) ∅.

(** A new substitution goal, registered for its path, which refers to
    itself and to another path. *)
Definition exSelf : World :=
  set_worker (set_substitutionGoals (λ _, {["/nix/store/gcc" := 1%positive]}))
    (exWorld (newGoal (newSubstitutionGoal "/nix/store/gcc"))
       (mkDB ∅ {["/nix/store/gcc" := ["/nix/store/gcc"; "/nix/store/glibc"]]} ∅
          {["/nix/store/gcc" := [mkSubstitute "" "/bin/fetch" []]]} ∅) ∅).

(** ** Vocabulary of the further properties *)

(** The waiter links are consistent: a live goal [x] recorded as a
    waiter of a live goal [g] still waits for [g], unless [x] is the
    pseudo goal (which keeps no account of its waitees). *)
Definition linked (w : Worker) : Prop :=
  ∀ g x tg tx,
    goals w !! g = Some tg → x ∈ waiters tg → goals w !! x = Some tx →
    isPseudo tx = true ∨ g ∈ waitees tx.

(** The same for the waiters of the goals other than [g]. *)
Definition linkedExcept (g : GoalId) (w : Worker) : Prop :=
  ∀ g' x tg tx,
    g' ≠ g →
    goals w !! g' = Some tg → x ∈ waiters tg → goals w !! x = Some tx →
    isPseudo tx = true ∨ g' ∈ waitees tx.

(** What [make p] does in the worker [w], for one of the two goal maps:
    it returns a goal that is alive and registered for [p]; a live goal
    that was registered is reused and nothing changes; otherwise a new
    goal object is made at a fresh identity, registered and woken up;
    the goals that were alive and the registrations of the other paths
    are as before; and a second call returns the same goal and changes
    nothing. *)
Definition goalCached (make : Path → M Worker GoalId)
    (goalMap : Worker → gmap string GoalId) (mk : Path → GoalBody)
    (p : Path) (w : Worker) : Prop :=
  ∃ g w',
    make p w = (Ok g, w') ∧
    goalMap w' !! p = Some g ∧
    is_Some (goals w' !! g) ∧
    (∀ q, q ≠ p → goalMap w' !! q = goalMap w !! q) ∧
    wfAlloc w' ∧
    (∀ x t, goals w !! x = Some t → goals w' !! x = Some t) ∧
    make p w' = (Ok g, w') ∧
    ((goalMap w !! p = Some g ∧ is_Some (goals w !! g) ∧ w' = w) ∨
     (goalMap w !! p ≫= lock w = None ∧
      goals w !! g = None ∧
      goals w' !! g = Some (newGoal (mk p)) ∧
      g ∈ awake w' ∧
      ∀ x, x ≠ g → goals w' !! x = goals w !! x)).

(** After a step from a worker with [n] occupied build slots: the
    counter is unchanged, or a slot was free and one more is occupied. *)
Definition slotTaken (G : Globals) (n : Z) (w : Worker) : Prop :=
  nrChildren w = n ∨ ((n < maxBuildJobs G)%Z ∧ nrChildren w = wrap (n + 1)).

(** The counter is unchanged, or a slot was occupied and one fewer is. *)
Definition slotFreed (n : Z) (w : Worker) : Prop :=
  nrChildren w = n ∨ ((0 < n)%Z ∧ nrChildren w = wrap (n - 1)).

(** No more than [maxBuildJobs] build slots are occupied. *)
Definition slotsBounded (G : Globals) (w : Worker) : Prop :=
  (0 ≤ nrChildren w ≤ maxBuildJobs G)%Z.

(** The bytes that a sequence of [read] results delivers. *)
Definition received (input : list ReadResult) : string :=
  foldr (λ r acc, match r with RdByte ch => String ch acc | _ => acc end) "" input.

(** The sequence has neither an end of file nor an error. *)
Definition uneventful (input : list ReadResult) : Prop :=
  Forall (λ r, r ≠ RdEOF ∧ r ≠ RdError) input.

(** The string has no newline character. *)
Definition oneLine (s : string) : Prop :=
  newline ∉ String.list_ascii_of_string s.

(** The goal [this] waits for the goal [g]: both are alive, [g] is
    among the waitees of [this] and [this] among the waiters of [g]. *)
Definition waitsFor (this g : GoalId) (w : Worker) : Prop :=
  ∃ t tg, goals w !! this = Some t ∧ goals w !! g = Some tg ∧
          g ∈ waitees t ∧ this ∈ waiters tg.

(** The goal [this] waits for the goal that the map [goalMap] holds for
    the path [p]. *)
Definition waitsForPath (this : GoalId) (goalMap : Worker → gmap string GoalId)
    (p : Path) (w : Worker) : Prop :=
  ∃ g, goalMap w !! p = Some g ∧ waitsFor this g w.

(** What the creation of goals and of links from [this] to them leaves
    of a worker [w] in [w']: the goals that were alive are alive, with
    their class and members, except that waiters were added and that
    [this] has got waitees; the goals registered for a path are still
    registered for it; only new goals were woken up, and nothing else
    has changed. *)
Definition grows (this : GoalId) (w w' : Worker) : Prop :=
  wfAlloc w' ∧
  (∀ x tx, goals w !! x = Some tx →
     ∃ tx', goals w' !! x = Some tx' ∧ body tx' = body tx ∧
            nrFailed tx' = nrFailed tx ∧ done tx' = done tx ∧
            waitees tx ⊆ waitees tx' ∧ waiters tx ⊆ waiters tx' ∧
            (x ≠ this → waitees tx' = waitees tx)) ∧
  (∀ p g, derivationGoals w !! p = Some g → is_Some (goals w !! g) →
          derivationGoals w' !! p = Some g) ∧
  (∀ p g, substitutionGoals w !! p = Some g → is_Some (goals w !! g) →
          substitutionGoals w' !! p = Some g) ∧
  (∀ x, is_Some (goals w !! x) → x ∈ awake w' → x ∈ awake w) ∧
  awake w ⊆ awake w' ∧
  children w' = children w ∧ nrChildren w' = nrChildren w ∧
  wantingToBuild w' = wantingToBuild w ∧ topGoals w' = topGoals w ∧
  notified w' = notified w.

(** The goals that [this] waits for in [w'] are those it waited for in
    [w] and the goals that [goalMap] holds for the paths [ps], and it
    does wait for the latter. *)
Definition attachedAll (this : GoalId) (goalMap : Worker → gmap string GoalId)
    (ps : list Path) (w w' : Worker) : Prop :=
  grows this w w' ∧
  (∀ p, p ∈ ps → waitsForPath this goalMap p w') ∧
  (∀ t t' g, goals w !! this = Some t → goals w' !! this = Some t' →
     g ∈ waitees t' → g ∈ waitees t ∨ ∃ p, p ∈ ps ∧ goalMap w' !! p = Some g).

(** * Properties *)

(** ** The scheduler *)

Lemma lock_alive w i : is_Some (goals w !! i) → lock w i = Some i.
Proof. intros H. unfold lock. by rewrite decide_True. Qed.

Lemma lock_Some w i x : lock w i = Some x → x = i ∧ is_Some (goals w !! i).
Proof. unfold lock. case_decide; naive_solver. Qed.

Lemma lock_None w i : lock w i = None → goals w !! i = None.
Proof.
  unfold lock. case_decide; [done|].
  intros _. by apply eq_None_not_Some.
Qed.

Lemma filter_not_this w g (s : gset GoalId) :
  is_Some (goals w !! g) →
  filter (λ j, lock w j ≠ Some g) s = s ∖ {[g]}.
Proof.
  intros Hg. apply set_eq. intros j.
  rewrite elem_of_filter, elem_of_difference, elem_of_singleton.
  split; intros [H1 H2]; split; auto.
  - intros ->. apply H1. by apply lock_alive.
  - intros Hl. apply lock_Some in Hl as [-> _]. done.
Qed.

Lemma set_goals_id w : set_goals (λ _, goals w) w = w.
Proof. by destruct w. Qed.

Lemma set_waiters_twice g t :
  set_waiters (λ s, s ∖ {[g]}) (set_waiters (λ s : gset GoalId, s ∖ {[g]}) t)
  = set_waiters (λ s, s ∖ {[g]}) t.
Proof. destruct t. unfold set_waiters. simpl. f_equal. set_solver. Qed.

(** The loop of [Goal::waiteeDone] that takes [g] out of the waiter sets
    of the goals in [l]. *)
Lemma detach_loop g l : ∀ w,
  is_Some (goals w !! g) →
  ∃ h,
    forEach l (λ r, w0 ← get;
      updGoal r (set_waiters (filter (λ j, lock w0 j ≠ Some g)))) w
    = (Ok tt, set_goals (λ _, h) w) ∧
    ∀ r, h !! r =
         if decide (r ∈ l)
         then set_waiters (λ s, s ∖ {[g]}) <$> goals w !! r
         else goals w !! r.
Proof.
  induction l as [|r l IH]; intros w Hg.
  - exists (goals w). split.
    + simpl. by rewrite set_goals_id.
    + intros r. rewrite decide_False; [done|]. by apply not_elem_of_nil.
  - set (w1 := set_goals (alter (set_waiters (λ s, s ∖ {[g]})) r) w).
    assert (Hstep : (w0 ← get;
      updGoal r (set_waiters (filter (λ j, lock w0 j ≠ Some g)))) w = (Ok tt, w1)).
    { unfold mbind, M_bind, get, updGoal, modify, w1. simpl. f_equal.
      unfold set_goals. f_equal. apply alter_ext. intros t _.
      unfold set_waiters. f_equal. by apply filter_not_this. }
    assert (Hg1 : is_Some (goals w1 !! g)).
    { unfold w1. simpl. rewrite lookup_alter. case_decide; [|done].
      subst. destruct Hg as [t ->]. eauto. }
    destruct (IH w1 Hg1) as (h & Hrun & Hh).
    exists h. split.
    + simpl. unfold mbind at 1. unfold M_bind at 1. rewrite Hstep.
      rewrite Hrun. done.
    + intros r0. rewrite Hh. unfold w1. simpl. rewrite lookup_alter.
      destruct (decide (r = r0)) as [->|Hne].
      * rewrite (decide_True (P := r0 ∈ r0 :: l)) by apply list_elem_of_here.
        case_decide; [|done].
        destruct (goals w !! r0) as [t|]; [|done]. simpl.
        by rewrite set_waiters_twice.
      * destruct (decide (r0 ∈ l)) as [Hin|Hnin].
        -- rewrite decide_True; [done|]. by apply list_elem_of_further.
        -- rewrite decide_False; [done|].
           rewrite elem_of_cons. naive_solver.
Qed.

Lemma bind_run {S A B} (m : M S A) (k : A → M S B) (s s1 : S) (a : A)
    (r : Result B * S) :
  m s = (Ok a, s1) → k a s1 = r → (m ≫= k) s = r.
Proof. intros Hm Hk. unfold mbind, M_bind. by rewrite Hm. Qed.

Lemma derivationGoal_ok (this : GoalId) (s : World) (t : Goal) (d : DerivationGoal) :
  goals (worker s) !! this = Some t →
  body t = IsDerivationGoal d →
  derivationGoal this s = (Ok d, s).
Proof.
  intros Ht Hb. unfold derivationGoal, liftW, deref. mrun. rewrite Ht. simpl.
  rewrite Hb. simpl. by destruct s.
Qed.

(** The first half of [Goal::waiteeDone]: the waitee is erased and the
    failure counter updated. *)
Lemma Goal_waiteeDone_run (G : Globals) (g x : GoalId) (success : bool)
    (w : Worker) (t : Goal) :
  goals w !! g = Some t →
  x ∈ waitees t →
  let t1 := (if success then set_waitees (λ s, s ∖ {[x]}) t
             else set_nrFailed (λ n, wrap (n + 1))
                    (set_waitees (λ s, s ∖ {[x]}) t)) in
  let w1 := set_goals (λ _, <[g := t1]> (goals w)) w in
  Goal_waiteeDone G g x success w =
    if bool_decide (waitees t ∖ {[x]} = ∅) || (negb success && negb (keepGoing G))
    then
      (forEach (elements (waitees t ∖ {[x]})) (λ r, w0 ← get;
         updGoal r (set_waiters (filter (λ j, lock w0 j ≠ Some g))));;
       updGoal g (set_waitees (λ _, ∅));; wakeUp g) w1
    else (Ok tt, w1).
Proof.
  intros Hg Hx t1 w1.
  assert (Hw1 : goals w1 !! g = Some t1) by (simpl; apply lookup_insert_eq).
  assert (Hwt1 : waitees t1 = waitees t ∖ {[x]}) by (unfold t1; by destruct success).
  unfold Goal_waiteeDone. mrun. rewrite Hg.
  rewrite bool_decide_eq_true_2 by done.
  assert (Hs : ∀ s, (if success then (λ s : Worker, (Ok tt, s))
         else (λ s, (Ok tt, set_goals (alter (set_nrFailed (λ n, wrap (n + 1))) g) s))) s
       = (Ok tt, if success then s else set_goals (alter (set_nrFailed (λ n, wrap (n + 1))) g) s)).
  { intros s. by destruct success. }
  rewrite Hs. clear Hs.
  assert (Hw : (if success then set_goals (alter (set_waitees (λ s, s ∖ {[x]})) g) w
     else set_goals (alter (set_nrFailed (λ n, wrap (n + 1))) g)
            (set_goals (alter (set_waitees (λ s, s ∖ {[x]})) g) w)) = w1).
  { unfold w1, t1. destruct success; unfold set_goals; simpl;
      f_equal; apply map_eq; intros i; rewrite ?lookup_alter, lookup_insert;
      repeat case_decide; subst; rewrite ?Hg; try done. }
  rewrite Hw, Hw1, Hwt1.
  by destruct (bool_decide (waitees t ∖ {[x]} = ∅) || negb success && negb (keepGoing G)).
Qed.

(** The second half: the goal is detached from its remaining waitees,
    its waitee set is cleared and it is woken up. *)
Lemma Goal_waiteeDone_wake (g : GoalId) (rest : gset GoalId)
    (w1 : Worker) :
  is_Some (goals w1 !! g) →
  ∃ h,
    (forEach (elements rest) (λ r, w0 ← get;
       updGoal r (set_waiters (filter (λ j, lock w0 j ≠ Some g))));;
     updGoal g (set_waitees (λ _, ∅));; wakeUp g) w1
    = (Ok tt, set_awake (λ s, {[g]} ∪ s)
                (set_goals (λ _, alter (set_waitees (λ _, ∅)) g h) w1)) ∧
    ∀ r, h !! r =
         if decide (r ∈ rest)
         then set_waiters (λ s, s ∖ {[g]}) <$> goals w1 !! r
         else goals w1 !! r.
Proof.
  intros Hg.
  destruct (detach_loop g (elements rest) w1 Hg) as (h & Hrun & Hh).
  exists h. split.
  - unfold mbind at 1. unfold M_bind at 1. rewrite Hrun. reflexivity.
  - intros r. rewrite Hh.
    destruct (decide (r ∈ rest)) as [Hin|Hnin].
    + rewrite decide_True; [done|]. by apply elem_of_elements.
    + rewrite decide_False; [done|]. by rewrite elem_of_elements.
Qed.

(** The complete effect of [Goal::waiteeDone] on the worker. *)
Lemma Goal_waiteeDone_effect (G : Globals) (g x : GoalId) (success : bool)
    (w : Worker) (t : Goal) :
  goals w !! g = Some t →
  x ∈ waitees t →
  let rest := waitees t ∖ {[x]} in
  let wake := bool_decide (rest = ∅) || (negb success && negb (keepGoing G)) in
  ∃ w',
    Goal_waiteeDone G g x success w = (Ok tt, w') ∧
    w' = set_awake (λ _, awake w') (set_goals (λ _, goals w') w) ∧
    awake w' = (if wake then {[g]} ∪ awake w else awake w) ∧
    goals w' !! g =
      Some (mkGoal (if wake then ∅ else rest)
              (if wake && bool_decide (g ∈ rest)
               then waiters t ∖ {[g]} else waiters t)
              (if success then nrFailed t else wrap (nrFailed t + 1))
              (done t) (body t)) ∧
    ∀ r, r ≠ g →
      goals w' !! r =
        (if wake && bool_decide (r ∈ rest)
         then set_waiters (λ s, s ∖ {[g]}) else id) <$> goals w !! r.
Proof.
  intros Hg Hx rest wake.
  pose proof (Goal_waiteeDone_run G g x success w t Hg Hx) as Hrun.
  cbv zeta in Hrun. fold rest in Hrun. fold wake in Hrun.
  set (t1 := (if success then set_waitees (λ s, s ∖ {[x]}) t
              else set_nrFailed (λ n, wrap (n + 1))
                     (set_waitees (λ s, s ∖ {[x]}) t))) in *.
  set (w1 := set_goals (λ _, <[g := t1]> (goals w)) w) in *.
  assert (Hw1 : goals w1 !! g = Some t1) by (simpl; apply lookup_insert_eq).
  assert (Ht1 : t1 = mkGoal rest (waiters t)
            (if success then nrFailed t else wrap (nrFailed t + 1))
            (done t) (body t)).
  { unfold t1. by destruct success. }
  assert (Hother : ∀ r, r ≠ g → goals w1 !! r = goals w !! r).
  { intros r Hr. simpl. by rewrite lookup_insert_ne. }
  destruct wake eqn:Hwake.
  - destruct (Goal_waiteeDone_wake g rest w1 (mk_is_Some _ _ Hw1)) as (h & Hrun2 & Hh).
    rewrite Hrun2 in Hrun. eexists. split; [exact Hrun|].
    split; [done|]. split; [done|]. simpl. split.
    + rewrite lookup_alter_eq, Hh, Hw1, Ht1. simpl.
      destruct (decide (g ∈ rest)).
      * by rewrite bool_decide_eq_true_2.
      * by rewrite bool_decide_eq_false_2.
    + intros r Hne. rewrite lookup_alter_ne, Hh, Hother by done.
      destruct (decide (r ∈ rest)).
      * by rewrite bool_decide_eq_true_2.
      * rewrite bool_decide_eq_false_2 by done. simpl.
        by destruct (goals w !! r).
  - rewrite Hrun. exists w1. split; [done|].
    split; [by destruct w|]. split; [done|]. split.
    + by rewrite Hw1, Ht1.
    + intros r Hne. rewrite Hother by done. simpl. by destruct (goals w !! r).
Qed.



Lemma waiteeDone_effect (G : Globals) (x g : GoalId) (b : bool)
    (w : Worker) (tx : Goal) :
  goals w !! x = Some tx →
  isPseudo tx = true ∨ g ∈ waitees tx →
  ∃ w',
    waiteeDone G x g b w = (Ok tt, w') ∧
    notified w' = notified w ++ [mkNotification x g b] ∧
    topGoals w' = topGoals w ∧
    goals_kept [x] g w w'.
Proof.
  intros Hx Hpre. unfold waiteeDone. mrun. rewrite Hx.
  set (wn := set_notified (λ h, h ++ [mkNotification x g b]) w).
  destruct (isPseudo tx) eqn:Hps.
  - unfold isPseudo in Hps. destruct (body tx) as [| |s] eqn:Hb; try done.
    unfold PseudoGoal_waiteeDone. destruct b; mrun.
    + exists wn. split; [done|]. split; [done|]. split; [done|].
      intros r. change (goals wn !! r) with (goals w !! r).
      destruct (goals w !! r) as [t0|]; [|done]. by exists t0.
    + eexists. split; [reflexivity|]. split; [done|]. split; [done|].
      intros r. simpl. rewrite lookup_alter.
      destruct (decide (x = r)) as [<-|Hne].
      * rewrite Hx. simpl. eexists. split; [done|]. unfold isPseudo. simpl.
        rewrite Hb. split; [done|]. split; [done|].
        split; [set_solver|done].
      * destruct (goals w !! r) as [t0|]; [|done]. by exists t0.
  - destruct Hpre as [?|Hin]; [done|].
    assert (Hdisp : match body tx with
                    | IsPseudoGoal _ => PseudoGoal_waiteeDone x g b
                    | _ => Goal_waiteeDone G x g b
                    end = Goal_waiteeDone G x g b).
    { unfold isPseudo in Hps. by destruct (body tx). }
    rewrite Hdisp.
    destruct (Goal_waiteeDone_effect G x g b wn tx Hx Hin)
      as (w' & Hrun & Hfr & _ & Hxx & Hoth).
    exists w'. split; [exact Hrun|].
    split; [by rewrite Hfr|]. split; [by rewrite Hfr|].
    intros r. destruct (decide (r = x)) as [->|Hne].
    + rewrite Hx, Hxx. eexists. split; [done|]. simpl.
      split; [done|]. split; [done|]. split; [set_solver|].
      intros <-. rewrite (bool_decide_eq_false_2 (x ∈ _)) by set_solver.
      by rewrite andb_false_r.
    + rewrite (Hoth r Hne). change (goals wn !! r) with (goals w !! r).
      destruct (goals w !! r) as [t0|]; simpl; [|done].
      eexists. split; [done|].
      match goal with |- context [if ?c then _ else _] => destruct c eqn:Hc end;
        simpl; (split; [done|]); (split; [done|]); (split; [done|]).
      * intros ->. apply andb_true_iff in Hc as [_ Hc].
        apply bool_decide_eq_true_1 in Hc. set_solver.
      * done.
Qed.

Lemma goals_kept_refl l g w : goals_kept l g w w.
Proof. intros r. destruct (goals w !! r) as [t0|] eqn:H; [|done]. by exists t0. Qed.

Lemma goals_kept_cons x l g w w1 w' :
  goals_kept [x] g w w1 → goals_kept l g w1 w' → goals_kept (x :: l) g w w'.
Proof.
  intros H1 H2 r. specialize (H1 r). specialize (H2 r).
  destruct (goals w !! r) as [t0|].
  - destruct H1 as (t1 & E1 & D1 & P1 & W1 & R1). rewrite E1 in H2.
    destruct H2 as (t2 & E2 & D2 & P2 & W2 & R2).
    exists t2. split; [done|]. split; [congruence|]. split; [congruence|].
    split.
    + intros Hr. rewrite W2, W1; [done| |]; set_solver.
    + intros Hr. rewrite R2, R1; done.
  - by rewrite H1 in H2.
Qed.

Lemma goals_kept_weaken x l g w w' :
  goals_kept l g w w' → goals_kept (x :: l) g w w'.
Proof.
  intros H r. specialize (H r). destruct (goals w !! r) as [t0|]; [|done].
  destruct H as (t1 & E1 & D1 & P1 & W1 & R1). exists t1.
  repeat split; try done. intros Hr. apply W1. set_solver.
Qed.

Lemma goals_kept_alive l g w w' r :
  goals_kept l g w w' → is_Some (goals w' !! r) ↔ is_Some (goals w !! r).
Proof.
  intros H. specialize (H r). destruct (goals w !! r) as [t0|].
  - destruct H as (t1 & -> & _). split; eauto.
  - rewrite H. done.
Qed.

(** The loop of [Goal::amDone] over the waiters of the finished goal. *)
Lemma notify_loop (G : Globals) (g : GoalId) (b : bool) (l : list GoalId) :
  NoDup l → ∀ w,
  (∀ x tx, x ∈ l → goals w !! x = Some tx →
           isPseudo tx = true ∨ g ∈ waitees tx) →
  ∃ w',
    forEach l (λ i, w0 ← get;
      match lock w0 i with
      | Some x => waiteeDone G x g b
      | None => mret tt
      end) w = (Ok tt, w') ∧
    notified w' = notified w ++
      ((λ x, mkNotification x g b) <$> filter (λ x, is_Some (goals w !! x)) l) ∧
    topGoals w' = topGoals w ∧
    goals_kept l g w w'.
Proof.
  induction 1 as [|x l Hnin Hnd IH]; intros w Hpre.
  - exists w. split; [done|]. split; [by rewrite app_nil_r|].
    split; [done|]. apply goals_kept_refl.
  - simpl. unfold mbind at 1. unfold M_bind at 1.
    unfold mbind at 1. unfold M_bind at 1. unfold get at 1.
    destruct (goals w !! x) as [tx|] eqn:Hx.
    + rewrite lock_alive by eauto.
      destruct (waiteeDone_effect G x g b w tx Hx) as (w1 & Hrun & Hn1 & Ht1 & Hk1).
      { apply (Hpre x); [set_solver|done]. }
      rewrite Hrun.
      destruct (IH w1) as (w' & Hrun' & Hn' & Ht' & Hk').
      { intros y ty1 Hy Hy1. specialize (Hk1 y).
        destruct (goals w !! y) as [ty0|] eqn:Hy0; [|congruence].
        destruct Hk1 as (ty1' & E & _ & P & W & _).
        assert (ty1' = ty1) as -> by congruence.
        rewrite P, W by set_solver. apply (Hpre y); [set_solver|done]. }
      exists w'. split; [exact Hrun'|]. split.
      * rewrite Hn', Hn1, <- app_assoc. f_equal.
        rewrite filter_cons_True by eauto. simpl. f_equal. f_equal.
        apply list_filter_iff. intros y. by apply (goals_kept_alive [x] g).
      * split; [congruence|]. by apply (goals_kept_cons x l g w w1 w').
    + assert (Hl : lock w x = None).
      { unfold lock. rewrite decide_False; [done|]. rewrite Hx. by intros [? ?]. }
      rewrite Hl. mrun.
      destruct (IH w) as (w' & Hrun' & Hn' & Ht' & Hk').
      { intros y ty Hy. apply Hpre. set_solver. }
      exists w'. split; [exact Hrun'|]. split.
      * rewrite filter_cons_False; [done|]. rewrite Hx. by intros [? ?].
      * split; [done|]. by apply goals_kept_weaken.
Qed.

Lemma amDone_again (G : Globals) (g : GoalId) (b : bool) (w : Worker) (t : Goal) :
  goals w !! g = Some t → done t = true →
  amDone G g b w = (Aborted "!done", w).
Proof.
  intros Hg Hd. unfold amDone. mrun. by rewrite Hg, Hd.
Qed.

(** What a call of [amDone] on a goal that is not done amounts to. *)
Lemma amDone_effect (G : Globals) (g : GoalId) (success : bool)
    (w : Worker) (t : Goal) :
  goals w !! g = Some t →
  done t = false →
  (∀ x tx, x ∈ waiters t → goals w !! x = Some tx →
           isPseudo tx = true ∨ g ∈ waitees tx) →
  ∃ w' t' l,
    amDone G g success w = (Ok tt, w') ∧
    notified w' = notified w ++ ((λ x, mkNotification x g success) <$> l) ∧
    NoDup l ∧
    (∀ x, x ∈ l ↔ x ∈ waiters t ∧ is_Some (goals w !! x)) ∧
    goals w' !! g = Some t' ∧
    done t' = true ∧
    waiters t' = ∅ ∧
    topGoals w' = topGoals w ∖ {[g]}.
Proof.
  intros Hg Hd Hpre.
  set (w0 := set_goals (alter (set_done true) g) w).
  assert (Hw0 : ∀ r, goals w0 !! r =
                     (if decide (g = r) then set_done true else id) <$> goals w !! r).
  { intros r. simpl. rewrite lookup_alter. case_decide; subst; [done|].
    by destruct (goals w !! r). }
  destruct (notify_loop G g success (elements (waiters t)) (NoDup_elements _) w0)
    as (w1 & Hrun & Hn & Htop & Hk).
  { intros x tx Hx. rewrite Hw0. apply elem_of_elements in Hx.
    destruct (goals w !! x) as [tx0|] eqn:Hx0; simpl; [|done].
    intros [= <-]. specialize (Hpre x tx0 Hx Hx0).
    by case_decide. }
  pose proof (Hk g) as Hkg. rewrite Hw0, Hg, decide_True in Hkg by done.
  simpl in Hkg. destruct Hkg as (t1 & Hg1 & Hd1 & _ & _ & Hw1).
  specialize (Hw1 eq_refl). simpl in Hd1, Hw1.
  set (w' := set_topGoals (λ s, s ∖ {[g]})
               (set_goals (alter (set_waiters (λ _, ∅)) g) w1)).
  assert (Hg' : goals w' !! g = Some (set_waiters (λ _, ∅) t1)).
  { simpl. by rewrite lookup_alter_eq, Hg1. }
  exists w', (set_waiters (λ _, ∅) t1),
    (filter (λ x, is_Some (goals w0 !! x)) (elements (waiters t))).
  split.
  { unfold amDone. mrun. rewrite Hg, Hd. simpl.
    fold w0. mrun in Hrun. rewrite Hrun. done. }
  split; [exact Hn|].
  split; [apply NoDup_filter, NoDup_elements|].
  split.
  { intros x. rewrite list_elem_of_filter, elem_of_elements, Hw0.
    rewrite <- !not_eq_None_Some. rewrite fmap_None. tauto. }
  split; [done|]. split; [done|]. split; [done|].
  simpl. by rewrite Htop.
Qed.



(** ** Build slots *)

Lemma leads_bind {S A B} (P R Q : S → Prop) (m : M S A) (k : A → M S B) :
  leads P m R → (∀ s, R s → Q s) → (∀ a, leads R (k a) Q) →
  leads P (m ≫= k) Q.
Proof.
  intros Hm HRQ Hk s Hs. unfold mbind, M_bind.
  specialize (Hm s Hs). destruct (m s) as [[a|e|x] s1]; simpl in *; auto.
  by apply Hk.
Qed.

Lemma leads_weaken {S A} (P P' Q Q' : S → Prop) (m : M S A) :
  leads P m Q → (∀ s, P' s → P s) → (∀ s, Q s → Q' s) → leads P' m Q'.
Proof. intros H HP HQ s Hs. apply HQ, H, HP, Hs. Qed.

Lemma leads_pure {S A} (P : S → Prop) (m : M S A) :
  (∀ s, (m s).2 = s) → leads P m P.
Proof. intros H s Hs. by rewrite H. Qed.

Lemma leads_modify {S} (P Q : S → Prop) (f : S → S) :
  (∀ s, P s → Q (f s)) → leads P (modify f) Q.
Proof. intros H s Hs. by apply H. Qed.

Lemma leads_forEach {S A} (P : S → Prop) (l : list A) (f : A → M S unit) :
  (∀ x, x ∈ l → leads P (f x) P) → leads P (forEach l f) P.
Proof.
  induction l as [|x l IH]; intros H.
  - by apply leads_pure.
  - simpl. apply (leads_bind P P P); [|done|].
    + apply H. by left.
    + intros _. apply IH. intros y Hy. apply H. by right.
Qed.

Lemma leads_catchBuildError {S A} (P R Q : S → Prop) (m : M S A) h :
  leads P m R → (∀ s, R s → Q s) → (∀ msg, leads R (h msg) Q) →
  leads P (catchBuildError m h) Q.
Proof.
  intros Hm HRQ Hh s Hs. unfold catchBuildError.
  specialize (Hm s Hs). destruct (m s) as [[a|e|x] s1]; simpl in *; auto.
  destruct e; simpl; auto. by apply Hh.
Qed.

Lemma leads_liftW {A} (P Q : World → Prop) (m : M Worker A) :
  (∀ s, P s → Q (set_worker (λ _, (m (worker s)).2) s)) →
  leads P (liftW m) Q.
Proof.
  intros H s Hs. unfold liftW. specialize (H s Hs).
  by destruct (m (worker s)).
Qed.

Lemma slots_insert (w : Worker) (pid : Z) (c : Child) :
  children w !! pid = None →
  slotsInUse (set_children <[pid := c]> w)
  = (slotsInUse w + (if inBuildSlot c then 1 else 0))%Z.
Proof.
  intros Hn. unfold slotsInUse. simpl.
  destruct (inBuildSlot c) eqn:Hc.
  - rewrite map_filter_insert_True by done.
    rewrite map_size_insert_None; [lia|].
    apply map_lookup_filter_None. by left.
  - rewrite map_filter_insert_not'.
    + lia.
    + simpl. by rewrite Hc.
    + intros y. by rewrite Hn.
Qed.

Lemma slots_delete (w : Worker) (pid : Z) (c : Child) :
  children w !! pid = Some c →
  slotsInUse (set_children (delete pid) w)
  = (slotsInUse w - (if inBuildSlot c then 1 else 0))%Z.
Proof.
  intros Hs. unfold slotsInUse. simpl. rewrite map_filter_delete.
  destruct (inBuildSlot c) eqn:Hc.
  - rewrite map_size_delete_Some.
    + assert (0 < size (filter (λ kv : Z * Child, inBuildSlot kv.2 = true) (children w))).
      { apply Nat.neq_0_lt_0. intros H0. apply map_size_empty_inv in H0.
        assert (Hl : filter (λ kv : Z * Child, inBuildSlot kv.2 = true) (children w) !! pid = Some c)
          by (by apply map_lookup_filter_Some).
        rewrite H0 in Hl. by rewrite lookup_empty in Hl. }
      lia.
    + exists c. by apply map_lookup_filter_Some.
  - rewrite map_size_delete_None; [lia|].
    apply map_lookup_filter_None. right. intros x Hx. simpl.
    assert (x = c) as -> by congruence. by rewrite Hc.
Qed.

Lemma wrap_succ (n : Z) : wrap (wrap n + 1) = wrap (n + 1).
Proof. unfold wrap. by rewrite Zplus_mod_idemp_l. Qed.

Lemma wrap_pred (n : Z) : wrap (wrap n - 1) = wrap (n - 1).
Proof. unfold wrap. by rewrite Zminus_mod_idemp_l. Qed.

Lemma wrap_small (n : Z) : (0 ≤ n < 2 ^ 32)%Z → wrap n = n.
Proof. intros H. unfold wrap. by apply Z.mod_small. Qed.

Lemma childStarted_run (g : GoalId) (pid fd : Z) (slot : bool) (w : Worker) :
  childStarted g pid fd slot w =
    (Ok tt, (if slot then set_nrChildren (λ n, wrap (n + 1)) else id)
              (set_children <[pid := mkChild g fd slot]> w)).
Proof. by destruct slot. Qed.

(** The loop of [childTerminated] that wakes the goals waiting for a
    build slot. *)
Lemma wake_loop (l : list GoalId) : ∀ w,
  forEach l (λ i, w' ← get;
    match lock w' i with
    | Some g => wakeUp g
    | None => mret tt
    end) w
  = (Ok tt, set_awake (λ s,
      list_to_set (filter (λ i, is_Some (goals w !! i)) l) ∪ s) w).
Proof.
  induction l as [|i l IH]; intros w.
  - simpl. unfold mret, M_ret. f_equal. destruct w. unfold set_awake. simpl.
    f_equal. set_solver.
  - simpl. unfold mbind at 1. unfold M_bind at 1.
    unfold mbind at 1. unfold M_bind at 1. unfold get at 1.
    destruct (goals w !! i) as [t|] eqn:Hi.
    + rewrite lock_alive by eauto. unfold wakeUp at 1. unfold modify at 1.
      rewrite IH. f_equal. rewrite filter_cons_True by eauto.
      destruct w. unfold set_awake. simpl. f_equal. set_solver.
    + assert (Hl : lock w i = None).
      { unfold lock. rewrite decide_False; [done|]. rewrite Hi. by intros [? ?]. }
      rewrite Hl. unfold mret at 1. unfold M_ret at 1. rewrite IH.
      rewrite filter_cons_False; [done|]. rewrite Hi. by intros [? ?].
Qed.

Lemma childTerminated_run (pid : Z) (wakeSleepers : bool) (w : Worker) (c : Child) :
  children w !! pid = Some c →
  (inBuildSlot c = true → (0 < nrChildren w)%Z) →
  childTerminated pid wakeSleepers w =
    (Ok tt,
     (if wakeSleepers then
        λ w1, set_wantingToBuild (λ _, ∅)
                (set_awake (λ s,
                   list_to_set (filter (λ i, is_Some (goals w !! i))
                                  (elements (wantingToBuild w))) ∪ s) w1)
      else id)
       (set_children (delete pid)
          ((if inBuildSlot c then set_nrChildren (λ n, wrap (n - 1)) else id) w))).
Proof.
  intros Hc Hpos. unfold childTerminated.
  unfold mbind at 1. unfold M_bind at 1. unfold get at 1. rewrite Hc.
  destruct (inBuildSlot c) eqn:Hs.
  - specialize (Hpos eq_refl). apply Z.ltb_lt in Hpos.
    mrun. rewrite Hpos. destruct wakeSleepers; [|done].
    rewrite wake_loop. done.
  - mrun. destruct wakeSleepers; [|done].
    rewrite wake_loop. done.
Qed.

Lemma childTerminated_Ok (pid : Z) (wakeSleepers : bool) (w w' : Worker) :
  childTerminated pid wakeSleepers w = (Ok tt, w') →
  ∃ c, children w !! pid = Some c ∧
       (inBuildSlot c = true → (0 < nrChildren w)%Z).
Proof.
  unfold childTerminated.
  unfold mbind at 1. unfold M_bind at 1. unfold get at 1.
  destruct (children w !! pid) as [c|]; [|done].
  intros H. exists c. split; [done|]. intros Hs. rewrite Hs in H.
  destruct (0 <? nrChildren w)%Z eqn:Hp; [by apply Z.ltb_lt|].
  mrun in H. done.
Qed.

(** ** The build hook and the build slots *)

Lemma leads_bind_val {S A B} (P Q : S → Prop) (R : A → S → Prop)
    (m : M S A) (k : A → M S B) :
  (∀ s, P s → match m s with (Ok a, s1) => R a s1 | (_, s1) => Q s1 end) →
  (∀ a, leads (R a) (k a) Q) → leads P (m ≫= k) Q.
Proof.
  intros Hm Hk s Hs. unfold mbind, M_bind. specialize (Hm s Hs).
  destruct (m s) as [[a|e|x] s1]; simpl in *; auto. by apply Hk.
Qed.

Lemma derivationGoal_run (this : GoalId) (s : World) :
  match derivationGoal this s with
  | (Ok d, s1) => s1 = s ∧ ∃ t, goals (worker s) !! this = Some t ∧
                                body t = IsDerivationGoal d
  | (_, s1) => s1 = s
  end.
Proof.
  unfold derivationGoal, liftW, deref. mrun.
  destruct (goals (worker s) !! this) as [t|] eqn:Ht; simpl.
  - destruct (body t) eqn:Hb; simpl; try by destruct s.
    split; [by destruct s|]. eauto.
  - by destruct s.
Qed.

Lemma worker_updDrv (this : GoalId) f (s : World) :
  (updDrv this f s).2 =
    set_worker (set_goals (alter (set_body (λ b,
      match b with IsDerivationGoal d => IsDerivationGoal (f d) | _ => b end)) this)) s.
Proof. done. Qed.

Lemma leads_worker {A} (I : Worker → Prop) (m : M World A) :
  (∀ s, worker (m s).2 = worker s) →
  leads (λ s, I (worker s)) m (λ s, I (worker s)).
Proof. intros H s Hs. by rewrite H. Qed.

Lemma slotCount_updDrv C n this f :
  leads (slotCount C n) (updDrv this f) (slotCount C n).
Proof. intros s Hs. by rewrite worker_updDrv. Qed.

Lemma outsideSlots_updDrv C n pid this f :
  leads (outsideSlots C n pid) (updDrv this f) (outsideSlots C n pid).
Proof. intros s Hs. by rewrite worker_updDrv. Qed.

Lemma hookRunning_updDrv C n this pid this' f :
  (∀ d, d_pid (f d) = d_pid d) →
  leads (hookRunning C n this pid) (updDrv this' f) (hookRunning C n this pid).
Proof.
  intros Hf s [Ho Hp]. rewrite worker_updDrv. split; [done|].
  intros t d. simpl. rewrite lookup_alter. case_decide; [subst|by apply Hp].
  destruct (goals (worker s) !! this) as [t0|] eqn:Ht0; simpl; [|done].
  intros [= <-]. simpl. destruct (body t0) eqn:Hb; try done.
  intros [= <-]. rewrite Hf. by eapply Hp.
Qed.

Lemma worker_emit e s : worker (emit e s).2 = worker s.
Proof. done. Qed.

Lemma worker_deletePath p s : worker (deletePath p s).2 = worker s.
Proof. done. Qed.

Lemma worker_createTempDir X p s : worker (createTempDir X p s).2 = worker s.
Proof. done. Qed.

Lemma worker_writeStringToFile u p c s : worker (writeStringToFile u p c s).2 = worker s.
Proof. done. Qed.

Lemma setDeletion_leads (I : World → Prop) this b :
  (∀ f, (∀ d, d_pid (f d) = d_pid d) → leads I (updDrv this f) I) →
  (∀ e, leads I (emit e) I) →
  leads I (setDeletion this b) I.
Proof.
  intros Hu He. unfold setDeletion.
  apply (leads_bind I I I); [by apply Hu|done|]. intros _.
  apply (leads_bind I I I); [|done|].
  - intros s Hs. unfold liftW, deref.
    destruct (goals (worker s) !! this); simpl; by destruct s.
  - intros t. destruct (body t); try apply He; by apply leads_pure.
Qed.

Lemma derivationGoal_leads (I : World → Prop) this :
  leads I (derivationGoal this) I.
Proof.
  intros s Hs. pose proof (derivationGoal_run this s) as H.
  destruct (derivationGoal this s) as [[d|e|x] s1]; simpl in *;
    [destruct H as [-> _]| |]; by subst.
Qed.

Lemma deleteTmpDir_leads (G : Globals) (I : World → Prop) this force :
  (∀ f, (∀ d, d_pid (f d) = d_pid d) → leads I (updDrv this f) I) →
  (∀ p, leads I (deletePath p) I) →
  leads I (deleteTmpDir G this force) I.
Proof.
  intros Hu Hd. unfold deleteTmpDir.
  apply (leads_bind I I I); [apply derivationGoal_leads|done|].
  intros d. case_bool_decide; [by apply leads_pure|].
  apply (leads_bind I I I); [|done|].
  - destruct (keepFailed G && negb force); [by apply leads_pure|apply Hd].
  - intros _. by apply Hu.
Qed.

Lemma openLogFile_leads (G : Globals) (X : External) (I : World → Prop) this fd pipe :
  (∀ f, (∀ d, d_pid (f d) = d_pid d) → leads I (updDrv this f) I) →
  (∀ f, leads I (modify (set_fs f)) I) →
  leads I (openLogFile G X this fd pipe) I.
Proof.
  intros Hu Hf. unfold openLogFile.
  apply (leads_bind I I I); [apply derivationGoal_leads|done|].
  intros d. case_bool_decide; [by apply leads_pure|].
  apply (leads_bind I I I); [apply Hf|done|]. intros _.
  apply (leads_bind I I I); [by apply Hu|done|]. intros _. by apply Hu.
Qed.

Lemma prepareBuild_leads (X : External) (I : World → Prop) this :
  (∀ f, (∀ d, d_pid (f d) = d_pid d) → leads I (updDrv this f) I) →
  (∀ e, leads I (emit e) I) →
  leads I (prepareBuild X this) I.
Proof.
  intros Hu He. unfold prepareBuild.
  apply (leads_bind I I I); [apply derivationGoal_leads|done|]. intros d.
  apply (leads_bind I I I); [by apply Hu|done|]. intros _.
  apply (leads_bind I I I); [by apply leads_pure|done|]. intros s.
  case_bool_decide.
  { apply (leads_bind I I I); [by apply setDeletion_leads|done|].
    intros _. by apply leads_pure. }
  case_bool_decide; [by apply leads_pure|].
  apply (leads_bind I I I); [|done|].
  { apply leads_forEach. intros i _. by apply Hu. }
  intros _. apply (leads_bind I I I); [|done|].
  { apply leads_forEach. intros i _.
    apply (leads_bind I I I); [by apply leads_pure|done|]. intros s1.
    apply (leads_bind I I I); [|done|].
    { intros s2 Hs2. unfold cassert. simpl. done. }
    intros _. apply leads_forEach. intros j _.
    destruct (findOutput j _); [by apply Hu|by apply leads_pure]. }
  intros _. apply (leads_bind I I I); [by apply Hu|done|].
  intros _. apply (leads_bind I I I); [|done|].
  { apply leads_forEach. intros i _.
    apply (leads_bind I I I); [by apply leads_pure|done|]. intros s1.
    by apply Hu. }
  intros _. by apply leads_pure.
Qed.

Lemma terminateBuildHook_leads (G : Globals) (C : gmap Z Child → Prop) n this pid :
  (∀ m p, C m → C (delete p m)) →
  leads (hookRunning C n this pid) (terminateBuildHook G this) (slotCount C n).
Proof.
  intros HC. unfold terminateBuildHook.
  apply (leads_bind_val _ _ (λ d s, outsideSlots C n pid s ∧ d_pid d = pid)).
  { intros s [Ho Hp]. pose proof (derivationGoal_run this s) as H.
    destruct (derivationGoal this s) as [[d|e|x] s1]; simpl in *.
    - destruct H as (-> & t & Ht & Hb). split; [done|]. by eapply Hp.
    - subst. apply Ho.
    - subst. apply Ho. }
  intros d.
  apply (leads_bind _ (λ s, outsideSlots C n pid s ∧ d_pid d = pid)).
  { intros s [Ho Hd]. split; [|done]. by apply outsideSlots_updDrv. }
  { intros s [Ho _]. apply Ho. }
  intros _. apply (leads_bind _ (slotCount C n)); [|done|].
  { apply leads_liftW. intros s [[[Hn HCs] (c & Hc & Hs)] ->]. unfold slotCount. simpl.
    rewrite (childTerminated_run _ _ _ c Hc) by (by rewrite Hs).
    simpl. rewrite Hs. simpl. split; [done|]. by apply HC. }
  intros _. apply (leads_bind _ (slotCount C n)); [apply slotCount_updDrv|done|].
  intros _. apply (leads_bind _ (slotCount C n)); [apply slotCount_updDrv|done|].
  intros _. apply deleteTmpDir_leads.
  - intros f _. apply slotCount_updDrv.
  - intros p s Hs. exact Hs.
Qed.

Lemma hookRunning_slotCount C n this pid s :
  hookRunning C n this pid s → slotCount C n s.
Proof. by intros [[H _] _]. Qed.

Lemma hookRunning_world C n this pid {A} (m : M World A) :
  (∀ s, worker (m s).2 = worker s) →
  leads (hookRunning C n this pid) m (hookRunning C n this pid).
Proof.
  intros H s Hs. unfold hookRunning, outsideSlots, slotCount in *. by rewrite H.
Qed.

Lemma slotCount_world C n {A} (m : M World A) :
  (∀ s, worker (m s).2 = worker s) →
  leads (slotCount C n) m (slotCount C n).
Proof. intros H s Hs. unfold slotCount in *. by rewrite H. Qed.

(** From the registration of the hook child to the end of
    [tryBuildHook]. *)
Lemma tryBuildHook_tail (G : Globals) (X : External) (C : gmap Z Child → Prop)
    n this pid (reply : Exn + string) (k : M World HookReply) :
  (∀ m p, C m → C (delete p m)) →
  leads (hookRunning C n this pid) k (hookRunning C n this pid) →
  leads (hookRunning C n this pid)
    (match reply with
     | inl e => throw e
     | inr reply =>
       if bool_decide (reply = "decline") || bool_decide (reply = "postpone") then
         terminateBuildHook G this;;
         mret (if bool_decide (reply = "decline") then rpDecline else rpPostpone)
       else if bool_decide (reply = "accept") then
         ready ← prepareBuild X this;
         if negb ready then terminateBuildHook G this;; mret rpDone
         else k
       else throw (Error ("bad hook reply `" +:+ reply +:+ "'"))
     end)
    (slotCount C n).
Proof.
  intros HC Hk. destruct reply as [e|reply].
  { intros s Hs. by eapply hookRunning_slotCount. }
  destruct (_ || _).
  { apply (leads_bind _ (slotCount C n)); [by apply terminateBuildHook_leads|done|].
    intros _. by apply leads_pure. }
  case_bool_decide.
  - apply (leads_bind _ (hookRunning C n this pid)).
    + apply prepareBuild_leads.
      * intros f Hf. by apply hookRunning_updDrv.
      * intros e. by apply hookRunning_world.
    + intros s. apply hookRunning_slotCount.
    + intros ready. destruct ready; simpl.
      * eapply leads_weaken; [apply Hk|done|]. intros s. apply hookRunning_slotCount.
      * apply (leads_bind _ (slotCount C n));
          [by apply terminateBuildHook_leads|done|].
        intros _. by apply leads_pure.
  - intros s Hs. by eapply hookRunning_slotCount.
Qed.

(** The build hook never changes the number of occupied build slots,
    whatever its outcome; the children it registers are outside the
    build slots.  [C] is any property of the registered children that
    survives a removal and the addition of a child outside the slots. *)
Lemma tryBuildHook_slots (G : Globals) (X : External) (C : gmap Z Child → Prop)
    n this o :
  (∀ m p, C m → C (delete p m)) →
  (∀ m p c, C m → inBuildSlot c = false → C (<[p := c]> m)) →
  leads (slotCount C n) (tryBuildHook G X this o) (slotCount C n).
Proof.
  intros HCd HCi.
  unfold tryBuildHook. case_bool_decide; [by apply leads_pure|].
  apply (leads_bind _ (slotCount C n)); [by apply slotCount_world|done|].
  intros tmp.
  apply (leads_bind _ (slotCount C n)); [apply slotCount_updDrv|done|]. intros _.
  apply (leads_bind _ (slotCount C n)); [|done|].
  { apply openLogFile_leads.
    - intros f _. apply slotCount_updDrv.
    - intros f. by apply slotCount_world. }
  intros _. case_bool_decide; [by apply leads_pure|].
  apply (leads_bind _ (slotCount C n)); [by apply leads_pure|done|]. intros s0.
  apply (leads_bind _ (slotCount C n)); [apply derivationGoal_leads|done|]. intros d.
  apply (leads_bind _ (slotCount C n)); [by apply slotCount_world|done|]. intros _.
  apply (leads_bind _ (λ s, slotCount C n s ∧
           ∀ t d, goals (worker s) !! this = Some t →
                  body t = IsDerivationGoal d → d_pid d = hs_fork o)).
  { intros s Hs. rewrite worker_updDrv. split; [done|].
    intros t d'. simpl. rewrite lookup_alter_eq.
    destruct (goals (worker s) !! this) as [t0|]; simpl; [|done].
    intros [= <-]. simpl. destruct (body t0); try done. by intros [= <-]. }
  { by intros s [? _]. }
  intros _. apply (leads_bind _ (hookRunning C n this (hs_fork o))).
  { apply leads_liftW. intros s [[Hn HCs] Hp]. rewrite childStarted_run. simpl.
    split; [split; [split|]|].
    - done.
    - by apply HCi.
    - eexists. split; [apply lookup_insert_eq|done].
    - done. }
  { intros s. apply hookRunning_slotCount. }
  intros _. apply tryBuildHook_tail; [done|].
  apply (leads_bind _ (hookRunning C n this (hs_fork o)));
    [apply derivationGoal_leads|done|]. intros d1.
  apply (leads_bind _ (hookRunning C n this (hs_fork o)));
    [by apply leads_pure|done|]. intros s1.
  apply (leads_bind _ (hookRunning C n this (hs_fork o)));
    [by apply hookRunning_world|done|]. intros _.
  apply (leads_bind _ (hookRunning C n this (hs_fork o)));
    [by apply hookRunning_world|done|]. intros _.
  apply (leads_bind _ (hookRunning C n this (hs_fork o)));
    [by apply hookRunning_world|done|]. intros _.
  by apply leads_pure.
Qed.

(** ** The postpone reply *)

Lemma hoare_bind {S A B} (P : S → Prop) (R : A → S → Prop)
    (Q : Result B → S → Prop) (m : M S A) (k : A → M S B) :
  hoare P m (λ r s, match r with
                    | Ok a => R a s
                    | Throw e => Q (Throw e) s
                    | Aborted x => Q (Aborted x) s
                    end) →
  (∀ a, hoare (R a) (k a) Q) →
  hoare P (m ≫= k) Q.
Proof.
  intros Hm Hk s Hs. unfold mbind, M_bind. specialize (Hm s Hs).
  destruct (m s) as [[a|e|x] s1]; simpl in *; auto. by apply Hk.
Qed.

Lemma hoare_seq {S A B} (P : S → Prop) (R : A → S → Prop)
    (Q : Result B → S → Prop) (m : M S A) (k : A → M S B) :
  hoare P m (λ r s, ∃ a, r = Ok a ∧ R a s) →
  (∀ a, hoare (R a) (k a) Q) →
  hoare P (m ≫= k) Q.
Proof.
  intros Hm Hk. apply (hoare_bind P R); [|done].
  intros s Hs. destruct (Hm s Hs) as (a & Hr & Ha).
  destruct (m s) as [r s1]; simpl in *. by subst.
Qed.

Lemma hoare_conseq {S A} (P P' : S → Prop) (Q Q' : Result A → S → Prop) (m : M S A) :
  hoare P m Q → (∀ s, P' s → P s) → (∀ r s, Q r s → Q' r s) → hoare P' m Q'.
Proof. intros H HP HQ s Hs. apply HQ, H, HP, Hs. Qed.

(** A step that always succeeds with the unit value. *)
Lemma hoare_step {S} (P R : S → Prop) (m : M S unit) :
  (∀ s, P s → (m s).1 = Ok tt ∧ R (m s).2) →
  hoare P m (λ r s, ∃ a, r = Ok a ∧ R s).
Proof. intros H s Hs. destruct (H s Hs) as [H1 H2]. exists tt. by rewrite H1. Qed.

(** The invariant of a run of the hook that is sent away: the goal
    [this] is a live derivation goal with child [p], the goals parked for
    a build slot are [W] and the registered children are [c]. *)
Lemma drvPid_upd (this : GoalId) (p : Z) (f : DerivationGoal → DerivationGoal)
    (w : Worker) :
  (∀ d, d_pid (f d) = d_pid d) →
  drvPid this p w →
  drvPid this p (set_goals (alter (set_body (λ b,
    match b with IsDerivationGoal d => IsDerivationGoal (f d) | _ => b end)) this) w).
Proof.
  intros Hf (t & d & Ht & Hb & Hp).
  exists (set_body (λ b,
    match b with IsDerivationGoal d => IsDerivationGoal (f d) | _ => b end) t), (f d).
  simpl. rewrite lookup_alter_eq, Ht. simpl. rewrite Hb.
  split; [reflexivity|]. split; [reflexivity|]. by rewrite Hf.
Qed.

Lemma drvPid_set (this : GoalId) (p q : Z) (w : Worker) :
  drvPid this p w →
  drvPid this q (set_goals (alter (set_body (λ b,
    match b with
    | IsDerivationGoal d => IsDerivationGoal (set_d_pid q d)
    | _ => b
    end)) this) w).
Proof.
  intros (t & d & Ht & Hb & Hp).
  exists (set_body (λ b,
    match b with
    | IsDerivationGoal d => IsDerivationGoal (set_d_pid q d)
    | _ => b
    end) t), (set_d_pid q d).
  simpl. rewrite lookup_alter_eq, Ht. simpl. rewrite Hb.
  split; [reflexivity|]. split; reflexivity.
Qed.

Lemma hoare_derivationGoal (P : World → Prop) (this : GoalId) (p : Z) :
  (∀ s, P s → drvPid this p (worker s)) →
  hoare P (derivationGoal this) (λ r s, ∃ d, r = Ok d ∧ (P s ∧ d_pid d = p)).
Proof.
  intros H s Hs. destruct (H s Hs) as (t & d & Ht & Hb & Hp).
  unfold derivationGoal, liftW, deref. mrun. rewrite Ht. simpl. rewrite Hb.
  simpl. exists d. split; [done|]. split; [|done]. by destruct s.
Qed.

Lemma hookState_updDrv this W p c f s :
  (∀ d, d_pid (f d) = d_pid d) →
  hookState this W p c s → hookState this W p c (updDrv this f s).2.
Proof.
  intros Hf (Hd & HW & Hc). split; [|done]. by apply drvPid_upd.
Qed.

Lemma hookState_setpid this W p q c s :
  hookState this W p c s → hookState this W q c (updDrv this (set_d_pid q) s).2.
Proof.
  intros (Hd & HW & Hc). split; [|done]. by eapply drvPid_set.
Qed.

Lemma hoare_updDrv this W p c f :
  (∀ d, d_pid (f d) = d_pid d) →
  hoare (hookState this W p c) (updDrv this f)
    (λ r s, ∃ a : unit, r = Ok a ∧ hookState this W p c s).
Proof. intros Hf. apply hoare_step. intros s Hs. split; [done|]. by apply hookState_updDrv. Qed.

Lemma hoare_openLogFile (G : Globals) (X : External) this W p c fd pipe :
  fd ≠ (-1)%Z →
  hoare (hookState this W p c) (openLogFile G X this fd pipe)
    (λ r s, ∃ a : unit, r = Ok a ∧ hookState this W p c s).
Proof.
  intros Hfd. unfold openLogFile.
  eapply hoare_seq.
  { apply (hoare_derivationGoal _ this p). by intros s [? _]. }
  intros d. simpl. rewrite bool_decide_eq_false_2 by done.
  eapply (hoare_seq _ (λ _, hookState this W p c)).
  { apply hoare_step. intros s [Hs _]. done. }
  intros _. eapply (hoare_seq _ (λ _, hookState this W p c)).
  { by apply hoare_updDrv. }
  intros _. by apply hoare_updDrv.
Qed.

Lemma hoare_deleteTmpDir (G : Globals) this W p c force :
  hoare (hookState this W p c) (deleteTmpDir G this force)
    (λ r s, ∃ a : unit, r = Ok a ∧ hookState this W p c s).
Proof.
  unfold deleteTmpDir. eapply hoare_seq.
  { apply (hoare_derivationGoal _ this p). by intros s [? _]. }
  intros d. simpl. case_bool_decide.
  { intros s [Hs _]. by exists tt. }
  eapply (hoare_seq _ (λ _, hookState this W p c)).
  { destruct (keepFailed G && negb force).
    - intros s [Hs _]. by exists tt.
    - apply hoare_step. intros s [Hs _]. done. }
  intros _. by apply hoare_updDrv.
Qed.

Lemma hoare_terminateBuildHook (G : Globals) this W pid fd :
  hoare (hookState this W pid {[pid := mkChild this fd false]})
    (terminateBuildHook G this)
    (λ r s, ∃ a : unit, r = Ok a ∧ hookState this W (-1) ∅ s).
Proof.
  unfold terminateBuildHook. eapply hoare_seq.
  { apply (hoare_derivationGoal _ this pid). by intros s [? _]. }
  intros d. simpl.
  eapply (hoare_seq _ (λ _ s, hookState this W (-1) {[pid := mkChild this fd false]} s
                              ∧ d_pid d = pid)).
  { apply hoare_step. intros s [Hs Hd]. split; [done|]. split; [|done].
    by eapply hookState_setpid. }
  intros _. eapply (hoare_seq _ (λ _, hookState this W (-1) ∅)).
  { apply hoare_step. intros s [(Hd & HW & Hc) ->]. unfold liftW.
    rewrite (childTerminated_run _ _ _ (mkChild this fd false));
      [|by rewrite Hc, lookup_singleton_eq|done].
    simpl. split; [done|]. split; [done|]. split; [done|].
    simpl. rewrite Hc. apply delete_singleton_eq. }
  intros _. eapply (hoare_seq _ (λ _, hookState this W (-1) ∅)).
  { by apply hoare_updDrv. }
  intros _. eapply (hoare_seq _ (λ _, hookState this W (-1) ∅)).
  { by apply hoare_updDrv. }
  intros _. apply hoare_deleteTmpDir.
Qed.

(** A hook that answers [postpone] is reaped at once, and leaves the
    worker as it found it. *)
Lemma hoare_tryBuildHook_postpone (G : Globals) (X : External) this W p
    (o : HookStart) :
  getEnv X "NIX_BUILD_HOOK" ≠ "" →
  hs_logFile o ≠ (-1)%Z →
  hs_fork o ≠ (-1)%Z →
  hs_reply o = inr "postpone" →
  hoare (hookState this W p ∅) (tryBuildHook G X this o)
    (λ r s, r = Ok rpPostpone ∧ hookState this W (-1) ∅ s).
Proof.
  intros Hhook Hlog Hfork Hreply. unfold tryBuildHook.
  rewrite bool_decide_eq_false_2 by done.
  eapply (hoare_seq _ (λ _, hookState this W p ∅)).
  { intros s Hs. eexists. split; [done|]. done. }
  intros tmp. eapply (hoare_seq _ (λ _, hookState this W p ∅)).
  { by apply hoare_updDrv. }
  intros _. eapply (hoare_seq _ (λ _, hookState this W p ∅)).
  { by apply hoare_openLogFile. }
  intros _. rewrite bool_decide_eq_false_2 by done.
  eapply (hoare_seq _ (λ _, hookState this W p ∅)).
  { intros s Hs. eexists. split; [done|]. done. }
  intros s0. eapply (hoare_seq _ (λ _, hookState this W p ∅)).
  { intros s Hs.
    destruct (hoare_derivationGoal (hookState this W p ∅) this p
                (λ s H, proj1 H) s Hs) as (d & Hr & Hs' & _).
    eauto. }
  intros d. eapply (hoare_seq _ (λ _, hookState this W p ∅)).
  { apply hoare_step. intros s Hs. done. }
  intros _. eapply (hoare_seq _ (λ _, hookState this W (hs_fork o) ∅)).
  { apply hoare_step. intros s Hs. split; [done|]. by eapply hookState_setpid. }
  intros _. eapply (hoare_seq _ (λ _, hookState this W (hs_fork o)
                                    {[hs_fork o := mkChild this (hs_logPipe o) false]})).
  { apply hoare_step. intros s (Hd & HW & Hc). unfold liftW.
    rewrite childStarted_run. simpl. split; [done|]. split; [done|].
    split; [done|]. simpl. rewrite Hc. done. }
  intros _. rewrite Hreply. simpl.
  eapply (hoare_seq _ (λ _, hookState this W (-1) ∅)).
  { apply hoare_terminateBuildHook. }
  intros _ s Hs. done.
Qed.

Lemma waitForBuildSlot_no_children (G : Globals) (g : GoalId) (w : Worker) :
  children w = ∅ →
  waitForBuildSlot G g true w = (Throw (Error msgNoChildren), w).
Proof.
  intros Hc. unfold waitForBuildSlot. mrun. rewrite Hc.
  rewrite bool_decide_eq_true_2 by apply map_size_empty. done.
Qed.

(** C8.  A derivation goal whose build hook answers [postpone] while the
    worker has no other child: once the hook child has been reaped,
    [waitForBuildSlot] with [reallyWait] set throws an [Error] whose
    message mentions the inappropriate [postpone] reply; [tryToBuild]
    does not catch it (it is no [BuildError]), and the goal is not added
    to the goals that wait for a build slot. *)
Theorem postpone_without_children (G : Globals) (X : External) (this : GoalId)
    (oh : HookStart) (ob : BuilderStart) (s : World) (t : Goal)
    (d : DerivationGoal) :
  getEnv X "NIX_BUILD_HOOK" ≠ "" →
  hs_logFile oh ≠ (-1)%Z →
  hs_fork oh ≠ (-1)%Z →
  hs_reply oh = inr "postpone" →
  goals (worker s) !! this = Some t →
  body t = IsDerivationGoal d →
  children (worker s) = ∅ →
  (tryToBuild G X this oh ob s).1 = Throw (Error msgNoChildren) ∧
  wantingToBuild (worker (tryToBuild G X this oh ob s).2)
    = wantingToBuild (worker s) ∧
  children (worker (tryToBuild G X this oh ob s).2) = ∅ ∧
  contains "inappropriate `postpone' reply" msgNoChildren = true ∧
  (∀ g w, children w = ∅ →
          waitForBuildSlot G g true w = (Throw (Error msgNoChildren), w)).
Proof.
  intros Hhook Hlog Hfork Hreply Ht Hb Hc.
  set (W := wantingToBuild (worker s)).
  assert (Hs : hookState this W (d_pid d) ∅ s).
  { split; [|done]. by exists t, d. }
  assert (Hin : hoare (hookState this W (d_pid d) ∅)
    (r ← tryBuildHook G X this oh;
     match r with
     | rpAccept => updDrv this (set_d_state dBuildDone);; mret false
     | rpPostpone => liftW (waitForBuildSlot G this true);; mret false
     | rpDone => liftW (amDone G this true);; mret false
     | rpDecline =>
       s ← get;
       if negb (canBuildMore G (worker s)) then
         liftW (waitForBuildSlot G this false);; mret false
       else
         ready ← prepareBuild X this;
         if negb ready then liftW (amDone G this true);; mret false
         else startBuilder G X this ob;; mret true
     end)
    (λ r s', r = Throw (Error msgNoChildren) ∧ hookState this W (-1) ∅ s')).
  { eapply (hoare_bind _ (λ a s', a = rpPostpone ∧ hookState this W (-1) ∅ s')).
    - intros s0 Hs0.
      destruct (hoare_tryBuildHook_postpone G X this W (d_pid d) oh
                  Hhook Hlog Hfork Hreply s0 Hs0) as [Hr Hs1].
      destruct (tryBuildHook G X this oh s0) as [r s1]. simpl in *.
      subst. done.
    - intros a s0 [-> Hs0]. unfold mbind, M_bind, liftW.
      destruct Hs0 as (Hd0 & HW0 & Hc0).
      rewrite waitForBuildSlot_no_children by done. simpl.
      split; [done|]. split; [|done]. by destruct s0. }
  specialize (Hin s Hs). simpl in Hin.
  assert (Hrun : ∃ s1, tryToBuild G X this oh ob s = (Throw (Error msgNoChildren), s1)
                       ∧ hookState this W (-1) ∅ s1).
  { unfold tryToBuild, catchBuildError.
    unfold mbind at 1. unfold M_bind at 1.
    match type of Hin with
    | context [?m s] => destruct (m s) as [r s1]
    end.
    simpl in Hin. destruct Hin as [-> Hs1]. by exists s1. }
  destruct Hrun as (s1 & -> & Hd1 & HW1 & Hc1). simpl.
  split; [done|]. split; [exact HW1|]. split; [exact Hc1|].
  split; [by vm_compute|].
  intros g w. apply waitForBuildSlot_no_children.
Qed.

(** The hook of the example postpones the only goal of the worker. *)
Lemma postpone_without_children_witness :
  (tryToBuild exG exX 1 exHook exStart
     (exWorld (exDrvGoal (exDrv "x86_64-linux")) (exDB []) ∅)).1
  = Throw (Error msgNoChildren).
Proof.
  assert (H1 : goals (worker (exWorld (exDrvGoal (exDrv "x86_64-linux")) (exDB []) ∅))
                 !! 1%positive = Some (exDrvGoal (exDrv "x86_64-linux")))
    by (vm_compute; reflexivity).
  refine (proj1 (postpone_without_children exG exX 1 exHook exStart
            (exWorld (exDrvGoal (exDrv "x86_64-linux")) (exDB []) ∅) _ _
            _ _ _ eq_refl H1 eq_refl eq_refl)).
  - by_compute.
  - by_compute.
  - by_compute.
Defined.

(** C5.  The counter [nrChildren] of the worker equals (modulo [2^32],
    the range of an [unsigned int]) the number of registered children
    that were started with [inBuildSlot] set: this holds for a new
    worker, [childStarted] with the process id of a new child preserves
    it and [childTerminated] preserves it.  The children that
    [tryBuildHook] registers are outside the build slots, and the call
    leaves the counter as it was, whatever its outcome.  [canBuildMore]
    holds exactly when the counter is below [maxBuildJobs].  When a child
    terminates with [wakeSleepers] set, every goal that is parked in
    [wantingToBuild] and still alive is put in the awake set, and
    [wantingToBuild] is emptied. *)
Theorem build_slots (G : Globals) (X : External) :
  nrChildren newWorker = wrap (slotsInUse newWorker) ∧
  (∀ w g pid fd slot,
     children w !! pid = None →
     nrChildren w = wrap (slotsInUse w) →
     ∃ w', childStarted g pid fd slot w = (Ok tt, w') ∧
           children w' = <[pid := mkChild g fd slot]> (children w) ∧
           slotsInUse w' = (slotsInUse w + (if slot then 1 else 0))%Z ∧
           nrChildren w' = wrap (slotsInUse w')) ∧
  (∀ w pid wake w',
     childTerminated pid wake w = (Ok tt, w') →
     nrChildren w = wrap (slotsInUse w) →
     ∃ c, children w !! pid = Some c ∧
          children w' = delete pid (children w) ∧
          slotsInUse w' = (slotsInUse w - (if inBuildSlot c then 1 else 0))%Z ∧
          nrChildren w' = wrap (slotsInUse w')) ∧
  (∀ w, nrChildren w = wrap (slotsInUse w) → (slotsInUse w < 2 ^ 32)%Z →
        nrChildren w = slotsInUse w) ∧
  (∀ this o s,
     nrChildren (worker (tryBuildHook G X this o s).2) = nrChildren (worker s) ∧
     ∀ pid c, children (worker (tryBuildHook G X this o s).2) !! pid = Some c →
              children (worker s) !! pid = None → inBuildSlot c = false) ∧
  (∀ w, canBuildMore G w = true ↔ (nrChildren w < maxBuildJobs G)%Z) ∧
  (∀ w pid w',
     childTerminated pid true w = (Ok tt, w') →
     wantingToBuild w' = ∅ ∧
     ∀ i, i ∈ wantingToBuild w → is_Some (goals w !! i) → i ∈ awake w').
Proof.
  split; [done|]. split.
  { intros w g pid fd slot Hfresh Hinv. rewrite childStarted_run.
    eexists. split; [done|].
    assert (Hs : slotsInUse (set_children <[pid := mkChild g fd slot]> w)
                 = (slotsInUse w + (if slot then 1 else 0))%Z).
    { by rewrite (slots_insert w pid (mkChild g fd slot) Hfresh). }
    destruct slot; simpl; (split; [done|]); (split; [exact Hs|]).
    - unfold slotsInUse in *. simpl in *. rewrite Hs, Hinv. apply wrap_succ.
    - unfold slotsInUse in *. simpl in *. rewrite Hs, Z.add_0_r. exact Hinv. }
  split.
  { intros w pid wake w' Hrun Hinv.
    destruct (childTerminated_Ok pid wake w w' Hrun) as (c & Hc & Hpos).
    rewrite (childTerminated_run pid wake w c Hc Hpos) in Hrun.
    exists c. split; [done|].
    pose proof (slots_delete w pid c Hc) as Hs.
    injection Hrun as <-.
    destruct wake, (inBuildSlot c); simpl; (split; [done|]);
      unfold slotsInUse in *; simpl in *; (split; [exact Hs|]);
      rewrite Hs, ?Hinv, ?Z.sub_0_r; try apply wrap_pred; done. }
  split.
  { intros w Hinv Hlt. rewrite Hinv. apply wrap_small. unfold slotsInUse in *. lia. }
  split.
  { intros this o s.
    pose proof (tryBuildHook_slots G X
      (λ m, ∀ pid c, m !! pid = Some c → children (worker s) !! pid = None →
                     inBuildSlot c = false)
      (nrChildren (worker s)) this o) as H.
    apply H.
    - intros m p Hm pid c. rewrite lookup_delete. case_decide; [done|]. apply Hm.
    - intros m p c Hm Hc pid c'. rewrite lookup_insert. case_decide.
      + by intros [= <-].
      + apply Hm.
    - split; [done|]. intros pid c Hc Hn. congruence. }
  split.
  { intros w. unfold canBuildMore. apply Z.ltb_lt. }
  intros w pid w' Hrun.
  destruct (childTerminated_Ok pid true w w' Hrun) as (c & Hc & Hpos).
  rewrite (childTerminated_run pid true w c Hc Hpos) in Hrun.
  injection Hrun as <-. simpl. split; [done|].
  intros i Hi Ha. apply elem_of_union_l, elem_of_list_to_set.
  apply list_elem_of_filter. split; [done|]. by apply elem_of_elements.
Qed.

(** ** The environment of the builder *)

Lemma overlay_lookup (e0 m : gmap string string) (k : string) :
  map_fold (λ k v e, <[k := v]> e) e0 m !! k =
    match m !! k with Some v => Some v | None => e0 !! k end.
Proof.
  induction m as [|i x m Hi Hfold IH] using map_first_key_ind.
  - by rewrite map_fold_empty, lookup_empty.
  - rewrite map_fold_insert_first_key by done.
    rewrite !lookup_insert. case_decide; [done|]. exact IH.
Qed.

Lemma builderEnv_lookup (G : Globals) (d : Derivation) (tmp : Path) (k : string) :
  builderEnv G d tmp !! k =
    if bool_decide (k ∈ tmpVars) then Some tmp
    else match env d !! k with
         | Some v => Some v
         | None => defaultEnv G !! k
         end.
Proof.
  unfold builderEnv. rewrite !lookup_insert.
  repeat (case_decide; [subst; by rewrite bool_decide_eq_true_2 by (unfold tmpVars; set_solver)|]).
  rewrite bool_decide_eq_false_2 by (unfold tmpVars; set_solver).
  apply overlay_lookup.
Qed.

(** ** Starting the builder *)

Lemma removeUnregistered_run (outs : list (string * DerivationOutput)) : ∀ s,
  removeUnregistered outs s =
    (match (strayRemoval (db s) outs (fs s)).2 with
     | None => Ok tt
     | Some p => Throw (Error (msgObstructed p))
     end,
     set_trace (λ tr, tr ++ (EvDeletePath <$> (strayRemoval (db s) outs (fs s)).1.2))
       (set_fs (λ _, (strayRemoval (db s) outs (fs s)).1.1) s)).
Proof.
  induction outs as [|i outs IH]; intros s.
  - simpl. unfold mret, M_ret. f_equal. destruct s. unfold set_trace, set_fs.
    simpl. by rewrite app_nil_r.
  - unfold removeUnregistered in *. simpl.
    unfold mbind at 1. unfold M_bind at 1.
    unfold mbind at 1. unfold M_bind at 1. unfold get at 1.
    destruct (isValidPath (db s) (path i.2)) eqn:Hv.
    + unfold throw. simpl. f_equal. destruct s. unfold set_trace, set_fs.
      simpl. by rewrite app_nil_r.
    + destruct (pathExists (fs s) (path i.2)) eqn:He.
      * unfold deletePath, emit. mrun. rewrite IH. simpl.
        destruct (strayRemoval (db s) outs (deleteFS (path i.2) (fs s)))
          as [[f' dels] r]. simpl. f_equal.
        unfold set_trace, set_fs. simpl. f_equal.
        by rewrite <- app_assoc.
      * mrun. rewrite IH. done.
Qed.

Lemma deleteFS_gone (p q : Path) (f : FS) :
  pathExists f q = false → pathExists (deleteFS p f) q = false.
Proof.
  unfold pathExists. rewrite !bool_decide_eq_false. intros H [x Hx]. apply H.
  unfold deleteFS in Hx. apply map_lookup_filter_Some in Hx as [Hx _]. eauto.
Qed.

Lemma deleteFS_under (p q : Path) (f : FS) :
  under p q = true → pathExists (deleteFS p f) q = false.
Proof.
  intros Hu. unfold pathExists. rewrite bool_decide_eq_false. intros [x Hx].
  unfold deleteFS in Hx. apply map_lookup_filter_Some in Hx as [_ Hx].
  simpl in Hx. congruence.
Qed.

Lemma under_refl (p : Path) : under p p = true.
Proof. unfold under. by rewrite bool_decide_eq_true_2. Qed.

Lemma strayRemoval_gone d outs : ∀ f q,
  pathExists f q = false → pathExists (strayRemoval d outs f).1.1 q = false.
Proof.
  induction outs as [|i outs IH]; intros f q Hq; simpl; [done|].
  destruct (isValidPath d (path i.2)); [done|].
  destruct (pathExists f (path i.2)).
  - specialize (IH (deleteFS (path i.2) f) q (deleteFS_gone _ _ _ Hq)).
    by destruct (strayRemoval d outs (deleteFS (path i.2) f)) as [[f' dels] r].
  - by apply IH.
Qed.

(** The loop stops with an error exactly at the first valid output. *)
Lemma strayRemoval_stops d outs : ∀ f,
  match (strayRemoval d outs f).2 with
  | Some p =>
    ∃ l1 i l2, outs = l1 ++ i :: l2 ∧ path i.2 = p ∧ isValidPath d p = true ∧
               ∀ j, j ∈ l1 → isValidPath d (path j.2) = false
  | None => ∀ j, j ∈ outs → isValidPath d (path j.2) = false
  end.
Proof.
  induction outs as [|i outs IH]; intros f; simpl.
  - intros j Hj. by apply elem_of_nil in Hj.
  - destruct (isValidPath d (path i.2)) eqn:Hv; simpl.
    + exists [], i, outs. repeat split; try done.
      intros j Hj. by apply elem_of_nil in Hj.
    + assert (Hcase : ∀ f0,
        match (strayRemoval d outs f0).2 with
        | Some p =>
          ∃ l1 i0 l2, i :: outs = l1 ++ i0 :: l2 ∧ path i0.2 = p ∧
            isValidPath d p = true ∧
            ∀ j, j ∈ l1 → isValidPath d (path j.2) = false
        | None => ∀ j, j ∈ i :: outs → isValidPath d (path j.2) = false
        end).
      { intros f0. specialize (IH f0).
        destruct (strayRemoval d outs f0).2 as [p|].
        - destruct IH as (l1 & i0 & l2 & -> & Hp & Hvp & Hl1).
          exists (i :: l1), i0, l2. repeat split; try done.
          intros j Hj. apply elem_of_cons in Hj as [->|Hj]; auto.
        - intros j Hj. apply elem_of_cons in Hj as [->|Hj]; auto. }
      destruct (pathExists f (path i.2)).
      * specialize (Hcase (deleteFS (path i.2) f)).
        by destruct (strayRemoval d outs (deleteFS (path i.2) f)) as [[f' dels] r].
      * apply Hcase.
Qed.

(** When the loop runs to its end, every output path that was on disk
    has been deleted, itself or through a path above it, and none of the
    output paths is left on disk. *)
Lemma strayRemoval_deletes d outs : ∀ f,
  (strayRemoval d outs f).2 = None →
  ∀ j, j ∈ outs →
    pathExists (strayRemoval d outs f).1.1 (path j.2) = false ∧
    (pathExists f (path j.2) = true →
     ∃ q, q ∈ (strayRemoval d outs f).1.2 ∧ under q (path j.2) = true).
Proof.
  induction outs as [|i outs IH]; intros f Hr j Hj; simpl in *.
  - by apply elem_of_nil in Hj.
  - destruct (isValidPath d (path i.2)) eqn:Hv; [done|].
    destruct (pathExists f (path i.2)) eqn:He.
    + specialize (IH (deleteFS (path i.2) f)).
      pose proof (strayRemoval_gone d outs (deleteFS (path i.2) f)) as Hg.
      destruct (strayRemoval d outs (deleteFS (path i.2) f)) as [[f' dels] r].
      simpl in *. apply elem_of_cons in Hj as [->|Hj].
      * split.
        -- apply Hg. apply deleteFS_under, under_refl.
        -- intros _. exists (path i.2). split; [by left|apply under_refl].
      * destruct (IH Hr j Hj) as [H1 H2]. split; [done|].
        intros Hex.
        destruct (pathExists (deleteFS (path i.2) f) (path j.2)) eqn:Hd.
        -- destruct (H2 eq_refl) as (q & Hq & Hu). exists q. split; [by right|done].
        -- exists (path i.2). split; [by left|].
           destruct (under (path i.2) (path j.2)) eqn:Hu; [done|].
           exfalso. unfold pathExists in Hex, Hd.
           apply bool_decide_eq_true in Hex as [x Hx].
           apply bool_decide_eq_false in Hd. apply Hd. exists x.
           unfold deleteFS. by apply map_lookup_filter_Some.
    + apply elem_of_cons in Hj as [->|Hj].
      * split; [by apply strayRemoval_gone|]. by rewrite He.
      * by apply IH.
Qed.

Lemma strayRemoval_dels d outs : ∀ f q,
  q ∈ (strayRemoval d outs f).1.2 →
  ∃ j, j ∈ outs ∧ path j.2 = q ∧ isValidPath d q = false.
Proof.
  induction outs as [|i outs IH]; intros f q; simpl.
  - intros H. by apply elem_of_nil in H.
  - destruct (isValidPath d (path i.2)) eqn:Hv; simpl.
    { intros H. by apply elem_of_nil in H. }
    assert (Hcase : ∀ f0, q ∈ (strayRemoval d outs f0).1.2 →
      ∃ j, j ∈ i :: outs ∧ path j.2 = q ∧ isValidPath d q = false).
    { intros f0 Hq. destruct (IH f0 q Hq) as (j & Hj & Hp & Hvq).
      exists j. split; [by right|done]. }
    destruct (pathExists f (path i.2)).
    + specialize (Hcase (deleteFS (path i.2) f)).
      destruct (strayRemoval d outs (deleteFS (path i.2) f)) as [[f' dels] r].
      simpl in *. intros Hq. apply elem_of_cons in Hq as [->|Hq]; [|auto].
      exists i. split; [by left|done].
    + apply Hcase.
Qed.

Lemma drvSat_upd (this : GoalId) (φ ψ : DerivationGoal → Prop)
    (f : DerivationGoal → DerivationGoal) (w : Worker) :
  (∀ d, φ d → ψ (f d)) →
  drvSat this φ w →
  drvSat this ψ (set_goals (alter (set_body (λ b,
    match b with IsDerivationGoal d => IsDerivationGoal (f d) | _ => b end)) this) w).
Proof.
  intros Hf (t & d & Ht & Hb & Hp).
  exists (set_body (λ b,
    match b with IsDerivationGoal d => IsDerivationGoal (f d) | _ => b end) t), (f d).
  simpl. rewrite lookup_alter_eq, Ht. simpl. rewrite Hb.
  split; [reflexivity|]. split; [reflexivity|]. by apply Hf.
Qed.

Lemma hoare_derivationGoal_sat (P : World → Prop) (this : GoalId)
    (φ : DerivationGoal → Prop) :
  (∀ s, P s → drvSat this φ (worker s)) →
  hoare P (derivationGoal this) (λ r s, ∃ d, r = Ok d ∧ (P s ∧ φ d)).
Proof.
  intros H s Hs. destruct (H s Hs) as (t & d & Ht & Hb & Hp).
  unfold derivationGoal, liftW, deref. mrun. rewrite Ht. simpl. rewrite Hb.
  simpl. exists d. split; [done|]. split; [|done]. by destruct s.
Qed.

Lemma builderState_updDrv this φ ψ T C D f s :
  (∀ d, φ d → ψ (f d)) →
  builderState this φ T C D s → builderState this ψ T C D (updDrv this f s).2.
Proof.
  intros Hf (Hd & HT & HC & HD). split; [|done]. by eapply drvSat_upd.
Qed.

Lemma hoare_pure {S A} (P : S → Prop) (φ : Prop) (m : M S A) Q :
  (φ → hoare P m Q) → hoare (λ s, P s ∧ φ) m Q.
Proof. intros H s [Hs Hφ]. by apply H. Qed.

Lemma hoare_pure_l {S A} (P : S → Prop) (φ : Prop) (m : M S A) Q :
  (φ → hoare P m Q) → hoare (λ s, φ ∧ P s) m Q.
Proof. intros H s [Hφ Hs]. by apply H. Qed.

(** The outcome of [startBuilder] on a derivation for this platform. *)
Lemma startBuilder_outcome (G : Globals) (X : External) (this : GoalId)
    (o : BuilderStart) (s : World) (t : Goal) (d : DerivationGoal) :
  goals (worker s) !! this = Some t →
  body t = IsDerivationGoal d →
  platform (drv d) = thisSystem G →
  let sr := strayRemoval (db s) (outputs (drv d)) (fs s) in
  let T := trace s ++ (EvDeletePath <$> sr.1.2) in
  let res := startBuilder G X this o s in
  db res.2 = db s ∧
  match sr.2 with
  | Some p =>
    res.1 = Throw (Error (msgObstructed p)) ∧ trace res.2 = T ∧
    children (worker res.2) = children (worker s)
  | None =>
    if bool_decide (bs_logFile o = (-1)%Z) then
      (∃ msg, res.1 = Throw (SysError msg)) ∧ trace res.2 = T ∧
      children (worker res.2) = children (worker s)
    else if bool_decide (bs_fork o = (-1)%Z) then
      res.1 = Throw (SysError "unable to fork") ∧ trace res.2 = T ∧
      children (worker res.2) = children (worker s)
    else
      res.1 = Ok tt ∧
      trace res.2 = T ++
        [EvFork (bs_fork o)
           (mkChildProgram (builder (drv d))
              (baseNameOf X (builder (drv d)) :: args (drv d))
              (Some (builderEnv G (drv d) (bs_tmpDir o))))] ∧
      children (worker res.2) =
        <[bs_fork o := mkChild this (bs_logPipe o) true]> (children (worker s)) ∧
      drvSat this (λ d', d_pid d' = bs_fork o ∧ tmpDir d' = bs_tmpDir o)
        (worker res.2)
  end.
Proof.
  intros Ht Hb Hplat sr T res.
  set (C := children (worker s)). set (D := db s).
  set (Q := λ (r : Result unit) (s' : World),
    db s' = D ∧
    match sr.2 with
    | Some p =>
      r = Throw (Error (msgObstructed p)) ∧ trace s' = T ∧
      children (worker s') = C
    | None =>
      if bool_decide (bs_logFile o = (-1)%Z) then
        (∃ msg, r = Throw (SysError msg)) ∧ trace s' = T ∧
        children (worker s') = C
      else if bool_decide (bs_fork o = (-1)%Z) then
        r = Throw (SysError "unable to fork") ∧ trace s' = T ∧
        children (worker s') = C
      else
        r = Ok tt ∧
        trace s' = T ++
          [EvFork (bs_fork o)
             (mkChildProgram (builder (drv d))
                (baseNameOf X (builder (drv d)) :: args (drv d))
                (Some (builderEnv G (drv d) (bs_tmpDir o))))] ∧
        children (worker s') =
          <[bs_fork o := mkChild this (bs_logPipe o) true]> C ∧
        drvSat this (λ d', d_pid d' = bs_fork o ∧ tmpDir d' = bs_tmpDir o)
          (worker s')
    end).
  change (Q res.1 res.2).
  assert (H : hoare (λ s', s' = s) (startBuilder G X this o) Q); [|by apply H].
  unfold startBuilder.
  eapply (hoare_seq _ (λ d' s', s' = s ∧ d' = d)).
  { intros s' ->. unfold derivationGoal, liftW, deref. mrun. rewrite Ht. simpl.
    rewrite Hb. simpl. exists d. split; [done|]. split; [by destruct s|done]. }
  intros d'. apply hoare_pure. intros ->.
  rewrite bool_decide_eq_false_2 by (by intros ?).
  set (φ := λ d' : DerivationGoal, drvPath d' = drvPath d).
  eapply (hoare_bind _ (λ _ s', sr.2 = None ∧ builderState this φ T C D s')).
  { intros s' ->. rewrite removeUnregistered_run. fold sr. simpl.
    unfold Q. destruct sr.2 as [p|]; simpl.
    - done.
    - split; [done|]. split; [|done]. by exists t, d. }
  intros _. apply hoare_pure_l. intros Hsr.
  eapply (hoare_seq _ (λ tmp s', tmp = bs_tmpDir o ∧ builderState this φ T C D s')).
  { intros s' Hs'. exists (bs_tmpDir o). split; [done|]. split; [done|]. apply Hs'. }
  intros tmp. apply hoare_pure_l. intros ->.
  set (ψ := λ d' : DerivationGoal, drvPath d' = drvPath d ∧ tmpDir d' = bs_tmpDir o).
  eapply (hoare_seq _ (λ _, builderState this ψ T C D)).
  { apply hoare_step. intros s' Hs'. split; [done|].
    eapply builderState_updDrv; [|exact Hs']. by intros d0 Hd0. }
  intros _.
  eapply (hoare_bind _ (λ _ s', bs_logFile o ≠ (-1)%Z ∧ builderState this ψ T C D s')).
  { unfold openLogFile. eapply hoare_seq.
    { apply (hoare_derivationGoal_sat _ this ψ). by intros s' [? _]. }
    intros d1. simpl. unfold Q. rewrite Hsr.
    case_bool_decide as Hlog.
    - intros s' [(Hd1 & HT & HC & HD) _]. simpl. split; [done|].
      split; [by eauto|done].
    - eapply (hoare_bind _ (λ _ s', builderState this ψ T C D s')).
      { intros s' [Hs' _]. done. }
      intros _. eapply (hoare_bind _ (λ _ s', builderState this ψ T C D s')).
      { intros s' Hs'. simpl. eapply builderState_updDrv; [|exact Hs']. done. }
      intros _ s' Hs'. simpl. split; [done|].
      eapply builderState_updDrv; [|exact Hs']. done. }
  intros _. apply hoare_pure_l. intros Hlog.
  unfold Q. rewrite Hsr. rewrite (bool_decide_eq_false_2 (bs_logFile o = _)) by done.
  case_bool_decide as Hfork.
  { intros s' (Hd1 & HT & HC & HD). done. }
  set (ev := EvFork (bs_fork o)
           (mkChildProgram (builder (drv d))
              (baseNameOf X (builder (drv d)) :: args (drv d))
              (Some (builderEnv G (drv d) (bs_tmpDir o))))).
  eapply (hoare_seq _ (λ _, builderState this ψ (T ++ [ev]) C D)).
  { apply hoare_step. intros s' (Hd1 & HT & HC & HD). split; [done|].
    split; [done|]. split; [|done]. simpl. by rewrite HT. }
  intros _.
  set (χ := λ d' : DerivationGoal, d_pid d' = bs_fork o ∧ tmpDir d' = bs_tmpDir o).
  eapply (hoare_seq _ (λ _, builderState this χ (T ++ [ev]) C D)).
  { apply hoare_step. intros s' Hs'. split; [done|].
    eapply builderState_updDrv; [|exact Hs']. by intros d0 [_ Hd0]. }
  intros _ s' (Hd1 & HT & HC & HD). unfold liftW. rewrite childStarted_run. simpl.
  split; [done|]. split; [done|]. split; [done|]. split; [by rewrite HC|]. done.
Qed.

(** On a derivation for another platform [startBuilder] stops at its
    first check. *)
Lemma startBuilder_platform (G : Globals) (X : External) (this : GoalId)
    (o : BuilderStart) (s : World) (t : Goal) (d : DerivationGoal) :
  goals (worker s) !! this = Some t →
  body t = IsDerivationGoal d →
  platform (drv d) ≠ thisSystem G →
  startBuilder G X this o s = (Throw (BuildError (msgPlatform G d)), s).
Proof.
  intros Ht Hb Hp. unfold startBuilder.
  eapply bind_run; [apply (derivationGoal_ok this s t d Ht Hb)|]. cbv beta.
  by rewrite bool_decide_eq_true_2.
Qed.

(** What a successful [startBuilder] has done. *)
Lemma startBuilder_Ok (G : Globals) (X : External) (this : GoalId)
    (o : BuilderStart) (s : World) (t : Goal) (d : DerivationGoal) :
  goals (worker s) !! this = Some t →
  body t = IsDerivationGoal d →
  (startBuilder G X this o s).1 = Ok tt →
  let sr := strayRemoval (db s) (outputs (drv d)) (fs s) in
  let res := startBuilder G X this o s in
  platform (drv d) = thisSystem G ∧ sr.2 = None ∧
  trace res.2 = (trace s ++ (EvDeletePath <$> sr.1.2)) ++
    [EvFork (bs_fork o)
       (mkChildProgram (builder (drv d))
          (baseNameOf X (builder (drv d)) :: args (drv d))
          (Some (builderEnv G (drv d) (bs_tmpDir o))))] ∧
  children (worker res.2) =
    <[bs_fork o := mkChild this (bs_logPipe o) true]> (children (worker s)) ∧
  drvSat this (λ d', d_pid d' = bs_fork o ∧ tmpDir d' = bs_tmpDir o) (worker res.2).
Proof.
  intros Ht Hb Hok sr res.
  destruct (decide (platform (drv d) = thisSystem G)) as [Hp|Hp]; last first.
  { rewrite (startBuilder_platform G X this o s t d Ht Hb Hp) in Hok. done. }
  split; [done|].
  destruct (startBuilder_outcome G X this o s t d Ht Hb Hp) as [_ H].
  fold sr res in H. fold res in Hok.
  destruct sr.2 as [p|].
  { destruct H as [H _]. congruence. }
  split; [done|].
  case_bool_decide.
  { destruct H as [[msg H] _]. congruence. }
  case_bool_decide.
  { destruct H as [H _]. congruence. }
  destruct H as (_ & HT & HC & HD). done.
Qed.

(** C3.  The environment of the forked builder.  When [startBuilder]
    succeeds, the last event is the fork of the builder with an
    environment [e] such that: the five variables [NIX_BUILD_TOP],
    [TMPDIR], [TEMPDIR], [TMP] and [TEMP] are bound to the temporary
    directory, whatever the derivation says; every other key of the
    derivation's environment has the derivation's value; and a key that
    is neither has its default, which is [/path-not-set] for [PATH],
    [/homeless-shelter] for [HOME], the store directory for [NIX_STORE]
    and nothing otherwise. *)
Theorem builder_environment (G : Globals) (X : External) (this : GoalId)
    (o : BuilderStart) (s : World) (t : Goal) (d : DerivationGoal) :
  goals (worker s) !! this = Some t →
  body t = IsDerivationGoal d →
  (startBuilder G X this o s).1 = Ok tt →
  ∃ e,
    last (trace (startBuilder G X this o s).2)
      = Some (EvFork (bs_fork o)
                (mkChildProgram (builder (drv d))
                   (baseNameOf X (builder (drv d)) :: args (drv d)) (Some e))) ∧
    drvSat this (λ d', tmpDir d' = bs_tmpDir o) (worker (startBuilder G X this o s).2) ∧
    (∀ k, k ∈ tmpVars → e !! k = Some (bs_tmpDir o)) ∧
    (∀ k v, k ∉ tmpVars → env (drv d) !! k = Some v → e !! k = Some v) ∧
    (∀ k, k ∉ tmpVars → env (drv d) !! k = None → e !! k = defaultEnv G !! k) ∧
    defaultEnv G !! "PATH" = Some "/path-not-set" ∧
    defaultEnv G !! "HOME" = Some "/homeless-shelter" ∧
    defaultEnv G !! "NIX_STORE" = Some (nixStore G) ∧
    (∀ k, k ∉ ["PATH"; "HOME"; "NIX_STORE"] → defaultEnv G !! k = None).
Proof.
  intros Ht Hb Hok.
  destruct (startBuilder_Ok G X this o s t d Ht Hb Hok) as (_ & _ & HT & _ & HD).
  exists (builderEnv G (drv d) (bs_tmpDir o)).
  split; [by rewrite HT, last_snoc|].
  split.
  { destruct HD as (t' & d' & Ht' & Hb' & _ & Htmp). by exists t', d'. }
  split.
  { intros k Hk. by rewrite builderEnv_lookup, bool_decide_eq_true_2. }
  split.
  { intros k v Hk Hv. by rewrite builderEnv_lookup, bool_decide_eq_false_2, Hv. }
  split.
  { intros k Hk Hv. by rewrite builderEnv_lookup, bool_decide_eq_false_2, Hv. }
  unfold defaultEnv. repeat split; try done.
  intros k Hk. rewrite !not_elem_of_cons in Hk. destruct Hk as (? & ? & ? & _).
  by rewrite !lookup_insert_ne, lookup_empty.
Qed.

(** A successful start on the derivation of the example. *)
Lemma builder_environment_witness :
  ∃ e,
    last (trace (startBuilder exG exX 1 exStart
                   (exWorld (exDrvGoal (exDrv "x86_64-linux")) (exDB []) ∅)).2)
      = Some (EvFork 100 (mkChildProgram "/bin/sh" ["/bin/sh"; "-e"; "builder.sh"] (Some e))) ∧
    e !! "name" = Some "hello" ∧ e !! "TEMP" = Some "/tmp/nix-1" ∧
    e !! "HOME" = Some "/homeless-shelter".
Proof.
  assert (H1 : goals (worker (exWorld (exDrvGoal (exDrv "x86_64-linux")) (exDB []) ∅)) !! 1%positive
     = Some (exDrvGoal (exDrv "x86_64-linux"))) by (vm_compute; reflexivity).
  assert (H3 : (startBuilder exG exX 1 exStart
              (exWorld (exDrvGoal (exDrv "x86_64-linux")) (exDB []) ∅)).1 = Ok tt)
    by (vm_compute; reflexivity).
  destruct (builder_environment exG exX 1 exStart
              (exWorld (exDrvGoal (exDrv "x86_64-linux")) (exDB []) ∅)
              (exDrvGoal (exDrv "x86_64-linux")) _ H1 eq_refl H3)
    as (e & Hl & _ & Htmp & Henv & Hdef & _ & Hhome & _).
  exists e. split; [exact Hl|]. split; [|split].
  - apply Henv; [|vm_compute; reflexivity]. by_compute.
  - apply Htmp. by_compute.
  - rewrite Hdef; [exact Hhome| |vm_compute; reflexivity]. by_compute.
Defined.

(** The derivation of the example binds [TMPDIR] to [/var/tmp], and its
    builder nevertheless gets the build directory as [TMPDIR]. *)
Lemma builder_environment_tmpdir :
  ∃ e,
    last (trace (startBuilder exG exX 1 exStart
                   (exWorld (exDrvGoal (exDrv "x86_64-linux")) (exDB []) ∅)).2)
      = Some (EvFork 100 (mkChildProgram "/bin/sh" ["/bin/sh"; "-e"; "builder.sh"] (Some e))) ∧
    env (exDrv "x86_64-linux") !! "TMPDIR" = Some "/var/tmp" ∧
    e !! "TMPDIR" = Some "/tmp/nix-1".
Proof.
  eexists. split; [vm_compute; reflexivity|]. split; vm_compute; reflexivity.
Qed.

(** C7.  [startBuilder] and the output paths of the derivation.  (1) On
    a derivation for another platform the call throws the [BuildError]
    of the platform check and touches nothing, valid outputs or not.
    (2) If some output path is valid, the call throws, no child is
    forked (the events it adds are deletions, the children are as
    before), and on a derivation for this platform the exception is the
    [obstructed build] error naming the first valid output.  (3) If the
    call succeeds, no output path was valid, the events it adds are the
    deletions of the loop over the outputs followed by the fork, and
    every output path that was on disk has been deleted by one of them,
    itself or through a path above it, so that the loop leaves no output
    path on disk. *)
Theorem startBuilder_outputs (G : Globals) (X : External) (this : GoalId)
    (o : BuilderStart) (s : World) (t : Goal) (d : DerivationGoal) :
  goals (worker s) !! this = Some t →
  body t = IsDerivationGoal d →
  let res := startBuilder G X this o s in
  let sr := strayRemoval (db s) (outputs (drv d)) (fs s) in
  (platform (drv d) ≠ thisSystem G →
     res = (Throw (BuildError (msgPlatform G d)), s)) ∧
  ((∃ i, i ∈ outputs (drv d) ∧ isValidPath (db s) (path i.2) = true) →
     (∃ e, res.1 = Throw e) ∧
     (∃ dels, trace res.2 = trace s ++ (EvDeletePath <$> dels)) ∧
     children (worker res.2) = children (worker s) ∧
     (platform (drv d) = thisSystem G →
        ∃ l1 i l2, outputs (drv d) = l1 ++ i :: l2 ∧
          isValidPath (db s) (path i.2) = true ∧
          (∀ j, j ∈ l1 → isValidPath (db s) (path j.2) = false) ∧
          res.1 = Throw (Error (msgObstructed (path i.2))))) ∧
  (res.1 = Ok tt →
     (∃ c, trace res.2
           = trace s ++ (EvDeletePath <$> sr.1.2) ++ [EvFork (bs_fork o) c]) ∧
     (∀ q, q ∈ sr.1.2 → ∃ j, j ∈ outputs (drv d) ∧ path j.2 = q) ∧
     ∀ j, j ∈ outputs (drv d) →
       isValidPath (db s) (path j.2) = false ∧
       pathExists sr.1.1 (path j.2) = false ∧
       (pathExists (fs s) (path j.2) = true →
        ∃ q, q ∈ sr.1.2 ∧ under q (path j.2) = true)).
Proof.
  intros Ht Hb res sr. split; [|split].
  - intros Hp. apply (startBuilder_platform G X this o s t d Ht Hb Hp).
  - intros (i & Hi & Hv).
    destruct (decide (platform (drv d) = thisSystem G)) as [Hp|Hp]; last first.
    { unfold res. rewrite (startBuilder_platform G X this o s t d Ht Hb Hp). simpl.
      split; [by eauto|]. split; [|done].
      exists []. by rewrite fmap_nil, app_nil_r. }
    destruct (startBuilder_outcome G X this o s t d Ht Hb Hp) as [_ H].
    fold sr res in H.
    pose proof (strayRemoval_stops (db s) (outputs (drv d)) (fs s)) as Hstop.
    fold sr in Hstop.
    destruct sr.2 as [p|]; last first.
    { rewrite (Hstop i Hi) in Hv. done. }
    destruct H as (Hr & HT & HC).
    split; [by eauto|]. split; [by eauto|]. split; [done|]. intros _.
    destruct Hstop as (l1 & i0 & l2 & Hl & Hp0 & Hv0 & Hl1).
    exists l1, i0, l2. rewrite Hp0. done.
  - intros Hok.
    destruct (startBuilder_Ok G X this o s t d Ht Hb Hok) as (_ & Hsr & HT & _).
    fold sr res in Hsr, HT.
    split; [eexists; by rewrite HT, <- app_assoc|].
    split.
    { intros q Hq. destruct (strayRemoval_dels _ _ _ _ Hq) as (j & Hj & Hp & _).
      eauto. }
    intros j Hj.
    pose proof (strayRemoval_stops (db s) (outputs (drv d)) (fs s)) as Hstop.
    fold sr in Hstop. rewrite Hsr in Hstop.
    destruct (strayRemoval_deletes (db s) (outputs (drv d)) (fs s) Hsr j Hj)
      as [Hgone Hdel].
    split; [by apply Hstop|]. split; [exact Hgone|exact Hdel].
Qed.

(** The stray output of the example is deleted, then the builder is
    forked. *)
Lemma startBuilder_outputs_witness :
  (∃ c, trace (startBuilder exG exX 1 exStart exStray).2
        = [EvDeletePath "/nix/store/hello"; EvFork 100 c]) ∧
  pathExists (fs exStray) "/nix/store/hello/bin" = true ∧
  pathExists
    (strayRemoval (db exStray) (outputs (exDrv "x86_64-linux")) (fs exStray)).1.1
    "/nix/store/hello" = false.
Proof.
  assert (H1 : goals (worker exStray) !! 1%positive
               = Some (exDrvGoal (exDrv "x86_64-linux"))) by (vm_compute; reflexivity).
  destruct (startBuilder_outputs exG exX 1 exStart exStray _ _ H1 eq_refl)
    as (_ & _ & H3).
  destruct H3 as ([c Hc] & _ & Hall); [vm_compute; reflexivity|].
  split; [exists c; exact Hc|]. split; [vm_compute; reflexivity|].
  apply (Hall ("out", mkDerivationOutput "/nix/store/hello" "" "")).
  apply list_elem_of_here.
Defined.

(** On the derivation for another platform the valid output does not
    lead to the [obstructed build] error. *)
Lemma startBuilder_other_platform :
  isValidPath (db exObstructed) "/nix/store/hello" = true ∧
  startBuilder exG exX 1 exStart exObstructed
  = (Throw (BuildError ("a `i686-linux' is required to build " +:+
                        "`/nix/store/hello.drv', but I am a `x86_64-linux'")),
     exObstructed).
Proof. split; vm_compute; reflexivity. Qed.

(** ** Closure computation and registration *)

Lemma scanOutput_Ok (X : External) (d : DerivationGoal) i acc (s : World) :
  pathExists (fs s) (path i.2) = true →
  fixedOutputOk X i.2 (fs s) →
  scanOutput X d i acc s =
    (Ok (<[path i.2 := scannedRefs X d (canonFS (geteuid X) (path i.2) (fs s)) (path i.2)]> acc.1,
         <[path i.2 := hashPath X htSHA256 (canonFS (geteuid X) (path i.2) (fs s)) (path i.2)]> acc.2),
     set_trace (λ tr, tr ++ [EvCanonicalise (path i.2)])
       (set_fs (canonFS (geteuid X) (path i.2)) s)).
Proof.
  intros He Hok. unfold scanOutput.
  unfold mbind at 1. unfold M_bind at 1. unfold get at 1. rewrite He. simpl.
  case_bool_decide as Hh.
  - destruct (Hok Hh) as (Hht & h & st & Hp & Hf & Hl & Hreg & Hx).
    rewrite bool_decide_eq_false_2 by done. rewrite Hp, Hf.
    rewrite bool_decide_eq_false_2 by (by intros ?). rewrite Hl.
    unfold S_ISREG. rewrite Hreg, Hx. simpl. reflexivity.
  - reflexivity.
Qed.

Lemma scanOutput_inv (X : External) (d : DerivationGoal) i acc (s : World) r s' :
  scanOutput X d i acc s = (r, s') →
  match r with
  | Ok _ => pathExists (fs s) (path i.2) = true ∧ fixedOutputOk X i.2 (fs s)
  | Throw _ => s' = s
  | Aborted _ => False
  end.
Proof.
  unfold scanOutput.
  unfold mbind at 1. unfold M_bind at 1. unfold get at 1.
  destruct (pathExists (fs s) (path i.2)) eqn:He; simpl.
  2: { intros [= <- <-]. done. }
  case_bool_decide as Hh.
  2: { intros [= <- <-]. split; [done|]. intros ?. done. }
  case_bool_decide as Hht.
  { intros [= <- <-]. done. }
  destruct (parseHash X _ (hash i.2)) as [e|h] eqn:Hp.
  { intros [= <- <-]. done. }
  destruct (hashFile X _ (fs s) (path i.2)) as [e|h2] eqn:Hf.
  { intros [= <- <-]. done. }
  case_bool_decide as Hne.
  { intros [= <- <-]. done. }
  destruct (lstat (fs s) (path i.2)) as [st|] eqn:Hl.
  2: { intros [= <- <-]. done. }
  destruct (negb (S_ISREG st) || negb (bool_decide (Z.land (mode st) S_IXUSR = 0%Z)))
    eqn:Hc.
  { intros [= <- <-]. done. }
  intros [= <- <-]. split; [done|]. intros _. split; [done|].
  apply orb_false_iff in Hc as [Hc1 Hc2].
  apply negb_false_iff in Hc1, Hc2.
  apply bool_decide_eq_true in Hc1, Hc2.
  exists h, st. repeat split; try done.
  assert (h = h2) as -> by (destruct (decide (h = h2)); [done|by exfalso; auto]).
  done.
Qed.

Lemma scanOutput_mismatch (X : External) (d : DerivationGoal) i acc (s : World) h h2 :
  pathExists (fs s) (path i.2) = true →
  hash i.2 ≠ "" →
  parseHashType X (hashAlgo i.2) ≠ htUnknown →
  parseHash X (parseHashType X (hashAlgo i.2)) (hash i.2) = inr h →
  hashFile X (parseHashType X (hashAlgo i.2)) (fs s) (path i.2) = inr h2 →
  h ≠ h2 →
  scanOutput X d i acc s = (Throw (Error (msgMismatch X i.2 h h2)), s).
Proof.
  intros He Hh Hht Hp Hf Hne. unfold scanOutput.
  unfold mbind at 1. unfold M_bind at 1. unfold get at 1. rewrite He. simpl.
  rewrite bool_decide_eq_true_2 by done.
  rewrite bool_decide_eq_false_2 by done. rewrite Hp, Hf.
  rewrite bool_decide_eq_true_2 by done. reflexivity.
Qed.

Lemma fsAt_0 X outs f : fsAt X 0 outs f = f.
Proof. done. Qed.

Lemma fsAt_S X k i outs f :
  fsAt X (S k) (i :: outs) f = fsAt X k outs (canonFS (geteuid X) (path i.2) f).
Proof. done. Qed.

(** The first loop of [computeClosure] when it runs to its end. *)
Lemma scanOutputs_Ok (X : External) (d : DerivationGoal) outs : ∀ acc s,
  (∀ k o, outs !! k = Some o →
     pathExists (fsAt X k outs (fs s)) (path o.2) = true ∧
     fixedOutputOk X o.2 (fsAt X k outs (fs s))) →
  scanOutputs X d outs acc s =
    (Ok (scanMaps X d outs (fs s) acc),
     set_trace (λ tr, tr ++ canonEvents outs)
       (set_fs (λ _, fsAt X (length outs) outs (fs s)) s)).
Proof.
  induction outs as [|i outs IH]; intros acc s H.
  - simpl. unfold mret, M_ret. f_equal. destruct s. unfold set_trace, set_fs.
    simpl. by rewrite app_nil_r.
  - simpl. unfold mbind, M_bind.
    destruct (H 0%nat i eq_refl) as [He Hok].
    rewrite (scanOutput_Ok X d i acc s He Hok). rewrite IH.
    + simpl. f_equal. unfold set_trace, set_fs. simpl. f_equal.
      by rewrite <- app_assoc.
    + intros k o Hk. apply (H (S k) o Hk).
Qed.

Lemma scanOutputs_inv (X : External) (d : DerivationGoal) outs : ∀ acc s r s',
  scanOutputs X d outs acc s = (r, s') →
  match r with
  | Ok _ =>
    ∀ k o, outs !! k = Some o →
      pathExists (fsAt X k outs (fs s)) (path o.2) = true ∧
      fixedOutputOk X o.2 (fsAt X k outs (fs s))
  | Throw e =>
    ∃ n i, outs !! n = Some i ∧
      (∀ k o, (k < n)%nat → outs !! k = Some o →
         pathExists (fsAt X k outs (fs s)) (path o.2) = true ∧
         fixedOutputOk X o.2 (fsAt X k outs (fs s))) ∧
      s' = set_trace (λ tr, tr ++ canonEvents (take n outs))
             (set_fs (λ _, fsAt X n outs (fs s)) s) ∧
      ∀ acc', scanOutput X d i acc' s' = (Throw e, s')
  | Aborted _ => False
  end.
Proof.
  induction outs as [|i outs IH]; intros acc s r s' Hrun.
  - simpl in Hrun. injection Hrun as <- <-. intros k o Hk. done.
  - simpl in Hrun. unfold mbind, M_bind in Hrun.
    destruct (scanOutput X d i acc s) as [r1 s1] eqn:H1.
    pose proof (scanOutput_inv X d i acc s r1 s1 H1) as Hi.
    destruct r1 as [acc1|e|x]; [| |done].
    + destruct Hi as [He Hok].
      rewrite (scanOutput_Ok X d i acc s He Hok) in H1. injection H1 as <- <-.
      specialize (IH _ _ _ _ Hrun). destruct r as [a|e|x]; [| |done].
      * intros [|k] o Hk; [by injection Hk as <-|]. apply (IH k o Hk).
      * destruct IH as (n & j & Hn & Hbefore & Hs' & Hfail).
        exists (S n), j. split; [done|]. split.
        { intros [|k] o Hlt Hk; [by injection Hk as <-|].
          apply (Hbefore k o); [lia|done]. }
        split; [|done]. rewrite Hs'. simpl. unfold set_trace, set_fs. simpl.
        f_equal. by rewrite <- app_assoc.
    + injection Hrun as <- <-. subst s1. exists 0%nat, i. split; [done|].
      split; [intros k o Hlt; lia|]. split.
      * destruct s. unfold set_trace, set_fs. simpl. by rewrite app_nil_r.
      * intros acc'. revert H1. unfold scanOutput.
        unfold mbind at 1. unfold M_bind at 1. unfold get at 1.
        unfold mbind at 4. unfold M_bind at 4. unfold get at 2.
        destruct (pathExists (fs s) (path i.2)); simpl; [|done].
        case_bool_decide; [|done].
        case_bool_decide; [done|].
        destruct (parseHash X _ (hash i.2)); [done|].
        destruct (hashFile X _ (fs s) (path i.2)); [done|].
        case_bool_decide; [done|].
        destruct (lstat (fs s) (path i.2)) as [st|]; [|done].
        destruct (negb (S_ISREG st) || _); [done|]. done.
Qed.

(** The second loop of [computeClosure], within its transaction. *)
Lemma register_loop maps outs : ∀ s D,
  txn s = Some D →
  forEach outs (λ i,
    txnRegisterValidPath (path i.2) (maps.2 !!! path i.2);;
    txnSetReferences (path i.2) (default ∅ (maps.1 !! path i.2))) s
  = (Ok tt,
     set_trace (λ tr, tr ++ regEvents maps outs)
       (set_txn (λ _, Some (regDB maps outs D)) s)).
Proof.
  induction outs as [|i outs IH]; intros s D HD.
  - simpl. unfold mret, M_ret. f_equal. destruct s. unfold set_trace, set_txn.
    simpl in *. rewrite app_nil_r. by rewrite HD.
  - simpl. unfold txnRegisterValidPath, txnSetReferences, emit. mrun.
    erewrite IH; [|simpl; rewrite HD; reflexivity].
    f_equal. unfold set_trace, set_txn. simpl. f_equal.
    unfold regEvents. simpl. by rewrite <- !app_assoc.
Qed.

Lemma regDB_validPaths maps outs : ∀ D p,
  dbValidPaths (regDB maps outs D) !! p =
    if bool_decide (p ∈ (λ i : string * DerivationOutput, path i.2) <$> outs)
    then Some (maps.2 !!! p)
    else dbValidPaths D !! p.
Proof.
  induction outs as [|i outs IH]; intros D p.
  - rewrite bool_decide_eq_false_2 by (rewrite fmap_nil; apply not_elem_of_nil).
    done.
  - rewrite fmap_cons. change (regDB maps (i :: outs) D) with
      (regDB maps outs (setReferences (path i.2) (default ∅ (maps.1 !! path i.2))
         (registerValidPath (path i.2) (maps.2 !!! path i.2) D))).
    rewrite IH. simpl.
    destruct (decide (p ∈ (λ i : string * DerivationOutput, path i.2) <$> outs))
      as [Hin|Hnin].
    + rewrite (bool_decide_eq_true_2 _ Hin).
      rewrite bool_decide_eq_true_2; [done|by right].
    + rewrite (bool_decide_eq_false_2 _ Hnin). rewrite lookup_insert.
      case_decide as Hp.
      * subst. rewrite bool_decide_eq_true_2; [done|by left].
      * rewrite bool_decide_eq_false_2; [done|].
        rewrite elem_of_cons. naive_solver.
Qed.

Lemma regDB_references maps outs : ∀ D p,
  dbReferences (regDB maps outs D) !! p =
    if bool_decide (p ∈ (λ i : string * DerivationOutput, path i.2) <$> outs)
    then Some (elements (default ∅ (maps.1 !! p)))
    else dbReferences D !! p.
Proof.
  induction outs as [|i outs IH]; intros D p.
  - rewrite bool_decide_eq_false_2 by (rewrite fmap_nil; apply not_elem_of_nil).
    done.
  - rewrite fmap_cons. change (regDB maps (i :: outs) D) with
      (regDB maps outs (setReferences (path i.2) (default ∅ (maps.1 !! path i.2))
         (registerValidPath (path i.2) (maps.2 !!! path i.2) D))).
    rewrite IH. simpl.
    destruct (decide (p ∈ (λ i : string * DerivationOutput, path i.2) <$> outs))
      as [Hin|Hnin].
    + rewrite (bool_decide_eq_true_2 _ Hin).
      rewrite bool_decide_eq_true_2; [done|by right].
    + rewrite (bool_decide_eq_false_2 _ Hnin). rewrite lookup_insert.
      case_decide as Hp.
      * subst. rewrite bool_decide_eq_true_2; [done|by left].
      * rewrite bool_decide_eq_false_2; [done|].
        rewrite elem_of_cons. naive_solver.
Qed.

Lemma setDeletion_run (this : GoalId) (b : bool) (s : World) (t : Goal)
    (d : DerivationGoal) :
  goals (worker s) !! this = Some t →
  body t = IsDerivationGoal d →
  setDeletion this b s =
    (Ok tt,
     set_trace (λ tr, tr ++ [EvSetDeletion (lockedPaths (outputLocks d)) b])
       (set_worker (set_goals (alter (set_body (λ b0,
          match b0 with
          | IsDerivationGoal d0 =>
            IsDerivationGoal
              (set_outputLocks (mkPathLocks (lockedPaths (outputLocks d0)) b) d0)
          | _ => b0
          end)) this)) s)).
Proof.
  intros Ht Hb. unfold setDeletion, updDrv, liftW, deref, emit. mrun. simpl.
  rewrite lookup_alter_eq, Ht. simpl. rewrite Hb. simpl. reflexivity.
Qed.

Lemma createStoreTransaction_run (s : World) :
  createStoreTransaction s =
    (Ok tt, set_trace (λ tr, tr ++ [EvTxnBegin]) (set_txn (λ _, Some (db s)) s)).
Proof. reflexivity. Qed.

Lemma txnCommit_run (s : World) :
  txnCommit s =
    (Ok tt, set_trace (λ tr, tr ++ [EvTxnCommit])
              (set_txn (λ _, None) (set_db (λ d, default d (txn s)) s))).
Proof. reflexivity. Qed.

Lemma computeClosure_Ok (X : External) (this : GoalId) (s : World) (t : Goal)
    (d : DerivationGoal) :
  goals (worker s) !! this = Some t →
  body t = IsDerivationGoal d →
  (∀ k o, outputs (drv d) !! k = Some o →
     pathExists (fsAt X k (outputs (drv d)) (fs s)) (path o.2) = true ∧
     fixedOutputOk X o.2 (fsAt X k (outputs (drv d)) (fs s))) →
  computeClosure X this s = (Ok tt, closureDone X this d s).
Proof.
  intros Ht Hb Hok. unfold computeClosure.
  eapply bind_run; [apply (derivationGoal_ok this s t d Ht Hb)|]. cbv beta.
  eapply bind_run; [apply (scanOutputs_Ok X d _ _ s Hok)|]. cbv beta.
  eapply bind_run; [apply createStoreTransaction_run|]. cbv beta.
  eapply bind_run; [apply register_loop; reflexivity|]. cbv beta.
  eapply bind_run; [apply txnCommit_run|]. cbv beta.
  erewrite setDeletion_run; [|exact Ht|exact Hb].
  f_equal. destruct s as [w D tx f tr]. unfold closureDone.
  cbv beta iota delta [set_trace set_txn set_db set_fs set_worker
                       worker db txn fs trace default].
  f_equal. by rewrite <- !app_assoc.
Qed.

Lemma computeClosure_inv (X : External) (this : GoalId) (s : World) (t : Goal)
    (d : DerivationGoal) r s' :
  goals (worker s) !! this = Some t →
  body t = IsDerivationGoal d →
  computeClosure X this s = (r, s') →
  match r with
  | Ok _ =>
    (∀ k o, outputs (drv d) !! k = Some o →
       pathExists (fsAt X k (outputs (drv d)) (fs s)) (path o.2) = true ∧
       fixedOutputOk X o.2 (fsAt X k (outputs (drv d)) (fs s))) ∧
    s' = closureDone X this d s
  | Throw e =>
    ∃ n i, outputs (drv d) !! n = Some i ∧
      (∀ k o, (k < n)%nat → outputs (drv d) !! k = Some o →
         pathExists (fsAt X k (outputs (drv d)) (fs s)) (path o.2) = true ∧
         fixedOutputOk X o.2 (fsAt X k (outputs (drv d)) (fs s))) ∧
      s' = set_trace (λ tr, tr ++ canonEvents (take n (outputs (drv d))))
             (set_fs (λ _, fsAt X n (outputs (drv d)) (fs s)) s) ∧
      ∀ acc', scanOutput X d i acc' s' = (Throw e, s')
  | Aborted _ => False
  end.
Proof.
  intros Ht Hb Hrun.
  destruct (scanOutputs X d (outputs (drv d)) (∅, ∅) s) as [r1 s1] eqn:H1.
  pose proof (scanOutputs_inv X d _ _ _ _ _ H1) as Hinv.
  destruct r1 as [maps|e|x]; [| |done].
  - rewrite (computeClosure_Ok X this s t d Ht Hb Hinv) in Hrun.
    injection Hrun as <- <-. done.
  - unfold computeClosure in Hrun.
    unfold mbind at 1 in Hrun. unfold M_bind at 1 in Hrun.
    rewrite (derivationGoal_ok this s t d Ht Hb) in Hrun.
    unfold mbind at 1 in Hrun. unfold M_bind at 1 in Hrun.
    rewrite H1 in Hrun. injection Hrun as <- <-. exact Hinv.
Qed.

(** *** What survives a crash *)

Lemma replay_no_commit (tr : list Event) : ∀ c p,
  EvTxnCommit ∉ tr → replay c p tr = c.
Proof.
  induction tr as [|e tr IH]; intros c p Hn; [done|].
  assert (EvTxnCommit ∉ tr) by (intros ?; apply Hn; by right).
  destruct e; simpl; try by apply IH.
  exfalso. apply Hn. by left.
Qed.

Lemma replay_canon outs : ∀ c p tr,
  replay c p (canonEvents outs ++ tr) = replay c p tr.
Proof.
  induction outs as [|i outs IH]; intros c p tr; [done|]. simpl. apply IH.
Qed.

Lemma replay_reg maps outs : ∀ c D tr,
  replay c (Some D) (regEvents maps outs ++ tr)
  = replay c (Some (regDB maps outs D)) tr.
Proof.
  induction outs as [|i outs IH]; intros c D tr; [done|].
  unfold regEvents. simpl. apply IH.
Qed.

Lemma no_commit_canon outs : EvTxnCommit ∉ canonEvents outs.
Proof.
  unfold canonEvents. rewrite list_elem_of_fmap. by intros (i & Hi & _).
Qed.

Lemma no_commit_reg maps outs : EvTxnCommit ∉ regEvents maps outs.
Proof.
  unfold regEvents. rewrite list_elem_of_bind. intros (i & Hi & _).
  rewrite !elem_of_cons in Hi. destruct Hi as [Hi|[Hi|Hi]]; try done.
  by apply elem_of_nil in Hi.
Qed.

Lemma elem_of_take_in {A} (x : A) (l : list A) (k : nat) : x ∈ take k l → x ∈ l.
Proof.
  intros Hin. apply elem_of_take in Hin as (i & Hi & _).
  apply list_elem_of_lookup. by exists i.
Qed.

Lemma not_elem_of_take {A} (x : A) (l : list A) (k : nat) : x ∉ l → x ∉ take k l.
Proof. intros H Hin. apply H. by eapply elem_of_take_in. Qed.

(** The events of a successful [computeClosure] and what a crash after
    any number of them leaves in the store. *)
Lemma closure_crash (X : External) (d : DerivationGoal) (f : FS) (D : DB)
    (L : PathSet) (k : nat) :
  let outs := outputs (drv d) in
  let maps := scanMaps X d outs f (∅, ∅) in
  let pre := canonEvents outs ++ [EvTxnBegin] ++ regEvents maps outs in
  let evs := pre ++ [EvTxnCommit; EvSetDeletion L true] in
  durable D (take k evs) = (if bool_decide (k ≤ length pre)%nat then D
                            else regDB maps outs D).
Proof.
  intros outs maps pre evs. unfold durable.
  assert (Hpre : EvTxnCommit ∉ pre).
  { unfold pre. rewrite !elem_of_app. intros [H|[H|H]].
    - by apply no_commit_canon in H.
    - apply list_elem_of_singleton in H. done.
    - by apply no_commit_reg in H. }
  case_bool_decide as Hk.
  - unfold evs. rewrite take_app_le by done.
    apply replay_no_commit. by apply not_elem_of_take.
  - assert (Hfull : ∀ rest, replay D None (pre ++ EvTxnCommit :: rest)
                            = replay (regDB maps outs D) None rest).
    { intros rest. unfold pre. rewrite <- !app_assoc. rewrite replay_canon.
      simpl. rewrite replay_reg. done. }
    unfold evs. rewrite take_app_ge by lia.
    destruct (k - length pre)%nat as [|[|n]] eqn:Hn; [lia| |].
    + simpl. rewrite Hfull. done.
    + simpl. rewrite take_nil. rewrite Hfull. done.
Qed.


(** ** What the scan records for an output *)

Lemma scanMaps_other (X : External) (d : DerivationGoal) outs : ∀ f acc p,
  p ∉ (λ i : string * DerivationOutput, path i.2) <$> outs →
  (scanMaps X d outs f acc).1 !! p = acc.1 !! p ∧
  (scanMaps X d outs f acc).2 !! p = acc.2 !! p.
Proof.
  induction outs as [|i outs IH]; intros f acc p Hp; [done|].
  rewrite fmap_cons, not_elem_of_cons in Hp. destruct Hp as [Hne Hp].
  simpl. destruct (IH (canonFS (geteuid X) (path i.2) f)
    (<[path i.2 := scannedRefs X d (canonFS (geteuid X) (path i.2) f) (path i.2)]> acc.1,
     <[path i.2 := hashPath X htSHA256 (canonFS (geteuid X) (path i.2) f) (path i.2)]> acc.2)
    p Hp) as [-> ->].
  simpl. by rewrite !lookup_insert_ne.
Qed.

Lemma scanMaps_lookup (X : External) (d : DerivationGoal) outs : ∀ f acc k o,
  outs !! k = Some o →
  path o.2 ∉ (λ i : string * DerivationOutput, path i.2) <$> drop (S k) outs →
  (scanMaps X d outs f acc).1 !! path o.2
  = Some (scannedRefs X d (canonFS (geteuid X) (path o.2) (fsAt X k outs f)) (path o.2)) ∧
  (scanMaps X d outs f acc).2 !! path o.2
  = Some (hashPath X htSHA256 (canonFS (geteuid X) (path o.2) (fsAt X k outs f))
            (path o.2)).
Proof.
  induction outs as [|i outs IH]; intros f acc k o Hk Hlater; [done|].
  destruct k as [|k].
  - injection Hk as ->. simpl in *. rewrite drop_0 in Hlater.
    destruct (scanMaps_other X d outs (canonFS (geteuid X) (path o.2) f)
      (<[path o.2 := scannedRefs X d (canonFS (geteuid X) (path o.2) f) (path o.2)]> acc.1,
       <[path o.2 := hashPath X htSHA256 (canonFS (geteuid X) (path o.2) f) (path o.2)]> acc.2)
      (path o.2) Hlater) as [-> ->].
    simpl. by rewrite !lookup_insert_eq.
  - simpl in *. by apply (IH _ _ k o).
Qed.

Lemma NoDup_later {A} (l : list A) (k : nat) (x : A) :
  NoDup l → l !! k = Some x → x ∉ drop (S k) l.
Proof.
  intros Hnd Hk Hin.
  apply list_elem_of_lookup in Hin as [j Hj]. rewrite lookup_drop in Hj.
  pose proof (NoDup_lookup l k (S k + j) x Hnd Hk Hj). lia.
Qed.


(** The maps of the scan at an output whose path no other output has. *)
Lemma scanMaps_at (X : External) (d : DerivationGoal) outs f k o :
  NoDup ((λ i : string * DerivationOutput, path i.2) <$> outs) →
  outs !! k = Some o →
  (scanMaps X d outs f (∅, ∅)).1 !! path o.2
  = Some (scannedRefs X d (canonFS (geteuid X) (path o.2) (fsAt X k outs f)) (path o.2)) ∧
  (scanMaps X d outs f (∅, ∅)).2 !! path o.2
  = Some (hashPath X htSHA256 (canonFS (geteuid X) (path o.2) (fsAt X k outs f))
            (path o.2)).
Proof.
  intros Hnd Hk. apply scanMaps_lookup; [done|].
  rewrite fmap_drop.
  apply (NoDup_later _ k); [done|]. by rewrite list_lookup_fmap, Hk.
Qed.

Lemma regDB_valid maps outs D i :
  i ∈ outs →
  isValidPath (regDB maps outs D) (path i.2) = true ∧
  dbValidPaths (regDB maps outs D) !! path i.2 = Some (maps.2 !!! path i.2) ∧
  queryReferences (regDB maps outs D) (path i.2) = default ∅ (maps.1 !! path i.2).
Proof.
  intros Hi.
  assert (Hin : path i.2 ∈ (λ i : string * DerivationOutput, path i.2) <$> outs).
  { apply list_elem_of_fmap. eauto. }
  assert (Hv : dbValidPaths (regDB maps outs D) !! path i.2
               = Some (maps.2 !!! path i.2)).
  { rewrite regDB_validPaths. by rewrite (bool_decide_eq_true_2 (_ ∈ _)). }
  split; [|split; [done|]].
  - unfold isValidPath. rewrite Hv. by apply bool_decide_eq_true_2.
  - unfold queryReferences. rewrite regDB_references.
    rewrite (bool_decide_eq_true_2 (_ ∈ _)) by done.
    simpl. apply list_to_set_elements_L.
Qed.

Lemma regDB_untouched maps outs D p :
  p ∉ (λ i : string * DerivationOutput, path i.2) <$> outs →
  isValidPath (regDB maps outs D) p = isValidPath D p.
Proof.
  intros Hp. unfold isValidPath.
  rewrite regDB_validPaths. by rewrite (bool_decide_eq_false_2 (p ∈ _)).
Qed.

(** C1.  A successful [computeClosure] of a derivation goal makes, after
    the canonicalisation of the outputs, exactly these updates, in this
    order: it opens one transaction, writes within it the content hash
    and the reference set of every output, commits it, and then marks
    the output locks for deletion.  The hash written for an output is
    that of its canonicalised contents and the references are those the
    scan has found (the output paths being distinct).  Hence what a
    crash leaves in the store after any number [k] of these events is
    the store as it was or the store with every output registered; if no
    output was valid before, then after a crash all outputs are valid or
    none is; and the locks are marked for deletion only when the
    transaction is committed. *)
Theorem registration_atomic (X : External) (this : GoalId) (s s' : World)
    (t : Goal) (d : DerivationGoal) :
  goals (worker s) !! this = Some t →
  body t = IsDerivationGoal d →
  computeClosure X this s = (Ok tt, s') →
  let outs := outputs (drv d) in
  let maps := scanMaps X d outs (fs s) (∅, ∅) in
  let evs := canonEvents outs ++ [EvTxnBegin] ++ regEvents maps outs ++
             [EvTxnCommit; EvSetDeletion (lockedPaths (outputLocks d)) true] in
  trace s' = trace s ++ evs ∧
  db s' = regDB maps outs (db s) ∧
  durable (db s) evs = db s' ∧
  (∀ i, i ∈ outs → isValidPath (db s') (path i.2) = true) ∧
  (NoDup ((λ i : string * DerivationOutput, path i.2) <$> outs) →
   ∀ k o, outs !! k = Some o →
     let f := canonFS (geteuid X) (path o.2) (fsAt X k outs (fs s)) in
     dbValidPaths (db s') !! path o.2 = Some (hashPath X htSHA256 f (path o.2)) ∧
     queryReferences (db s') (path o.2) = scannedRefs X d f (path o.2)) ∧
  (∀ k, durable (db s) (take k evs) = db s ∨
        durable (db s) (take k evs) = db s') ∧
  ((∀ i, i ∈ outs → isValidPath (db s) (path i.2) = false) →
   ∀ k, (∀ i, i ∈ outs →
           isValidPath (durable (db s) (take k evs)) (path i.2) = true) ∨
        (∀ i, i ∈ outs →
           isValidPath (durable (db s) (take k evs)) (path i.2) = false)) ∧
  (∀ k L b, EvSetDeletion L b ∈ take k evs →
            durable (db s) (take k evs) = db s') ∧
  drvSat this (λ d', deletePaths (outputLocks d') = true) (worker s').
Proof.
  intros Ht Hb Hrun outs maps evs.
  destruct (computeClosure_inv X this s t d _ _ Ht Hb Hrun) as [Hok ->].
  set (pre := canonEvents outs ++ [EvTxnBegin] ++ regEvents maps outs).
  assert (Hevs : evs = pre ++ [EvTxnCommit;
                               EvSetDeletion (lockedPaths (outputLocks d)) true]).
  { unfold evs, pre. by rewrite <- !app_assoc. }
  assert (Hcrash : ∀ k, durable (db s) (take k evs)
          = (if bool_decide (k ≤ length pre)%nat then db s
             else regDB maps outs (db s))).
  { intros k. rewrite Hevs. apply (closure_crash X d (fs s) (db s)). }
  split; [done|].
  split; [done|].
  split.
  { specialize (Hcrash (length pre + 2)%nat).
    rewrite take_ge in Hcrash by (rewrite Hevs, length_app; simpl; lia).
    rewrite Hcrash. by rewrite bool_decide_eq_false_2 by lia. }
  split; [intros i Hi; by apply regDB_valid|].
  split.
  { intros Hnd k o Hk f.
    assert (Hin : o ∈ outs) by (apply list_elem_of_lookup; eauto).
    destruct (regDB_valid maps outs (db s) o Hin) as (_ & Hh & Hq).
    destruct (scanMaps_at X d outs (fs s) k o Hnd Hk) as [Hm1 Hm2].
    fold maps in Hm1, Hm2. fold f in Hm1, Hm2.
    unfold closureDone. simpl. fold outs maps.
    split.
    - rewrite Hh. f_equal. by apply lookup_total_correct.
    - by rewrite Hq, Hm1. }
  split.
  { intros k. rewrite Hcrash. case_bool_decide; auto. }
  split.
  { intros Hnone k. rewrite Hcrash. case_bool_decide.
    - right. exact Hnone.
    - left. intros i Hi. by apply regDB_valid. }
  split.
  { intros k L b Hin. rewrite Hcrash.
    rewrite bool_decide_eq_false_2; [done|]. intros Hk.
    rewrite Hevs, take_app_le in Hin by done. apply elem_of_take_in in Hin.
    unfold pre in Hin. rewrite !elem_of_app in Hin.
    destruct Hin as [H|[H|H]].
    - unfold canonEvents in H. apply list_elem_of_fmap in H as (i & Hi & _). done.
    - apply list_elem_of_singleton in H. done.
    - unfold regEvents in H. apply list_elem_of_bind in H as (i & Hi & _).
      rewrite !elem_of_cons in Hi. destruct Hi as [Hi|[Hi|Hi]]; try done.
      by apply elem_of_nil in Hi. }
  unfold closureDone. simpl.
  apply (drvSat_upd this (λ _, True) _
    (λ d0, set_outputLocks (mkPathLocks (lockedPaths (outputLocks d0)) true) d0));
    [by intros d0 _|by exists t, d].
Qed.

(** The registration of the output of the example. *)
Lemma registration_atomic_witness :
  isValidPath (db exBuilt) "/nix/store/hello" = false ∧
  isValidPath (db (computeClosure exX 1 exBuilt).2) "/nix/store/hello" = true ∧
  ∀ k, durable (db exBuilt) (take k (trace (computeClosure exX 1 exBuilt).2))
         = db exBuilt ∨
       durable (db exBuilt) (take k (trace (computeClosure exX 1 exBuilt).2))
         = db (computeClosure exX 1 exBuilt).2.
Proof.
  assert (H1 : goals (worker exBuilt) !! 1%positive
               = Some (exDrvGoal (exDrv "x86_64-linux"))) by (vm_compute; reflexivity).
  assert (H3 : computeClosure exX 1 exBuilt = (Ok tt, (computeClosure exX 1 exBuilt).2))
    by (vm_compute; reflexivity).
  destruct (registration_atomic exX 1 exBuilt _ _ _ H1 eq_refl H3)
    as (HT & HD & Hdur & Hall & _ & Hcrash & _).
  split; [vm_compute; reflexivity|]. split.
  - apply (Hall ("out", mkDerivationOutput "/nix/store/hello" "" "")).
    apply list_elem_of_here.
  - rewrite HT. exact Hcrash.
Defined.

Lemma world_eta (s : World) :
  set_trace (λ tr, tr ++ []) (set_fs (λ _, fs s) s) = s.
Proof. destruct s. unfold set_trace, set_fs. simpl. by rewrite app_nil_r. Qed.

(** The first loop of [computeClosure] stops at the first output that
    fails a check. *)
Lemma scanOutputs_stop (X : External) (d : DerivationGoal) outs : ∀ k o acc s e,
  outs !! k = Some o →
  (∀ j o', (j < k)%nat → outs !! j = Some o' →
     pathExists (fsAt X j outs (fs s)) (path o'.2) = true ∧
     fixedOutputOk X o'.2 (fsAt X j outs (fs s))) →
  (∀ acc',
     scanOutput X d o acc'
       (set_trace (λ tr, tr ++ canonEvents (take k outs))
          (set_fs (λ _, fsAt X k outs (fs s)) s))
     = (Throw e, set_trace (λ tr, tr ++ canonEvents (take k outs))
                   (set_fs (λ _, fsAt X k outs (fs s)) s))) →
  scanOutputs X d outs acc s
  = (Throw e, set_trace (λ tr, tr ++ canonEvents (take k outs))
                (set_fs (λ _, fsAt X k outs (fs s)) s)).
Proof.
  induction outs as [|i outs IH]; intros k o acc s e Hk Hbefore Hfail; [done|].
  destruct k as [|k].
  - injection Hk as ->.
    change (set_trace (λ tr, tr ++ canonEvents (take 0 (o :: outs)))
              (set_fs (λ _, fsAt X 0 (o :: outs) (fs s)) s))
      with (set_trace (λ tr, tr ++ []) (set_fs (λ _, fs s) s)) in *.
    rewrite world_eta in *.
    simpl. unfold mbind, M_bind. by rewrite Hfail.
  - simpl in Hk. destruct (Hbefore 0%nat i) as [He Hok]; [lia|done|].
    simpl. unfold mbind, M_bind. rewrite (scanOutput_Ok X d i acc s He Hok).
    erewrite (IH k o); [| exact Hk | |].
    + f_equal. unfold set_trace, set_fs. simpl. f_equal. by rewrite <- app_assoc.
    + intros j o' Hj Ho'. apply (Hbefore (S j) o'); [lia|done].
    + intros acc'. simpl.
      assert (Heq : set_trace (λ tr, tr ++ canonEvents (take k outs))
                (set_fs (λ _, fsAt X k outs (canonFS (geteuid X) (path i.2) (fs s)))
                   (set_trace (λ tr, tr ++ [EvCanonicalise (path i.2)])
                      (set_fs (canonFS (geteuid X) (path i.2)) s)))
              = set_trace (λ tr, tr ++ canonEvents (take (S k) (i :: outs)))
                  (set_fs (λ _, fsAt X (S k) (i :: outs) (fs s)) s)).
      { unfold set_trace, set_fs. simpl. f_equal. by rewrite <- app_assoc. }
      rewrite Heq. apply Hfail.
Qed.

Lemma computeClosure_throw (X : External) (this : GoalId) (s s1 : World) (t : Goal)
    (d : DerivationGoal) (e : Exn) :
  goals (worker s) !! this = Some t →
  body t = IsDerivationGoal d →
  scanOutputs X d (outputs (drv d)) (∅, ∅) s = (Throw e, s1) →
  computeClosure X this s = (Throw e, s1).
Proof.
  intros Ht Hb H1. unfold computeClosure.
  unfold mbind at 1. unfold M_bind at 1.
  rewrite (derivationGoal_ok this s t d Ht Hb).
  unfold mbind at 1. unfold M_bind at 1. by rewrite H1.
Qed.

(** C4.  [computeClosure] and the outputs with a declared hash.  (1) If
    the call succeeds, every such output was, when the loop reached it,
    a regular file without the owner's execute permission whose content
    hashes, under the declared algorithm, to the declared hash.  (2) If
    the loop reaches such an output and its content hashes to something
    else, the call throws an [Error] whose message names the declared
    and the actual hash, and the store is as before: no transaction is
    opened and no path is registered.  (3) More generally the store is
    unchanged whenever the call does not succeed. *)
Theorem fixed_output_check (X : External) (this : GoalId) (s : World) (t : Goal)
    (d : DerivationGoal) :
  goals (worker s) !! this = Some t →
  body t = IsDerivationGoal d →
  let outs := outputs (drv d) in
  let res := computeClosure X this s in
  (res.1 = Ok tt →
   ∀ k o, outs !! k = Some o → hash o.2 ≠ "" →
     parseHashType X (hashAlgo o.2) ≠ htUnknown ∧
     ∃ h st,
       parseHash X (parseHashType X (hashAlgo o.2)) (hash o.2) = inr h ∧
       hashFile X (parseHashType X (hashAlgo o.2)) (fsAt X k outs (fs s)) (path o.2)
         = inr h ∧
       lstat (fsAt X k outs (fs s)) (path o.2) = Some st ∧
       ftype st = Regular ∧
       Z.land (mode st) S_IXUSR = 0%Z) ∧
  (∀ k o h h2,
     outs !! k = Some o →
     (∀ j o', (j < k)%nat → outs !! j = Some o' →
        pathExists (fsAt X j outs (fs s)) (path o'.2) = true ∧
        fixedOutputOk X o'.2 (fsAt X j outs (fs s))) →
     pathExists (fsAt X k outs (fs s)) (path o.2) = true →
     hash o.2 ≠ "" →
     parseHashType X (hashAlgo o.2) ≠ htUnknown →
     parseHash X (parseHashType X (hashAlgo o.2)) (hash o.2) = inr h →
     hashFile X (parseHashType X (hashAlgo o.2)) (fsAt X k outs (fs s)) (path o.2)
       = inr h2 →
     h ≠ h2 →
     res.1 = Throw (Error (msgMismatch X o.2 h h2)) ∧
     db res.2 = db s ∧ txn res.2 = txn s ∧
     trace res.2 = trace s ++ canonEvents (take k outs)) ∧
  (res.1 ≠ Ok tt →
   db res.2 = db s ∧ txn res.2 = txn s ∧
   ∃ n, trace res.2 = trace s ++ canonEvents (take n outs)).
Proof.
  intros Ht Hb outs res. split; [|split].
  - intros Hres k o Hk Hh.
    destruct res as [r s'] eqn:Hrun. simpl in Hres. subst r.
    destruct (computeClosure_inv X this s t d _ _ Ht Hb Hrun) as [Hok _].
    destruct (Hok k o Hk) as [_ Hfix]. exact (Hfix Hh).
  - intros k o h h2 Hk Hbefore He Hh Hht Hp Hf Hne.
    assert (Hrun : res = (Throw (Error (msgMismatch X o.2 h h2)),
                          set_trace (λ tr, tr ++ canonEvents (take k outs))
                            (set_fs (λ _, fsAt X k outs (fs s)) s))).
    { apply (computeClosure_throw X this s _ t d _ Ht Hb).
      apply (scanOutputs_stop X d outs k o); [done|done|].
      intros acc'. by apply scanOutput_mismatch. }
    rewrite Hrun. done.
  - intros Hres. destruct res as [r s'] eqn:Hrun. simpl in *.
    pose proof (computeClosure_inv X this s t d _ _ Ht Hb Hrun) as Hinv.
    destruct r as [[]|e|x]; [done| |done].
    destruct Hinv as (n & i & _ & _ & -> & _). simpl. eauto.
Qed.

(** The fetched file of the example does not have the declared hash. *)
Lemma fixed_output_check_witness :
  (computeClosure exX 1 exFetched).1
  = Throw (Error (msgMismatch exX (mkDerivationOutput "/nix/store/hello" "sha256" "abc")
                    (mkHash htSHA256 "abc") (mkHash htSHA256 "xyz"))) ∧
  db (computeClosure exX 1 exFetched).2 = db exFetched.
Proof.
  assert (H1 : goals (worker exFetched) !! 1%positive = Some (exDrvGoal exFixed))
    by (vm_compute; reflexivity).
  destruct (fixed_output_check exX 1 exFetched _ _ H1 eq_refl) as (_ & H2 & _).
  destruct (H2 0%nat ("out", mkDerivationOutput "/nix/store/hello" "sha256" "abc")
              (mkHash htSHA256 "abc") (mkHash htSHA256 "xyz"))
    as (Hr & HD & _).
  - reflexivity.
  - intros j o' Hj. lia.
  - vm_compute. reflexivity.
  - by_compute.
  - by_compute.
  - vm_compute. reflexivity.
  - vm_compute. reflexivity.
  - by_compute.
  - split; [exact Hr|exact HD].
Defined.



(** ** The end of a substitution *)

Lemma substState_upd this t w0 (φ ψ : SubstitutionGoal → Prop) (A : Worker → Prop)
    D tx f T (g : SubstitutionGoal → SubstitutionGoal) s :
  (∀ sg, φ sg → ψ (g sg)) →
  (∀ w gs, A w → A (set_goals gs w)) →
  substState this t w0 φ A D tx f T s →
  (updSubst this g s).1 = Ok tt ∧
  substState this t w0 ψ A D tx f T (updSubst this g s).2.
Proof.
  intros Hg HA ((sg & Hφ & Hgoals) & HAw & HD & Htx & Hf & HT).
  split; [done|]. split; [|split; [apply HA, HAw|done]].
  exists (g sg). split; [by apply Hg|]. simpl. rewrite Hgoals.
  by rewrite alter_insert_eq.
Qed.

Lemma hoare_updSubst this t w0 (φ ψ : SubstitutionGoal → Prop) (A : Worker → Prop)
    D tx f T (g : SubstitutionGoal → SubstitutionGoal) :
  (∀ sg, φ sg → ψ (g sg)) →
  (∀ w gs, A w → A (set_goals gs w)) →
  hoare (substState this t w0 φ A D tx f T) (updSubst this g)
    (λ r s, ∃ a, r = Ok a ∧ substState this t w0 ψ A D tx f T s).
Proof. intros Hg HA. apply hoare_step. intros s. by apply substState_upd. Qed.

Lemma hoare_substitutionGoal this t w0 (φ : SubstitutionGoal → Prop)
    (A : Worker → Prop) D tx f T :
  hoare (substState this t w0 φ A D tx f T) (substitutionGoal this)
    (λ r s, ∃ sg, r = Ok sg ∧ (φ sg ∧ substState this t w0 φ A D tx f T s)).
Proof.
  intros s Hs. pose proof Hs as ((sg & Hφ & Hgoals) & _).
  unfold substitutionGoal, liftW, deref. mrun.
  rewrite Hgoals, lookup_insert_eq. simpl.
  exists sg. split; [done|]. split; [done|]. by destruct s.
Qed.

Lemma substState_init this t (sg : SubstitutionGoal) (s : World) :
  goals (worker s) !! this = Some t →
  body t = IsSubstitutionGoal sg →
  substState this t (worker s) (λ sg', sg' = sg)
    (λ w, children w = children (worker s) ∧ nrChildren w = nrChildren (worker s))
    (db s) (txn s) (fs s) (trace s) s.
Proof.
  intros Ht Hb. split; [|done]. exists sg. split; [done|].
  rewrite <- Hb. destruct t. simpl. by rewrite insert_id.
Qed.

(** The outcome of [finished], up to what the final [amDone] does to the
    worker. *)
Lemma finished_outcome (G : Globals) (X : External) (this : GoalId) (status : Z)
    (s : World) (t : Goal) (sg : SubstitutionGoal) (c : Child) :
  goals (worker s) !! this = Some t →
  body t = IsSubstitutionGoal sg →
  children (worker s) !! s_pid sg = Some c →
  (inBuildSlot c = true → (0 < nrChildren (worker s))%Z) →
  let p := storePath sg in
  let f' := canonFS (geteuid X) p (fs s) in
  let h := hashPath X htSHA256 f' p in
  let res := finished G X this status s in
  if negb (statusOk status) || negb (pathExists (fs s) p) then
    res.1 = Ok tt ∧ db res.2 = db s ∧ txn res.2 = txn s ∧ fs res.2 = fs s ∧
    trace res.2 = trace s ∧ this ∈ awake (worker res.2) ∧
    substSat this (λ sg', s_state sg' = sTryNext ∧ storePath sg' = p ∧
                          subs sg' = subs sg ∧ references sg' = references sg)
      (worker res.2)
  else
    db res.2 = registerValidPath p h (db s) ∧ txn res.2 = None ∧ fs res.2 = f' ∧
    trace res.2 = trace s ++ substEvents p h (outputLock sg) ∧
    (done t = false →
     (∀ x tx, x ∈ waiters t → goals (worker s) !! x = Some tx →
              isPseudo tx = true ∨ this ∈ waitees tx) →
     res.1 = Ok tt ∧
     ∃ t', goals (worker res.2) !! this = Some t' ∧ done t' = true).
Proof.
  intros Ht Hb Hc Hn p f' h res.
  set (w0 := worker s).
  set (A0 := λ w : Worker, children w = children w0 ∧ nrChildren w = nrChildren w0).
  set (φ := λ sg' : SubstitutionGoal,
    storePath sg' = p ∧ subs sg' = subs sg ∧ references sg' = references sg ∧
    outputLock sg' = outputLock sg).
  set (Q := λ (r : Result unit) (s' : World),
    if negb (statusOk status) || negb (pathExists (fs s) p) then
      r = Ok tt ∧ db s' = db s ∧ txn s' = txn s ∧ fs s' = fs s ∧
      trace s' = trace s ∧ this ∈ awake (worker s') ∧
      substSat this (λ sg', s_state sg' = sTryNext ∧ storePath sg' = p ∧
                            subs sg' = subs sg ∧ references sg' = references sg)
        (worker s')
    else
      db s' = registerValidPath p h (db s) ∧ txn s' = None ∧ fs s' = f' ∧
      trace s' = trace s ++ substEvents p h (outputLock sg) ∧
      (done t = false →
       (∀ x tx, x ∈ waiters t → goals (worker s) !! x = Some tx →
                isPseudo tx = true ∨ this ∈ waitees tx) →
       r = Ok tt ∧
       ∃ t', goals (worker s') !! this = Some t' ∧ done t' = true)).
  change (Q res.1 res.2).
  assert (H : hoare (substState this t w0 (λ sg', sg' = sg) A0
                       (db s) (txn s) (fs s) (trace s))
                (finished G X this status) Q);
    [|apply H; by apply substState_init].
  unfold finished.
  eapply hoare_seq; [apply hoare_substitutionGoal|].
  intros sg0. apply hoare_pure_l. intros ->.
  eapply (hoare_seq _ (λ _, substState this t w0 φ A0 (db s) (txn s) (fs s) (trace s))).
  { apply hoare_updSubst; [by intros sg' ->|]. by intros w gs. }
  intros _.
  eapply (hoare_seq _ (λ _, substState this t w0 φ (λ _, True) (db s) (txn s) (fs s) (trace s))).
  { apply hoare_step. intros s' ((sg' & Hφ & Hg) & [HC HN] & HD & Htx & Hf & HT).
    unfold liftW. rewrite (childTerminated_run _ _ _ c).
    - simpl. split; [done|]. split; [|done]. exists sg'. split; [done|].
      simpl. by destruct (inBuildSlot c).
    - by rewrite HC.
    - by rewrite HN. }
  intros _.
  eapply (hoare_seq _ (λ _, substState this t w0 φ (λ _, True) (db s) (txn s) (fs s) (trace s))).
  { apply hoare_updSubst; [|done]. by intros sg' (? & ? & ? & ?). }
  intros _.
  set (fl := negb (statusOk status) || negb (pathExists (fs s) p)).
  eapply (hoare_seq _ (λ b s', b = fl ∧
      if fl then
        substState this t w0 (λ sg', s_state sg' = sTryNext ∧ φ sg')
          (λ w, this ∈ awake w) (db s) (txn s) (fs s) (trace s) s'
      else substState this t w0 φ (λ _, True) (db s) (txn s) (fs s) (trace s) s')).
  { intros s' Hs'.
    assert (Hh : ((updSubst this (set_s_state sTryNext) ≫= λ _ : (),
                    liftW (wakeUp this) ≫= λ _ : (), mret true) s').1 = Ok true ∧
                 substState this t w0 (λ sg', s_state sg' = sTryNext ∧ φ sg')
                   (λ w, this ∈ awake w) (db s) (txn s) (fs s) (trace s)
                   ((updSubst this (set_s_state sTryNext) ≫= λ _ : (),
                    liftW (wakeUp this) ≫= λ _ : (), mret true) s').2).
    { destruct (substState_upd this t w0 φ (λ sg', s_state sg' = sTryNext ∧ φ sg')
                  (λ _, True) (db s) (txn s) (fs s) (trace s) (set_s_state sTryNext) s') as [_ H1];
        [by intros sg' (? & ? & ? & ?)|done|exact Hs'|].
      destruct H1 as (Hg1 & _ & Hrest).
      split; [done|]. split; [exact Hg1|]. split; [|exact Hrest].
      simpl. set_solver. }
    pose proof Hs' as (_ & _ & _ & _ & Hf & _).
    unfold catchSubstError.
    match goal with |- context [catchSubstError] => idtac | |- context [match ?m s' with _ => _ end] =>
      assert (Hm : m s' =
        (if negb (statusOk status) then
           Throw (SubstError ("builder for `" +:+ storePath sg +:+ "' " +:+
                              statusToString X status))
         else if negb (pathExists (fs s) p) then
           Throw (SubstError ("substitute did not produce path `" +:+
                              storePath sg +:+ "'"))
         else Ok false, s'))
    end.
    { destruct (statusOk status); simpl; [|done].
      unfold mbind, M_bind, get. rewrite Hf. fold p.
      by destruct (pathExists (fs s) p). }
    rewrite Hm. unfold fl. destruct Hh as [Hh1 Hh2].
    destruct (statusOk status); cbn [negb orb]; cbv beta iota;
      [|exists true; by rewrite Hh1].
    destruct (pathExists (fs s) p); cbn [negb orb]; cbv beta iota;
      [by exists false|exists true; by rewrite Hh1]. }
  intros failed. apply hoare_pure_l. intros ->.
  unfold Q. fold fl. destruct fl.
  { intros s' ((sg' & (Hst & Hp & Hsubs & Hrefs & _) & Hg) & HA & HD & Htx & Hf & HT).
    simpl. repeat (split; [done|]).
    eexists _, sg'. rewrite Hg, lookup_insert_eq. split; [done|]. done. }
  set (I := substState this t w0 φ (λ _, True)).
  eapply (hoare_seq _ (λ _, I (db s) (txn s) f' (trace s ++ [EvCanonicalise p]))).
  { apply hoare_step. intros s' (Hg & HA & HD & Htx & Hf & HT). split; [done|].
    split; [exact Hg|]. split; [done|]. simpl. by rewrite Hf, HT. }
  intros _.
  eapply (hoare_seq _ (λ s1 s', fs s1 = f' ∧
            I (db s) (txn s) f' (trace s ++ [EvCanonicalise p]) s')).
  { intros s' Hs'. exists s'. split; [done|]. split; [apply Hs'|exact Hs']. }
  intros s1. apply hoare_pure_l. intros Hs1. rewrite Hs1. fold p h.
  eapply (hoare_seq _ (λ _, I (db s) (Some (db s)) f'
            (trace s ++ [EvCanonicalise p; EvTxnBegin]))).
  { apply hoare_step. intros s' (Hg & HA & HD & Htx & Hf & HT). split; [done|].
    split; [exact Hg|]. split; [done|]. simpl. rewrite HD, HT, <- app_assoc. done. }
  intros _.
  eapply (hoare_seq _ (λ _, I (db s) (Some (registerValidPath p h (db s))) f'
            (trace s ++ [EvCanonicalise p; EvTxnBegin; EvRegisterValidPath p h]))).
  { apply hoare_step. intros s' (Hg & HA & HD & Htx & Hf & HT). split; [done|].
    split; [exact Hg|]. split; [done|]. simpl. rewrite Htx, HT, <- app_assoc. done. }
  intros _.
  eapply (hoare_seq _ (λ _, I (registerValidPath p h (db s)) None f'
            (trace s ++ [EvCanonicalise p; EvTxnBegin; EvRegisterValidPath p h;
                         EvTxnCommit]))).
  { apply hoare_step. intros s' (Hg & HA & HD & Htx & Hf & HT). split; [done|].
    split; [exact Hg|]. split; [done|]. simpl. rewrite Htx, HT, <- app_assoc. done. }
  intros _.
  eapply hoare_seq; [apply hoare_substitutionGoal|].
  intros sg1. apply hoare_pure_l. intros (_ & _ & _ & Hlock). rewrite Hlock.
  set (J := substState this t w0 (λ _, True) (λ _, True)
              (registerValidPath p h (db s)) None f').
  eapply (hoare_seq _ (λ _, J
            (trace s ++ [EvCanonicalise p; EvTxnBegin; EvRegisterValidPath p h;
                         EvTxnCommit]))).
  { by apply hoare_updSubst. }
  intros _.
  eapply (hoare_seq _ (λ _, J (trace s ++ substEvents p h (outputLock sg)))).
  { apply hoare_step. intros s' (Hg & HA & HD & Htx & Hf & HT). split; [done|].
    split; [exact Hg|]. split; [done|]. simpl. rewrite HT, <- app_assoc. done. }
  intros _ s' ((sg' & _ & Hg) & _ & HD & Htx & Hf & HT).
  unfold liftW.
  destruct (amDone G this true (worker s')) as [r w'] eqn:Hrun. simpl.
  repeat (split; [done|]). intros Hdone Hw.
  destruct (amDone_effect G this true (worker s')
              (set_body (λ _, IsSubstitutionGoal sg') t))
    as (w1 & t1 & l & Hrun1 & _ & _ & _ & Hg1 & Hd1 & _).
  { by rewrite Hg, lookup_insert_eq. }
  { by destruct t. }
  { intros x tx Hx. rewrite Hg. destruct (decide (x = this)) as [->|Hne].
    - rewrite lookup_insert_eq. intros [= <-]. right.
      destruct (Hw this t) as [Hps|Hin]; [by destruct t|done| |by destruct t].
      unfold isPseudo in Hps. by rewrite Hb in Hps.
    - rewrite lookup_insert_ne by done. apply Hw. by destruct t. }
  rewrite Hrun in Hrun1. injection Hrun1 as -> ->. split; [done|]. eauto.
Qed.

(** ** The references of a substitution goal *)

Lemma leads_inv {S A B} (I : S → Prop) (m : M S A) (k : A → M S B) :
  leads I m I → (∀ a, leads I (k a) I) → leads I (m ≫= k) I.
Proof. intros Hm Hk. by apply (leads_bind I I I). Qed.

Lemma leads_same {S A} (I : S → Prop) (m : M S A) :
  (∀ s, (m s).2 = s) → leads I m I.
Proof. apply leads_pure. Qed.

Section Kept.

Variable G : Globals.
Variable this : GoalId.
Variable φ : SubstitutionGoal → Prop.

Local Abbreviation K := (substKept this φ).

Lemma substKept_fields (w w' : Worker) :
  goals w' = goals w → nextGoal w' = nextGoal w → K w → K w'.
Proof.
  intros Hg Hn [Hwf Hs]. split.
  - intros x. rewrite Hg, Hn. apply Hwf.
  - unfold substSat. by rewrite Hg.
Qed.

Lemma substKept_alter (f : Goal → Goal) (x : GoalId) (w : Worker) :
  (∀ t sg, body t = IsSubstitutionGoal sg → body (f t) = IsSubstitutionGoal sg) →
  K w → K (set_goals (alter f x) w).
Proof.
  intros Hf [Hwf (t & sg & Ht & Hb & Hφ)]. split.
  - intros y. simpl. rewrite lookup_alter. case_decide; subst; [|apply Hwf].
    rewrite fmap_is_Some. apply Hwf.
  - destruct (decide (x = this)) as [->|Hne].
    + exists (f t), sg. simpl. rewrite lookup_alter_eq, Ht. eauto.
    + exists t, sg. simpl. by rewrite lookup_alter_ne.
Qed.

Lemma leads_updGoal (f : Goal → Goal) (x : GoalId) :
  (∀ t sg, body t = IsSubstitutionGoal sg → body (f t) = IsSubstitutionGoal sg) →
  leads K (updGoal x f) K.
Proof. intros Hf w Hw. by apply substKept_alter. Qed.

Lemma leads_deref (x : GoalId) : leads K (deref x) K.
Proof. apply leads_same. intros w. unfold deref. by destruct (goals w !! x). Qed.

Lemma leads_wakeUp (x : GoalId) : leads K (wakeUp x) K.
Proof. intros w Hw. by apply (substKept_fields w). Qed.

Lemma leads_Goal_waiteeDone (x g : GoalId) (b : bool) :
  leads K (Goal_waiteeDone G x g b) K.
Proof.
  unfold Goal_waiteeDone.
  apply leads_inv; [apply leads_deref|]. intros t.
  apply leads_inv; [by apply leads_same|]. intros _.
  apply leads_inv; [by apply leads_updGoal|]. intros _.
  apply leads_inv.
  { destruct b; [by apply leads_same|by apply leads_updGoal]. }
  intros _. apply leads_inv; [apply leads_deref|]. intros t1.
  destruct (_ || _); [|by apply leads_same].
  apply leads_inv.
  { apply leads_forEach. intros r _.
    apply leads_inv; [by apply leads_same|]. intros w0. by apply leads_updGoal. }
  intros _. apply leads_inv; [by apply leads_updGoal|]. intros _.
  apply leads_wakeUp.
Qed.

Lemma leads_waiteeDone (x g : GoalId) (b : bool) :
  leads K (waiteeDone G x g b) K.
Proof.
  unfold waiteeDone.
  apply leads_inv; [apply leads_deref|]. intros t.
  apply leads_inv.
  { intros w Hw. by apply (substKept_fields w). }
  intros _. destruct (body t); try apply leads_Goal_waiteeDone.
  unfold PseudoGoal_waiteeDone. destruct b; [by apply leads_same|].
  apply leads_updGoal. intros t0 sg Hb. simpl. by rewrite Hb.
Qed.

Lemma leads_amDone (g : GoalId) (b : bool) : leads K (amDone G g b) K.
Proof.
  unfold amDone.
  apply leads_inv; [apply leads_deref|]. intros t.
  apply leads_inv; [by apply leads_same|]. intros _.
  apply leads_inv; [by apply leads_updGoal|]. intros _.
  apply leads_inv.
  { apply leads_forEach. intros i _.
    apply leads_inv; [by apply leads_same|]. intros w0.
    destruct (lock w0 i); [apply leads_waiteeDone|by apply leads_same]. }
  intros _. apply leads_inv; [by apply leads_updGoal|]. intros _.
  intros w Hw. by apply (substKept_fields w).
Qed.

Lemma leads_waitForBuildSlot (g : GoalId) (b : bool) :
  leads K (waitForBuildSlot G g b) K.
Proof.
  unfold waitForBuildSlot.
  apply leads_inv; [by apply leads_same|]. intros w.
  destruct (_ && _); [by apply leads_same|].
  destruct (_ && _); [apply leads_wakeUp|].
  intros w' Hw'. by apply (substKept_fields w').
Qed.

Lemma leads_addWaitee (x g : GoalId) : leads K (addWaitee x g) K.
Proof.
  unfold addWaitee.
  apply leads_inv; [by apply leads_updGoal|]. intros _. by apply leads_updGoal.
Qed.

Lemma leads_makeSubstitutionGoal (p : Path) : leads K (makeSubstitutionGoal p) K.
Proof.
  unfold makeSubstitutionGoal, addGoal.
  apply (leads_bind_val K K (λ a s, a = s ∧ K s)); [by intros s Hs|]. intros w.
  destruct (_ ≫= _); [by intros w' [_ Hw']|].
  intros w' [<- [Hwf (t & sg & Ht & Hb & Hφ)]].
  assert (Hne : nextGoal w ≠ this).
  { intros Heq. specialize (Hwf this). rewrite Ht in Hwf.
    specialize (Hwf (mk_is_Some _ _ eq_refl)). lia. }
  split.
  - intros x. simpl. rewrite lookup_insert. case_decide; subst; [lia|].
    intros Hx. specialize (Hwf x Hx). lia.
  - exists t, sg. simpl. by rewrite lookup_insert_ne.
Qed.

End Kept.

Lemma leads_updSubst (this : GoalId) (φ ψ : SubstitutionGoal → Prop) (D : DB)
    (f : SubstitutionGoal → SubstitutionGoal) :
  (∀ sg, φ sg → ψ (f sg)) →
  leads (λ s, substKept this φ (worker s) ∧ db s = D) (updSubst this f)
        (λ s, substKept this ψ (worker s) ∧ db s = D).
Proof.
  intros Hf s [[Hwf (t & sg & Ht & Hb & Hφ)] HD]. split; [|done]. split.
  - intros y. simpl. rewrite lookup_alter. case_decide; subst; [|apply Hwf].
    rewrite fmap_is_Some. apply Hwf.
  - exists (set_body (λ b, match b with
                              | IsSubstitutionGoal s0 => IsSubstitutionGoal (f s0)
                              | _ => b
                              end) t), (f sg).
    simpl. rewrite lookup_alter_eq, Ht, Hb. split; [done|]. split; [done|].
    by apply Hf.
Qed.

Lemma leads_liftW_kept {A} (this : GoalId) (φ : SubstitutionGoal → Prop) (D : DB)
    (m : M Worker A) :
  leads (substKept this φ) m (substKept this φ) →
  leads (λ s, substKept this φ (worker s) ∧ db s = D) (liftW m)
        (λ s, substKept this φ (worker s) ∧ db s = D).
Proof. intros Hm. apply leads_liftW. intros s [Hs HD]. split; [|done]. by apply Hm. Qed.

Lemma leads_substitutionGoal (I : World → Prop) (this : GoalId) :
  leads I (substitutionGoal this) I.
Proof.
  apply leads_same. intros s. unfold substitutionGoal, liftW, deref. mrun.
  destruct (goals (worker s) !! this) as [t|]; simpl; [|by destruct s].
  destruct (body t); by destruct s.
Qed.

Lemma leads_tryNext (G : Globals) (this : GoalId) (φ : SubstitutionGoal → Prop) (D : DB) :
  (∀ sg v, φ sg → φ (set_sub v sg)) →
  (∀ sg v, φ sg → φ (set_subs v sg)) →
  (∀ sg v, φ sg → φ (set_s_state v sg)) →
  leads (λ s, substKept this φ (worker s) ∧ db s = D) (tryNext G this)
        (λ s, substKept this φ (worker s) ∧ db s = D).
Proof.
  intros H1 H2 H3. unfold tryNext.
  apply leads_inv; [apply leads_substitutionGoal|]. intros sg.
  destruct (subs sg) as [|front rest].
  { apply leads_liftW_kept, leads_amDone. }
  apply leads_inv; [apply leads_updSubst; auto|]. intros _.
  apply leads_inv; [apply leads_updSubst; auto|]. intros _.
  apply leads_inv; [apply leads_updSubst; auto|]. intros _.
  apply leads_liftW_kept, leads_waitForBuildSlot.
Qed.

Lemma leads_referencesValid (G : Globals) (this : GoalId) (φ : SubstitutionGoal → Prop)
    (D : DB) :
  (∀ sg v, φ sg → φ (set_sub v sg)) →
  (∀ sg v, φ sg → φ (set_subs v sg)) →
  (∀ sg v, φ sg → φ (set_s_state v sg)) →
  leads (λ s, substKept this φ (worker s) ∧ db s = D) (referencesValid G this)
        (λ s, substKept this φ (worker s) ∧ db s = D).
Proof.
  intros H1 H2 H3. unfold referencesValid.
  apply leads_inv; [apply leads_substitutionGoal|]. intros sg.
  apply leads_inv; [apply leads_liftW_kept, leads_deref|]. intros t.
  destruct (_ <? _)%Z; [by apply leads_same|].
  apply leads_inv; [|intros _; by apply leads_tryNext].
  apply leads_forEach. intros i _.
  apply leads_inv; [by apply leads_same|]. intros s0. by apply leads_same.
Qed.

(** [init] on a path that is not valid reads the references of the path
    from the store into the goal, where they stay. *)
Lemma init_references (G : Globals) (this : GoalId) (s : World) (t : Goal)
    (sg : SubstitutionGoal) :
  goals (worker s) !! this = Some t →
  body t = IsSubstitutionGoal sg →
  wfAlloc (worker s) →
  isValidPath (db s) (storePath sg) = false →
  substSat this (λ sg', storePath sg' = storePath sg ∧
                        references sg' = queryReferences (db s) (storePath sg)
                                         ∪ references sg)
    (worker (init G this s).2) ∧
  db (init G this s).2 = db s.
Proof.
  intros Ht Hb Hwf Hv.
  set (φ0 := λ sg' : SubstitutionGoal, sg' = sg).
  set (φ1 := λ sg' : SubstitutionGoal, storePath sg' = storePath sg ∧
               references sg' = queryReferences (db s) (storePath sg) ∪ references sg).
  set (I := λ (φ : SubstitutionGoal → Prop) (s' : World),
              substKept this φ (worker s') ∧ db s' = db s).
  assert (Hupd : ∀ (φ ψ : SubstitutionGoal → Prop) f (k : M World unit),
            (∀ sg', φ sg' → ψ (f sg')) → leads (I ψ) k (I φ1) →
            leads (I φ) (updSubst this f ≫= λ _, k) (I φ1)).
  { intros φ ψ f k Hf Hk. apply (leads_bind_val _ _ (λ _, I ψ)); [|by intros _].
    intros s' Hs'. by apply (leads_updSubst this φ ψ (db s) f Hf). }
  assert (Hφ1a : ∀ sg' v, φ1 sg' → φ1 (set_sub v sg')) by (by intros sg' v [? ?]).
  assert (Hφ1b : ∀ sg' v, φ1 sg' → φ1 (set_subs v sg')) by (by intros sg' v [? ?]).
  assert (Hφ1c : ∀ sg' v, φ1 sg' → φ1 (set_s_state v sg')) by (by intros sg' v [? ?]).
  assert (Hrest : leads (I φ0)
    (updSubst this (set_subs (querySubstitutes (db s) (storePath sg))) ≫= λ _ : (),
     updSubst this (λ sg1, set_references
                      (queryReferences (db s) (storePath sg1) ∪ references sg1) sg1)
     ≫= λ _ : (),
     substitutionGoal this ≫= λ sg1,
     forEach (elements (references sg1))
       (λ i, liftW (makeSubstitutionGoal i) ≫= λ g, liftW (addWaitee this g))
     ≫= λ _ : (),
     liftW (deref this) ≫= λ t0,
     if bool_decide (waitees t0 = ∅) then referencesValid G this
     else updSubst this (set_s_state sReferencesValid)) (I φ1)).
  { apply (Hupd φ0 (λ sg', storePath sg' = storePath sg ∧
                            references sg' = references sg)); [by intros sg' ->|].
    apply (Hupd _ φ1).
    { intros sg' [Hp Hr]. unfold φ1. simpl. by rewrite Hp, Hr. }
    apply leads_inv; [apply leads_substitutionGoal|]. intros sg1.
    apply leads_inv.
    { apply leads_forEach. intros i _.
      apply leads_inv; [apply leads_liftW_kept, leads_makeSubstitutionGoal|].
      intros g. apply leads_liftW_kept, leads_addWaitee. }
    intros _. apply leads_inv; [apply leads_liftW_kept, leads_deref|]. intros t0.
    destruct (bool_decide _); [by apply leads_referencesValid|].
    by apply leads_updSubst. }
  assert (H : I φ1 (init G this s).2).
  2:{ destruct H as [[_ Hs] HD]. by split. }
  assert (H0 : I φ0 s) by (split; [split; [done|by exists t, sg]|done]).
  unfold init.
  assert (Hsg : substitutionGoal this s = (Ok sg, s)).
  { unfold substitutionGoal, liftW, deref. mrun. rewrite Ht. simpl. rewrite Hb.
    by destruct s. }
  unfold mbind at 1. unfold M_bind at 1. rewrite Hsg.
  unfold mbind at 1. unfold M_bind at 1. unfold get at 1. rewrite Hv.
  by apply Hrest.
Qed.



(** ** The candidate paths of the reference scan *)

(** A loop whose body assigns to members of the derivation goal. *)
Lemma hoare_forEach_drv {A} (this : GoalId) T C D (l : list A)
    (m : A → M World unit) (step : A → DerivationGoal → DerivationGoal) :
  (∀ i φ, hoare (builderState this φ T C D) (m i)
            (λ r s, ∃ a, r = Ok a ∧
               builderState this (λ d', ∃ d0, φ d0 ∧ d' = step i d0) T C D s)) →
  ∀ φ, hoare (builderState this φ T C D) (forEach l m)
         (λ r s, ∃ a, r = Ok a ∧
            builderState this
              (λ d', ∃ d0, φ d0 ∧ d' = foldl (λ d i, step i d) d0 l) T C D s).
Proof.
  intros Hm. induction l as [|i l IH]; intros φ.
  - intros s (Hd & Hrest). exists tt. split; [done|]. split; [|done].
    destruct Hd as (t & d & Ht & Hb & Hφ). exists t, d. eauto.
  - simpl. eapply hoare_seq; [apply Hm|]. intros a0.
    eapply hoare_conseq; [apply IH|done|].
    intros r s (a & -> & Hd & Hrest). exists a. split; [done|]. split; [|done].
    destruct Hd as (t & d & Ht & Hb & d1 & (d0 & Hφ & ->) & ->).
    eexists t, _. split; [done|]. split; [exact Hb|]. exists d0. done.
Qed.

Lemma allPaths_outputs (outs : list (string * DerivationOutput)) : ∀ d,
  allPaths (foldl (λ d i, set_allPaths ({[path i.2]} ∪ allPaths d) d) d outs)
    = outputPaths outs ∪ allPaths d ∧
  inputPaths (foldl (λ d i, set_allPaths ({[path i.2]} ∪ allPaths d) d) d outs)
    = inputPaths d.
Proof.
  induction outs as [|i outs IH]; intros d; simpl.
  - split; [|done]. unfold outputPaths. set_solver.
  - destruct (IH (set_allPaths ({[path i.2]} ∪ allPaths d) d)) as [-> ->].
    split; [|done]. unfold outputPaths. simpl. set_solver.
Qed.

Lemma inputPaths_sources (X : External) (D : DB) (srcs : list Path) : ∀ d,
  allPaths (foldl (λ d i, set_inputPaths (computeFSClosure X D i (inputPaths d)) d)
              d srcs) = allPaths d ∧
  inputPaths (foldl (λ d i, set_inputPaths (computeFSClosure X D i (inputPaths d)) d)
                d srcs)
    = foldl (λ acc i, computeFSClosure X D i acc) (inputPaths d) srcs.
Proof.
  induction srcs as [|i srcs IH]; intros d; simpl; [done|].
  destruct (IH (set_inputPaths (computeFSClosure X D i (inputPaths d)) d))
    as [-> ->]. done.
Qed.

Lemma checkPathValidity_none (dr : Derivation) (D : DB) :
  (∀ i, i ∈ outputs dr → isValidPath D (path i.2) = false) →
  checkPathValidity dr true D = ∅.
Proof.
  unfold checkPathValidity. induction (outputs dr) as [|i l IH]; intros H; [done|].
  rewrite fmap_cons, filter_cons_False.
  - apply IH. intros j Hj. apply H. by right.
  - rewrite H; [done|by left].
Qed.

(** [prepareBuild] on a derivation without input derivations none of
    whose outputs is valid. *)
Lemma prepareBuild_run (X : External) (this : GoalId) (s : World) (t : Goal)
    (d : DerivationGoal) :
  goals (worker s) !! this = Some t →
  body t = IsDerivationGoal d →
  inputDrvs (drv d) = [] →
  outputs (drv d) ≠ [] →
  (∀ i, i ∈ outputs (drv d) → isValidPath (db s) (path i.2) = false) →
  (prepareBuild X this s).1 = Ok true ∧
  drvSat this (λ d',
      allPaths d' = inputPaths d ∪ (outputPaths (outputs (drv d)) ∪ allPaths d) ∧
      inputPaths d' = foldl (λ acc i, computeFSClosure X (db s) i acc) (inputPaths d)
                        (inputSrcs (drv d)))
    (worker (prepareBuild X this s).2).
Proof.
  intros Ht Hb Hin Hout Hinv.
  set (T := trace s). set (C := children (worker s)). set (D := db s).
  set (Q := λ (r : Result bool) (s' : World),
    r = Ok true ∧
    drvSat this (λ d',
      allPaths d' = inputPaths d ∪ (outputPaths (outputs (drv d)) ∪ allPaths d) ∧
      inputPaths d' = foldl (λ acc i, computeFSClosure X D i acc) (inputPaths d)
                        (inputSrcs (drv d)))
      (worker s')).
  change (Q (prepareBuild X this s).1 (prepareBuild X this s).2).
  assert (H : hoare (builderState this (λ d', d' = d) T C D) (prepareBuild X this) Q).
  2:{ apply H. split; [|done]. by exists t, d. }
  unfold prepareBuild.
  eapply hoare_seq; [by apply (hoare_derivationGoal_sat _ this (λ d', d' = d)); intros s' [? _]|].
  intros d0. apply hoare_pure. intros ->.
  set (φ1 := λ d' : DerivationGoal,
            allPaths d' = allPaths d ∧ inputPaths d' = inputPaths d).
  eapply (hoare_seq _ (λ _, builderState this φ1 T C D)).
  { apply hoare_step. intros s' Hs'. split; [done|].
    eapply builderState_updDrv; [|exact Hs']. by intros d0 ->. }
  intros _.
  eapply (hoare_seq _ (λ s0 s', db s0 = D ∧ builderState this φ1 T C D s')).
  { intros s' Hs'. exists s'. split; [done|]. split; [apply Hs'|exact Hs']. }
  intros s0. apply hoare_pure_l. intros ->.
  rewrite (checkPathValidity_none (drv d) D Hinv), size_empty.
  rewrite bool_decide_eq_false_2; last first.
  { intros Hl. symmetry in Hl. by apply length_zero_iff_nil in Hl. }
  rewrite bool_decide_eq_false_2 by lia.
  eapply hoare_seq.
  { apply (hoare_forEach_drv this T C D _ _
             (λ i d0, set_allPaths ({[path i.2]} ∪ allPaths d0) d0)).
    intros i φ. apply hoare_step. intros s' Hs'. split; [done|].
    eapply builderState_updDrv; [|exact Hs']. intros d0 Hd0. by exists d0. }
  intros ?. rewrite Hin. simpl forEach.
  eapply (hoare_seq _ (λ _, builderState this _ T C D)).
  { intros s' Hs'. exists tt. split; [done|]. exact Hs'. }
  intros ?.
  eapply (hoare_seq _ (λ _, builderState this
            (λ d', allPaths d' = inputPaths d ∪ (outputPaths (outputs (drv d)) ∪ allPaths d)
                   ∧ inputPaths d' = inputPaths d) T C D)).
  { apply hoare_step. intros s' Hs'. split; [done|].
    eapply builderState_updDrv; [|exact Hs'].
    intros d1 (d0 & [Ha Hi] & ->).
    destruct (allPaths_outputs (outputs (drv d)) d0) as [Ha' Hi'].
    simpl. by rewrite Ha', Hi', Ha, Hi. }
  intros ?.
  eapply hoare_seq.
  { apply (hoare_forEach_drv this T C D _ _
             (λ i d0, set_inputPaths (computeFSClosure X D i (inputPaths d0)) d0)).
    intros i φ. eapply (hoare_seq _ (λ s0 s', db s0 = D ∧ builderState this φ T C D s')).
    { intros s' Hs'. exists s'. split; [done|]. split; [apply Hs'|exact Hs']. }
    intros s1. apply hoare_pure_l. intros ->.
    apply hoare_step. intros s' Hs'. split; [done|].
    eapply builderState_updDrv; [|exact Hs']. intros d0 Hd0. by exists d0. }
  intros ? s' (Hd & _). split; [done|].
  destruct Hd as (t' & d' & Ht' & Hb' & d0 & [Ha Hi] & ->).
  eexists t', _. split; [done|]. split; [exact Hb'|].
  destruct (inputPaths_sources X D (inputSrcs (drv d)) d0) as [Ha' Hi'].
  by rewrite Ha', Hi', Ha, Hi.
Qed.

(** X1.  The candidates of the reference scan.  [prepareBuild] on a fresh
    derivation goal (no input or candidate path recorded yet) for a
    derivation without input derivations, none of whose outputs is
    valid: the call returns [true]; the closures of the input sources
    are gathered in [inputPaths]; but [allPaths], from which
    [computeClosure] takes the candidates of the scan, holds the output
    paths only, because the input paths are added to it before the
    input sources are looked at. *)
Theorem prepareBuild_sources (X : External) (this : GoalId) (s : World) (t : Goal)
    (d : DerivationGoal) :
  goals (worker s) !! this = Some t →
  body t = IsDerivationGoal d →
  inputDrvs (drv d) = [] →
  outputs (drv d) ≠ [] →
  (∀ i, i ∈ outputs (drv d) → isValidPath (db s) (path i.2) = false) →
  inputPaths d = ∅ →
  allPaths d = ∅ →
  (prepareBuild X this s).1 = Ok true ∧
  drvSat this (λ d',
      allPaths d' = outputPaths (outputs (drv d)) ∧
      inputPaths d' = foldl (λ acc i, computeFSClosure X (db s) i acc) ∅
                        (inputSrcs (drv d)))
    (worker (prepareBuild X this s).2).
Proof.
  intros Ht Hb Hin Hout Hinv Hi Ha.
  destruct (prepareBuild_run X this s t d Ht Hb Hin Hout Hinv) as [Hr Hd].
  split; [exact Hr|].
  destruct Hd as (t' & d' & Ht' & Hb' & Ha' & Hi'). exists t', d'.
  split; [done|]. split; [done|]. rewrite Ha', Hi', Hi, Ha.
  split; [set_solver|done].
Qed.

(** On the derivation of the example the source [builder.sh] is an
    input path but no candidate, and the scan of an output that
    mentions it registers no reference. *)
Lemma prepareBuild_sources_witness :
  ((prepareBuild exX 1 exSourced).1 = Ok true ∧
   drvSat 1 (λ d',
       allPaths d' = outputPaths (outputs exSourcedDrv) ∧
       inputPaths d' = foldl (λ acc i, computeFSClosure exX (db exSourced) i acc) ∅
                         (inputSrcs exSourcedDrv))
     (worker (prepareBuild exX 1 exSourced).2)) ∧
  foldl (λ acc i, computeFSClosure exX (db exSourced) i acc) ∅
    (inputSrcs exSourcedDrv) = {["/nix/store/builder.sh"]} ∧
  (computeClosure exX 1 (exRun (prepareBuild exX 1 exSourced).2)).1 = Ok tt ∧
  queryReferences (db (computeClosure exX 1 (exRun (prepareBuild exX 1 exSourced).2)).2)
    "/nix/store/hello" = ∅.
Proof.
  assert (H1 : goals (worker exSourced) !! 1%positive
               = Some (newGoal (IsDerivationGoal exSourcedGoal)))
    by (vm_compute; reflexivity).
  split; [|split; [|split]]; [|vm_compute; reflexivity..].
  apply (prepareBuild_sources exX 1 exSourced _ exSourcedGoal H1 eq_refl eq_refl).
  - by_compute.
  - intros i Hi. apply list_elem_of_singleton in Hi as ->. vm_compute. reflexivity.
  - reflexivity.
  - reflexivity.
Defined.

(** ** A builder that fails *)

(** X2.  [buildDone] for a builder whose exit status is not a clean
    exit registers nothing: whatever the outcome of the call, the
    metadata store and the open transaction are as before, and the
    events added to the trace are deletions (of the build directory). *)
Theorem buildDone_failed (G : Globals) (X : External) (this : GoalId)
    (status : Z) (s : World) :
  statusOk status = false →
  db (buildDone G X this status s).2 = db s ∧
  txn (buildDone G X this status s).2 = txn s ∧
  ∃ dels, trace (buildDone G X this status s).2 = trace s ++ (EvDeletePath <$> dels).
Proof.
  intros Hst.
  set (I := λ s' : World, db s' = db s ∧ txn s' = txn s ∧
              ∃ dels, trace s' = trace s ++ (EvDeletePath <$> dels)).
  assert (H : leads I (buildDone G X this status) I).
  2:{ apply H. split; [done|]. split; [done|]. exists []. by rewrite app_nil_r. }
  assert (Hu : ∀ f, leads I (updDrv this f) I) by (by intros f s' Hs').
  assert (Hw : ∀ A (m : M Worker A), leads I (liftW m) I).
  { intros A m. apply leads_liftW. by intros s' Hs'. }
  unfold buildDone. rewrite Hst. simpl.
  apply (leads_bind I I I); [apply derivationGoal_leads|done|]. intros d.
  apply (leads_bind I I I); [apply Hu|done|]. intros _.
  apply (leads_bind I I I); [apply Hw|done|]. intros _.
  apply (leads_bind I I I); [apply Hu|done|]. intros _.
  apply (leads_bind I I I); [apply Hu|done|]. intros _.
  apply (leads_bind I I I); [|done|intros _; apply Hw].
  apply deleteTmpDir_leads; [by intros f _|].
  intros p s' (HD & Htx & dels & HT). split; [done|]. split; [done|].
  exists (dels ++ [p]). simpl. by rewrite HT, fmap_app, app_assoc.
Qed.

(** The builder of the example exits with status [1]. *)
Lemma buildDone_failed_witness :
  (buildDone exG exX 1 1 exBuilding).1 = Ok tt ∧
  db (buildDone exG exX 1 1 exBuilding).2 = db exBuilding ∧
  txn (buildDone exG exX 1 1 exBuilding).2 = None.
Proof.
  destruct (buildDone_failed exG exX 1 1 exBuilding) as (HD & Htx & _).
  { vm_compute. reflexivity. }
  split; [vm_compute; reflexivity|]. split; [exact HD|exact Htx].
Defined.

(** ** The goal maps of the worker *)

(** [addGoal] when a live goal is registered for the path. *)
Lemma addGoal_hit mk goalMap set_goalMap (p : Path) (w : Worker) (g : GoalId) :
  goalMap w !! p = Some g → is_Some (goals w !! g) →
  addGoal mk goalMap set_goalMap p w = (Ok g, w).
Proof.
  intros Hp Hg. unfold addGoal. unfold mbind at 1. unfold M_bind at 1.
  unfold get at 1. rewrite Hp. simpl. by rewrite (lock_alive w g Hg).
Qed.

(** [addGoal] when no goal is registered for the path, or a dead one. *)
Lemma addGoal_miss mk goalMap set_goalMap (p : Path) (w : Worker) :
  goalMap w !! p ≫= lock w = None →
  addGoal mk goalMap set_goalMap p w =
    (Ok (nextGoal w),
     set_awake (λ s, {[nextGoal w]} ∪ s)
       (set_goalMap <[p := nextGoal w]>
          (set_goals <[nextGoal w := newGoal (mk p)]>
             (set_nextGoal (Pos.succ (nextGoal w)) w)))).
Proof.
  intros Hp. unfold addGoal. unfold mbind at 1. unfold M_bind at 1.
  unfold get at 1. rewrite Hp. reflexivity.
Qed.

Lemma wfAlloc_fresh (w : Worker) : wfAlloc w → goals w !! nextGoal w = None.
Proof.
  intros Hwf. apply eq_None_not_Some. intros H. specialize (Hwf _ H). lia.
Qed.

Lemma makeSubstitutionGoal_cached (p : Path) (w : Worker) :
  wfAlloc w → goalCached makeSubstitutionGoal substitutionGoals newSubstitutionGoal p w.
Proof.
  intros Hwf. unfold goalCached, makeSubstitutionGoal.
  destruct (substitutionGoals w !! p ≫= lock w) as [g|] eqn:Hl.
  - destruct (substitutionGoals w !! p) as [g0|] eqn:Hp; [|done]. simpl in Hl.
    apply lock_Some in Hl as [-> Hg].
    exists g0, w. rewrite (addGoal_hit _ _ _ p w g0 Hp Hg).
    repeat (split; [done|]). left. done.
  - pose proof (wfAlloc_fresh w Hwf) as Hfresh.
    rewrite (addGoal_miss _ _ _ p w Hl).
    eexists _, _. split; [reflexivity|].
    split; [simpl; by rewrite lookup_insert_eq|].
    split; [simpl; rewrite lookup_insert_eq; eauto|].
    split; [intros q Hq; simpl; by rewrite lookup_insert_ne|].
    split.
    { intros x. simpl. rewrite lookup_insert. case_decide; [subst; lia|].
      intros Hx. specialize (Hwf x Hx). lia. }
    split.
    { intros x t Hx. simpl. rewrite lookup_insert_ne; [done|].
      intros <-. congruence. }
    split.
    { apply addGoal_hit; simpl; rewrite lookup_insert_eq; eauto. }
    right. split; [done|]. split; [done|].
    split; [simpl; by rewrite lookup_insert_eq|].
    split; [simpl; set_solver|].
    intros x Hx. simpl. by rewrite lookup_insert_ne.
Qed.

Lemma makeDerivationGoal_cached (p : Path) (w : Worker) :
  wfAlloc w → goalCached makeDerivationGoal derivationGoals newDerivationGoal p w.
Proof.
  intros Hwf. unfold goalCached, makeDerivationGoal.
  destruct (derivationGoals w !! p ≫= lock w) as [g|] eqn:Hl.
  - destruct (derivationGoals w !! p) as [g0|] eqn:Hp; [|done]. simpl in Hl.
    apply lock_Some in Hl as [-> Hg].
    exists g0, w. rewrite (addGoal_hit _ _ _ p w g0 Hp Hg).
    repeat (split; [done|]). left. done.
  - pose proof (wfAlloc_fresh w Hwf) as Hfresh.
    rewrite (addGoal_miss _ _ _ p w Hl).
    eexists _, _. split; [reflexivity|].
    split; [simpl; by rewrite lookup_insert_eq|].
    split; [simpl; rewrite lookup_insert_eq; eauto|].
    split; [intros q Hq; simpl; by rewrite lookup_insert_ne|].
    split.
    { intros x. simpl. rewrite lookup_insert. case_decide; [subst; lia|].
      intros Hx. specialize (Hwf x Hx). lia. }
    split.
    { intros x t Hx. simpl. rewrite lookup_insert_ne; [done|].
      intros <-. congruence. }
    split.
    { apply addGoal_hit; simpl; rewrite lookup_insert_eq; eauto. }
    right. split; [done|]. split; [done|].
    split; [simpl; by rewrite lookup_insert_eq|].
    split; [simpl; set_solver|].
    intros x Hx. simpl. by rewrite lookup_insert_ne.
Qed.

Lemma makeGoal_maps (p : Path) (w : Worker) :
  derivationGoals (makeSubstitutionGoal p w).2 = derivationGoals w ∧
  substitutionGoals (makeDerivationGoal p w).2 = substitutionGoals w.
Proof.
  unfold makeSubstitutionGoal, makeDerivationGoal. split.
  - destruct (substitutionGoals w !! p ≫= lock w) as [g|] eqn:Hl.
    + destruct (substitutionGoals w !! p) as [g0|] eqn:Hp; [|done]. simpl in Hl.
      apply lock_Some in Hl as [-> Hg]. by rewrite (addGoal_hit _ _ _ p w g0 Hp Hg).
    + by rewrite (addGoal_miss _ _ _ p w Hl).
  - destruct (derivationGoals w !! p ≫= lock w) as [g|] eqn:Hl.
    + destruct (derivationGoals w !! p) as [g0|] eqn:Hp; [|done]. simpl in Hl.
      apply lock_Some in Hl as [-> Hg]. by rewrite (addGoal_hit _ _ _ p w g0 Hp Hg).
    + by rewrite (addGoal_miss _ _ _ p w Hl).
Qed.

(** X3.  The goal maps of the worker.  In a worker that hands out
    object identities in increasing order, [makeSubstitutionGoal] and
    [makeDerivationGoal] return a goal that is alive and registered for
    the path: the live goal already registered for it, in which case the
    worker is unchanged, or else a new goal at a fresh identity, which is
    registered and woken up while every goal that was alive stays as it
    is.  A second call for the same path returns the same goal.  The
    two kinds of goal have maps of their own: making a goal of one kind
    leaves the map of the other kind alone. *)
Theorem makeGoal_cached (p : Path) (w : Worker) :
  wfAlloc w →
  goalCached makeSubstitutionGoal substitutionGoals newSubstitutionGoal p w ∧
  goalCached makeDerivationGoal derivationGoals newDerivationGoal p w ∧
  derivationGoals (makeSubstitutionGoal p w).2 = derivationGoals w ∧
  substitutionGoals (makeDerivationGoal p w).2 = substitutionGoals w.
Proof.
  intros Hwf.
  split; [by apply makeSubstitutionGoal_cached|].
  split; [by apply makeDerivationGoal_cached|].
  apply makeGoal_maps.
Qed.

(** A goal for a path that was not asked for before, in the worker of
    the three substitution goals. *)
Lemma makeGoal_cached_witness :
  goalCached makeSubstitutionGoal substitutionGoals newSubstitutionGoal
    "/nix/store/d" exWaiting ∧
  (makeSubstitutionGoal "/nix/store/d" exWaiting).1 = Ok 4%positive.
Proof.
  split; [|vm_compute; reflexivity].
  apply (makeGoal_cached "/nix/store/d" exWaiting).
  intros x [t Hx]. unfold exWaiting in *. simpl in *.
  rewrite !lookup_insert in Hx.
  repeat case_decide; subst; try lia. by rewrite lookup_empty in Hx.
Defined.

(** ** The links between waiters and waitees *)

Lemma addWaitee_lookup (this waitee r : GoalId) (w : Worker) :
  goals (addWaitee this waitee w).2 !! r =
    (λ t, (if decide (r = waitee) then set_waiters (λ s, {[this]} ∪ s) else id)
            ((if decide (r = this) then set_waitees (λ s, {[waitee]} ∪ s) else id) t))
    <$> goals w !! r.
Proof.
  unfold addWaitee. mrun. simpl. rewrite !lookup_alter.
  destruct (decide (waitee = r)) as [->|Hne1], (decide (this = r)) as [->|Hne2].
  all: destruct (goals w !! r) as [t|]; simpl; [|done]; by repeat case_decide.
Qed.

Lemma linked_addWaitee (this waitee : GoalId) (w : Worker) :
  linked w → linked (addWaitee this waitee w).2.
Proof.
  intros Hl g x tg' tx'. rewrite !addWaitee_lookup.
  destruct (goals w !! g) as [tg|] eqn:Hg; [|done].
  destruct (goals w !! x) as [tx|] eqn:Hx; [|intros _ _; done].
  simpl. intros [= <-] Hin [= <-].
  assert (Hw : x ∈ waiters tg ∨ (g = waitee ∧ x = this)).
  { destruct (decide (g = waitee)), (decide (g = this)); simpl in Hin; set_solver. }
  destruct Hw as [Hw|[-> ->]].
  - destruct (Hl g x tg tx Hg Hw Hx) as [Hp|Hin'].
    + left. by destruct (decide (x = waitee)), (decide (x = this)).
    + right. destruct (decide (x = waitee)), (decide (x = this)); simpl; set_solver.
  - right. rewrite (decide_True (P := this = this)) by done.
    destruct (decide (this = waitee)); simpl; set_solver.
Qed.

(** What a call of [waiteeDone] on the live receiver [x], for the goal
    [g], does to the goals: nobody gains a waiter, the dynamic classes
    stay, only [x] loses waitees, and when [x] drops a waitee other than
    [g] it is no longer among the waiters of that waitee. *)
Lemma waiteeDone_shape (G : Globals) (x g : GoalId) (b : bool)
    (w : Worker) (tx : Goal) :
  goals w !! x = Some tx →
  isPseudo tx = true ∨ g ∈ waitees tx →
  ∀ r, match goals w !! r with
       | None => goals (waiteeDone G x g b w).2 !! r = None
       | Some t0 =>
         ∃ t1, goals (waiteeDone G x g b w).2 !! r = Some t1 ∧
           isPseudo t1 = isPseudo t0 ∧
           waiters t1 ⊆ waiters t0 ∧
           (r ≠ x → waitees t1 = waitees t0) ∧
           (waitees t1 = waitees t0 ∨ waitees t1 = waitees t0 ∖ {[g]} ∨
            (waitees t1 = ∅ ∧
             ∀ r' t', r' ∈ waitees t0 → r' ≠ g →
                      goals (waiteeDone G x g b w).2 !! r' = Some t' →
                      r ∉ waiters t'))
       end.
Proof.
  intros Hx Hpre. unfold waiteeDone. mrun. rewrite Hx.
  set (wn := set_notified (λ h, h ++ [mkNotification x g b]) w).
  destruct (isPseudo tx) eqn:Hps.
  - unfold isPseudo in Hps. destruct (body tx) as [| |s] eqn:Hb; try done.
    unfold PseudoGoal_waiteeDone. destruct b; mrun; intros r.
    + simpl. destruct (goals w !! r) as [t0|]; [|done]. exists t0.
      split; [done|]. split; [done|]. split; [done|]. split; [done|]. by left.
    + simpl. rewrite lookup_alter. destruct (decide (x = r)) as [<-|Hne].
      * rewrite Hx. simpl. eexists. split; [done|]. unfold isPseudo. simpl.
        rewrite Hb. split; [done|]. split; [done|]. split; [done|]. by left.
      * destruct (goals w !! r) as [t0|]; [|done]. exists t0.
        split; [done|]. split; [done|]. split; [done|]. split; [done|]. by left.
  - destruct Hpre as [?|Hin]; [done|].
    assert (Hdisp : match body tx with
                    | IsPseudoGoal _ => PseudoGoal_waiteeDone x g b
                    | _ => Goal_waiteeDone G x g b
                    end = Goal_waiteeDone G x g b).
    { unfold isPseudo in Hps. by destruct (body tx). }
    rewrite Hdisp.
    destruct (Goal_waiteeDone_effect G x g b wn tx Hx Hin)
      as (w' & Hrun & _ & _ & Hxx & Hoth).
    rewrite Hrun. simpl.
    set (rest := waitees tx ∖ {[g]}) in *.
    set (wake := bool_decide (rest = ∅) || negb b && negb (keepGoing G)) in *.
    assert (Hlk : ∀ r, r ≠ x → goals w' !! r =
              (if wake && bool_decide (r ∈ rest)
               then set_waiters (λ s, s ∖ {[x]}) else id) <$> goals w !! r).
    { intros r Hr. by rewrite (Hoth r Hr). }
    intros r. destruct (decide (r = x)) as [->|Hne].
    + rewrite Hx, Hxx. eexists. split; [done|]. simpl.
      split; [done|]. split.
      { destruct (wake && bool_decide (x ∈ rest)); set_solver. }
      split; [done|].
      destruct wake eqn:Hwake.
      * right. right. split; [done|]. intros r' t' Hr' Hne' Hlook.
        assert (Hrest : r' ∈ rest) by (unfold rest; set_solver).
        destruct (decide (r' = x)) as [->|Hne2].
        -- rewrite Hxx in Hlook. injection Hlook as <-. simpl.
           rewrite bool_decide_eq_true_2 by done. simpl. set_solver.
        -- rewrite (Hlk r' Hne2) in Hlook.
           rewrite bool_decide_eq_true_2 in Hlook by done. simpl in Hlook.
           destruct (goals w !! r') as [t0|]; [|done]. simpl in Hlook.
           injection Hlook as <-. simpl. set_solver.
      * right. left. done.
    + rewrite (Hlk r Hne). destruct (goals w !! r) as [t0|]; [|done]. simpl.
      eexists. split; [done|].
      destruct (wake && bool_decide (r ∈ rest)); simpl;
        (split; [done|]); (split; [set_solver|]); (split; [done|]); by left.
Qed.

Lemma waiteeDone_linked (G : Globals) (x g : GoalId) (b : bool)
    (w : Worker) (tx : Goal) :
  goals w !! x = Some tx →
  isPseudo tx = true ∨ g ∈ waitees tx →
  linkedExcept g w → linkedExcept g (waiteeDone G x g b w).2.
Proof.
  intros Hx Hpre Hl g' x' tg' tx' Hne Hg' Hin Hx'.
  pose proof (waiteeDone_shape G x g b w tx Hx Hpre) as Hs.
  pose proof (Hs g') as Hsg. pose proof (Hs x') as Hsx.
  destruct (goals w !! g') as [tg|] eqn:Hg0; [|congruence].
  destruct (goals w !! x') as [tx0|] eqn:Hx0; [|congruence].
  destruct Hsg as (tg1 & Hg1 & _ & Hsub & _).
  destruct Hsx as (tx1 & Hx1 & Hps & _ & _ & Hcase).
  assert (tg1 = tg') as -> by congruence.
  assert (tx1 = tx') as -> by congruence.
  destruct (Hl g' x' tg tx0 Hne Hg0 (Hsub _ Hin) Hx0) as [Hp|Hw].
  { left. by rewrite Hps. }
  destruct Hcase as [Hc|[Hc|[_ Hdet]]]; [right; by rewrite Hc|right; rewrite Hc; set_solver|].
  exfalso. by apply (Hdet g' tg' Hw Hne Hg').
Qed.

(** The loop of [amDone] keeps the links of the other goals. *)
Lemma notify_linked (G : Globals) (g : GoalId) (b : bool) (l : list GoalId) :
  NoDup l → ∀ w,
  linkedExcept g w →
  (∀ x tx, x ∈ l → goals w !! x = Some tx →
           isPseudo tx = true ∨ g ∈ waitees tx) →
  linkedExcept g
    (forEach l (λ i, w0 ← get;
       match lock w0 i with
       | Some x => waiteeDone G x g b
       | None => mret tt
       end) w).2.
Proof.
  induction 1 as [|x l Hnin Hnd IH]; intros w Hl Hpre; [done|].
  simpl. unfold mbind at 1. unfold M_bind at 1.
  unfold mbind at 1. unfold M_bind at 1. unfold get at 1.
  destruct (goals w !! x) as [tx|] eqn:Hx.
  - rewrite lock_alive by eauto.
    assert (Hprex : isPseudo tx = true ∨ g ∈ waitees tx).
    { apply (Hpre x); [by left|done]. }
    destruct (waiteeDone_effect G x g b w tx Hx Hprex) as (w1 & Hrun & _ & _ & Hk1).
    pose proof (waiteeDone_linked G x g b w tx Hx Hprex Hl) as Hl1.
    rewrite Hrun in *. simpl in Hl1. apply IH; [done|].
    intros y ty1 Hy Hy1. specialize (Hk1 y).
    destruct (goals w !! y) as [ty0|] eqn:Hy0; [|congruence].
    destruct Hk1 as (ty1' & E & _ & P & W & _).
    assert (ty1' = ty1) as -> by congruence.
    rewrite P, W by set_solver. apply (Hpre y); [by right|done].
  - assert (Hlk : lock w x = None).
    { unfold lock. rewrite decide_False; [done|]. rewrite Hx. by intros [? ?]. }
    rewrite Hlk. unfold mret at 1. unfold M_ret at 1.
    apply IH; [done|]. intros y ty Hy. apply Hpre. by right.
Qed.

(** [amDone] on a goal that is not done, in a worker with consistent
    links. *)
Lemma amDone_linked (G : Globals) (g : GoalId) (b : bool) (w : Worker) (t : Goal) :
  goals w !! g = Some t → done t = false → linked w →
  (amDone G g b w).1 = Ok tt ∧ linked (amDone G g b w).2.
Proof.
  intros Hg Hd Hl.
  assert (Hpre : ∀ x tx, x ∈ waiters t → goals w !! x = Some tx →
                         isPseudo tx = true ∨ g ∈ waitees tx).
  { intros x tx Hx Htx. by apply (Hl g x t tx). }
  set (w0 := set_goals (alter (set_done true) g) w).
  assert (Hw0 : ∀ r, goals w0 !! r =
                     (if decide (g = r) then set_done true else id) <$> goals w !! r).
  { intros r. simpl. rewrite lookup_alter. case_decide; subst; [done|].
    by destruct (goals w !! r). }
  assert (Hpre0 : ∀ x tx, x ∈ elements (waiters t) → goals w0 !! x = Some tx →
                          isPseudo tx = true ∨ g ∈ waitees tx).
  { intros x tx Hx. rewrite Hw0. apply elem_of_elements in Hx.
    destruct (goals w !! x) as [tx0|] eqn:Hx0; simpl; [|done].
    intros [= <-]. specialize (Hpre x tx0 Hx Hx0). by case_decide. }
  assert (Hl0 : linkedExcept g w0).
  { intros g' x tg tx Hne. rewrite !Hw0.
    destruct (goals w !! g') as [tg0|] eqn:Hg0; [|done].
    destruct (goals w !! x) as [tx0|] eqn:Hx0; [|intros _ _; done].
    simpl. intros [= <-] Hin [= <-].
    assert (Hin0 : x ∈ waiters tg0) by (by case_decide).
    destruct (Hl g' x tg0 tx0 Hg0 Hin0 Hx0) as [Hp|Hw]; [left|right];
      by destruct (decide (g = x)). }
  destruct (notify_loop G g b (elements (waiters t)) (NoDup_elements _) w0 Hpre0)
    as (w1 & Hrun & _ & _ & Hk).
  pose proof (notify_linked G g b (elements (waiters t)) (NoDup_elements _) w0 Hl0 Hpre0)
    as Hl1.
  rewrite Hrun in Hl1. simpl in Hl1.
  assert (Hamd : amDone G g b w =
    (Ok tt, set_topGoals (λ s, s ∖ {[g]})
              (set_goals (alter (set_waiters (λ _, ∅)) g) w1))).
  { unfold amDone. mrun. rewrite Hg, Hd. simpl.
    fold w0. mrun in Hrun. rewrite Hrun. done. }
  rewrite Hamd. split; [done|]. simpl.
  intros g' x tg tx. simpl. rewrite !lookup_alter.
  destruct (decide (g = g')) as [<-|Hne].
  - destruct (goals w1 !! g) as [tg1|]; [|done]. simpl. intros [= <-]. simpl.
    set_solver.
  - intros Hg' Hin. destruct (decide (g = x)) as [<-|Hnx].
    + destruct (goals w1 !! g) as [tx1|] eqn:Hx1; [|done]. simpl. intros [= <-].
      apply (Hl1 g' g tg tx1); auto.
    + intros Hx. apply (Hl1 g' x tg tx); auto.
Qed.

(** X4.  The links between waiters and waitees are kept consistent.
    Call a worker linked when every live goal found among the waiters of
    a goal [g] has [g] among its waitees, or is the pseudo goal.  A new
    worker is linked; [Goal::addWaitee] keeps a worker linked; and in a
    linked worker [Goal::amDone] on a live goal whose [done] flag is
    clear returns normally, so that no [waiteeDone] call it makes fails
    the assertion that the finished goal is among the waitees of the
    receiver, and leaves the worker linked. *)
Theorem waiter_links (G : Globals) :
  linked newWorker ∧
  (∀ this waitee w, linked w → linked (addWaitee this waitee w).2) ∧
  (∀ g b w t, goals w !! g = Some t → done t = false → linked w →
     (amDone G g b w).1 = Ok tt ∧ linked (amDone G g b w).2).
Proof.
  split; [by intros g x tg tx Hg|].
  split; [apply linked_addWaitee|].
  intros g b w t. apply amDone_linked.
Qed.

(** ** The bound on the build slots *)

(** The methods of the scheduler leave the registered children and the
    slot counter alone: they keep every property [K] of the worker that
    depends on these two members only. *)
Section Frame.

Variable G : Globals.
Variable K : Worker → Prop.
Hypothesis K_frame : ∀ w w',
  children w' = children w → nrChildren w' = nrChildren w → K w → K w'.

Lemma frame_modify (f : Worker → Worker) :
  (∀ w, children (f w) = children w ∧ nrChildren (f w) = nrChildren w) →
  leads K (modify f) K.
Proof. intros Hf w Hw. destruct (Hf w). by apply (K_frame w). Qed.

Lemma frame_updGoal (x : GoalId) (f : Goal → Goal) : leads K (updGoal x f) K.
Proof. by apply frame_modify. Qed.

Lemma frame_deref (x : GoalId) : leads K (deref x) K.
Proof. apply leads_same. intros w. unfold deref. by destruct (goals w !! x). Qed.

Lemma frame_wakeUp (x : GoalId) : leads K (wakeUp x) K.
Proof. by apply frame_modify. Qed.

Lemma frame_Goal_waiteeDone (x g : GoalId) (b : bool) :
  leads K (Goal_waiteeDone G x g b) K.
Proof.
  unfold Goal_waiteeDone.
  apply leads_inv; [apply frame_deref|]. intros t.
  apply leads_inv; [by apply leads_same|]. intros _.
  apply leads_inv; [apply frame_updGoal|]. intros _.
  apply leads_inv.
  { destruct b; [by apply leads_same|apply frame_updGoal]. }
  intros _. apply leads_inv; [apply frame_deref|]. intros t1.
  destruct (_ || _); [|by apply leads_same].
  apply leads_inv.
  { apply leads_forEach. intros r _.
    apply leads_inv; [by apply leads_same|]. intros w0. apply frame_updGoal. }
  intros _. apply leads_inv; [apply frame_updGoal|]. intros _.
  apply frame_wakeUp.
Qed.

Lemma frame_waiteeDone (x g : GoalId) (b : bool) : leads K (waiteeDone G x g b) K.
Proof.
  unfold waiteeDone.
  apply leads_inv; [apply frame_deref|]. intros t.
  apply leads_inv; [by apply frame_modify|].
  intros _. destruct (body t); try apply frame_Goal_waiteeDone.
  unfold PseudoGoal_waiteeDone. destruct b; [by apply leads_same|].
  apply frame_updGoal.
Qed.

Lemma frame_amDone (g : GoalId) (b : bool) : leads K (amDone G g b) K.
Proof.
  unfold amDone.
  apply leads_inv; [apply frame_deref|]. intros t.
  apply leads_inv; [by apply leads_same|]. intros _.
  apply leads_inv; [apply frame_updGoal|]. intros _.
  apply leads_inv.
  { apply leads_forEach. intros i _.
    apply leads_inv; [by apply leads_same|]. intros w0.
    destruct (lock w0 i); [apply frame_waiteeDone|by apply leads_same]. }
  intros _. apply leads_inv; [apply frame_updGoal|]. intros _.
  by apply frame_modify.
Qed.

Lemma frame_waitForBuildSlot (g : GoalId) (b : bool) :
  leads K (waitForBuildSlot G g b) K.
Proof.
  unfold waitForBuildSlot.
  apply leads_inv; [by apply leads_same|]. intros w.
  destruct (_ && _); [by apply leads_same|].
  destruct (_ && _); [apply frame_wakeUp|]. by apply frame_modify.
Qed.

Lemma frame_addWaitee (x g : GoalId) : leads K (addWaitee x g) K.
Proof.
  unfold addWaitee. apply leads_inv; [apply frame_updGoal|]. intros _.
  apply frame_updGoal.
Qed.

Lemma frame_addGoal mk goalMap set_goalMap (p : Path) :
  (∀ f w, children (set_goalMap f w) = children w ∧
          nrChildren (set_goalMap f w) = nrChildren w) →
  leads K (addGoal mk goalMap set_goalMap p) K.
Proof.
  intros Hs. unfold addGoal.
  apply leads_inv; [by apply leads_same|]. intros w.
  destruct (_ ≫= _); [by apply leads_same|].
  apply leads_inv; [by apply frame_modify|]. intros _.
  apply leads_inv; [by apply frame_modify|]. intros _.
  apply leads_inv; [apply frame_modify; apply Hs|]. intros _.
  apply leads_inv; [apply frame_wakeUp|]. intros _. by apply leads_same.
Qed.

End Frame.

(** The same for the members of the goals, on the whole state. *)
Section WorldFrame.

Variable G : Globals.
Variable X : External.
Variable K : Worker → Prop.
Hypothesis K_frame : ∀ w w',
  children w' = children w → nrChildren w' = nrChildren w → K w → K w'.

Local Abbreviation I := (λ s : World, K (worker s)).

Lemma wframe_liftW {A} (m : M Worker A) : leads K m K → leads I (liftW m) I.
Proof. intros Hm. apply leads_liftW. intros s Hs. by apply Hm. Qed.

Lemma wframe_updDrv this f : leads I (updDrv this f) I.
Proof. apply wframe_liftW, frame_updGoal, K_frame. Qed.

Lemma wframe_updSubst this f : leads I (updSubst this f) I.
Proof. apply wframe_liftW, frame_updGoal, K_frame. Qed.

Lemma wframe_amDone this b : leads I (liftW (amDone G this b)) I.
Proof. apply wframe_liftW, frame_amDone, K_frame. Qed.

Lemma wframe_waitForBuildSlot this b : leads I (liftW (waitForBuildSlot G this b)) I.
Proof. apply wframe_liftW, frame_waitForBuildSlot, K_frame. Qed.

Lemma wframe_setDeletion this b : leads I (setDeletion this b) I.
Proof.
  apply setDeletion_leads.
  - intros f _. apply wframe_updDrv.
  - intros e. by apply leads_worker.
Qed.

Lemma wframe_deleteTmpDir this force : leads I (deleteTmpDir G this force) I.
Proof.
  apply deleteTmpDir_leads.
  - intros f _. apply wframe_updDrv.
  - intros p. by apply leads_worker.
Qed.

Lemma wframe_prepareBuild this : leads I (prepareBuild X this) I.
Proof.
  apply prepareBuild_leads.
  - intros f _. apply wframe_updDrv.
  - intros e. by apply leads_worker.
Qed.

Lemma wframe_openLogFile this fd pipe : leads I (openLogFile G X this fd pipe) I.
Proof.
  apply openLogFile_leads.
  - intros f _. apply wframe_updDrv.
  - intros f. by apply leads_worker.
Qed.

Lemma wframe_removeUnregistered outs : leads I (removeUnregistered outs) I.
Proof.
  apply leads_forEach. intros i _.
  apply leads_inv; [by apply leads_same|]. intros s.
  destruct (isValidPath _ _); [by apply leads_same|].
  destruct (pathExists _ _); [by apply leads_worker|by apply leads_same].
Qed.

Lemma wframe_scanOutput d i acc : leads I (scanOutput X d i acc) I.
Proof.
  unfold scanOutput.
  apply leads_inv; [by apply leads_same|]. intros s.
  destruct (negb _); [by apply leads_same|].
  apply leads_inv.
  { case_bool_decide; [|by apply leads_same].
    case_bool_decide; [by apply leads_same|].
    destruct (parseHash _ _ _); [by apply leads_same|].
    destruct (hashFile _ _ _ _); [by apply leads_same|].
    case_bool_decide; [by apply leads_same|].
    destruct (lstat _ _); [|by apply leads_same].
    destruct (_ || _); by apply leads_same. }
  intros _. apply leads_inv; [by apply leads_worker|]. intros _.
  apply leads_inv; [by apply leads_same|]. intros s'. by apply leads_same.
Qed.

Lemma wframe_scanOutputs d outs : ∀ acc, leads I (scanOutputs X d outs acc) I.
Proof.
  induction outs as [|i outs IH]; intros acc; simpl.
  - by apply leads_same.
  - apply leads_inv; [apply wframe_scanOutput|]. apply IH.
Qed.

Lemma wframe_computeClosure this : leads I (computeClosure X this) I.
Proof.
  unfold computeClosure.
  apply leads_inv; [apply derivationGoal_leads|]. intros d.
  apply leads_inv; [apply wframe_scanOutputs|]. intros maps.
  apply leads_inv; [by apply leads_worker|]. intros _.
  apply leads_inv.
  { apply leads_forEach. intros i _.
    apply leads_inv; [by apply leads_worker|]. intros _. by apply leads_worker. }
  intros _. apply leads_inv; [by apply leads_worker|]. intros _.
  apply wframe_setDeletion.
Qed.

End WorldFrame.

Lemma slotIs_frame (n : Z) (w w' : Worker) :
  children w' = children w → nrChildren w' = nrChildren w →
  nrChildren w = n → nrChildren w' = n.
Proof. congruence. Qed.

Lemma slotTaken_frame (G : Globals) (n : Z) (w w' : Worker) :
  children w' = children w → nrChildren w' = nrChildren w →
  slotTaken G n w → slotTaken G n w'.
Proof. unfold slotTaken. by intros _ ->. Qed.

Lemma slotFreed_frame (n : Z) (w w' : Worker) :
  children w' = children w → nrChildren w' = nrChildren w →
  slotFreed n w → slotFreed n w'.
Proof. unfold slotFreed. by intros _ ->. Qed.

Lemma leads_catchSubstError {S A} (P R Q : S → Prop) (m : M S A) h :
  leads P m R → (∀ s, R s → Q s) → (∀ msg, leads R (h msg) Q) →
  leads P (catchSubstError m h) Q.
Proof.
  intros Hm HRQ Hh s Hs. unfold catchSubstError.
  specialize (Hm s Hs). destruct (m s) as [[a|e|x] s1]; simpl in *; auto.
  destruct e; simpl; auto. by apply Hh.
Qed.

Lemma childStarted_slots (G : Globals) (n : Z) g pid fd :
  (n < maxBuildJobs G)%Z →
  leads (λ s, nrChildren (worker s) = n) (liftW (childStarted g pid fd true))
        (λ s, slotTaken G n (worker s)).
Proof.
  intros Hn. apply leads_liftW. intros s Hs. rewrite childStarted_run.
  unfold slotTaken. simpl in *. right. by rewrite Hs.
Qed.

Lemma childTerminated_slots (n : Z) pid wake :
  leads (λ s, nrChildren (worker s) = n) (liftW (childTerminated pid wake))
        (λ s, slotFreed n (worker s)).
Proof.
  apply leads_liftW. intros s Hs. unfold slotFreed. simpl in *.
  destruct (children (worker s) !! pid) as [c|] eqn:Hc.
  - destruct (decide (inBuildSlot c = true → (0 < nrChildren (worker s))%Z)) as [Hp|Hp].
    + rewrite (childTerminated_run pid wake _ c Hc Hp). simpl.
      destruct (inBuildSlot c) eqn:Hb.
      * right. split; [rewrite <- Hs; by apply Hp|].
        destruct wake; simpl; by rewrite Hs.
      * left. destruct wake; simpl; by rewrite Hs.
    + left. unfold childTerminated. mrun. rewrite Hc.
      destruct (inBuildSlot c); [|by destruct Hp].
      destruct (0 <? nrChildren (worker s))%Z eqn:Hz; [|done].
      destruct Hp. intros _. by apply Z.ltb_lt.
  - left. unfold childTerminated. mrun. by rewrite Hc.
Qed.

Section Slots.

Variable G : Globals.
Variable X : External.

Lemma startBuilder_slots (n : Z) this ob :
  (n < maxBuildJobs G)%Z →
  leads (λ s, nrChildren (worker s) = n) (startBuilder G X this ob)
        (λ s, slotTaken G n (worker s)).
Proof.
  intros Hn. unfold startBuilder.
  set (J := λ s : World, nrChildren (worker s) = n).
  set (Q := λ s : World, slotTaken G n (worker s)).
  assert (HJ : ∀ s, J s → Q s) by (by left).
  assert (HJQ : ∀ A (m : M World A), leads J m J → leads J m Q).
  { intros A m Hm. apply (leads_weaken J J J Q m Hm); [done|exact HJ]. }
  apply (leads_bind _ J); [apply derivationGoal_leads|done|]. intros d.
  case_bool_decide; [by apply HJQ, leads_same|].
  apply (leads_bind _ J); [apply (wframe_removeUnregistered (λ w, nrChildren w = n))|done|].
  intros _.
  apply (leads_bind _ J); [by apply (leads_worker (λ w, nrChildren w = n))|done|].
  intros tmp.
  apply (leads_bind _ J); [apply (wframe_updDrv _ (slotIs_frame n))|done|]. intros _.
  apply (leads_bind _ J); [apply (wframe_openLogFile G X _ (slotIs_frame n))|done|].
  intros _.
  case_bool_decide; [by apply HJQ, leads_same|].
  apply (leads_bind _ J); [by apply (leads_worker (λ w, nrChildren w = n))|done|].
  intros _.
  apply (leads_bind _ J); [apply (wframe_updDrv _ (slotIs_frame n))|done|]. intros _.
  by apply childStarted_slots.
Qed.

Lemma tryToBuild_slots (n : Z) this oh ob :
  leads (λ s, nrChildren (worker s) = n) (tryToBuild G X this oh ob)
        (λ s, slotTaken G n (worker s)).
Proof.
  unfold tryToBuild.
  set (J := λ s : World, nrChildren (worker s) = n).
  set (Q := λ s : World, slotTaken G n (worker s)).
  assert (HJ : ∀ s, J s → Q s) by (by left).
  assert (HJQ : ∀ A (m : M World A), leads J m J → leads J m Q).
  { intros A m Hm. apply (leads_weaken J J J Q m Hm); [done|exact HJ]. }
  apply (leads_bind _ Q); [|done|].
  2:{ intros [|]; [apply (wframe_updDrv _ (slotTaken_frame G n))|by apply leads_same]. }
  apply (leads_catchBuildError _ Q); [|done|].
  2:{ intros msg. apply leads_inv; [apply (wframe_amDone G _ (slotTaken_frame G n))|].
      intros _. by apply leads_same. }
  apply (leads_bind _ J); [|done|].
  { apply (leads_weaken (slotCount (λ _, True) n) J (slotCount (λ _, True) n) J);
      [by apply tryBuildHook_slots|by intros s Hs; split|by intros s [Hs _]]. }
  intros [| | |].
  - apply HJQ. apply leads_inv; [apply (wframe_updDrv _ (slotIs_frame n))|].
    intros _. by apply leads_same.
  - apply (leads_bind_val _ _ (λ a s, a = s ∧ J s)); [by intros s Hs|].
    intros s0. destruct (negb (canBuildMore G (worker s0))) eqn:Hc.
    { apply (leads_weaken J _ J Q); [|by intros ? [_ ?]|done].
      apply leads_inv; [apply (wframe_waitForBuildSlot G _ (slotIs_frame n))|].
      intros _. by apply leads_same. }
    apply (leads_bind _ (λ s, J s ∧ (n < maxBuildJobs G)%Z)).
    { intros s [-> Hs]. split.
      - by apply (wframe_prepareBuild X _ (slotIs_frame n)).
      - apply negb_false_iff in Hc. unfold canBuildMore in Hc.
        apply Z.ltb_lt in Hc. by rewrite <- Hs. }
    { by intros s [Hs _]; left. }
    intros ready. destruct (negb ready).
    { apply (leads_weaken J _ J Q); [|by intros ? [? _]|done].
      apply leads_inv; [apply (wframe_amDone G _ (slotIs_frame n))|].
      intros _. by apply leads_same. }
    intros s [Hs Hn]. revert s Hs.
    apply (leads_bind _ Q); [by apply startBuilder_slots|done|].
    intros _. by apply leads_same.
  - apply HJQ. apply leads_inv; [apply (wframe_waitForBuildSlot G _ (slotIs_frame n))|].
    intros _. by apply leads_same.
  - apply HJQ. apply leads_inv; [apply (wframe_amDone G _ (slotIs_frame n))|].
    intros _. by apply leads_same.
Qed.

Lemma tryToRun_slots (n : Z) this o :
  leads (λ s, nrChildren (worker s) = n) (tryToRun G X this o)
        (λ s, slotTaken G n (worker s)).
Proof.
  unfold tryToRun.
  set (J := λ s : World, nrChildren (worker s) = n).
  set (Q := λ s : World, slotTaken G n (worker s)).
  assert (HJ : ∀ s, J s → Q s) by (by left).
  assert (HJQ : ∀ A (m : M World A), leads J m J → leads J m Q).
  { intros A m Hm. apply (leads_weaken J J J Q m Hm); [done|exact HJ]. }
  apply (leads_bind_val _ _ (λ a s, a = s ∧ J s)); [by intros s Hs|].
  intros s0. destruct (negb (canBuildMore G (worker s0))) eqn:Hc.
  { apply (leads_weaken J _ J Q); [|by intros ? [_ ?]|done].
    apply (wframe_waitForBuildSlot G _ (slotIs_frame n)). }
  intros s [Heq Hs].
  assert (Hn : (n < maxBuildJobs G)%Z).
  { apply negb_false_iff in Hc. unfold canBuildMore in Hc.
    apply Z.ltb_lt in Hc. rewrite <- Hs. by subst. }
  clear Heq Hc. revert s Hs.
  apply (leads_bind _ J); [apply leads_substitutionGoal|done|]. intros sg.
  apply (leads_bind _ J); [apply (wframe_updSubst _ (slotIs_frame n))|done|].
  intros _. destruct (isValidPath _ _).
  { apply HJQ.
    apply leads_inv; [apply (wframe_updSubst _ (slotIs_frame n))|]. intros _.
    apply leads_inv; [by apply (leads_worker (λ w, nrChildren w = n))|]. intros _.
    apply (wframe_amDone G _ (slotIs_frame n)). }
  apply (leads_bind _ J); [apply (wframe_updSubst _ (slotIs_frame n))|done|].
  intros _.
  apply (leads_bind _ J); [|done|].
  { destruct (pathExists _ _);
      [by apply (leads_worker (λ w, nrChildren w = n))|by apply leads_same]. }
  intros _.
  case_bool_decide; [by apply HJQ, leads_same|].
  apply (leads_bind _ J); [by apply (leads_worker (λ w, nrChildren w = n))|done|].
  intros _.
  apply (leads_bind _ J); [apply (wframe_updSubst _ (slotIs_frame n))|done|].
  intros _.
  apply (leads_bind _ Q); [by apply childStarted_slots|done|]. intros _.
  apply (wframe_updSubst _ (slotTaken_frame G n)).
Qed.

Lemma buildDone_slots (n : Z) this status :
  leads (λ s, nrChildren (worker s) = n) (buildDone G X this status)
        (λ s, slotFreed n (worker s)).
Proof.
  unfold buildDone.
  set (J := λ s : World, nrChildren (worker s) = n).
  set (Q := λ s : World, slotFreed n (worker s)).
  apply (leads_bind _ J); [apply derivationGoal_leads|by left|]. intros d.
  apply (leads_bind _ J); [apply (wframe_updDrv _ (slotIs_frame n))|by left|].
  intros _.
  apply (leads_bind _ Q); [apply childTerminated_slots|done|]. intros _.
  apply leads_inv; [apply (wframe_updDrv _ (slotFreed_frame n))|]. intros _.
  apply leads_inv; [apply (wframe_updDrv _ (slotFreed_frame n))|]. intros _.
  destruct (negb _).
  { apply leads_inv; [apply (wframe_deleteTmpDir G _ (slotFreed_frame n))|].
    intros _. apply (wframe_amDone G _ (slotFreed_frame n)). }
  apply leads_inv; [apply (wframe_deleteTmpDir G _ (slotFreed_frame n))|].
  intros _. apply leads_inv.
  { apply (leads_catchBuildError _ Q); [|done|].
    - apply leads_inv; [apply (wframe_computeClosure X _ (slotFreed_frame n))|].
      intros _. by apply leads_same.
    - intros msg. apply leads_inv; [apply (wframe_amDone G _ (slotFreed_frame n))|].
      intros _. by apply leads_same. }
  intros [|]; [apply (wframe_amDone G _ (slotFreed_frame n))|by apply leads_same].
Qed.

Lemma finished_slots (n : Z) this status :
  leads (λ s, nrChildren (worker s) = n) (finished G X this status)
        (λ s, slotFreed n (worker s)).
Proof.
  unfold finished.
  set (J := λ s : World, nrChildren (worker s) = n).
  set (Q := λ s : World, slotFreed n (worker s)).
  apply (leads_bind _ J); [apply leads_substitutionGoal|by left|]. intros sg.
  apply (leads_bind _ J); [apply (wframe_updSubst _ (slotIs_frame n))|by left|].
  intros _.
  apply (leads_bind _ Q); [apply childTerminated_slots|done|]. intros _.
  apply leads_inv; [apply (wframe_updSubst _ (slotFreed_frame n))|]. intros _.
  apply leads_inv.
  { apply (leads_catchSubstError _ Q); [|done|].
    - destruct (negb _); [by apply leads_same|].
      apply leads_inv; [by apply leads_same|]. intros s.
      destruct (negb _); by apply leads_same.
    - intros msg. apply leads_inv; [apply (wframe_updSubst _ (slotFreed_frame n))|].
      intros _. apply leads_inv.
      { apply (wframe_liftW (slotFreed n)), frame_wakeUp, slotFreed_frame. }
      intros _. by apply leads_same. }
  intros [|]; [by apply leads_same|].
  apply leads_inv; [by apply (leads_worker (slotFreed n))|]. intros _.
  apply leads_inv; [by apply leads_same|]. intros s.
  apply leads_inv; [by apply (leads_worker (slotFreed n))|]. intros _.
  apply leads_inv; [by apply (leads_worker (slotFreed n))|]. intros _.
  apply leads_inv; [by apply (leads_worker (slotFreed n))|]. intros _.
  apply leads_inv; [apply leads_substitutionGoal|]. intros sg1.
  apply leads_inv; [apply (wframe_updSubst _ (slotFreed_frame n))|]. intros _.
  apply leads_inv; [by apply (leads_worker (slotFreed n))|]. intros _.
  apply (wframe_amDone G _ (slotFreed_frame n)).
Qed.


Lemma wrap_range (z : Z) : (0 ≤ z)%Z → (0 ≤ wrap z ≤ z)%Z.
Proof.
  intros Hz. unfold wrap. split.
  - apply Z.mod_pos_bound. lia.
  - apply Z.mod_le; lia.
Qed.

Lemma slotTaken_bounded (n : Z) (w : Worker) :
  (0 ≤ n ≤ maxBuildJobs G)%Z → slotTaken G n w → slotsBounded G w.
Proof.
  unfold slotTaken, slotsBounded. intros Hn [->|[Hlt ->]]; [done|].
  pose proof (wrap_range (n + 1)). lia.
Qed.

Lemma slotFreed_bounded (n : Z) (w : Worker) :
  (0 ≤ n ≤ maxBuildJobs G)%Z → slotFreed n w → slotsBounded G w.
Proof.
  unfold slotFreed, slotsBounded. intros Hn [->|[Hlt ->]]; [done|].
  pose proof (wrap_range (n - 1)). lia.
Qed.

End Slots.


(** ** Lines on a pipe *)

Lemma append_cons (ch : Ascii.ascii) (a b : string) :
  String ch a +:+ b = String ch (a +:+ b).
Proof. reflexivity. Qed.

Lemma append_assoc (a b c : string) : (a +:+ b) +:+ c = a +:+ (b +:+ c).
Proof. induction a as [|ch a' IH]; [done|]. by rewrite !append_cons, IH. Qed.

Lemma append_nil_r (a : string) : a +:+ "" = a.
Proof. induction a as [|ch a' IH]; [done|]. by rewrite append_cons, IH. Qed.

Lemma list_ascii_append (a b : string) :
  String.list_ascii_of_string (a +:+ b)
  = String.list_ascii_of_string a ++ String.list_ascii_of_string b.
Proof.
  induction a as [|ch a' IH]; [done|]. rewrite append_cons. simpl. by rewrite IH.
Qed.

Lemma append_inj_r (a b c : string) : a +:+ c = b +:+ c → a = b.
Proof.
  intros H. apply (f_equal String.list_ascii_of_string) in H.
  rewrite !list_ascii_append in H. apply app_inv_tail in H.
  rewrite <- (String.string_of_list_ascii_of_string a),
          <- (String.string_of_list_ascii_of_string b). by rewrite H.
Qed.

Lemma received_app (l1 l2 : list ReadResult) :
  received (l1 ++ l2) = received l1 +:+ received l2.
Proof.
  induction l1 as [|r l1 IH]; simpl; [done|].
  destruct r; simpl; by rewrite ?IH.
Qed.

(** The loop of [readLine] on results without an end of file or an
    error that deliver no newline, followed by a newline, an end of file,
    an error, or nothing. *)
Lemma readLine_loop_run (pre : list ReadResult) : ∀ acc,
  uneventful pre → oneLine (received pre) →
  (∀ rest, readLine_loop (pre ++ RdByte newline :: rest) acc
           = Some (Ok (acc +:+ received pre), rest)) ∧
  (∀ rest, readLine_loop (pre ++ RdEOF :: rest) acc
           = Some (Throw (Error "unexpected EOF reading a line"), rest)) ∧
  (∀ rest, readLine_loop (pre ++ RdError :: rest) acc
           = Some (Throw (SysError "reading a line"), rest)) ∧
  readLine_loop pre acc = None.
Proof.
  induction pre as [|r pre IH]; intros acc Hu Hl.
  - simpl. by rewrite append_nil_r.
  - apply Forall_cons in Hu as [[Hr1 Hr2] Hu].
    destruct r as [ch| | |]; try done.
    + simpl in Hl. unfold oneLine in Hl. simpl in Hl.
      apply not_elem_of_cons in Hl as [Hch Hl].
      simpl. rewrite bool_decide_eq_false_2 by done.
      destruct (IH (acc +:+ String ch "") Hu Hl) as (H1 & H2 & H3 & H4).
      repeat split; try done.
      intros rest. rewrite H1. by rewrite append_assoc.
    + simpl. by apply IH.
Qed.

(** A line that the loop returns is what was delivered before the
    first newline. *)
Lemma readLine_loop_Ok (input : list ReadResult) : ∀ acc r rest,
  readLine_loop input acc = Some (Ok r, rest) →
  ∃ pre, input = pre ++ RdByte newline :: rest ∧ uneventful pre ∧
         oneLine (received pre) ∧ r = acc +:+ received pre.
Proof.
  induction input as [|x input IH]; intros acc r rest H; [done|].
  destruct x as [ch| | |]; simpl in H; try done.
  - case_bool_decide as Hch.
    + injection H as <- <-. exists []. subst ch. split; [done|].
      split; [constructor|]. split; [by apply not_elem_of_nil|].
      by rewrite append_nil_r.
    + destruct (IH _ _ _ H) as (pre & -> & Hu & Hl & ->).
      exists (RdByte ch :: pre). split; [done|].
      split; [by constructor|]. split.
      * unfold oneLine. simpl. by apply not_elem_of_cons.
      * by rewrite append_assoc.
  - destruct (IH _ _ _ H) as (pre & -> & Hu & Hl & ->).
    exists (RdEINTR :: pre). split; [done|]. split; [by constructor|]. done.
Qed.

(** X6.  Lines on a pipe.  [writeLine] appends the string and a newline
    to what the descriptor has received.  [readLine] retries the reads
    that a signal has interrupted; when the reads deliver, without an end
    of file or an error, what [writeLine] has written for a string [s]
    without a newline, [readLine] returns [s] and consumes no more than
    that.  Conversely a line that [readLine] returns has no newline and
    is what was delivered up to the first newline.  At an end of file
    [readLine] throws an [Error], and the part of a line read so far is
    lost; at an error of [read] other than an interruption it throws a
    [SysError]; and when the reads deliver no newline [readLine] does not
    return. *)
Theorem readLine_writeLine :
  (∀ s out, writeLine s out = (Ok tt, out +:+ s +:+ String newline "")) ∧
  (∀ s pre rest,
     oneLine s → uneventful pre →
     received (pre ++ [RdByte newline]) = (writeLine s "").2 →
     readLine (pre ++ RdByte newline :: rest) = Some (Ok s, rest)) ∧
  (∀ input r rest,
     readLine input = Some (Ok r, rest) →
     oneLine r ∧
     ∃ pre, input = pre ++ RdByte newline :: rest ∧ uneventful pre ∧
            received pre = r) ∧
  (∀ pre rest,
     uneventful pre → oneLine (received pre) →
     readLine (pre ++ RdEOF :: rest)
     = Some (Throw (Error "unexpected EOF reading a line"), rest) ∧
     readLine (pre ++ RdError :: rest)
     = Some (Throw (SysError "reading a line"), rest) ∧
     readLine pre = None).
Proof.
  split; [done|]. split.
  { intros s pre rest Hs Hu Hrecv.
    rewrite received_app in Hrecv. simpl in Hrecv.
    change (received pre +:+ String newline "" = s +:+ String newline "") in Hrecv.
    apply append_inj_r in Hrecv. subst s.
    destruct (readLine_loop_run pre "" Hu Hs) as (H1 & _). apply H1. }
  split.
  { intros input r rest H.
    destruct (readLine_loop_Ok input "" r rest H) as (pre & -> & Hu & Hl & ->).
    split; [done|]. by exists pre. }
  intros pre rest Hu Hl.
  destruct (readLine_loop_run pre "" Hu Hl) as (_ & H2 & H3 & H4).
  split; [apply H2|]. split; [apply H3|apply H4].
Qed.

(** ** The pseudo goal *)

Lemma PseudoGoal_waiteeDone_run (G : Globals) (this waitee : GoalId) (b : bool)
    (w : Worker) (t : Goal) (b0 : bool) :
  goals w !! this = Some t → body t = IsPseudoGoal b0 →
  waiteeDone G this waitee b w =
    (Ok tt,
     (if b then id
      else set_goals (alter (set_body (λ b,
             match b with IsPseudoGoal _ => IsPseudoGoal false | _ => b end)) this))
       (set_notified (λ h, h ++ [mkNotification this waitee b]) w)).
Proof.
  intros Ht Hb. unfold waiteeDone, deref, PseudoGoal_waiteeDone. mrun.
  rewrite Ht. simpl. rewrite Hb. by destruct b.
Qed.

Lemma set_body_same (t : Goal) (b : GoalBody) :
  body t = b → set_body (λ _, b) t = t.
Proof. intros <-. by destruct t. Qed.

Lemma PseudoGoal_calls (G : Globals) (this : GoalId) (calls : list (GoalId * bool)) :
  ∀ (w : Worker) (t : Goal) (b0 : bool),
  goals w !! this = Some t → body t = IsPseudoGoal b0 →
  ∃ w',
    forEach calls (λ c, waiteeDone G this c.1 c.2) w = (Ok tt, w') ∧
    goals w' !! this
    = Some (set_body (λ _, IsPseudoGoal (b0 && forallb snd calls)) t) ∧
    (∀ x, x ≠ this → goals w' !! x = goals w !! x) ∧
    awake w' = awake w ∧
    notified w' = notified w ++ ((λ c, mkNotification this c.1 c.2) <$> calls).
Proof.
  induction calls as [|[g b] calls IH]; intros w t b0 Ht Hb.
  - exists w. split; [done|]. simpl. rewrite andb_true_r, app_nil_r.
    by rewrite set_body_same.
  - simpl. unfold mbind at 1. unfold M_bind at 1.
    rewrite (PseudoGoal_waiteeDone_run G this g b w t b0 Ht Hb).
    destruct b; simpl.
    + destruct (IH (set_notified (λ h, h ++ [mkNotification this g true]) w) t b0)
        as (w' & Hrun & Hthis & Hoth & Haw & Hnot); [done..|].
      exists w'. split; [done|]. split; [done|]. split; [done|]. split; [done|].
      rewrite Hnot. simpl. by rewrite <- app_assoc.
    + destruct (IH (set_goals (alter (set_body (λ b,
                 match b with IsPseudoGoal _ => IsPseudoGoal false | _ => b end)) this)
               (set_notified (λ h, h ++ [mkNotification this g false]) w))
               (set_body (λ _, IsPseudoGoal false) t) false)
        as (w' & Hrun & Hthis & Hoth & Haw & Hnot).
      { simpl. rewrite lookup_alter_eq, Ht. simpl. unfold set_body. by rewrite Hb. }
      { done. }
      exists w'. split; [done|]. split.
      { rewrite Hthis. by rewrite andb_false_r. }
      split.
      { intros x Hx. rewrite (Hoth x Hx). simpl. by rewrite lookup_alter_ne. }
      split; [done|].
      rewrite Hnot. simpl. by rewrite <- app_assoc.
Qed.

(** X7.  The pseudo goal records whether every goal it waited for has
    succeeded.  Whatever [waiteeDone] calls a live pseudo goal receives,
    each of them returns normally, without the check that the finished
    goal is among its waitees; afterwards [isOkay] is true exactly when
    the flag was set before and every call has reported success; the
    other goals are as they were, and nothing is woken up: the pseudo
    goal, whose [work] aborts, is never scheduled. *)
Theorem PseudoGoal_isOkay (G : Globals) (this : GoalId)
    (calls : list (GoalId * bool)) (w : Worker) (t : Goal) (b0 : bool) :
  goals w !! this = Some t →
  body t = IsPseudoGoal b0 →
  ∃ w',
    forEach calls (λ c, waiteeDone G this c.1 c.2) w = (Ok tt, w') ∧
    isOkay this w' = (Ok (b0 && forallb snd calls), w') ∧
    goals w' !! this
    = Some (set_body (λ _, IsPseudoGoal (b0 && forallb snd calls)) t) ∧
    (∀ x, x ≠ this → goals w' !! x = goals w !! x) ∧
    awake w' = awake w ∧
    notified w' = notified w ++ ((λ c, mkNotification this c.1 c.2) <$> calls).
Proof.
  intros Ht Hb.
  destruct (PseudoGoal_calls G this calls w t b0 Ht Hb)
    as (w' & Hrun & Hthis & Hoth & Haw & Hnot).
  exists w'. split; [done|]. split; [|done].
  unfold isOkay, deref. mrun. by rewrite Hthis.
Qed.

(** One failure among three reports. *)
Lemma PseudoGoal_isOkay_witness :
  ∃ w',
    forEach [(2%positive, true); (3%positive, false); (4%positive, true)]
      (λ c, waiteeDone exG 1 c.1 c.2) exPseudo = (Ok tt, w') ∧
    isOkay 1 w' = (Ok false, w') ∧ awake w' = ∅.
Proof.
  destruct (PseudoGoal_isOkay exG 1
              [(2%positive, true); (3%positive, false); (4%positive, true)]
              exPseudo (newGoal newPseudoGoal) true)
    as (w' & Hrun & Hok & _ & _ & Haw & _); [reflexivity..|].
  exists w'. split; [exact Hrun|]. split; [exact Hok|exact Haw].
Defined.

(** ** The goals that a derivation goal waits for *)

Lemma grows_refl (this : GoalId) (w : Worker) : wfAlloc w → grows this w w.
Proof.
  intros Hwf. split; [done|]. split.
  { intros x tx Hx. exists tx. by repeat split. }
  by repeat split.
Qed.

Lemma grows_alive (this : GoalId) (w w' : Worker) (x : GoalId) :
  grows this w w' → is_Some (goals w !! x) → is_Some (goals w' !! x).
Proof.
  intros (_ & Hg & _) [tx Hx]. destruct (Hg x tx Hx) as (tx' & -> & _). eauto.
Qed.

Lemma grows_trans (this : GoalId) (w1 w2 w3 : Worker) :
  grows this w1 w2 → grows this w2 w3 → grows this w1 w3.
Proof.
  intros H12 H23.
  assert (Hal : ∀ x, is_Some (goals w1 !! x) → is_Some (goals w2 !! x)).
  { intros x. by apply (grows_alive this w1 w2). }
  destruct H12 as (_ & Hg1 & Hd1 & Hs1 & Ha1 & Haw1 & Hc1 & Hn1 & Hb1 & Ht1 & Hno1).
  destruct H23 as (Hwf & Hg2 & Hd2 & Hs2 & Ha2 & Haw2 & Hc2 & Hn2 & Hb2 & Ht2 & Hno2).
  split; [done|]. split.
  { intros x tx Hx. destruct (Hg1 x tx Hx) as (tx1 & Hx1 & B1 & F1 & D1 & We1 & Wa1 & O1).
    destruct (Hg2 x tx1 Hx1) as (tx2 & Hx2 & B2 & F2 & D2 & We2 & Wa2 & O2).
    exists tx2. split; [done|]. split; [congruence|]. split; [congruence|].
    split; [congruence|].
    split; [by transitivity (waitees tx1)|]. split; [by transitivity (waiters tx1)|].
    intros Hne. rewrite O2, O1; done. }
  split.
  { intros p g Hp Hg. apply Hd2; [by apply Hd1|]. by apply Hal. }
  split.
  { intros p g Hp Hg. apply Hs2; [by apply Hs1|]. by apply Hal. }
  split.
  { intros x Hx Hin. apply Ha1; [done|]. apply Ha2; [|done]. by apply Hal. }
  split; [by transitivity (awake w2)|]. repeat split; congruence.
Qed.

Lemma waitsForPath_grows (this : GoalId) goalMap (p : Path) (w w' : Worker) :
  (∀ q g, goalMap w !! q = Some g → is_Some (goals w !! g) →
          goalMap w' !! q = Some g) →
  grows this w w' → waitsForPath this goalMap p w → waitsForPath this goalMap p w'.
Proof.
  intros Hm (_ & Hg & _) (g & Hp & t & tg & Ht & Htg & Hwe & Hwa).
  exists g. split; [apply Hm; eauto|].
  destruct (Hg this t Ht) as (t' & Ht' & _ & _ & _ & We & _).
  destruct (Hg g tg Htg) as (tg' & Htg' & _ & _ & _ & _ & Wa & _).
  exists t', tg'. repeat split; try done; set_solver.
Qed.

Lemma addWaitee_grows (this g : GoalId) (w : Worker) :
  wfAlloc w → grows this w (addWaitee this g w).2.
Proof.
  intros Hwf. split.
  { intros x. rewrite addWaitee_lookup. rewrite fmap_is_Some. apply Hwf. }
  split.
  { intros x tx Hx. rewrite addWaitee_lookup, Hx. simpl. eexists. split; [done|].
    destruct (decide (x = g)), (decide (x = this)); simpl;
      repeat split; try done; set_solver. }
  by repeat split.
Qed.

Lemma addWaitee_waitsFor (this g : GoalId) (w : Worker) :
  is_Some (goals w !! this) → is_Some (goals w !! g) →
  waitsFor this g (addWaitee this g w).2 ∧
  ∀ t t', goals w !! this = Some t → goals (addWaitee this g w).2 !! this = Some t' →
          waitees t' = {[g]} ∪ waitees t.
Proof.
  intros [t Ht] [tg Hg]. split.
  - unfold waitsFor. rewrite !addWaitee_lookup, Ht, Hg. simpl.
    eexists _, _. split; [done|]. split; [done|].
    rewrite (decide_True (P := this = this)) by done.
    rewrite (decide_True (P := g = g)) by done.
    destruct (decide (this = g)), (decide (g = this)); simpl; set_solver.
  - intros t0 t'. rewrite addWaitee_lookup, Ht. simpl. intros [= <-] [= <-].
    rewrite (decide_True (P := this = this)) by done.
    by destruct (decide (this = g)).
Qed.

Lemma makeSubstitutionGoal_grows (this : GoalId) (p : Path) (w : Worker) :
  wfAlloc w →
  ∃ g w', makeSubstitutionGoal p w = (Ok g, w') ∧ grows this w w' ∧
          substitutionGoals w' !! p = Some g ∧ is_Some (goals w' !! g) ∧
          ∀ x tx, goals w !! x = Some tx → goals w' !! x = Some tx.
Proof.
  intros Hwf. unfold makeSubstitutionGoal.
  destruct (substitutionGoals w !! p ≫= lock w) as [g|] eqn:Hl.
  - destruct (substitutionGoals w !! p) as [g0|] eqn:Hp; [|done]. simpl in Hl.
    apply lock_Some in Hl as [-> Hg].
    exists g0, w. rewrite (addGoal_hit _ _ _ p w g0 Hp Hg).
    split; [done|]. split; [by apply grows_refl|]. by repeat split.
  - pose proof (wfAlloc_fresh w Hwf) as Hfresh.
    rewrite (addGoal_miss _ _ _ p w Hl).
    eexists _, _. split; [reflexivity|]. split.
    2:{ simpl. rewrite !lookup_insert_eq. split; [done|]. split; [eauto|].
        intros x tx Hx. rewrite lookup_insert_ne; [done|]. congruence. }
    split.
    { intros x. simpl. rewrite lookup_insert. case_decide; [subst; lia|].
      intros Hx. specialize (Hwf x Hx). lia. }
    split.
    { intros x tx Hx. exists tx. simpl. rewrite lookup_insert_ne by congruence.
      by repeat split. }
    split; [done|]. split.
    { intros q g Hq Hg. simpl. rewrite lookup_insert_ne; [done|].
      intros <-. rewrite Hq in Hl. simpl in Hl. by rewrite lock_alive in Hl. }
    split.
    { intros x [tx Hx]. simpl. rewrite elem_of_union, elem_of_singleton.
      intros [->|?]; [congruence|done]. }
    split; [simpl; set_solver|]. by repeat split.
Qed.

Lemma makeDerivationGoal_grows (this : GoalId) (p : Path) (w : Worker) :
  wfAlloc w →
  ∃ g w', makeDerivationGoal p w = (Ok g, w') ∧ grows this w w' ∧
          derivationGoals w' !! p = Some g ∧ is_Some (goals w' !! g) ∧
          ∀ x tx, goals w !! x = Some tx → goals w' !! x = Some tx.
Proof.
  intros Hwf. unfold makeDerivationGoal.
  destruct (derivationGoals w !! p ≫= lock w) as [g|] eqn:Hl.
  - destruct (derivationGoals w !! p) as [g0|] eqn:Hp; [|done]. simpl in Hl.
    apply lock_Some in Hl as [-> Hg].
    exists g0, w. rewrite (addGoal_hit _ _ _ p w g0 Hp Hg).
    split; [done|]. split; [by apply grows_refl|]. by repeat split.
  - pose proof (wfAlloc_fresh w Hwf) as Hfresh.
    rewrite (addGoal_miss _ _ _ p w Hl).
    eexists _, _. split; [reflexivity|]. split.
    2:{ simpl. rewrite !lookup_insert_eq. split; [done|]. split; [eauto|].
        intros x tx Hx. rewrite lookup_insert_ne; [done|]. congruence. }
    split.
    { intros x. simpl. rewrite lookup_insert. case_decide; [subst; lia|].
      intros Hx. specialize (Hwf x Hx). lia. }
    split.
    { intros x tx Hx. exists tx. simpl. rewrite lookup_insert_ne by congruence.
      by repeat split. }
    split.
    { intros q g Hq Hg. simpl. rewrite lookup_insert_ne; [done|].
      intros <-. rewrite Hq in Hl. simpl in Hl. by rewrite lock_alive in Hl. }
    split; [done|]. split.
    { intros x [tx Hx]. simpl. rewrite elem_of_union, elem_of_singleton.
      intros [->|?]; [congruence|done]. }
    split; [simpl; set_solver|]. by repeat split.
Qed.

Lemma attachedAll_nil (this : GoalId) goalMap (w : Worker) :
  wfAlloc w → attachedAll this goalMap [] w w.
Proof.
  intros Hwf. split; [by apply grows_refl|]. split.
  - intros p Hp. by apply elem_of_nil in Hp.
  - intros t t' g Ht Ht' Hg. left. congruence.
Qed.

Lemma attachedAll_app (this : GoalId) goalMap (ps1 ps2 : list Path)
    (w w1 w2 : Worker) :
  (∀ w w', grows this w w' → ∀ q g, goalMap w !! q = Some g →
           is_Some (goals w !! g) → goalMap w' !! q = Some g) →
  attachedAll this goalMap ps1 w w1 → attachedAll this goalMap ps2 w1 w2 →
  attachedAll this goalMap (ps1 ++ ps2) w w2.
Proof.
  intros Hm (Hg1 & Hw1 & He1) (Hg2 & Hw2 & He2).
  split; [by apply (grows_trans this w w1 w2)|]. split.
  - intros p [Hp|Hp]%elem_of_app; [|by apply Hw2].
    apply (waitsForPath_grows this goalMap p w1 w2); [by apply Hm|done|by apply Hw1].
  - intros t t2 g Ht Ht2 Hg.
    destruct Hg1 as (_ & Hgs & _). destruct (Hgs this t Ht) as (t1 & Ht1 & _).
    destruct (He2 t1 t2 g Ht1 Ht2 Hg) as [Hg1|(p & Hp & Hpg)].
    + destruct (He1 t t1 g Ht Ht1 Hg1) as [?|(p & Hp & Hpg)]; [by left|].
      right. exists p. split; [apply elem_of_app; by left|].
      destruct (Hw1 p Hp) as (g' & Hpg' & _ & tg & _ & Htg & _).
      apply (Hm w1 w2 Hg2); [done|]. assert (g' = g) as -> by congruence. eauto.
    + right. exists p. split; [apply elem_of_app; by right|done].
Qed.

Lemma derivationGoals_grows (this : GoalId) (w w' : Worker) :
  grows this w w' → ∀ q g, derivationGoals w !! q = Some g →
  is_Some (goals w !! g) → derivationGoals w' !! q = Some g.
Proof. intros (_ & _ & H & _). exact H. Qed.

Lemma substitutionGoals_grows (this : GoalId) (w w' : Worker) :
  grows this w w' → ∀ q g, substitutionGoals w !! q = Some g →
  is_Some (goals w !! g) → substitutionGoals w' !! q = Some g.
Proof. intros (_ & _ & _ & H & _). exact H. Qed.

Lemma liftW_run {A} (m : M Worker A) (s : World) :
  liftW m s = ((m (worker s)).1, set_worker (λ _, (m (worker s)).2) s).
Proof. unfold liftW. by destruct (m (worker s)). Qed.

(** One goal made and attached. *)
Lemma attach_substitution (this : GoalId) (p : Path) (s : World) :
  wfAlloc (worker s) → is_Some (goals (worker s) !! this) →
  ∃ w', (g ← liftW (makeSubstitutionGoal p); liftW (addWaitee this g)) s
        = (Ok tt, set_worker (λ _, w') s) ∧
        attachedAll this substitutionGoals [p] (worker s) w'.
Proof.
  intros Hwf Hthis.
  destruct (makeSubstitutionGoal_grows this p (worker s) Hwf)
    as (g & w1 & Hrun & Hgr & Hp & Hg & Hkept).
  unfold mbind, M_bind. rewrite liftW_run, Hrun. simpl. rewrite liftW_run. simpl.
  exists (addWaitee this g w1).2. split; [done|].
  assert (Hwf1 : wfAlloc w1) by apply Hgr.
  assert (Hthis1 : is_Some (goals w1 !! this)) by (by apply (grows_alive this (worker s))).
  pose proof (addWaitee_grows this g w1 Hwf1) as Hgr2.
  destruct (addWaitee_waitsFor this g w1 Hthis1 Hg) as [Hwait Hex].
  split; [by apply (grows_trans this _ w1)|]. split.
  - intros q ->%list_elem_of_singleton. exists g. split; [|done].
    by apply (substitutionGoals_grows this w1).
  - intros t t' g' Ht Ht' Hg'.
    rewrite (Hex t t' (Hkept _ _ Ht) Ht') in Hg'.
    apply elem_of_union in Hg' as [->%elem_of_singleton|Hg']; [|by left].
    right. exists p. split; [by left|]. by apply (substitutionGoals_grows this w1).
Qed.

Lemma attach_derivation (this : GoalId) (p : Path) (s : World) :
  wfAlloc (worker s) → is_Some (goals (worker s) !! this) →
  ∃ w', (g ← liftW (makeDerivationGoal p); liftW (addWaitee this g)) s
        = (Ok tt, set_worker (λ _, w') s) ∧
        attachedAll this derivationGoals [p] (worker s) w'.
Proof.
  intros Hwf Hthis.
  destruct (makeDerivationGoal_grows this p (worker s) Hwf)
    as (g & w1 & Hrun & Hgr & Hp & Hg & Hkept).
  unfold mbind, M_bind. rewrite liftW_run, Hrun. simpl. rewrite liftW_run. simpl.
  exists (addWaitee this g w1).2. split; [done|].
  assert (Hwf1 : wfAlloc w1) by apply Hgr.
  assert (Hthis1 : is_Some (goals w1 !! this)) by (by apply (grows_alive this (worker s))).
  pose proof (addWaitee_grows this g w1 Hwf1) as Hgr2.
  destruct (addWaitee_waitsFor this g w1 Hthis1 Hg) as [Hwait Hex].
  split; [by apply (grows_trans this _ w1)|]. split.
  - intros q ->%list_elem_of_singleton. exists g. split; [|done].
    by apply (derivationGoals_grows this w1).
  - intros t t' g' Ht Ht' Hg'.
    rewrite (Hex t t' (Hkept _ _ Ht) Ht') in Hg'.
    apply elem_of_union in Hg' as [->%elem_of_singleton|Hg']; [|by left].
    right. exists p. split; [by left|]. by apply (derivationGoals_grows this w1).
Qed.

(** A loop that makes and attaches the goals of the paths [key x], for
    the elements [x] of a list. *)
Lemma attach_loop {A} (this : GoalId) goalMap (φ : World → Prop)
    (f : A → M World unit) (key : A → list Path) :
  (∀ w w', grows this w w' → ∀ q g, goalMap w !! q = Some g →
           is_Some (goals w !! g) → goalMap w' !! q = Some g) →
  (∀ s w', φ s → φ (set_worker (λ _, w') s)) →
  (∀ x s, φ s → wfAlloc (worker s) → is_Some (goals (worker s) !! this) →
     ∃ w', f x s = (Ok tt, set_worker (λ _, w') s) ∧
           attachedAll this goalMap (key x) (worker s) w') →
  ∀ l s, φ s → wfAlloc (worker s) → is_Some (goals (worker s) !! this) →
     ∃ w', forEach l f s = (Ok tt, set_worker (λ _, w') s) ∧
           attachedAll this goalMap (l ≫= key) (worker s) w'.
Proof.
  intros Hm Hφ Hf. induction l as [|x l IH]; intros s Hs Hwf Hthis.
  - exists (worker s). split; [by destruct s|]. by apply attachedAll_nil.
  - destruct (Hf x s Hs Hwf Hthis) as (w1 & Hrun1 & Hat1).
    destruct (IH (set_worker (λ _, w1) s)) as (w2 & Hrun2 & Hat2).
    { by apply Hφ. }
    { apply Hat1. }
    { apply (grows_alive this (worker s)); [apply Hat1|done]. }
    exists w2. split.
    + simpl. unfold mbind, M_bind. rewrite Hrun1. rewrite Hrun2. done.
    + change ((x :: l) ≫= key) with (key x ++ (l ≫= key)).
      by apply (attachedAll_app this goalMap (key x) (l ≫= key) _ w1).
Qed.

Lemma waitsForPath_alter (this x : GoalId) goalMap (f : Goal → Goal) (p : Path)
    (w : Worker) :
  (∀ f w, goalMap (set_goals f w) = goalMap w) →
  (∀ t, waitees (f t) = waitees t ∧ waiters (f t) = waiters t) →
  waitsForPath this goalMap p w →
  waitsForPath this goalMap p (set_goals (alter f x) w).
Proof.
  intros Hm Hf (g & Hp & t & tg & Ht & Htg & Hwe & Hwa).
  exists g. rewrite Hm. split; [done|].
  exists ((if decide (x = this) then f else id) t), ((if decide (x = g) then f else id) tg).
  simpl. rewrite !lookup_alter.
  destruct (decide (x = this)) as [Hx1|Hx1], (decide (x = g)) as [Hx2|Hx2];
    subst; rewrite ?Ht, ?Htg; simpl;
    rewrite ?(proj1 (Hf _)), ?(proj2 (Hf _)); repeat split; try done; congruence.
Qed.

Lemma updDrv_run (this : GoalId) (f : DerivationGoal → DerivationGoal) (s : World) :
  updDrv this f s =
    (Ok tt, set_worker (set_goals (alter (set_body (λ b,
      match b with IsDerivationGoal d => IsDerivationGoal (f d) | _ => b end)) this)) s).
Proof. done. Qed.

(** X8.  The goals that a derivation goal waits for before it builds.
    [outputsSubstituted], on a live derivation goal in a worker that
    hands out identities in increasing order: when substitutes have
    failed and [tryFallback] is not set it throws an [Error] and changes
    nothing.  Otherwise, when some output is not valid, it returns with
    the failure counter reset and the goal in the state [inputsRealised];
    every input derivation and every input source then has a live goal
    registered for its path that is among the waitees of this goal and
    has this goal among its waiters, and the goal has got no other
    waitee.  The call does not wake the goal up.  So a derivation
    without inputs is left with the waitees it had, none as a rule, and
    asleep: nothing is pending that would make it run again. *)
Theorem outputsSubstituted_waits (G : Globals) (this : GoalId) (s : World)
    (t : Goal) (d : DerivationGoal) :
  goals (worker s) !! this = Some t →
  body t = IsDerivationGoal d →
  wfAlloc (worker s) →
  let res := outputsSubstituted G this s in
  ((0 < nrFailed t)%Z → tryFallback G = false →
   res = (Throw (Error ("some substitutes for the outputs of derivation `" +:+
                        drvPath d +:+ "' failed; try `--fallback'")), s)) ∧
  ((nrFailed t ≤ 0)%Z ∨ tryFallback G = true →
   size (checkPathValidity (drv d) false (db s)) ≠ 0 →
   ∃ w' t',
     res = (Ok tt, set_worker (λ _, w') s) ∧
     goals w' !! this = Some t' ∧
     nrFailed t' = 0%Z ∧ done t' = done t ∧
     body t' = IsDerivationGoal (set_d_state dInputsRealised d) ∧
     (∀ i, i ∈ inputDrvs (drv d) → waitsForPath this derivationGoals i.1 w') ∧
     (∀ p, p ∈ inputSrcs (drv d) → waitsForPath this substitutionGoals p w') ∧
     (∀ g, g ∈ waitees t' →
        g ∈ waitees t ∨
        (∃ i, i ∈ inputDrvs (drv d) ∧ derivationGoals w' !! i.1 = Some g) ∨
        (∃ p, p ∈ inputSrcs (drv d) ∧ substitutionGoals w' !! p = Some g)) ∧
     waitees t ⊆ waitees t' ∧
     (this ∈ awake w' → this ∈ awake (worker s)) ∧
     wantingToBuild w' = wantingToBuild (worker s) ∧
     children w' = children (worker s) ∧
     (inputDrvs (drv d) = [] → inputSrcs (drv d) = [] →
      waitees t' = waitees t ∧ awake w' = awake (worker s))).
Proof.
  intros Ht Hb Hwf res. subst res. unfold outputsSubstituted.
  assert (Hderef : liftW (deref this) s = (Ok t, s)).
  { rewrite liftW_run. unfold deref. rewrite Ht. by destruct s. }
  split.
  { intros Hpos Hfb.
    apply (bind_run _ _ s s t); [done|].
    apply (bind_run _ _ s s d); [by apply (derivationGoal_ok this s t d)|].
    apply Z.ltb_lt in Hpos. by rewrite Hpos, Hfb. }
  intros Hcond Hinv.
  assert (Hif : (0 <? nrFailed t)%Z && negb (tryFallback G) = false).
  { destruct Hcond as [Hle| ->]; [|by rewrite andb_false_r].
    apply Z.ltb_ge in Hle. by rewrite Hle. }
  set (w0 := set_goals (alter (set_nrFailed (λ _, 0%Z)) this) (worker s)).
  set (s0 := set_worker (λ _, w0) s).
  assert (Ht0 : goals w0 !! this = Some (set_nrFailed (λ _, 0%Z) t)).
  { subst w0. simpl. by rewrite lookup_alter_eq, Ht. }
  assert (Hwf0 : wfAlloc w0).
  { intros x. subst w0. simpl. rewrite lookup_alter. intros Hx. apply Hwf.
    case_decide; [subst|done]. by rewrite Ht. }
  destruct (attach_loop this derivationGoals (λ _, True)
              (λ i : Path * list string,
                 g ← liftW (makeDerivationGoal i.1); liftW (addWaitee this g))
              (λ i, [i.1])
              (derivationGoals_grows this) (λ _ _ _, I)
              (λ x s1 _ H1 H2, attach_derivation this x.1 s1 H1 H2)
              (inputDrvs (drv d)) s0 I Hwf0 (ex_intro _ _ Ht0))
    as (w1 & Hrun1 & Hat1).
  set (s1 := set_worker (λ _, w1) s0) in *.
  assert (Hwf1 : wfAlloc w1) by apply Hat1.
  assert (Hthis1 : is_Some (goals w1 !! this)).
  { apply (grows_alive this w0); [apply Hat1|eauto]. }
  destruct (attach_loop this substitutionGoals (λ _, True)
              (λ i : Path,
                 g ← liftW (makeSubstitutionGoal i); liftW (addWaitee this g))
              (λ i, [i])
              (substitutionGoals_grows this) (λ _ _ _, I)
              (λ x s1 _ H1 H2, attach_substitution this x s1 H1 H2)
              (inputSrcs (drv d)) s1 I Hwf1 Hthis1)
    as (w2 & Hrun2 & Hat2).
  destruct Hat1 as (Hgr1 & Hw1 & He1). destruct Hat2 as (Hgr2 & Hw2 & He2).
  simpl in Hgr1, Hgr2, Hw1, Hw2, He1, He2.
  pose proof (grows_trans this w0 w1 w2 Hgr1 Hgr2) as Hgr.
  destruct (proj1 (proj2 Hgr1) this _ Ht0) as (t1 & Ht1 & Hb1 & Hf1 & Hd1 & Hwe1 & _).
  destruct (proj1 (proj2 Hgr2) this _ Ht1) as (t2 & Ht2 & Hb2 & Hf2 & Hd2 & Hwe2 & _).
  set (fin := set_body (λ b, match b with
                             | IsDerivationGoal d0 =>
                                 IsDerivationGoal (set_d_state dInputsRealised d0)
                             | _ => b end)).
  exists (set_goals (alter fin this) w2), (fin t2).
  split.
  { apply (bind_run _ _ s s t); [done|].
    apply (bind_run _ _ s s d); [by apply (derivationGoal_ok this s t d)|].
    rewrite Hif.
    apply (bind_run _ _ s s0 tt); [done|].
    apply (bind_run _ _ s0 s0 s0); [done|].
    change (db s0) with (db s). rewrite bool_decide_eq_false_2 by done.
    apply (bind_run _ _ s0 s1 tt); [exact Hrun1|].
    apply (bind_run _ _ s1 (set_worker (λ _, w2) s1) tt); [exact Hrun2|].
    rewrite updDrv_run. done. }
  split; [simpl; by rewrite lookup_alter_eq, Ht2|].
  split; [subst fin; simpl; by rewrite Hf2, Hf1|].
  split; [subst fin; simpl; by rewrite Hd2, Hd1|].
  split; [subst fin; simpl; rewrite Hb2, Hb1; simpl; by rewrite Hb|].
  assert (Hfin : ∀ t0, waitees (fin t0) = waitees t0 ∧ waiters (fin t0) = waiters t0)
    by done.
  split.
  { intros i Hi. apply waitsForPath_alter; [done|done|].
    apply (waitsForPath_grows this derivationGoals i.1 w1 w2);
      [by apply (derivationGoals_grows this)|done|].
    apply Hw1. apply list_elem_of_bind. exists i. split; [by left|done]. }
  split.
  { intros p Hp. apply waitsForPath_alter; [done|done|].
    apply Hw2. apply list_elem_of_bind. exists p. split; [by left|done]. }
  assert (Hex : ∀ g, g ∈ waitees t2 →
            g ∈ waitees t ∨
            (∃ i, i ∈ inputDrvs (drv d) ∧ derivationGoals w2 !! i.1 = Some g) ∨
            (∃ p, p ∈ inputSrcs (drv d) ∧ substitutionGoals w2 !! p = Some g)).
  { intros g Hg.
    destruct (He2 t1 t2 g Ht1 Ht2 Hg) as [Hg1|(p & Hp & Hpg)].
    - destruct (He1 _ t1 g Ht0 Ht1 Hg1) as [?|(p & Hp & Hpg)]; [by left|].
      right. left. apply list_elem_of_bind in Hp as (i & Hp & Hi).
      apply list_elem_of_singleton in Hp as ->.
      exists i. split; [done|].
      apply (derivationGoals_grows this w1 w2 Hgr2); [done|].
      destruct (Hw1 i.1) as (g' & Hg' & _ & tg & _ & Htg & _).
      { apply list_elem_of_bind. exists i. split; [by left|done]. }
      assert (g' = g) as -> by congruence. eauto.
    - right. right. apply list_elem_of_bind in Hp as (i & Hp & Hi).
      apply list_elem_of_singleton in Hp as ->. by exists i. }
  split; [exact Hex|].
  split; [simpl; by transitivity (waitees t1)|].
  split.
  { simpl. intros Haw.
    apply (proj1 (proj2 (proj2 (proj2 (proj2 Hgr)))) this) in Haw; [done|eauto]. }
  split; [simpl; apply Hgr|]. split; [simpl; apply Hgr|].
  intros Hnd Hns. rewrite Hnd, Hns in *. simpl in *.
  split.
  - apply set_eq. intros g. split.
    + intros Hg. destruct (Hex g Hg) as [?|[(i & Hi & _)|(p & Hp & _)]]; [done| |].
      * by apply elem_of_nil in Hi.
      * by apply elem_of_nil in Hp.
    + intros Hg. apply Hwe2, Hwe1. done.
  - assert (E1 : w0 = w1).
    { cbv [mret M_ret] in Hrun1. by injection Hrun1. }
    assert (E2 : w1 = w2).
    { cbv [mret M_ret] in Hrun2. by injection Hrun2. }
    by rewrite <- E2, <- E1.
Qed.

(** The substitution of the source of the example derivation. *)
Lemma outputsSubstituted_waits_witness :
  waitsForPath 1 substitutionGoals "/nix/store/builder.sh"
    (worker (outputsSubstituted exG 1 exSourced).2) ∧
  (outputsSubstituted exG 1 exSourced).1 = Ok tt.
Proof.
  assert (H1 : goals (worker exSourced) !! 1%positive
               = Some (newGoal (IsDerivationGoal exSourcedGoal)))
    by (vm_compute; reflexivity).
  assert (Hwf : wfAlloc (worker exSourced)).
  { intros x [t Hx]. simpl in Hx. apply lookup_singleton_Some in Hx as [<- _].
    reflexivity. }
  destruct (proj2 (outputsSubstituted_waits exG 1 exSourced _ exSourcedGoal
                     H1 eq_refl Hwf))
    as (w' & t' & Hres & _ & _ & _ & _ & _ & Hsrc & _).
  { left. simpl. lia. }
  { vm_compute. lia. }
  rewrite Hres. simpl. split; [|reflexivity].
  apply Hsrc. simpl. apply list_elem_of_singleton. reflexivity.
Defined.

Lemma set_worker_same (s : World) : set_worker (λ _, worker s) s = s.
Proof. by destruct s. Qed.

(** X9.  How a derivation goal starts.  [DerivationGoal::init] makes the
    goal wait for the substitution goal of the derivation path, and sets
    the state [haveStoreExpr].  [haveStoreExpr], when no waitee has
    failed: it fails the assertion that the derivation path is valid
    when it is not; otherwise it loads the derivation and, when some
    output is not valid, makes the goal wait for the substitution goal
    of every invalid output that has substitutes, and of no other path.
    When this leaves the goal with waitees, it returns in the state
    [outputsSubstituted], without waking the goal up; when it leaves the
    goal without waitees, no event would wake it up, and the call goes
    on with [outputsSubstituted] at once. *)
Theorem haveStoreExpr_waits (G : Globals) (X : External) (this : GoalId)
    (s : World) (t : Goal) (d : DerivationGoal) :
  goals (worker s) !! this = Some t →
  body t = IsDerivationGoal d →
  wfAlloc (worker s) →
  (∃ w',
     DerivationGoal_init this s
     = (Ok tt, set_worker (λ _, set_goals (alter (set_body (λ b,
          match b with
          | IsDerivationGoal d0 => IsDerivationGoal (set_d_state dHaveStoreExpr d0)
          | _ => b
          end)) this) w') s) ∧
     grows this (worker s) w' ∧
     waitsForPath this substitutionGoals (drvPath d) w') ∧
  (nrFailed t = 0%Z → isValidPath (db s) (drvPath d) = false →
   haveStoreExpr G X this s = (Aborted "isValidPath(drvPath)", s)) ∧
  (nrFailed t = 0%Z → isValidPath (db s) (drvPath d) = true →
   let drv' := derivationFromPath X (fs s) (drvPath d) in
   let invalid := checkPathValidity drv' false (db s) in
   size invalid ≠ 0 →
   ∃ w' t',
     goals w' !! this = Some t' ∧
     body t' = IsDerivationGoal (set_drv drv' d) ∧
     nrFailed t' = 0%Z ∧ done t' = done t ∧
     (∀ p, p ∈ invalid → querySubstitutes (db s) p ≠ [] →
           waitsForPath this substitutionGoals p w') ∧
     (∀ g, g ∈ waitees t' →
        g ∈ waitees t ∨
        ∃ p, p ∈ invalid ∧ querySubstitutes (db s) p ≠ [] ∧
             substitutionGoals w' !! p = Some g) ∧
     (this ∈ awake w' → this ∈ awake (worker s)) ∧
     (waitees t' ≠ ∅ →
      haveStoreExpr G X this s
      = (Ok tt, set_worker (λ _, set_goals (alter (set_body (λ b,
           match b with
           | IsDerivationGoal d0 =>
               IsDerivationGoal (set_d_state dOutputsSubstituted d0)
           | _ => b
           end)) this) w') s)) ∧
     (waitees t' = ∅ →
      haveStoreExpr G X this s
      = outputsSubstituted G this (set_worker (λ _, w') s))).
Proof.
  intros Ht Hb Hwf.
  assert (Hderef : liftW (deref this) s = (Ok t, s)).
  { rewrite liftW_run. unfold deref. rewrite Ht. by destruct s. }
  split.
  { destruct (attach_substitution this (drvPath d) s Hwf (ex_intro _ _ Ht))
      as (w' & Hrun & Hgr & Hw & _).
    exists w'. split.
    - unfold DerivationGoal_init.
      apply (bind_run _ _ s s d); [by apply (derivationGoal_ok this s t d)|].
      unfold mbind, M_bind in Hrun.
      unfold mbind at 1. unfold M_bind at 1.
      destruct (liftW (makeSubstitutionGoal (drvPath d)) s) as [[g| |] s1]; try done.
      unfold mbind at 1. unfold M_bind at 1. rewrite Hrun. by rewrite updDrv_run.
    - split; [done|]. apply Hw. by left. }
  split.
  { intros Hnf Hv. unfold haveStoreExpr.
    apply (bind_run _ _ s s t); [done|].
    rewrite bool_decide_eq_true_2 by done. simpl.
    apply (bind_run _ _ s s d); [by apply (derivationGoal_ok this s t d)|].
    apply (bind_run _ _ s s s); [done|]. by rewrite Hv. }
  intros Hnf Hv drv' invalid Hinv.
  set (load := set_body (λ b, match b with
                              | IsDerivationGoal d0 => IsDerivationGoal (set_drv drv' d0)
                              | _ => b end)).
  set (w0 := set_goals (alter load this) (worker s)).
  set (s0 := set_worker (λ _, w0) s).
  assert (Ht0 : goals w0 !! this = Some (load t)).
  { subst w0. simpl. by rewrite lookup_alter_eq, Ht. }
  assert (Hb0 : body (load t) = IsDerivationGoal (set_drv drv' d)).
  { subst load. simpl. by rewrite Hb. }
  assert (Hwf0 : wfAlloc w0).
  { intros x. subst w0. simpl. rewrite lookup_alter. intros Hx. apply Hwf.
    case_decide; [subst|done]. by rewrite Ht. }
  set (key := λ i : Path,
         if bool_decide (0 < length (querySubstitutes (db s) i)) then [i] else []).
  destruct (attach_loop this substitutionGoals (λ s', db s' = db s)
              (λ i : Path,
                 s' ← get;
                 if bool_decide (0 < length (querySubstitutes (db s') i)) then
                   g ← liftW (makeSubstitutionGoal i); liftW (addWaitee this g)
                 else mret tt)
              key (substitutionGoals_grows this)) with (l := elements invalid) (s := s0)
    as (w1 & Hrun1 & Hgr1 & Hw1 & He1); [done| |done|done|eauto|].
  { intros x s' Hdb Hwf' Hthis'. unfold mbind at 1. unfold M_bind at 1.
    unfold get at 1. rewrite Hdb. subst key. simpl. case_bool_decide.
    - by apply attach_substitution.
    - exists (worker s'). rewrite set_worker_same. split; [done|].
      by apply attachedAll_nil. }
  destruct (proj1 (proj2 Hgr1) this _ Ht0) as (t1 & Ht1 & Hb1 & Hf1 & Hd1 & Hwe1 & _).
  assert (Hkey : ∀ p, p ∈ elements invalid ≫= key ↔
                      p ∈ invalid ∧ querySubstitutes (db s) p ≠ []).
  { intros p. rewrite list_elem_of_bind. subst key. split.
    - intros (i & Hp & Hi). apply elem_of_elements in Hi.
      case_bool_decide as Hlen; [|by apply elem_of_nil in Hp].
      apply list_elem_of_singleton in Hp as ->. split; [done|].
      intros E. rewrite E in Hlen. simpl in Hlen. lia.
    - intros [Hi Hq]. exists p. split; [|by apply elem_of_elements].
      rewrite bool_decide_eq_true_2; [by left|].
      destruct (querySubstitutes (db s) p); [done|simpl; lia]. }
  exists w1, t1. split; [done|]. split; [congruence|].
  split; [rewrite Hf1; subst load; simpl; done|].
  split; [rewrite Hd1; done|].
  split; [intros p Hp Hq; apply Hw1, Hkey; done|].
  split.
  { intros g Hg. destruct (He1 _ t1 g Ht0 Ht1 Hg) as [?|(p & Hp & Hpg)]; [by left|].
    right. exists p. apply Hkey in Hp as [? ?]. done. }
  split.
  { intros Haw.
    apply (proj1 (proj2 (proj2 (proj2 (proj2 Hgr1)))) this) in Haw; [done|eauto]. }
  assert (Hpre : ∀ r,
    (t1' ← liftW (deref this);
     if bool_decide (waitees t1' = ∅) then outputsSubstituted G this
     else updDrv this (set_d_state dOutputsSubstituted)) (set_worker (λ _, w1) s0) = r →
    haveStoreExpr G X this s = r).
  { intros r Hr. unfold haveStoreExpr.
    apply (bind_run _ _ s s t); [done|].
    rewrite bool_decide_eq_true_2 by done. simpl.
    apply (bind_run _ _ s s d); [by apply (derivationGoal_ok this s t d)|].
    apply (bind_run _ _ s s s); [done|]. rewrite Hv.
    apply (bind_run _ _ s s tt); [done|].
    apply (bind_run _ _ s s0 tt); [done|].
    apply (bind_run _ _ s0 s0 (set_drv drv' d));
      [by apply (derivationGoal_ok this s0 (load t))|].
    change (drv (set_drv drv' d)) with drv'. fold invalid.
    rewrite bool_decide_eq_false_2 by done.
    apply (bind_run _ _ s0 (set_worker (λ _, w1) s0) tt); [exact Hrun1|]. exact Hr. }
  assert (Hderef1 : liftW (deref this) (set_worker (λ _, w1) s0)
                    = (Ok t1, set_worker (λ _, w1) s)).
  { rewrite liftW_run. unfold deref. simpl. by rewrite Ht1. }
  split.
  - intros Hne. apply Hpre.
    apply (bind_run _ _ _ (set_worker (λ _, w1) s) t1); [done|].
    rewrite bool_decide_eq_false_2 by done. by rewrite updDrv_run.
  - intros He. apply Hpre.
    apply (bind_run _ _ _ (set_worker (λ _, w1) s) t1); [done|].
    by rewrite bool_decide_eq_true_2.
Qed.

(** The output of the example derivation has a substitute. *)
Lemma haveStoreExpr_waits_witness :
  ∃ w' t',
    goals w' !! 1%positive = Some t' ∧
    body t' = IsDerivationGoal
                (set_drv (exDrv "x86_64-linux")
                   (mkDerivationGoal "/nix/store/hello.drv"
                      (mkDerivation [] [] [] "" "" [] ∅) (mkPathLocks ∅ false)
                      ∅ ∅ (-1) "" (-1) (-1) dInit)) ∧
    waitsForPath 1 substitutionGoals "/nix/store/hello" w'.
Proof.
  assert (H1 : goals (worker exLoading) !! 1%positive
               = Some (newGoal (newDerivationGoal "/nix/store/hello.drv")))
    by (vm_compute; reflexivity).
  assert (Hwf : wfAlloc (worker exLoading)).
  { intros x [t Hx]. simpl in Hx. apply lookup_singleton_Some in Hx as [<- _].
    reflexivity. }
  destruct (proj2 (proj2 (haveStoreExpr_waits exG exLoader 1 exLoading _ _
                            H1 eq_refl Hwf)))
    as (w' & t' & Ht' & Hb' & _ & _ & Hw & _).
  { reflexivity. }
  { vm_compute. reflexivity. }
  { vm_compute. lia. }
  exists w', t'. split; [exact Ht'|]. split; [exact Hb'|].
  apply Hw.
  - by_compute.
  - vm_compute. discriminate.
Defined.

(** ** The start of a substituter *)

Lemma updSubst_run (this : GoalId) (f : SubstitutionGoal → SubstitutionGoal) (s : World) :
  updSubst this f s =
    (Ok tt, set_worker (set_goals (alter (set_body (λ b,
      match b with IsSubstitutionGoal sg => IsSubstitutionGoal (f sg) | _ => b end)) this)) s).
Proof. done. Qed.

Lemma substitutionGoal_ok (this : GoalId) (s : World) (t : Goal) (sg : SubstitutionGoal) :
  goals (worker s) !! this = Some t →
  body t = IsSubstitutionGoal sg →
  substitutionGoal this s = (Ok sg, s).
Proof.
  intros Ht Hb. unfold substitutionGoal, liftW, deref. mrun. rewrite Ht. simpl.
  rewrite Hb. simpl. by destruct s.
Qed.

(** X10.  The start of a substituter.  [SubstitutionGoal::tryToRun] on a
    live substitution goal for the path [p]: when no build slot is free,
    the goal is parked for one and nothing else happens, no lock is
    taken and no process started.  When a slot is free and [p] has
    become valid, no process is started either: the lock on [p] is
    marked for deletion and the goal is done.  Otherwise a stale [p] on
    disk is deleted before the fork; when [fork] fails, a [SysError] is
    thrown and no child is registered; when it succeeds, the substituter
    is run with the base name of the program, [p] and the arguments of
    the substitute, in the environment of the coordinator, the child is
    registered in a build slot, and the goal is in the state
    [finished], holding the lock on [p]. *)
Theorem tryToRun_outcome (G : Globals) (X : External) (this : GoalId)
    (o : SubstStart) (s : World) (t : Goal) (sg : SubstitutionGoal) :
  goals (worker s) !! this = Some t →
  body t = IsSubstitutionGoal sg →
  let p := storePath sg in
  let res := tryToRun G X this o s in
  (canBuildMore G (worker s) = false →
   res = (Ok tt, set_worker (set_wantingToBuild (λ W, {[this]} ∪ W)) s)) ∧
  (canBuildMore G (worker s) = true → isValidPath (db s) p = true →
   db res.2 = db s ∧ fs res.2 = fs s ∧
   children (worker res.2) = children (worker s) ∧
   nrChildren (worker res.2) = nrChildren (worker s) ∧
   trace res.2 = trace s ++ [EvSetDeletion {[p]} true] ∧
   (done t = false →
    (∀ x tx, x ∈ waiters t → goals (worker s) !! x = Some tx →
             isPseudo tx = true ∨ this ∈ waitees tx) →
    res.1 = Ok tt ∧
    ∃ t', goals (worker res.2) !! this = Some t' ∧ done t' = true)) ∧
  (canBuildMore G (worker s) = true → isValidPath (db s) p = false →
   let stale := pathExists (fs s) p in
   let dels := if stale then [EvDeletePath p] else [] in
   db res.2 = db s ∧
   fs res.2 = (if stale then deleteFS p (fs s) else fs s) ∧
   pathExists (fs res.2) p = false ∧
   (ss_fork o = (-1)%Z →
    res.1 = Throw (SysError "unable to fork") ∧
    trace res.2 = trace s ++ dels ∧
    children (worker res.2) = children (worker s) ∧
    nrChildren (worker res.2) = nrChildren (worker s)) ∧
   (ss_fork o ≠ (-1)%Z →
    res.1 = Ok tt ∧
    trace res.2 = trace s ++ dels ++
      [EvFork (ss_fork o)
         (mkChildProgram (sub_program (sub sg))
            (baseNameOf X (sub_program (sub sg)) :: p :: sub_args (sub sg)) None)] ∧
    children (worker res.2)
    = <[ss_fork o := mkChild this (ss_logPipe o) true]> (children (worker s)) ∧
    nrChildren (worker res.2) = wrap (nrChildren (worker s) + 1) ∧
    substSat this (λ sg', s_state sg' = sFinished ∧ s_pid sg' = ss_fork o ∧
                          s_logPipe sg' = ss_logPipe o ∧
                          outputLock sg' = Some (mkPathLocks {[p]} false) ∧
                          storePath sg' = p ∧ sub sg' = sub sg ∧ subs sg' = subs sg)
      (worker res.2))).
Proof.
  intros Ht Hb p res. subst res.
  split.
  { intros Hc. unfold tryToRun.
    apply (bind_run _ _ s s s); [done|]. rewrite Hc. simpl.
    rewrite liftW_run. unfold waitForBuildSlot. mrun. rewrite Hc. done. }
  set (lk := λ b, set_body (λ b0, match b0 with
                | IsSubstitutionGoal s0 =>
                    IsSubstitutionGoal (set_outputLock (Some (mkPathLocks {[p]} b)) s0)
                | _ => b0 end)).
  set (s1 := set_worker (set_goals (alter (lk false) this)) s).
  assert (Hpre : ∀ r,
    (if isValidPath (db s) p then
       updSubst this (set_outputLock (Some (mkPathLocks {[p]} true)));;
       emit (EvSetDeletion {[p]} true);;
       liftW (amDone G this true)
     else
       updSubst this (set_s_logPipe (ss_logPipe o));;
       (if pathExists (fs s) p then deletePath p else mret tt);;
       if bool_decide (ss_fork o = (-1)%Z) then throw (SysError "unable to fork")
       else
         emit (EvFork (ss_fork o)
                 (mkChildProgram (sub_program (sub sg))
                    (baseNameOf X (sub_program (sub sg)) :: p :: sub_args (sub sg))
                    None));;
         updSubst this (set_s_pid (ss_fork o));;
         liftW (childStarted this (ss_fork o) (ss_logPipe o) true);;
         updSubst this (set_s_state sFinished)) s1 = r →
    canBuildMore G (worker s) = true → tryToRun G X this o s = r).
  { intros r Hr Hc. unfold tryToRun.
    apply (bind_run _ _ s s s); [done|]. rewrite Hc. simpl.
    apply (bind_run _ _ s s sg); [by apply (substitutionGoal_ok this s t sg)|].
    apply (bind_run _ _ s s1 tt); [done|]. exact Hr. }
  split.
  { intros Hc Hv.
    set (s2 := set_trace (λ tr, tr ++ [EvSetDeletion {[p]} true])
                 (set_worker (set_goals (alter (lk true) this)) s1)).
    rewrite (Hpre (liftW (amDone G this true) s2)); [|by rewrite Hv|done].
    rewrite liftW_run. simpl.
    pose proof (frame_amDone G (λ w, children w = children (worker s) ∧
                                     nrChildren w = nrChildren (worker s))) as Hfr.
    destruct (Hfr (λ w w' Hcw Hnw Hk, conj (eq_trans Hcw (proj1 Hk))
                                          (eq_trans Hnw (proj2 Hk)))
                this true (worker s2)) as [Hch Hnr]; [done|].
    repeat (split; [done|]). intros Hd Hw.
    destruct (amDone_effect G this true (worker s2) (lk true (lk false t)))
      as (w1 & t1 & l & Hrun1 & _ & _ & _ & Hg1 & Hd1 & _).
    { simpl. by rewrite !lookup_alter_eq, Ht. }
    { done. }
    { intros x tx Hx. simpl. rewrite !lookup_alter.
      destruct (decide (this = x)) as [<-|Hne].
      - rewrite decide_True by done. rewrite Ht. simpl. intros [= <-]. right.
        destruct (Hw this t) as [Hps|Hin]; [done|done| |done].
        unfold isPseudo in Hps. by rewrite Hb in Hps.
      - apply Hw. done. }
    change (set_goals (alter (lk true) this)
              (set_goals (alter (lk false) this) (worker s))) with (worker s2).
    rewrite Hrun1. simpl. split; [done|]. eauto. }
  intros Hc Hv stale dels.
  set (s2 := set_worker (set_goals (alter (set_body (λ b0, match b0 with
                | IsSubstitutionGoal s0 =>
                    IsSubstitutionGoal (set_s_logPipe (ss_logPipe o) s0)
                | _ => b0 end)) this)) s1).
  set (s3 := if stale then set_trace (λ tr, tr ++ [EvDeletePath p])
                             (set_fs (deleteFS p) s2) else s2).
  assert (Hdel : (if pathExists (fs s) p then deletePath p else mret tt) s2
                 = (Ok tt, s3)).
  { subst s3 stale. by destruct (pathExists (fs s) p). }
  assert (Hfs3 : fs s3 = if stale then deleteFS p (fs s) else fs s).
  { subst s3. by destruct stale. }
  assert (Hgone : pathExists (fs s3) p = false).
  { rewrite Hfs3. subst stale. destruct (pathExists (fs s) p) eqn:E; [|done].
    apply deleteFS_under, under_refl. }
  assert (Htr3 : trace s3 = trace s ++ dels).
  { subst s3 dels. destruct stale; simpl; [done|by rewrite app_nil_r]. }
  assert (Hw3 : worker s3 = worker s2) by (subst s3; by destruct stale).
  assert (Hdb3 : db s3 = db s) by (subst s3; by destruct stale).
  destruct (decide (ss_fork o = (-1)%Z)) as [Hf|Hf].
  { rewrite (Hpre (Throw (SysError "unable to fork"), s3)); [| |done].
    2:{ rewrite Hv.
        apply (bind_run _ _ s1 s2 tt); [done|].
        apply (bind_run _ _ s2 s3 tt); [exact Hdel|].
        by rewrite bool_decide_eq_true_2. }
    simpl. split; [done|]. split; [done|]. split; [done|].
    split; [|done]. intros _. rewrite Hw3. done. }
  set (ev := EvFork (ss_fork o)
               (mkChildProgram (sub_program (sub sg))
                  (baseNameOf X (sub_program (sub sg)) :: p :: sub_args (sub sg)) None)).
  set (s4 := set_worker (set_goals (alter (set_body (λ b0, match b0 with
                | IsSubstitutionGoal s0 => IsSubstitutionGoal (set_s_pid (ss_fork o) s0)
                | _ => b0 end)) this)) (set_trace (λ tr, tr ++ [ev]) s3)).
  set (s5 := set_worker (λ _, (childStarted this (ss_fork o) (ss_logPipe o) true
                                 (worker s4)).2) s4).
  set (s6 := set_worker (set_goals (alter (set_body (λ b0, match b0 with
                | IsSubstitutionGoal s0 => IsSubstitutionGoal (set_s_state sFinished s0)
                | _ => b0 end)) this)) s5).
  rewrite (Hpre (Ok tt, s6)); [| |done].
  2:{ rewrite Hv.
      apply (bind_run _ _ s1 s2 tt); [done|].
      apply (bind_run _ _ s2 s3 tt); [exact Hdel|].
      rewrite bool_decide_eq_false_2 by done.
      apply (bind_run _ _ s3 (set_trace (λ tr, tr ++ [ev]) s3) tt); [done|].
      apply (bind_run _ _ _ s4 tt); [done|].
      apply (bind_run _ _ s4 s5 tt).
      { rewrite liftW_run. by rewrite childStarted_run. }
      done. }
  simpl. split; [done|]. split; [done|]. split; [done|].
  split; [done|]. intros _. split; [done|].
  split; [by rewrite Htr3, <- app_assoc|].
  rewrite Hw3. simpl.
  split; [done|]. split; [done|].
  unfold substSat. simpl. rewrite !lookup_alter_eq, Ht. simpl.
  eexists _, _. split; [done|]. subst lk. simpl. rewrite Hb. simpl.
  split; [done|]. done.
Qed.

(** The substituter of the example is started after the stale path has
    been removed. *)
Lemma tryToRun_outcome_witness :
  (tryToRun exG exX 1 exSubstStart exToRun).1 = Ok tt ∧
  trace (tryToRun exG exX 1 exSubstStart exToRun).2
  = [EvDeletePath "/nix/store/glibc";
     EvFork 100 (mkChildProgram "/bin/fetch"
                   ["/bin/fetch"; "/nix/store/glibc"; "--from"; "cache"] None)] ∧
  pathExists (fs (tryToRun exG exX 1 exSubstStart exToRun).2) "/nix/store/glibc"
  = false.
Proof.
  assert (H1 : goals (worker exToRun) !! 1%positive
               = Some (mkGoal ∅ ∅ 0 false
                         (IsSubstitutionGoal
                            (mkSubstitutionGoal "/nix/store/glibc" []
                               (mkSubstitute "" "/bin/fetch" ["--from"; "cache"]) ∅
                               (-1) (-1) None sTryToRun))))
    by (vm_compute; reflexivity).
  pose proof (tryToRun_outcome exG exX 1 exSubstStart exToRun _ _ H1 eq_refl) as H.
  cbv zeta in H. destruct H as (_ & _ & H).
  destruct H as (_ & _ & Hgone & _ & Hok).
  { vm_compute. reflexivity. }
  { vm_compute. reflexivity. }
  destruct Hok as (Hr & Htr & _).
  { vm_compute. discriminate. }
  split; [exact Hr|]. split; [|exact Hgone].
  rewrite Htr. vm_compute. reflexivity.
Defined.

(** ** The order of the substitutes *)

Section Tried.

Variable G : Globals.
Variable X : External.
Variable this : GoalId.
Variable φ : SubstitutionGoal → Prop.
Hypothesis φ_lock : ∀ sg v, φ sg → φ (set_outputLock v sg).
Hypothesis φ_pipe : ∀ sg v, φ sg → φ (set_s_logPipe v sg).
Hypothesis φ_pid : ∀ sg v, φ sg → φ (set_s_pid v sg).
Hypothesis φ_state : ∀ sg v, φ sg → φ (set_s_state v sg).

Local Abbreviation I := (λ s : World, substKept this φ (worker s)).

Lemma tried_updSubst (f : SubstitutionGoal → SubstitutionGoal) :
  (∀ sg, φ sg → φ (f sg)) → leads I (updSubst this f) I.
Proof.
  intros Hf s Hs.
  by apply (leads_updSubst this φ φ (db s) f Hf s (conj Hs eq_refl)).
Qed.

Lemma tried_liftW {A} (m : M Worker A) :
  leads (substKept this φ) m (substKept this φ) → leads I (liftW m) I.
Proof. intros Hm. apply leads_liftW. intros s Hs. by apply Hm. Qed.

Lemma tried_world {A} (m : M World A) :
  (∀ s, worker (m s).2 = worker s) → leads I m I.
Proof. intros H. by apply (leads_worker (substKept this φ)). Qed.

Lemma tried_childStarted g pid fd slot :
  leads (substKept this φ) (childStarted g pid fd slot) (substKept this φ).
Proof.
  intros w Hw. rewrite childStarted_run.
  apply (substKept_fields this φ w); [by destruct slot..|done].
Qed.

Lemma tried_childTerminated pid wake :
  leads (substKept this φ) (childTerminated pid wake) (substKept this φ).
Proof.
  unfold childTerminated.
  apply leads_inv; [by apply leads_same|]. intros w.
  destruct (children w !! pid) as [c|]; [|by apply leads_same].
  apply leads_inv.
  { destruct (inBuildSlot c); [|by apply leads_same].
    apply leads_inv; [by apply leads_same|]. intros _.
    intros w' Hw'. by apply (substKept_fields this φ w'). }
  intros _. apply leads_inv.
  { intros w' Hw'. by apply (substKept_fields this φ w'). }
  intros _. destruct wake; [|by apply leads_same].
  apply leads_inv.
  { apply leads_forEach. intros i _.
    apply leads_inv; [by apply leads_same|]. intros w0.
    destruct (lock w0 i); [apply leads_wakeUp|by apply leads_same]. }
  intros _. intros w' Hw'. by apply (substKept_fields this φ w').
Qed.

Local Ltac upd :=
  apply tried_updSubst; intros ? ?;
  first [by apply φ_lock|by apply φ_pipe|by apply φ_pid|by apply φ_state].

Lemma tried_tryToRun o : leads I (tryToRun G X this o) I.
Proof.
  unfold tryToRun.
  apply leads_inv; [by apply leads_same|]. intros s0.
  destruct (negb _); [apply tried_liftW, leads_waitForBuildSlot|].
  apply leads_inv; [apply leads_substitutionGoal|]. intros sg.
  apply leads_inv; [upd|]. intros _.
  destruct (isValidPath _ _).
  { apply leads_inv; [upd|]. intros _.
    apply leads_inv; [by apply tried_world|]. intros _.
    apply tried_liftW, leads_amDone. }
  apply leads_inv; [upd|]. intros _.
  apply leads_inv.
  { destruct (pathExists _ _); [by apply tried_world|by apply leads_same]. }
  intros _. case_bool_decide; [by apply leads_same|].
  apply leads_inv; [by apply tried_world|]. intros _.
  apply leads_inv; [upd|]. intros _.
  apply leads_inv; [apply tried_liftW, tried_childStarted|]. intros _.
  upd.
Qed.

Lemma tried_finished status : leads I (finished G X this status) I.
Proof.
  unfold finished.
  apply leads_inv; [apply leads_substitutionGoal|]. intros sg.
  apply leads_inv; [upd|]. intros _.
  apply leads_inv; [apply tried_liftW, tried_childTerminated|]. intros _.
  apply leads_inv; [upd|]. intros _.
  apply leads_inv.
  { apply (leads_catchSubstError _ I); [|done|].
    - destruct (negb _); [by apply leads_same|].
      apply leads_inv; [by apply leads_same|]. intros s.
      destruct (negb _); by apply leads_same.
    - intros msg. apply leads_inv; [upd|].
      intros _. apply leads_inv; [apply tried_liftW, leads_wakeUp|].
      intros _. by apply leads_same. }
  intros [|]; [by apply leads_same|].
  apply leads_inv; [by apply tried_world|]. intros _.
  apply leads_inv; [by apply leads_same|]. intros s.
  apply leads_inv; [by apply tried_world|]. intros _.
  apply leads_inv; [by apply tried_world|]. intros _.
  apply leads_inv; [by apply tried_world|]. intros _.
  apply leads_inv; [apply leads_substitutionGoal|]. intros sg1.
  apply leads_inv; [upd|]. intros _.
  apply leads_inv; [by apply tried_world|]. intros _.
  apply tried_liftW, leads_amDone.
Qed.

End Tried.


(** ** A builder that leaves an output out *)

(** [deleteTmpDir] on a live derivation goal. *)
Lemma deleteTmpDir_run (G : Globals) (this : GoalId) (force : bool) (s : World)
    (t : Goal) (d : DerivationGoal) :
  goals (worker s) !! this = Some t →
  body t = IsDerivationGoal d →
  deleteTmpDir G this force s =
    (Ok tt,
     if bool_decide (tmpDir d = "") then s
     else (updDrv this (set_tmpDir "")
             (if keepFailed G && negb force then s
              else (deletePath (tmpDir d) s).2)).2).
Proof.
  intros Ht Hb. unfold deleteTmpDir.
  apply (bind_run _ _ s s d); [by apply (derivationGoal_ok this s t d)|].
  case_bool_decide; [done|].
  by destruct (keepFailed G && negb force).
Qed.

Lemma scanOutput_missing (X : External) (d : DerivationGoal)
    (o : string * DerivationOutput) acc (s : World) :
  pathExists (fs s) (path o.2) = false →
  scanOutput X d o acc s
  = (Throw (BuildError ("builder for `" +:+ drvPath d +:+
                        "' failed to produce output path `" +:+ path o.2 +:+ "'")), s).
Proof.
  intros He. unfold scanOutput.
  apply (bind_run _ _ s s s); [done|]. by rewrite He.
Qed.

Lemma updDrv_this (this : GoalId) (f : DerivationGoal → DerivationGoal) (s : World)
    (t : Goal) (d : DerivationGoal) :
  goals (worker s) !! this = Some (set_body (λ _, IsDerivationGoal d) t) →
  goals (worker (updDrv this f s).2) !! this
  = Some (set_body (λ _, IsDerivationGoal (f d)) t).
Proof. intros H. simpl. by rewrite lookup_alter_eq, H. Qed.

Lemma updDrv_other (this x : GoalId) (f : DerivationGoal → DerivationGoal) (s : World) :
  x ≠ this → goals (worker (updDrv this f s).2) !! x = goals (worker s) !! x.
Proof. intros H. simpl. by rewrite lookup_alter_ne. Qed.



(** ** A derivation for another platform *)

(** [prepareBuild] changes the goal through assignments to its locks and
    path sets only. *)
Lemma prepareBuild_keeps (X : External) (I : World → Prop) this :
  (∀ f, (∀ d, drv (f d) = drv d ∧ drvPath (f d) = drvPath d) →
        leads I (updDrv this f) I) →
  (∀ l b, leads I (emit (EvSetDeletion l b)) I) →
  leads I (prepareBuild X this) I.
Proof.
  intros Hu He. unfold prepareBuild.
  assert (Hsd : ∀ b, leads I (setDeletion this b) I).
  { intros b. unfold setDeletion.
    apply leads_inv; [by apply Hu|]. intros _.
    apply leads_inv.
    - apply leads_same. intros s. rewrite liftW_run. unfold deref.
      destruct (goals (worker s) !! this); simpl; by destruct s.
    - intros t. destruct (body t); try apply He; by apply leads_same. }
  apply leads_inv; [apply derivationGoal_leads|]. intros d.
  apply leads_inv; [by apply Hu|]. intros _.
  apply leads_inv; [by apply leads_same|]. intros s.
  case_bool_decide.
  { apply leads_inv; [apply Hsd|]. intros _. by apply leads_same. }
  case_bool_decide; [by apply leads_same|].
  apply leads_inv.
  { apply leads_forEach. intros i _. by apply Hu. }
  intros _. apply leads_inv.
  { apply leads_forEach. intros i _.
    apply leads_inv; [by apply leads_same|]. intros s1.
    apply leads_inv; [by apply leads_same|].
    intros _. apply leads_forEach. intros j _.
    destruct (findOutput j _); [by apply Hu|by apply leads_same]. }
  intros _. apply leads_inv; [by apply Hu|].
  intros _. apply leads_inv.
  { apply leads_forEach. intros i _.
    apply leads_inv; [by apply leads_same|]. intros s1. by apply Hu. }
  intros _. by apply leads_same.
Qed.



(** ** The references of a substitution goal are realised first *)

Lemma updSubst_this (this : GoalId) (f : SubstitutionGoal → SubstitutionGoal)
    (s : World) (t : Goal) (sg : SubstitutionGoal) :
  goals (worker s) !! this = Some (set_body (λ _, IsSubstitutionGoal sg) t) →
  goals (worker (updSubst this f s).2) !! this
  = Some (set_body (λ _, IsSubstitutionGoal (f sg)) t).
Proof. intros H. simpl. by rewrite lookup_alter_eq, H. Qed.



(** ** The build directory of a failed build *)

(** What [amDone] and the calls of [waiteeDone] it makes can change in
    the worker: the goals, the goals that are awake, the top-level goals
    and the history of the calls.  They keep every property [K] that
    such changes keep. *)
Section Notify.

Variable G : Globals.
Variable K : Worker → Prop.
Hypothesis K_goals : ∀ f w, K w → K (set_goals f w).
Hypothesis K_awake : ∀ g w, K w → K (set_awake (λ s, {[g]} ∪ s) w).
Hypothesis K_notified : ∀ f w, K w → K (set_notified f w).
Hypothesis K_topGoals : ∀ f w, K w → K (set_topGoals f w).

Lemma notify_updGoal (x : GoalId) (f : Goal → Goal) : leads K (updGoal x f) K.
Proof. intros w Hw. by apply K_goals. Qed.

Lemma notify_deref (x : GoalId) : leads K (deref x) K.
Proof. apply leads_same. intros w. unfold deref. by destruct (goals w !! x). Qed.

Lemma notify_wakeUp (x : GoalId) : leads K (wakeUp x) K.
Proof. intros w Hw. by apply K_awake. Qed.

Lemma notify_Goal_waiteeDone (x g : GoalId) (b : bool) :
  leads K (Goal_waiteeDone G x g b) K.
Proof.
  unfold Goal_waiteeDone.
  apply leads_inv; [apply notify_deref|]. intros t.
  apply leads_inv; [by apply leads_same|]. intros _.
  apply leads_inv; [apply notify_updGoal|]. intros _.
  apply leads_inv.
  { destruct b; [by apply leads_same|apply notify_updGoal]. }
  intros _. apply leads_inv; [apply notify_deref|]. intros t1.
  destruct (_ || _); [|by apply leads_same].
  apply leads_inv.
  { apply leads_forEach. intros r _.
    apply leads_inv; [by apply leads_same|]. intros w0. apply notify_updGoal. }
  intros _. apply leads_inv; [apply notify_updGoal|]. intros _.
  apply notify_wakeUp.
Qed.

Lemma notify_waiteeDone (x g : GoalId) (b : bool) : leads K (waiteeDone G x g b) K.
Proof.
  unfold waiteeDone.
  apply leads_inv; [apply notify_deref|]. intros t.
  apply leads_inv; [intros w Hw; by apply K_notified|].
  intros _. destruct (body t); try apply notify_Goal_waiteeDone.
  unfold PseudoGoal_waiteeDone. destruct b; [by apply leads_same|].
  apply notify_updGoal.
Qed.

Lemma notify_amDone (g : GoalId) (b : bool) : leads K (amDone G g b) K.
Proof.
  unfold amDone.
  apply leads_inv; [apply notify_deref|]. intros t.
  apply leads_inv; [by apply leads_same|]. intros _.
  apply leads_inv; [apply notify_updGoal|]. intros _.
  apply leads_inv.
  { apply leads_forEach. intros i _.
    apply leads_inv; [by apply leads_same|]. intros w0.
    destruct (lock w0 i); [apply notify_waiteeDone|by apply leads_same]. }
  intros _. apply leads_inv; [apply notify_updGoal|]. intros _.
  intros w Hw. by apply K_topGoals.
Qed.

End Notify.

(** [amDone] neither registers nor removes a child, parks no goal, and
    puts no goal back to sleep. *)
Lemma amDone_scheduling (G : Globals) (g : GoalId) (b : bool) (w : Worker) :
  children (amDone G g b w).2 = children w ∧
  nrChildren (amDone G g b w).2 = nrChildren w ∧
  wantingToBuild (amDone G g b w).2 = wantingToBuild w ∧
  awake w ⊆ awake (amDone G g b w).2.
Proof.
  apply (notify_amDone G (λ w', children w' = children w ∧
                                nrChildren w' = nrChildren w ∧
                                wantingToBuild w' = wantingToBuild w ∧
                                awake w ⊆ awake w')); [done| |done|done|].
  - intros x w' (? & ? & ? & Ha). repeat (split; [done|]). simpl.
    intros y Hy. apply elem_of_union_r. by apply Ha.
  - by repeat split.
Qed.



(** ** A derivation goal whose waitees have failed *)



(** ** The replies of the build hook *)

(** [openLogFile] on a live derivation goal, when the log file can be
    created. *)
Lemma openLogFile_run (G : Globals) (X : External) (this : GoalId) (fd pipe : Z)
    (s : World) (t : Goal) (d : DerivationGoal) :
  goals (worker s) !! this = Some t →
  body t = IsDerivationGoal d →
  fd ≠ (-1)%Z →
  openLogFile G X this fd pipe s =
    (Ok tt,
     (updDrv this (set_d_logPipe pipe)
        (updDrv this (set_fdLogFile fd)
           (set_fs <[nixLogDir G +:+ "/" +:+ baseNameOf X (drvPath d)
                     := mkInode Regular 438 (geteuid X) 0 ""]> s)).2).2).
Proof.
  intros Ht Hb Hfd. unfold openLogFile.
  apply (bind_run _ _ s s d); [by apply (derivationGoal_ok this s t d)|].
  by rewrite bool_decide_eq_false_2.
Qed.

(** X17.  The replies of the build hook.  [tryBuildHook] on a live
    derivation goal: without a hook it declines and changes nothing.
    With a hook, when the log file can be made and the fork succeeds,
    the hook is run with the flag that says whether a build slot is
    free, the platform of this system, the platform of the derivation
    and the derivation path, and its child is registered outside the
    build slots.  When the hook answers [decline] or [postpone], the
    child is reaped at once: the children and the build slots are as
    before, the directory made for the hook is deleted, and the members
    of the goal that named the child, the directory, the log file and
    the pipe are reset.  Any answer other than [decline], [postpone] and
    [accept] is an [Error], and an exception raised while the answer is
    read goes on; in both cases the child of the hook stays
    registered. *)
Theorem tryBuildHook_replies (G : Globals) (X : External) (this : GoalId)
    (o : HookStart) (s : World) (t : Goal) (d : DerivationGoal) :
  goals (worker s) !! this = Some t →
  body t = IsDerivationGoal d →
  let res := tryBuildHook G X this o s in
  let hook := absPath X (getEnv X "NIX_BUILD_HOOK") in
  let ev := EvFork (hs_fork o)
              (mkChildProgram hook
                 [hook; if canBuildMore G (worker s) then "1" else "0";
                  thisSystem G; platform (drv d); drvPath d] None) in
  let started := <[hs_fork o := mkChild this (hs_logPipe o) false]>
                   (children (worker s)) in
  (getEnv X "NIX_BUILD_HOOK" = "" → res = (Ok rpDecline, s)) ∧
  (getEnv X "NIX_BUILD_HOOK" ≠ "" → hs_logFile o ≠ (-1)%Z →
   hs_fork o ≠ (-1)%Z →
   nrChildren (worker res.2) = nrChildren (worker s) ∧
   (∀ reply, hs_reply o = inr reply →
      reply = "decline" ∨ reply = "postpone" →
      hs_tmpDir o ≠ "" →
      children (worker s) !! hs_fork o = None →
      res.1 = Ok (if bool_decide (reply = "decline") then rpDecline else rpPostpone) ∧
      children (worker res.2) = children (worker s) ∧
      trace res.2 = trace s ++ [ev; EvDeletePath (hs_tmpDir o)] ∧
      pathExists (fs res.2) (hs_tmpDir o) = false ∧
      drvSat this (λ d', d_pid d' = (-1)%Z ∧ tmpDir d' = "" ∧
                         fdLogFile d' = (-1)%Z ∧ d_logPipe d' = (-1)%Z ∧
                         drv d' = drv d ∧ d_state d' = d_state d)
        (worker res.2)) ∧
   (∀ reply, hs_reply o = inr reply →
      reply ≠ "decline" → reply ≠ "postpone" → reply ≠ "accept" →
      res.1 = Throw (Error ("bad hook reply `" +:+ reply +:+ "'")) ∧
      children (worker res.2) = started ∧
      trace res.2 = trace s ++ [ev]) ∧
   (∀ e, hs_reply o = inl e →
      res.1 = Throw e ∧ children (worker res.2) = started ∧
      trace res.2 = trace s ++ [ev])).
Proof.
  intros Ht Hb res hook ev started. subst res.
  split.
  { intros Hh. unfold tryBuildHook. by rewrite bool_decide_eq_true_2. }
  intros Hh Hlog Hfork.
  set (s1 := (updDrv this (set_tmpDir (hs_tmpDir o))
                (createTempDir X (hs_tmpDir o) s).2).2).
  set (d1 := set_tmpDir (hs_tmpDir o) d).
  assert (Ht0 : goals (worker s) !! this = Some (set_body (λ _, IsDerivationGoal d) t)).
  { by rewrite (set_body_same t _ Hb). }
  assert (Ht1 : goals (worker s1) !! this = Some (set_body (λ _, IsDerivationGoal d1) t)).
  { subst s1. by apply updDrv_this. }
  set (s2 := (updDrv this (set_d_logPipe (hs_logPipe o))
                (updDrv this (set_fdLogFile (hs_logFile o))
                   (set_fs <[nixLogDir G +:+ "/" +:+ baseNameOf X (drvPath d)
                             := mkInode Regular 438 (geteuid X) 0 ""]> s1)).2).2).
  assert (Hopen : openLogFile G X this (hs_logFile o) (hs_logPipe o) s1 = (Ok tt, s2)).
  { by rewrite (openLogFile_run G X this _ _ s1 _ d1 Ht1 eq_refl Hlog). }
  set (d2 := set_d_logPipe (hs_logPipe o) (set_fdLogFile (hs_logFile o) d1)).
  assert (Ht2 : goals (worker s2) !! this = Some (set_body (λ _, IsDerivationGoal d2) t)).
  { subst s2. by apply updDrv_this, updDrv_this. }
  set (s3 := (updDrv this (set_d_pid (hs_fork o))
                (set_trace (λ tr, tr ++ [ev]) s2)).2).
  set (d3 := set_d_pid (hs_fork o) d2).
  assert (Ht3 : goals (worker s3) !! this = Some (set_body (λ _, IsDerivationGoal d3) t)).
  { subst s3. by apply updDrv_this. }
  set (s4 := set_worker (λ _, (childStarted this (hs_fork o) (hs_logPipe o) false
                                 (worker s3)).2) s3).
  assert (Hpre : ∀ r,
    match hs_reply o with
    | inl e => throw e
    | inr reply =>
      if bool_decide (reply = "decline") || bool_decide (reply = "postpone") then
        terminateBuildHook G this;;
        mret (if bool_decide (reply = "decline") then rpDecline else rpPostpone)
      else if bool_decide (reply = "accept") then
        ready ← prepareBuild X this;
        if negb ready then terminateBuildHook G this;; mret rpDone
        else
          d ← derivationGoal this;
          s ← get;
          writeStringToFile (geteuid X) (tmpDir d +:+ "/inputs")
            (foldr (λ p acc, p +:+ "
" +:+ acc)
               (foldr (λ i acc, i.1 +:+ "
" +:+ acc) "" (inputDrvs (drv d)))
               (elements (inputPaths d)));;
          writeStringToFile (geteuid X) (tmpDir d +:+ "/outputs")
            (foldr (λ i acc, path i.2 +:+ "
" +:+ acc) "" (outputs (drv d)));;
          writeStringToFile (geteuid X) (tmpDir d +:+ "/references")
            (foldr (λ p acc,
               p +:+ foldr (λ r acc', " " +:+ r +:+ acc') ""
                       (elements (queryReferences (db s) p)) +:+ "
" +:+ acc) "" (elements (inputPaths d)));;
          mret rpAccept
      else throw (Error ("bad hook reply `" +:+ reply +:+ "'"))
    end s4 = r →
    tryBuildHook G X this o s = r).
  { intros r Hr. unfold tryBuildHook.
    rewrite bool_decide_eq_false_2 by done.
    apply (bind_run _ _ s (createTempDir X (hs_tmpDir o) s).2 (hs_tmpDir o)); [done|].
    apply (bind_run _ _ _ s1 tt); [done|].
    apply (bind_run _ _ s1 s2 tt); [exact Hopen|].
    rewrite bool_decide_eq_false_2 by done.
    apply (bind_run _ _ s2 s2 s2); [done|].
    apply (bind_run _ _ s2 s2 d2); [by apply (derivationGoal_ok this s2 _ d2 Ht2)|].
    change (canBuildMore G (worker s2)) with (canBuildMore G (worker s)).
    apply (bind_run _ _ s2 (set_trace (λ tr, tr ++ [ev]) s2) tt); [done|].
    apply (bind_run _ _ _ s3 tt); [done|].
    apply (bind_run _ _ s3 s4 tt); [|exact Hr].
    rewrite liftW_run. by rewrite childStarted_run. }
  assert (Hc4 : children (worker s4) = started).
  { done. }
  assert (Hn4 : nrChildren (worker s4) = nrChildren (worker s)).
  { done. }
  assert (Htr4 : trace s4 = trace s ++ [ev]).
  { done. }
  assert (Hslots : nrChildren (worker (tryBuildHook G X this o s).2)
                   = nrChildren (worker s)).
  { by apply (tryBuildHook_slots G X (λ _, True) (nrChildren (worker s)) this o
                (λ _ _ _, I) (λ _ _ _ _ _, I) s). }
  split; [exact Hslots|].
  split; [|split].
  - intros reply Hreply Hdp Htmp Hfresh.
    set (rp := if bool_decide (reply = "decline") then rpDecline else rpPostpone).
    assert (Ht4 : goals (worker s4) !! this
                  = Some (set_body (λ _, IsDerivationGoal d3) t)) by exact Ht3.
    set (s5 := (updDrv this (set_d_pid (-1)) s4).2).
    set (c := mkChild this (hs_logPipe o) false).
    assert (Hct : childTerminated (hs_fork o) false (worker s5)
                  = (Ok tt, set_children (delete (hs_fork o)) (worker s5))).
    { rewrite (childTerminated_run (hs_fork o) false (worker s5) c); [done| |done].
      change (children (worker s5)) with (children (worker s4)).
      rewrite Hc4. subst started. by rewrite lookup_insert_eq. }
    set (s6 := set_worker (λ _, set_children (delete (hs_fork o)) (worker s5)) s5).
    set (s8 := (updDrv this (set_d_logPipe (-1))
                  (updDrv this (set_fdLogFile (-1)) s6).2).2).
    set (d8 := set_d_logPipe (-1) (set_fdLogFile (-1) (set_d_pid (-1) d3))).
    assert (Ht8 : goals (worker s8) !! this
                  = Some (set_body (λ _, IsDerivationGoal d8) t)).
    { assert (Ht5 : goals (worker s5) !! this
                    = Some (set_body (λ _, IsDerivationGoal (set_d_pid (-1) d3)) t)).
      { subst s5. by apply updDrv_this. }
      assert (Ht6 : goals (worker s6) !! this
                    = Some (set_body (λ _, IsDerivationGoal (set_d_pid (-1) d3)) t))
        by exact Ht5.
      subst s8. by apply updDrv_this, updDrv_this. }
    set (s9 := (updDrv this (set_tmpDir "") (deletePath (hs_tmpDir o) s8).2).2).
    assert (Hdel : deleteTmpDir G this true s8 = (Ok tt, s9)).
    { rewrite (deleteTmpDir_run G this true s8 _ d8 Ht8 eq_refl).
      change (tmpDir d8) with (hs_tmpDir o).
      rewrite bool_decide_eq_false_2 by done. by rewrite andb_false_r. }
    assert (Hterm : terminateBuildHook G this s4 = (Ok tt, s9)).
    { unfold terminateBuildHook.
      apply (bind_run _ _ s4 s4 d3); [by apply (derivationGoal_ok this s4 _ d3 Ht4)|].
      apply (bind_run _ _ s4 s5 tt); [done|].
      apply (bind_run _ _ s5 s6 tt).
      { rewrite liftW_run. change (d_pid d3) with (hs_fork o). by rewrite Hct. }
      apply (bind_run _ _ s6 (updDrv this (set_fdLogFile (-1)) s6).2 tt); [done|].
      apply (bind_run _ _ _ s8 tt); [done|]. exact Hdel. }
    rewrite (Hpre (Ok rp, s9)).
    2:{ rewrite Hreply.
        assert (bool_decide (reply = "decline") || bool_decide (reply = "postpone")
                = true) as ->.
        { destruct Hdp as [->| ->]; [done|].
          rewrite (bool_decide_eq_true_2 ("postpone" = "postpone")) by done.
          by rewrite orb_true_r. }
        apply (bind_run _ _ s4 s9 tt); [exact Hterm|]. done. }
    cbn [fst snd]. split; [done|]. split.
    { change (children (worker s9)) with (delete (hs_fork o) (children (worker s4))).
      rewrite Hc4. subst started. by apply delete_insert_id. }
    split.
    { change (trace s9) with (trace s4 ++ [EvDeletePath (hs_tmpDir o)]).
      rewrite Htr4. by rewrite <- app_assoc. }
    split.
    { change (fs s9) with (deleteFS (hs_tmpDir o) (fs s8)).
      apply deleteFS_under, under_refl. }
    unfold drvSat.
    assert (Ht9 : goals (worker s9) !! this
                  = Some (set_body (λ _, IsDerivationGoal (set_tmpDir "" d8)) t)).
    { subst s9. apply updDrv_this. by rewrite worker_deletePath. }
    rewrite Ht9. eexists _, _. split; [done|]. split; [done|]. done.
  - intros reply Hreply H1 H2 H3.
    rewrite (Hpre (Throw (Error ("bad hook reply `" +:+ reply +:+ "'")), s4)).
    + done.
    + rewrite Hreply. by rewrite !bool_decide_eq_false_2.
  - intros e Hreply. rewrite (Hpre (Throw e, s4)); [done|]. by rewrite Hreply.
Qed.

(** The hook of the example postpones the build. *)
Lemma tryBuildHook_replies_witness :
  (tryBuildHook exG exX 1 exHook
     (exWorld (exDrvGoal (exDrv "x86_64-linux")) (exDB []) ∅)).1 = Ok rpPostpone ∧
  children (worker (tryBuildHook exG exX 1 exHook
     (exWorld (exDrvGoal (exDrv "x86_64-linux")) (exDB []) ∅)).2) = ∅ ∧
  pathExists (fs (tryBuildHook exG exX 1 exHook
     (exWorld (exDrvGoal (exDrv "x86_64-linux")) (exDB []) ∅)).2) "/tmp/nix-2" = false.
Proof.
  set (s := exWorld (exDrvGoal (exDrv "x86_64-linux")) (exDB []) ∅).
  assert (H1 : goals (worker s) !! 1%positive = Some (exDrvGoal (exDrv "x86_64-linux")))
    by (vm_compute; reflexivity).
  pose proof (tryBuildHook_replies exG exX 1 exHook s _ _ H1 eq_refl) as H.
  cbv zeta in H. destruct H as [_ H].
  destruct H as (_ & H & _).
  { by_compute. }
  { by_compute. }
  { by_compute. }
  destruct (H "postpone") as (Hr & Hc & _ & Hfs & _).
  - reflexivity.
  - by right.
  - by_compute.
  - reflexivity.
  - split; [exact Hr|]. split; [exact Hc|exact Hfs].
Defined.

(** ** Outputs that are valid already *)

Lemma filter_length_all {A} (P : A → Prop) `{∀ x, Decision (P x)} (l : list A) :
  length (filter P l) = length l ↔ Forall P l.
Proof.
  induction l as [|x l IH]; [by split|].
  rewrite filter_cons. destruct (decide (P x)) as [Hx|Hx]; simpl.
  - rewrite Forall_cons. split.
    + intros [= Hl]. split; [done|]. by apply IH.
    + intros [_ Hl]. f_equal. by apply IH.
  - split.
    + intros Hl. pose proof (length_filter P l). lia.
    + intros [? _]%Forall_cons. done.
Qed.

Lemma checkPathValidity_size (dr : Derivation) (b : bool) (D : DB) :
  NoDup ((λ i, path i.2) <$> outputs dr) →
  size (checkPathValidity dr b D)
  = length (filter (λ p, isValidPath D p = b) ((λ i, path i.2) <$> outputs dr)).
Proof.
  intros Hnd. unfold checkPathValidity.
  rewrite size_list_to_set; [done|]. by apply NoDup_filter.
Qed.

Lemma deref_run (this : GoalId) (s : World) (t : Goal) :
  goals (worker s) !! this = Some t → liftW (deref this) s = (Ok t, s).
Proof. intros Ht. rewrite liftW_run. unfold deref. rewrite Ht. by destruct s. Qed.

(** X18.  Outputs that are valid already.  The valid and the invalid
    output paths of a derivation, as [checkPathValidity] returns them,
    are disjoint and make up its output paths.  [prepareBuild] on a live
    derivation goal whose outputs have distinct paths takes the locks on
    the output paths first; when every output is valid it returns false
    (there is nothing to build) after marking the locks for deletion;
    when some outputs are valid and others are not it throws an [Error]
    that says that the derivation is blocked by its output paths, still
    holding the locks; in both cases the store and the file system are
    as before. *)
Theorem prepareBuild_valid_outputs (X : External) (this : GoalId) (s : World)
    (t : Goal) (d : DerivationGoal) :
  goals (worker s) !! this = Some t →
  body t = IsDerivationGoal d →
  NoDup ((λ i, path i.2) <$> outputs (drv d)) →
  let outs := outputs (drv d) in
  let res := prepareBuild X this s in
  let locked := set_outputLocks (mkPathLocks (outputPaths outs)
                                   (deletePaths (outputLocks d))) d in
  (checkPathValidity (drv d) true (db s) ∪ checkPathValidity (drv d) false (db s)
   = outputPaths outs ∧
   checkPathValidity (drv d) true (db s) ## checkPathValidity (drv d) false (db s)) ∧
  (Forall (λ i, isValidPath (db s) (path i.2) = true) outs →
   res.1 = Ok false ∧ db res.2 = db s ∧ fs res.2 = fs s ∧
   trace res.2 = trace s ++ [EvSetDeletion (outputPaths outs) true] ∧
   drvSat this (λ d', d' = set_outputLocks (mkPathLocks (outputPaths outs) true) d)
     (worker res.2)) ∧
  (Exists (λ i, isValidPath (db s) (path i.2) = true) outs →
   Exists (λ i, isValidPath (db s) (path i.2) = false) outs →
   res.1 = Throw (Error ("derivation `" +:+ drvPath d +:+
                         "' is blocked by its output paths")) ∧
   db res.2 = db s ∧ fs res.2 = fs s ∧ trace res.2 = trace s ∧
   drvSat this (λ d', d' = locked) (worker res.2)).
Proof.
  intros Ht Hb Hnd outs res locked. subst res.
  split.
  { unfold checkPathValidity, outputPaths. fold outs. split.
    - apply set_eq. intros p.
      rewrite elem_of_union, !elem_of_list_to_set, !list_elem_of_filter.
      destruct (isValidPath (db s) p); intuition congruence.
    - intros p. rewrite !elem_of_list_to_set, !list_elem_of_filter.
      intros [H1 _] [H2 _]. congruence. }
  assert (Ht0 : goals (worker s) !! this = Some (set_body (λ _, IsDerivationGoal d) t)).
  { by rewrite (set_body_same t _ Hb). }
  set (s1 := (updDrv this (set_outputLocks (mkPathLocks (outputPaths outs)
                             (deletePaths (outputLocks d)))) s).2).
  assert (Ht1 : goals (worker s1) !! this
                = Some (set_body (λ _, IsDerivationGoal locked) t)).
  { subst s1. by apply updDrv_this. }
  assert (Hpre : ∀ r,
    (if bool_decide (size (checkPathValidity (drv d) true (db s)) = length outs) then
       setDeletion this true;; mret false
     else if bool_decide (0 < size (checkPathValidity (drv d) true (db s))) then
       throw (Error ("derivation `" +:+ drvPath d +:+ "' is blocked by its output paths"))
     else mret true) s1 = r →
    (r.1 ≠ Ok true) →
    prepareBuild X this s = r).
  { intros r Hr Hne. unfold prepareBuild.
    apply (bind_run _ _ s s d); [by apply (derivationGoal_ok this s t d)|].
    apply (bind_run _ _ s s1 tt); [done|].
    apply (bind_run _ _ s1 s1 s1); [done|].
    change (db s1) with (db s). fold outs. rewrite <- Hr.
    case_bool_decide; [done|]. case_bool_decide; [done|].
    rewrite <- Hr in Hne. simpl in Hne. done. }
  pose proof (checkPathValidity_size (drv d) true (db s) Hnd) as Hsize.
  assert (Hlen : length ((λ i, path i.2) <$> outs) = length outs)
    by apply length_fmap.
  split.
  - intros Hall.
    assert (Heq : size (checkPathValidity (drv d) true (db s)) = length outs).
    { rewrite Hsize, <- Hlen. apply filter_length_all.
      apply Forall_fmap. exact Hall. }
    set (s2 := (updDrv this (λ d0, set_outputLocks
                  (mkPathLocks (lockedPaths (outputLocks d0)) true) d0) s1).2).
    assert (Ht2 : goals (worker s2) !! this
                  = Some (set_body (λ _, IsDerivationGoal
                      (set_outputLocks (mkPathLocks (outputPaths outs) true) locked)) t)).
    { subst s2.
      pose proof (updDrv_this this (λ d0, set_outputLocks
                    (mkPathLocks (lockedPaths (outputLocks d0)) true) d0)
                    s1 t locked Ht1) as H2.
      rewrite H2. done. }
    rewrite (Hpre (Ok false, set_trace (λ tr, tr ++ [EvSetDeletion (outputPaths outs) true])
                               s2)).
    + cbn [fst snd]. repeat (split; [done|]).
      unfold drvSat. change (worker (set_trace _ s2)) with (worker s2).
      rewrite Ht2. eexists _, _. split; [done|]. split; [done|]. done.
    + rewrite bool_decide_eq_true_2 by done.
      apply (bind_run _ _ s1 (set_trace (λ tr, tr ++ [EvSetDeletion (outputPaths outs) true])
                                s2) tt); [|done].
      unfold setDeletion.
      apply (bind_run _ _ s1 s2 tt); [done|].
      apply (bind_run _ _ s2 s2 (set_body (λ _, IsDerivationGoal
               (set_outputLocks (mkPathLocks (outputPaths outs) true) locked)) t)).
      { by apply deref_run. }
      done.
    + done.
  - intros Hsome Hnot.
    assert (Hlt : size (checkPathValidity (drv d) true (db s)) ≠ length outs).
    { rewrite Hsize, <- Hlen. intros Heq. apply filter_length_all in Heq.
      apply Forall_fmap in Heq. apply Exists_exists in Hnot as (i & Hi & Hinv).
      rewrite Forall_forall in Heq. specialize (Heq i Hi). simpl in Heq. congruence. }
    assert (Hpos : 0 < size (checkPathValidity (drv d) true (db s))).
    { apply Exists_exists in Hsome as (i & Hi & Hv).
      assert (Hin : path i.2 ∈ checkPathValidity (drv d) true (db s)).
      { unfold checkPathValidity. apply elem_of_list_to_set, list_elem_of_filter.
        split; [done|]. apply list_elem_of_fmap. by exists i. }
      destruct (decide (size (checkPathValidity (drv d) true (db s)) = 0)) as [Hz|]; [|lia].
      apply size_empty_inv in Hz. set_solver. }
    rewrite (Hpre (Throw (Error ("derivation `" +:+ drvPath d +:+
                                 "' is blocked by its output paths")), s1)).
    + cbn [fst snd]. repeat (split; [done|]).
      unfold drvSat. rewrite Ht1. eexists _, _. split; [done|]. split; done.
    + rewrite bool_decide_eq_false_2 by done. by rewrite bool_decide_eq_true_2.
    + done.
Qed.

(** The example whose only output is valid: there is nothing to build. *)
Lemma prepareBuild_valid_outputs_witness :
  (prepareBuild exX 1 exObstructed).1 = Ok false ∧
  trace (prepareBuild exX 1 exObstructed).2
  = trace exObstructed
    ++ [EvSetDeletion (outputPaths (outputs (exDrv "i686-linux"))) true].
Proof.
  assert (H1 : goals (worker exObstructed) !! 1%positive
               = Some (exDrvGoal (exDrv "i686-linux")))
    by (vm_compute; reflexivity).
  assert (Hnd : NoDup ((λ i : Path * DerivationOutput, path i.2)
                         <$> outputs (exDrv "i686-linux")))
    by apply NoDup_singleton.
  pose proof (prepareBuild_valid_outputs exX 1 exObstructed _ _ H1 eq_refl Hnd) as H.
  cbv zeta in H.
  destruct H as (_ & Hall & _).
  destruct Hall as (Hr & _ & _ & Htr & _).
  { repeat constructor. }
  split; [exact Hr | exact Htr].
Defined.

(** ** The list of paths of a message *)

Lemma showPaths_from (acc : string) (ps : list Path) :
  String.length acc ≠ 0 →
  foldl (λ s i, (if bool_decide (String.length s ≠ 0) then s +:+ ", " else s)
                +:+ ("`" +:+ i +:+ "'")) acc ps
  = acc +:+ foldr (λ q r, ", " +:+ ("`" +:+ q +:+ "'") +:+ r) "" ps.
Proof.
  revert acc. induction ps as [|p ps IH]; intros acc Hacc.
  - simpl. by rewrite append_nil_r.
  - cbn [foldl foldr]. rewrite bool_decide_eq_true_2 by done.
    rewrite IH.
    + by rewrite !append_assoc.
    + destruct acc; [done|]. rewrite !append_cons. simpl. lia.
Qed.

(** X19.  [showPaths] quotes every path and separates the quoted paths
    by a comma and a space: nothing for no path, and otherwise the first
    path quoted, followed by a comma, a space and the quoted path for
    each further one; the separator is never first nor last. *)
Theorem showPaths_separated (paths : list Path) :
  showPaths paths
  = match paths with
    | [] => ""
    | p :: ps => ("`" +:+ p +:+ "'")
                 +:+ foldr (λ q r, ", " +:+ ("`" +:+ q +:+ "'") +:+ r) "" ps
    end.
Proof.
  destruct paths as [|p ps]; [done|].
  unfold showPaths. cbn [foldl].
  rewrite bool_decide_eq_false_2 by (simpl; lia).
  change ("" +:+ ("`" +:+ p +:+ "'")) with ("`" +:+ p +:+ "'").
  apply showPaths_from. rewrite append_cons. simpl. lia.
Qed.

(** ** A build that succeeds *)

Lemma scanMaps_allPaths (X : External) (d d' : DerivationGoal) outs :
  allPaths d = allPaths d' →
  ∀ f acc, scanMaps X d outs f acc = scanMaps X d' outs f acc.
Proof.
  intros Ha. induction outs as [|i outs IH]; intros f acc; [done|].
  simpl. rewrite IH. unfold scannedRefs. by rewrite Ha.
Qed.

(** The methods of the base class [Goal] keep the members of a
    derivation goal. *)
Section DrvKept.

Variable G : Globals.
Variable this : GoalId.
Variable φ : DerivationGoal → Prop.

Local Abbreviation K := (drvSat this φ).

Lemma drvSat_fields (w w' : Worker) : goals w' = goals w → K w → K w'.
Proof. intros Hg Hs. unfold drvSat. by rewrite Hg. Qed.

Lemma drvSat_alter (f : Goal → Goal) (x : GoalId) (w : Worker) :
  (∀ t d, body t = IsDerivationGoal d → body (f t) = IsDerivationGoal d) →
  K w → K (set_goals (alter f x) w).
Proof.
  intros Hf (t & d & Ht & Hb & Hφ).
  destruct (decide (x = this)) as [->|Hne].
  - exists (f t), d. simpl. rewrite lookup_alter_eq, Ht. eauto.
  - exists t, d. simpl. by rewrite lookup_alter_ne.
Qed.

Lemma drvKept_updGoal (f : Goal → Goal) (x : GoalId) :
  (∀ t d, body t = IsDerivationGoal d → body (f t) = IsDerivationGoal d) →
  leads K (updGoal x f) K.
Proof. intros Hf w Hw. by apply drvSat_alter. Qed.

Lemma drvKept_deref (x : GoalId) : leads K (deref x) K.
Proof. apply leads_same. intros w. unfold deref. by destruct (goals w !! x). Qed.

Lemma drvKept_wakeUp (x : GoalId) : leads K (wakeUp x) K.
Proof. intros w Hw. by apply (drvSat_fields w). Qed.

Lemma drvKept_Goal_waiteeDone (x g : GoalId) (b : bool) :
  leads K (Goal_waiteeDone G x g b) K.
Proof.
  unfold Goal_waiteeDone.
  apply leads_inv; [apply drvKept_deref|]. intros t.
  apply leads_inv; [by apply leads_same|]. intros _.
  apply leads_inv; [by apply drvKept_updGoal|]. intros _.
  apply leads_inv.
  { destruct b; [by apply leads_same|by apply drvKept_updGoal]. }
  intros _. apply leads_inv; [apply drvKept_deref|]. intros t1.
  destruct (_ || _); [|by apply leads_same].
  apply leads_inv.
  { apply leads_forEach. intros r _.
    apply leads_inv; [by apply leads_same|]. intros w0. by apply drvKept_updGoal. }
  intros _. apply leads_inv; [by apply drvKept_updGoal|]. intros _.
  apply drvKept_wakeUp.
Qed.

Lemma drvKept_waiteeDone (x g : GoalId) (b : bool) :
  leads K (waiteeDone G x g b) K.
Proof.
  unfold waiteeDone.
  apply leads_inv; [apply drvKept_deref|]. intros t.
  apply leads_inv.
  { intros w Hw. by apply (drvSat_fields w). }
  intros _. destruct (body t); try apply drvKept_Goal_waiteeDone.
  unfold PseudoGoal_waiteeDone. destruct b; [by apply leads_same|].
  apply drvKept_updGoal. intros t0 d Hb. simpl. by rewrite Hb.
Qed.

Lemma drvKept_amDone (g : GoalId) (b : bool) : leads K (amDone G g b) K.
Proof.
  unfold amDone.
  apply leads_inv; [apply drvKept_deref|]. intros t.
  apply leads_inv; [by apply leads_same|]. intros _.
  apply leads_inv; [by apply drvKept_updGoal|]. intros _.
  apply leads_inv.
  { apply leads_forEach. intros i _.
    apply leads_inv; [by apply leads_same|]. intros w0.
    destruct (lock w0 i); [apply drvKept_waiteeDone|by apply leads_same]. }
  intros _. apply leads_inv; [by apply drvKept_updGoal|]. intros _.
  intros w Hw. by apply (drvSat_fields w).
Qed.

End DrvKept.

(** X20.  A successful build.  [buildDone] for a live derivation goal
    whose child is registered and has exited cleanly, when every output
    exists after the build directory is gone (and passes the checks of a
    fixed output): it returns normally; the build directory is deleted
    whether or not [keepFailed] is set; every output is valid in the
    store, and no other path changes validity; no transaction is left
    open and the output locks are marked for deletion; the child is no
    longer registered; the goal is done and every live waiter is told of
    the success. *)
Theorem buildDone_success (G : Globals) (X : External) (this : GoalId)
    (status : Z) (s : World) (t : Goal) (d : DerivationGoal) (c : Child) :
  goals (worker s) !! this = Some t →
  body t = IsDerivationGoal d →
  children (worker s) !! d_pid d = Some c →
  (inBuildSlot c = true → (0 < nrChildren (worker s))%Z) →
  statusOk status = true →
  done t = false →
  (∀ x tx, x ∈ waiters t → goals (worker s) !! x = Some tx →
           isPseudo tx = true ∨ this ∈ waitees tx) →
  let outs := outputs (drv d) in
  let f0 := if bool_decide (tmpDir d = "") then fs s
            else deleteFS (tmpDir d) (fs s) in
  (∀ k o, outs !! k = Some o →
     pathExists (fsAt X k outs f0) (path o.2) = true ∧
     fixedOutputOk X o.2 (fsAt X k outs f0)) →
  let res := buildDone G X this status s in
  ∃ t' l,
    res.1 = Ok tt ∧
    trace res.2
    = trace s ++ (if bool_decide (tmpDir d = "") then [] else [EvDeletePath (tmpDir d)])
        ++ canonEvents outs ++ [EvTxnBegin]
        ++ regEvents (scanMaps X d outs f0 (∅, ∅)) outs
        ++ [EvTxnCommit; EvSetDeletion (lockedPaths (outputLocks d)) true] ∧
    fs res.2 = fsAt X (length outs) outs f0 ∧
    (∀ i, i ∈ outs → isValidPath (db res.2) (path i.2) = true) ∧
    (∀ p, p ∉ (λ i : string * DerivationOutput, path i.2) <$> outs →
          isValidPath (db res.2) p = isValidPath (db s) p) ∧
    txn res.2 = None ∧
    drvSat this (λ d', deletePaths (outputLocks d') = true ∧ tmpDir d' = "" ∧
                       d_pid d' = (-1)%Z) (worker res.2) ∧
    children (worker res.2) = delete (d_pid d) (children (worker s)) ∧
    goals (worker res.2) !! this = Some t' ∧ done t' = true ∧
    NoDup l ∧
    (∀ x, x ∈ l ↔ x ∈ waiters t ∧ is_Some (goals (worker s) !! x)) ∧
    notified (worker res.2)
    = notified (worker s) ++ ((λ x, mkNotification x this true) <$> l).
Proof.
  intros Ht Hb Hc Hn Hst Hd Hw outs f0 Hok res. subst res.
  set (s1 := (updDrv this (set_d_pid (-1)) s).2).
  set (w2 := (childTerminated (d_pid d) true (worker s1)).2).
  set (s2 := set_worker (λ _, w2) s1).
  set (s3 := (updDrv this (set_d_logPipe (-1)) s2).2).
  set (s4 := (updDrv this (set_fdLogFile (-1)) s3).2).
  set (d4 := set_fdLogFile (-1) (set_d_logPipe (-1) (set_d_pid (-1) d))).
  pose proof (childTerminated_run (d_pid d) true (worker s1) c Hc Hn) as Hct.
  assert (Hg2 : goals w2 = goals (worker s1)).
  { subst w2. rewrite Hct. simpl. by destruct (inBuildSlot c). }
  assert (Hc2 : children w2 = delete (d_pid d) (children (worker s))).
  { subst w2. rewrite Hct. simpl. by destruct (inBuildSlot c). }
  assert (Hn2 : notified w2 = notified (worker s)).
  { subst w2. rewrite Hct. simpl. by destruct (inBuildSlot c). }
  assert (Hg4 : goals (worker s4) !! this = Some (set_body (λ _, IsDerivationGoal d4) t)).
  { subst s4 s3 s2. simpl. rewrite Hg2. subst s1. simpl.
    rewrite !lookup_alter_eq, Ht. simpl. f_equal. unfold set_body. simpl.
    by rewrite Hb. }
  assert (Ho4 : ∀ x, x ≠ this → goals (worker s4) !! x = goals (worker s) !! x).
  { intros x Hx. subst s4 s3 s2. simpl. rewrite Hg2. subst s1. simpl.
    by rewrite !lookup_alter_ne. }
  set (s5 := if bool_decide (tmpDir d = "") then s4
             else (updDrv this (set_tmpDir "") (deletePath (tmpDir d) s4).2).2).
  assert (Hdel : deleteTmpDir G this true s4 = (Ok tt, s5)).
  { rewrite (deleteTmpDir_run G this true s4 _ d4 Hg4 eq_refl).
    subst s5. change (tmpDir d4) with (tmpDir d). by rewrite andb_false_r. }
  set (d5 := if bool_decide (tmpDir d = "") then d4 else set_tmpDir "" d4).
  assert (Hg5 : goals (worker s5) !! this = Some (set_body (λ _, IsDerivationGoal d5) t)).
  { subst s5 d5. case_bool_decide; [done|].
    apply updDrv_this. by rewrite worker_deletePath. }
  assert (Ho5 : ∀ x, x ≠ this → goals (worker s5) !! x = goals (worker s) !! x).
  { intros x Hx. rewrite <- (Ho4 x Hx). subst s5. case_bool_decide; [done|].
    rewrite updDrv_other by done. by rewrite worker_deletePath. }
  assert (H5 : children (worker s5) = delete (d_pid d) (children (worker s)) ∧
               notified (worker s5) = notified (worker s) ∧
               fs s5 = f0 ∧ db s5 = db s ∧
               trace s5 = trace s ++ (if bool_decide (tmpDir d = "") then []
                                      else [EvDeletePath (tmpDir d)])).
  { subst s5 f0. case_bool_decide; simpl; rewrite ?app_nil_r; done. }
  destruct H5 as (Hc5 & Hn5 & Hfs5 & Hdb5 & Htr5).
  assert (Hd5 : drv d5 = drv d ∧ outputLocks d5 = outputLocks d ∧
                tmpDir d5 = "" ∧ d_pid d5 = (-1)%Z ∧
                scanMaps X d5 outs f0 (∅, ∅) = scanMaps X d outs f0 (∅, ∅)).
  { repeat split; try (subst d5; by case_bool_decide).
    apply scanMaps_allPaths. subst d5. by case_bool_decide. }
  destruct Hd5 as (Hdrv5 & Hlk5 & Htmp5 & Hpid5 & Hmaps5).
  set (s6 := closureDone X this d5 s5).
  assert (Hcl : computeClosure X this s5 = (Ok tt, s6)).
  { apply (computeClosure_Ok X this s5 _ d5 Hg5 eq_refl).
    rewrite Hdrv5, Hfs5. exact Hok. }
  set (d6 := set_outputLocks (mkPathLocks (lockedPaths (outputLocks d5)) true) d5).
  assert (Hg6 : goals (worker s6) !! this = Some (set_body (λ _, IsDerivationGoal d6) t)).
  { subst s6. unfold closureDone. simpl. by rewrite lookup_alter_eq, Hg5. }
  assert (Ho6 : ∀ x, x ≠ this → goals (worker s6) !! x = goals (worker s) !! x).
  { intros x Hx. rewrite <- (Ho5 x Hx). subst s6. unfold closureDone. simpl.
    by rewrite lookup_alter_ne. }
  assert (H6 : children (worker s6) = delete (d_pid d) (children (worker s)) ∧
               notified (worker s6) = notified (worker s) ∧
               txn s6 = None ∧
               fs s6 = fsAt X (length outs) outs f0 ∧
               db s6 = regDB (scanMaps X d outs f0 (∅, ∅)) outs (db s) ∧
               trace s6 = trace s ++ (if bool_decide (tmpDir d = "") then []
                                      else [EvDeletePath (tmpDir d)])
                 ++ canonEvents outs ++ [EvTxnBegin]
                 ++ regEvents (scanMaps X d outs f0 (∅, ∅)) outs
                 ++ [EvTxnCommit; EvSetDeletion (lockedPaths (outputLocks d)) true]).
  { subst s6. unfold closureDone. cbn [worker db txn fs trace].
    rewrite Hdrv5. fold outs. rewrite Hfs5, Hdb5, Htr5, Hlk5, Hmaps5.
    split; [exact Hc5|]. split; [exact Hn5|].
    repeat (split; [done|]). by rewrite <- !app_assoc. }
  destruct H6 as (Hc6 & Hn6 & Htx6 & Hfs6 & Hdb6 & Htr6).
  destruct (amDone_effect G this true (worker s6)
              (set_body (λ _, IsDerivationGoal d6) t))
    as (w7 & t7 & l & Hrun7 & Hn7 & Hnd & Hl & Hg7 & Hd7 & Hrest).
  { exact Hg6. }
  { exact Hd. }
  { intros x tx Hx. destruct (decide (x = this)) as [->|Hne].
    - rewrite Hg6. intros [= <-]. right.
      destruct (Hw this t) as [Hps|Hin]; [done|done| |done].
      unfold isPseudo in Hps. by rewrite Hb in Hps.
    - rewrite (Ho6 x Hne). by apply Hw. }
  assert (Hrun : buildDone G X this status s = (Ok tt, set_worker (λ _, w7) s6)).
  { unfold buildDone.
    apply (bind_run _ _ s s d); [by apply (derivationGoal_ok this s t d)|].
    apply (bind_run _ _ s s1 tt); [done|].
    apply (bind_run _ _ s1 s2 tt).
    { rewrite liftW_run. fold w2. by rewrite Hct. }
    apply (bind_run _ _ s2 s3 tt); [done|].
    apply (bind_run _ _ s3 s4 tt); [done|].
    rewrite Hst. cbn [negb].
    apply (bind_run _ _ s4 s5 tt); [exact Hdel|].
    apply (bind_run _ _ s5 s6 true).
    { unfold catchBuildError.
      rewrite (bind_run _ _ s5 s6 tt (Ok true, s6) Hcl eq_refl). done. }
    rewrite liftW_run, Hrun7. done. }
  rewrite Hrun. exists t7, l. cbn [fst snd].
  change (trace (set_worker _ s6)) with (trace s6).
  change (fs (set_worker _ s6)) with (fs s6).
  change (db (set_worker _ s6)) with (db s6).
  change (txn (set_worker _ s6)) with (txn s6).
  change (worker (set_worker (λ _, w7) s6)) with w7.
  split; [done|]. split; [done|]. split; [done|].
  split. { intros i Hi. rewrite Hdb6. by apply regDB_valid. }
  split. { intros p Hp. rewrite Hdb6. by apply regDB_untouched. }
  split; [done|].
  destruct (amDone_scheduling G this true (worker s6)) as (Hc7 & _).
  rewrite Hrun7 in Hc7. simpl in Hc7.
  split.
  { pose proof (drvKept_amDone G this
                  (λ d', deletePaths (outputLocks d') = true ∧ tmpDir d' = "" ∧
                         d_pid d' = (-1)%Z) this true (worker s6)) as Hk.
    rewrite Hrun7 in Hk. apply Hk.
    exists (set_body (λ _, IsDerivationGoal d6) t), d6.
    split; [exact Hg6|]. split; [done|]. subst d6. simpl. by rewrite Htmp5, Hpid5. }
  split; [by rewrite Hc7|].
  split; [done|]. split; [done|]. split; [done|].
  split.
  { intros x. rewrite Hl.
    destruct (decide (x = this)) as [->|Hne].
    - rewrite Hg6, Ht. split; intros [? _]; split; eauto.
    - by rewrite (Ho6 x Hne). }
  by rewrite Hn7, Hn6.
Qed.

(** The builder of the example has made the output and exited
    cleanly. *)
Lemma buildDone_success_witness :
  (buildDone exG exX 1 0 (exRun exBuilding)).1 = Ok tt ∧
  isValidPath (db (exRun exBuilding)) "/nix/store/hello" = false ∧
  isValidPath (db (buildDone exG exX 1 0 (exRun exBuilding)).2) "/nix/store/hello"
  = true ∧
  txn (buildDone exG exX 1 0 (exRun exBuilding)).2 = None.
Proof.
  assert (H1 : goals (worker (exRun exBuilding)) !! 1%positive
               = Some (mkGoal ∅ ∅ 0 false
                   (IsDerivationGoal
                      (mkDerivationGoal "/nix/store/hello.drv" (exDrv "x86_64-linux")
                         (mkPathLocks {["/nix/store/hello"]} false) ∅
                         {["/nix/store/hello"; "/nix/store/glibc"]} 100 "/tmp/nix-1"
                         5 6 dBuildDone))))
    by (vm_compute; reflexivity).
  assert (H2 : children (worker (exRun exBuilding)) !! 100%Z
               = Some (mkChild 1%positive 6 true))
    by (vm_compute; reflexivity).
  pose proof (buildDone_success exG exX 1 0 (exRun exBuilding) _ _ _ H1 eq_refl H2) as H.
  cbv zeta in H.
  destruct H as (t' & l & Hr & _ & _ & Hv & _ & Htx & _).
  - intros _. vm_compute. reflexivity.
  - vm_compute. reflexivity.
  - reflexivity.
  - intros x tx Hx. simpl in Hx. by apply elem_of_empty in Hx.
  - intros [|k] o Hk; [|done]. injection Hk as <-. split.
    + vm_compute. reflexivity.
    + intros Hh. by contradict Hh.
  - split; [exact Hr|]. split; [vm_compute; reflexivity|]. split; [|exact Htx].
    apply (Hv ("out", mkDerivationOutput "/nix/store/hello" "" "")).
    apply list_elem_of_singleton. reflexivity.
Defined.

(** ** Waiting for a build slot *)

(** X21.  Parked and woken.  [tryToBuild] on a live derivation goal,
    without a build hook, when no build slot is free: it returns
    normally and only adds the goal to the goals that want to build; the
    goal itself, the store, the file system and the trace are as before
    (no lock is taken and no directory is made).  When a registered
    child then terminates and wakes the sleepers, the goal is awake,
    unchanged, and no goal is left waiting for a slot. *)
Theorem tryToBuild_parks (G : Globals) (X : External) (this : GoalId)
    (oh : HookStart) (ob : BuilderStart) (s : World) (t : Goal) (d : DerivationGoal) :
  goals (worker s) !! this = Some t →
  body t = IsDerivationGoal d →
  getEnv X "NIX_BUILD_HOOK" = "" →
  canBuildMore G (worker s) = false →
  let s' := set_worker (set_wantingToBuild (λ W, {[this]} ∪ W)) s in
  tryToBuild G X this oh ob s = (Ok tt, s') ∧
  ∀ pid c, children (worker s) !! pid = Some c →
    (inBuildSlot c = true → (0 < nrChildren (worker s))%Z) →
    let r := childTerminated pid true (worker s') in
    r.1 = Ok tt ∧
    this ∈ awake r.2 ∧
    wantingToBuild r.2 = ∅ ∧
    goals r.2 = goals (worker s) ∧
    children r.2 = delete pid (children (worker s)).
Proof.
  intros Ht Hb Hh Hcan s'. split.
  - unfold tryToBuild.
    apply (bind_run _ _ s s' false); [|done].
    unfold catchBuildError.
    rewrite (bind_run _ _ s s rpDecline (Ok false, s')); [done| |].
    { unfold tryBuildHook. by rewrite bool_decide_eq_true_2. }
    apply (bind_run _ _ s s s); [done|].
    rewrite Hcan. cbn [negb].
    apply (bind_run _ _ s s' tt); [|done].
    assert (Hw : waitForBuildSlot G this false (worker s)
                 = (Ok tt, set_wantingToBuild (λ W, {[this]} ∪ W) (worker s))).
    { unfold waitForBuildSlot.
      apply (bind_run _ _ (worker s) (worker s) (worker s)); [done|].
      rewrite Hcan. done. }
    rewrite liftW_run, Hw. subst s'. by destruct s.
  - intros pid c Hc Hn r. subst r.
    rewrite (childTerminated_run pid true (worker s') c); [|by destruct s|by destruct s].
    cbn [fst snd]. split; [done|].
    split.
    { destruct (inBuildSlot c); simpl;
        apply elem_of_union_l, elem_of_list_to_set, list_elem_of_filter;
        (split; [by destruct s; simpl in *; rewrite Ht
                |apply elem_of_elements; destruct s; simpl; set_solver]). }
    destruct s as [w D tx f tr]. by destruct (inBuildSlot c).
Qed.

(** The only build slot of the example is taken. *)
Lemma tryToBuild_parks_witness :
  canBuildMore exG (worker exBuilding) = false ∧
  (tryToBuild exG exNoHook 1 exHook exStart exBuilding).1 = Ok tt ∧
  wantingToBuild (worker (tryToBuild exG exNoHook 1 exHook exStart exBuilding).2)
  = {[1%positive]} ∪ wantingToBuild (worker exBuilding).
Proof.
  assert (H1 : goals (worker exBuilding) !! 1%positive
               = Some (mkGoal ∅ ∅ 0 false
                   (IsDerivationGoal
                      (mkDerivationGoal "/nix/store/hello.drv" (exDrv "x86_64-linux")
                         (mkPathLocks {["/nix/store/hello"]} false) ∅
                         {["/nix/store/hello"; "/nix/store/glibc"]} 100 "/tmp/nix-1"
                         5 6 dBuildDone))))
    by (vm_compute; reflexivity).
  assert (H2 : canBuildMore exG (worker exBuilding) = false)
    by (vm_compute; reflexivity).
  pose proof (tryToBuild_parks exG exNoHook 1 exHook exStart exBuilding _ _
                H1 eq_refl eq_refl H2) as H.
  cbv zeta in H. destruct H as [Hrun _].
  split; [exact H2|]. rewrite Hrun. split; reflexivity.
Defined.

(** ** Somebody else has built the outputs *)

(** [prepareBuild] when every output is valid. *)
Lemma prepareBuild_skip (X : External) (this : GoalId) (s : World)
    (t : Goal) (d : DerivationGoal) :
  goals (worker s) !! this = Some t →
  body t = IsDerivationGoal d →
  NoDup ((λ i : string * DerivationOutput, path i.2) <$> outputs (drv d)) →
  Forall (λ i, isValidPath (db s) (path i.2) = true) (outputs (drv d)) →
  prepareBuild X this s
  = (Ok false,
     set_trace (λ tr, tr ++ [EvSetDeletion (outputPaths (outputs (drv d))) true])
       (updDrv this (λ d0, set_outputLocks
                             (mkPathLocks (lockedPaths (outputLocks d0)) true) d0)
          (updDrv this (set_outputLocks
                          (mkPathLocks (outputPaths (outputs (drv d)))
                             (deletePaths (outputLocks d)))) s).2).2).
Proof.
  intros Ht Hb Hnd Hall.
  assert (Ht0 : goals (worker s) !! this = Some (set_body (λ _, IsDerivationGoal d) t)).
  { by rewrite (set_body_same t _ Hb). }
  set (outs := outputs (drv d)).
  set (locked := set_outputLocks (mkPathLocks (outputPaths outs)
                                    (deletePaths (outputLocks d))) d).
  set (s1 := (updDrv this (set_outputLocks (mkPathLocks (outputPaths outs)
                             (deletePaths (outputLocks d)))) s).2).
  assert (Ht1 : goals (worker s1) !! this
                = Some (set_body (λ _, IsDerivationGoal locked) t)).
  { subst s1. by apply updDrv_this. }
  set (s2 := (updDrv this (λ d0, set_outputLocks
                (mkPathLocks (lockedPaths (outputLocks d0)) true) d0) s1).2).
  assert (Ht2 : goals (worker s2) !! this
                = Some (set_body (λ _, IsDerivationGoal
                    (set_outputLocks (mkPathLocks (outputPaths outs) true) locked)) t)).
  { subst s2.
    pose proof (updDrv_this this (λ d0, set_outputLocks
                  (mkPathLocks (lockedPaths (outputLocks d0)) true) d0)
                  s1 t locked Ht1) as H2.
    rewrite H2. done. }
  assert (Heq : size (checkPathValidity (drv d) true (db s)) = length outs).
  { rewrite (checkPathValidity_size (drv d) true (db s) Hnd).
    rewrite <- (length_fmap (λ i : string * DerivationOutput, path i.2) outs).
    apply filter_length_all. apply Forall_fmap. exact Hall. }
  unfold prepareBuild.
  apply (bind_run _ _ s s d); [by apply (derivationGoal_ok this s t d)|].
  apply (bind_run _ _ s s1 tt); [done|].
  apply (bind_run _ _ s1 s1 s1); [done|].
  change (db s1) with (db s). fold outs.
  rewrite bool_decide_eq_true_2 by done.
  apply (bind_run _ _ s1 (set_trace (λ tr, tr ++ [EvSetDeletion (outputPaths outs) true])
                            s2) tt); [|done].
  unfold setDeletion.
  apply (bind_run _ _ s1 s2 tt); [done|].
  apply (bind_run _ _ s2 s2 (set_body (λ _, IsDerivationGoal
           (set_outputLocks (mkPathLocks (outputPaths outs) true) locked)) t)).
  { by apply deref_run. }
  done.
Qed.

(** X22.  Somebody has beaten us to it.  [tryToBuild] on a live
    derivation goal, without a build hook and with a free build slot,
    when every output is valid already (the outputs having distinct
    paths): it returns normally without starting a child; the goal is
    done and every live waiter is told of a success; the output locks are
    taken and marked for deletion, which is the only event; the store
    and the file system are as before. *)
Theorem tryToBuild_already_built (G : Globals) (X : External) (this : GoalId)
    (oh : HookStart) (ob : BuilderStart) (s : World) (t : Goal) (d : DerivationGoal) :
  goals (worker s) !! this = Some t →
  body t = IsDerivationGoal d →
  getEnv X "NIX_BUILD_HOOK" = "" →
  canBuildMore G (worker s) = true →
  NoDup ((λ i : string * DerivationOutput, path i.2) <$> outputs (drv d)) →
  Forall (λ i, isValidPath (db s) (path i.2) = true) (outputs (drv d)) →
  done t = false →
  (∀ x tx, x ∈ waiters t → goals (worker s) !! x = Some tx →
           isPseudo tx = true ∨ this ∈ waitees tx) →
  let res := tryToBuild G X this oh ob s in
  ∃ t' l,
    res.1 = Ok tt ∧
    db res.2 = db s ∧ fs res.2 = fs s ∧
    trace res.2 = trace s ++ [EvSetDeletion (outputPaths (outputs (drv d))) true] ∧
    children (worker res.2) = children (worker s) ∧
    nrChildren (worker res.2) = nrChildren (worker s) ∧
    drvSat this (λ d', d' = set_outputLocks
                              (mkPathLocks (outputPaths (outputs (drv d))) true) d)
      (worker res.2) ∧
    goals (worker res.2) !! this = Some t' ∧ done t' = true ∧
    NoDup l ∧
    (∀ x, x ∈ l ↔ x ∈ waiters t ∧ is_Some (goals (worker s) !! x)) ∧
    notified (worker res.2)
    = notified (worker s) ++ ((λ x, mkNotification x this true) <$> l).
Proof.
  intros Ht Hb Hh Hcan Hnd Hall Hd Hw res. subst res.
  pose proof (prepareBuild_skip X this s t d Ht Hb Hnd Hall) as Hprep.
  set (outs := outputs (drv d)) in *.
  set (locked := set_outputLocks (mkPathLocks (outputPaths outs)
                                    (deletePaths (outputLocks d))) d).
  set (s1 := (updDrv this (set_outputLocks (mkPathLocks (outputPaths outs)
                             (deletePaths (outputLocks d)))) s).2) in *.
  set (s2 := (updDrv this (λ d0, set_outputLocks
                (mkPathLocks (lockedPaths (outputLocks d0)) true) d0) s1).2) in *.
  set (s3 := set_trace (λ tr, tr ++ [EvSetDeletion (outputPaths outs) true]) s2) in *.
  set (d3 := set_outputLocks (mkPathLocks (outputPaths outs) true) d).
  assert (Ht0 : goals (worker s) !! this = Some (set_body (λ _, IsDerivationGoal d) t)).
  { by rewrite (set_body_same t _ Hb). }
  assert (Ht1 : goals (worker s1) !! this
                = Some (set_body (λ _, IsDerivationGoal locked) t)).
  { subst s1. by apply updDrv_this. }
  assert (Ht3 : goals (worker s3) !! this = Some (set_body (λ _, IsDerivationGoal d3) t)).
  { change (worker s3) with (worker s2). subst s2.
    pose proof (updDrv_this this (λ d0, set_outputLocks
                  (mkPathLocks (lockedPaths (outputLocks d0)) true) d0)
                  s1 t locked Ht1) as H2.
    rewrite H2. done. }
  assert (Ho3 : ∀ x, x ≠ this → goals (worker s3) !! x = goals (worker s) !! x).
  { intros x Hx. change (worker s3) with (worker s2). subst s2.
    rewrite updDrv_other by done. subst s1. by rewrite updDrv_other. }
  destruct (amDone_effect G this true (worker s3)
              (set_body (λ _, IsDerivationGoal d3) t))
    as (w4 & t4 & l & Hrun4 & Hn4 & Hndl & Hl & Hg4 & Hd4 & _).
  { exact Ht3. }
  { exact Hd. }
  { intros x tx Hx. destruct (decide (x = this)) as [->|Hne].
    - rewrite Ht3. intros [= <-]. right.
      destruct (Hw this t) as [Hps|Hin]; [done|done| |done].
      unfold isPseudo in Hps. by rewrite Hb in Hps.
    - rewrite (Ho3 x Hne). by apply Hw. }
  assert (Hres : tryToBuild G X this oh ob s = (Ok tt, set_worker (λ _, w4) s3)).
  { unfold tryToBuild.
    apply (bind_run _ _ s (set_worker (λ _, w4) s3) false); [|done].
    unfold catchBuildError.
    rewrite (bind_run _ _ s s rpDecline (Ok false, set_worker (λ _, w4) s3)); [done| |].
    { unfold tryBuildHook. by rewrite bool_decide_eq_true_2. }
    apply (bind_run _ _ s s s); [done|].
    rewrite Hcan. cbn [negb].
    apply (bind_run _ _ s s3 false); [exact Hprep|]. cbn [negb].
    apply (bind_run _ _ s3 (set_worker (λ _, w4) s3) tt); [|done].
    by rewrite liftW_run, Hrun4. }
  rewrite Hres. exists t4, l. cbn [fst snd].
  change (worker (set_worker (λ _, w4) s3)) with w4.
  split; [done|]. split; [done|]. split; [done|]. split; [done|].
  destruct (amDone_scheduling G this true (worker s3)) as (Hc4 & Hnr4 & _).
  rewrite Hrun4 in Hc4, Hnr4. simpl in Hc4, Hnr4.
  split; [by rewrite Hc4|]. split; [by rewrite Hnr4|].
  split.
  { pose proof (drvKept_amDone G this (λ d', d' = d3) this true (worker s3)) as Hk.
    rewrite Hrun4 in Hk. apply Hk.
    exists (set_body (λ _, IsDerivationGoal d3) t), d3. by split. }
  split; [done|]. split; [done|]. split; [done|].
  split.
  { intros x. rewrite Hl.
    destruct (decide (x = this)) as [->|Hne].
    - rewrite Ht3, Ht. split; intros [? _]; split; eauto.
    - by rewrite (Ho3 x Hne). }
  rewrite Hn4. done.
Qed.

(** The example whose output is valid: nothing is built. *)
Lemma tryToBuild_already_built_witness :
  ∃ t',
    (tryToBuild exG exNoHook 1 exHook exStart exObstructed).1 = Ok tt ∧
    goals (worker (tryToBuild exG exNoHook 1 exHook exStart exObstructed).2) !! 1%positive
    = Some t' ∧
    done t' = true ∧
    children (worker (tryToBuild exG exNoHook 1 exHook exStart exObstructed).2)
    = children (worker exObstructed).
Proof.
  assert (H1 : goals (worker exObstructed) !! 1%positive
               = Some (exDrvGoal (exDrv "i686-linux")))
    by (vm_compute; reflexivity).
  assert (Hnd : NoDup ((λ i : Path * DerivationOutput, path i.2)
                         <$> outputs (exDrv "i686-linux")))
    by apply NoDup_singleton.
  pose proof (tryToBuild_already_built exG exNoHook 1 exHook exStart exObstructed
                _ _ H1 eq_refl eq_refl) as H.
  cbv zeta in H.
  destruct H as (t' & l & Hr & _ & _ & _ & Hc & _ & _ & Hg & Hd & _).
  - vm_compute. reflexivity.
  - exact Hnd.
  - repeat constructor.
  - reflexivity.
  - intros x tx Hx. simpl in Hx. by apply elem_of_empty in Hx.
  - exists t'. repeat split; done.
Defined.
